(* ===== verification/_CoqProject ===== *)
-Q . S2P
Prelude.v
Mem.v
Ring.v
RingBuffer.v
Bytes.v
CLib.v
RteIo.v
Packet.v
Dma.v
Echo.v
EchoInv.v
EchoThms.v
RxPath.v
NicEcho.v
NicOps.v
NicEchoSim.v
NicEchoThms.v
NicCard.v
MultiRx.v
MultiRxInv.v
MultiRxOverrun.v
MultiTx.v
MultiTxInv.v
Bits.v
CppId.v
Cppat.v
CppatThms.v
Target.v
CppCore.v
CppCoreThms.v
CppPcie.v
CppPcieThms.v
CppPcieInv.v
CppPcieAccess.v
CppBus.v
Mutex.v
MutexThms.v
MutexConc.v
MutexCache.v
RteCommon.v
Crc.v
Resource.v
ResourceThms.v
Hwinfo.v
HwinfoThms.v
Fwinfo.v
FwinfoThms.v
Rtsym.v
RtsymThms.v
Nsp.v
NspThms.v
NspService.v
NspEth.v
NspEthThms.v
Socket.v
CppDev.v
Shim.v
DevServe.v
DevSession.v
DevPcie.v
DevTotal.v
DevState.v
DevBars.v
Memzone.v
PciScan.v
AppMain.v
AppMainThms.v
DList.v
DListThms.v
DListLoops.v
DListRefine.v
DevLists.v
