(* ===== verification/Prelude.v ===== *)
(** * NFP UDP echo: verification library

    A UDP echo server on a Netronome NFP SmartNIC: firmware on the card's micro-engines
    writes received frames into a ring in host memory, a worker thread on the host
    turns each into its echo in a second ring, and the firmware sends it.  Around this
    path are a user-space driver for the card (the CPP bus through the PCIe BARs,
    mutexes, resources, tables, the service processor) and a server that offers the
    bus to other processes as a device file.  The library models these programs as
    functions and step relations translated from the C sources under src/ and proves
    what makes them correct.

    ** Reading the library

    A file opens with what it models; a definition has the name of the C function,
    type or macro it translates.  A file [XThms], [XInv], [XConc] or the like holds
    the theorems about [X].  [Prelude] has the machine words, the errors and the
    arithmetic they share, [Mem] byte memories, [Bytes] and [Bits] byte strings and
    bit fields, [CLib] the C library's strings.

    ** The packet path

    - [RingBuffer] (user/lib/ring_buffer.c): the ring of the worker, over [Ring]'s
      arithmetic of entries.  It refines a bounded queue when the buffer is a multiple
      of the entry; otherwise it overruns.
    - [Packet], [Dma] (firmware/pktdef.h, rxops.c, txops.c, dma.c): headers, the header
      rewrite, buffers, receive and send, DMA transfers with their splitting.  The
      packet engine and the DMA engine are classes with laws.
    - [Echo], [EchoInv], [EchoThms] (firmware/rx.c, tx.c, user/app_main.c, devcfg.h):
      the RX engine, the TX engine and the worker as state machines over shared
      memory, a step for each shared access.  In every interleaving the frames sent
      are the echoes of the frames accepted, in order and without loss; everything
      stays inside the rings; the pipeline can always drain.  [RxPath] shows that
      the packet operations implement the RX engine's frame-level steps.
    - [NicEcho]: the same system with the firmware's packet buffers, transfers and
      allocations, an engine's step being a numbered part of [rx_process] or
      [tx_process] (a transfer and its wait are one step), over a card with the laws
      [NicLaws].  [NicOps] specifies each packet operation on such a card,
      [NicEchoSim] simulates each step by one of [Echo] or none, and [NicEchoThms]
      concludes that the detailed system refines the frame-level one and that buffers
      are neither lost nor shared nor freed twice.  [NicCard] is a card that satisfies
      the laws, on which frames are echoed by evaluation.
    - [MultiRx], [MultiTx] and their invariants (firmware/multi_rx.c, multi_tx.c): any
      number of contexts of one micro-engine.  Deliveries are right when contexts
      resume in the order of their reads.  In any order they are not: [MultiRxOverrun]
      shows it of RX with a ring of any size, an example run of TX.

    ** The driver

    - [RteCommon] (rte_common.h, rte_byteorder.h): the searches for powers of two are
      logarithms, within the widths where they are; alignment; byte swaps, as macros and
      as instructions.  [RteIo] (rte_io.h, rte_string_fns.h): register accesses and bounded
      string copies.
    - [CppId], [Cppat], [Target] (nfp_resid.h, nfp_cppat.h, nfp_target.h): identifiers,
      the encoding of an island into an address and back, access widths.
    - [CppCore] (nfp_cppcore.c, nfp_cpp.h): areas and accesses, over the transport
      class [nfp_cpp_operations].  [CppPcie] (nfp_cpp_pcie_ops.c) is its PCIe instance;
      [CppPcieInv] and [CppPcieAccess] show who owns a BAR and that reads and writes
      are exactly the bus transactions asked for.
    - [CppBus]: programs over the bus (the class [CppBus]), which the layers above are.
      [Mutex] (nfp_mutex.c) with mutual exclusion of interleaved clients in [MutexConc]
      and the cache of handles as a heap in [MutexCache]; [Resource] (nfp_resource.c)
      over it, with the keys of [Crc] (nfp_crc.c).
    - [Hwinfo], [Fwinfo], [Rtsym] (nfp_hwinfo.c, nfp_nffw.c, nfp_mip.c, nfp_rtsym.c): the
      tables in the card's memory: what is laid out there is what is read.
    - [Nsp], [NspEth] (nfp_nsp.c, nfp_nsp_cmds.c, nfp_nsp_eth.c): commands of the service
      processor return; on a processor that serves them they are calls of its
      handler; the port table is read and changed through them.
    - [Memzone] (user/lib/memzone.c): reservations of huge pages refine a map.
    - [PciScan] (user/lib/driver.c): the scan of sysfs finds the card with what the kernel
      printed of it, and maps its resources.

    ** The host program

    - [AppMain] (user/app_main.c, user/lib/io.h, devcfg.h, [pci_probe] of
      user/lib/driver.c): [main] up to its threads, over a card (a [PcieDevice]), a
      file system and the kernel's answers; the worker's mapping of the configuration,
      and the stores that configure the device, as bytes.
    - [AppMainThms]: what [main] starts is what the packet path needs, so that its echo
      theorem holds of the program; the start signal publishes the configuration
      whatever the order of the stores before the barrier; [main] and the mapping run
      on a simulated card.

    ** The device server

    - [Socket]: client and server as programs over a socket, and connections that run two
      of them against each other, however the socket cuts the streams.
    - [CppDev] (nfp_cpp_dev.c, nfp_cpp_dev_ops.c, nfp_ioctl.h) and [Shim]
      (shim/interpose.c): the server's requests, areas and poll loop, and the calls the
      shim interposes; [DevBars] the server's set-up.
    - [DevServe] states what the server relies on of the core's areas as the class
      [AreaMemory] and proves its loops against it; [DevSession] runs both ends:
      [pread] and [pwrite] of the device file read and write the memory behind the
      bus.  [DevPcie] discharges the interface with the PCIe transport.
    - [DevTotal]: the loops end whatever the transport answers, and refusals reach the
      client.  [DevState]: registered areas never overlap, connections are not lost.
    - [DList] (user/nfpcore/list.h): linked lists on a heap of links.  [DListThms] has a
      triple for each function, [DListLoops] for the loops, over disjoint cells;
      [DListRefine] states them as operations on lists and shows that sequences of them
      agree.  [DevLists]: the server's areas on these lists compute what [CppDev] says
      of lists of records.

    ** Conventions

    Unsigned integers of width [w] are [Z] below [2^w], with the reductions of
    [Prelude] where C reduces; bytes are [Z]; pointers are [Z] or indices, 0 is null.
    Errors are [cres] or options.  Allocations succeed except where an allocator is an
    argument.  Printing is left out.  Hardware, the kernel and the C library are
    classes or arguments; their laws state documented behaviour, and instances that
    satisfy them carry the examples ([..._witness]).

    Loops without a structural measure take fuel, and run out with [None], [SSpin] or
    [Spins] rather than with a result; [cache_find] (one turn per handle),
    [posix_end_loop] (eight bytes) and [barsz_loop] (64 bits), whose fuel always
    suffices, give the value reached.  The fuel is what the loops use at most: one turn
    per 100 microseconds ([waitlm_fuel]), per 64 bytes ([pieces_fuel]), per megabyte
    ([dev_fuel]), 1002 polls before a time-out ([nsp_polls], [acquire_attempts]), one
    per byte of a table ([walk_loop], [lookup_loop]) or stream ([send_all],
    [receive_all], [fetch_all]), per entry of a list ([entry_loop],
    [entry_loop_safe]); ten digits ([dec_digits]).  Theorems say that results
    are produced, not only what they are.  The loops of [nfp_cpp_mutex_lock] and of the
    buffer allocators ([ctm_alloc_loop], [blm_alloc_loop]) are endless in the code:
    their fuel is an argument.

    ** Not modelled

    - System calls that only move bytes (the lock files of the transport, set-up of the
      server's socket).
    - The logging and statistics threads and debug output, which nothing reads.
    - The vendored rte_atomic.h: barriers, which are program order here and, where a claim
      depends on one, a boundary between stores that may be reordered
      ([configure_publishes]); nothing uses its atomic counters.
    - firmware/blm_custom.h: constants for the SDK's buffer list manager.
    - Commented-out code (the firmware upload of user/lib/driver.c). *)

From stdpp Require Export prelude numbers list gmap.
From Stdlib Require Export ZArith Lia.

Local Open Scope Z_scope.

(** [lia] on goals with [mod] and division by constants. *)
Ltac Zify.zify_post_hook ::= Z.to_euclidean_division_equations.

(** ** Machine integers

    A C unsigned integer of width [w] is a [Z] in [0, 2^w); arithmetic that can
    leave the range is reduced with the functions below, as C does. *)

Definition u8 (x : Z) : Z := x mod 0x100.
Definition u16 (x : Z) : Z := x mod 0x10000.
Definition u32 (x : Z) : Z := x mod 0x100000000.
Definition u64 (x : Z) : Z := x mod 0x10000000000000000.

(** Conversion of a bit pattern to a signed [int] (two's complement). *)
Definition s32 (x : Z) : Z := (x + 0x80000000) mod 0x100000000 - 0x80000000.

Definition is_u8 (x : Z) : Prop := 0 <= x < 0x100.
Definition is_u16 (x : Z) : Prop := 0 <= x < 0x10000.
Definition is_u32 (x : Z) : Prop := 0 <= x < 0x100000000.
Definition is_u64 (x : Z) : Prop := 0 <= x < 0x10000000000000000.

(** Unfolds the word predicates and reductions and calls [lia]. *)
Ltac words :=
  unfold u8, u16, u32, u64, s32, is_u8, is_u16, is_u32, is_u64 in *; lia.

Lemma u8_range x : is_u8 (u8 x).
Proof. words. Qed.
Lemma u16_range x : is_u16 (u16 x).
Proof. words. Qed.
Lemma u32_range x : is_u32 (u32 x).
Proof. words. Qed.
Lemma u64_range x : is_u64 (u64 x).
Proof. words. Qed.

Lemma u8_id x : is_u8 x -> u8 x = x.
Proof. words. Qed.
Lemma u16_id x : is_u16 x -> u16 x = x.
Proof. words. Qed.
Lemma u32_id x : is_u32 x -> u32 x = x.
Proof. words. Qed.
Lemma u64_id x : is_u64 x -> u64 x = x.
Proof. words. Qed.
Lemma s32_id x : -0x80000000 <= x < 0x80000000 -> s32 x = x.
Proof. words. Qed.

Create HintDb words.
#[export] Hint Resolve u8_range u16_range u32_range u64_range : words.


(** ** Error results

    C functions that return [-1] with [errno] set ([NFP_ERRNO]) or a negative
    error number directly. *)

Definition EPERM : Z := 1.
Definition ENOENT : Z := 2.
Definition EIO : Z := 5.
Definition E2BIG : Z := 7.
Definition EAGAIN : Z := 11.
Definition ENOMEM : Z := 12.
Definition EACCES : Z := 13.
Definition EFAULT : Z := 14.
Definition EBUSY : Z := 16.
Definition EEXIST : Z := 17.
Definition ENODEV : Z := 19.
Definition EINVAL : Z := 22.
Definition ENOSPC : Z := 28.
Definition ETXTBSY : Z := 26.
Definition EOPNOTSUPP : Z := 95.
Definition ETIMEDOUT : Z := 110.

Inductive cerr :=
| NFP_ERRNO (err : Z)
| NegErr (err : Z).

(** The value the C function returns. *)
Definition cerr_ret (e : cerr) : Z :=
  match e with NFP_ERRNO _ => -1 | NegErr e => - e end.

Inductive cres (A : Type) :=
| Ok (x : A)
| Err (e : cerr).
Arguments Ok {A} x.
Arguments Err {A} e.

Definition cres_bind {A B} (m : cres A) (f : A -> cres B) : cres B :=
  match m with Ok x => f x | Err e => Err e end.

Declare Scope cres_scope.
Notation "'let!' x ':=' m 'in' f" := (cres_bind m (fun x => f))
  (at level 60, x pattern, right associativity) : cres_scope.
