(* ===== verification/Mem.v ===== *)
(** * Byte memories

    Host memory, CTM and MU packet memory are byte-addressed; a memory is a total
    function from addresses to byte values, with the range read and the range
    write that [memcpy], the DMA engine and the bulk transfers perform. *)

From S2P Require Export Prelude.

Local Open Scope Z_scope.

Definition mem := Z -> Z.

(** [n] bytes from address [a]. *)
Definition load (m : mem) (a n : Z) : list Z := m <$> seqZ a n.

(** Writes the bytes [bs] from address [a] on. *)
Definition store (m : mem) (a : Z) (bs : list Z) : mem := fun x =>
  if (a <=? x) && (x <? a + Z.of_nat (length bs)) then default (m x) (bs !! Z.to_nat (x - a)) else m x.

Lemma load_length m a n : length (load m a n) = Z.to_nat n.
Proof. unfold load. by rewrite length_fmap, length_seqZ. Qed.

Lemma load_lookup m a n i : (i < Z.to_nat n)%nat ->
  load m a n !! i = Some (m (a + Z.of_nat i)).
Proof.
  intros. unfold load. rewrite list_lookup_fmap.
  rewrite lookup_seqZ_lt by lia. done.
Qed.

Lemma load_ext m m' a n :
  (forall x, a <= x < a + n -> m x = m' x) -> load m a n = load m' a n.
Proof.
  intros H. unfold load. apply list_fmap_ext. intros i x E.
  apply lookup_seqZ in E as [-> ?]. apply H. lia.
Qed.

Lemma load_eq m a bs n : Z.of_nat (length bs) = n ->
  (forall i b, bs !! i = Some b -> m (a + Z.of_nat i) = b) -> load m a n = bs.
Proof.
  intros <- H. apply list_eq. intros i.
  destruct (decide (i < length bs)%nat) as [L|L].
  - rewrite load_lookup by lia. destruct (lookup_lt_is_Some_2 bs i L) as [b E].
    rewrite E. f_equal. by apply H.
  - rewrite !lookup_ge_None_2; rewrite ?load_length; [done|lia|lia].
Qed.

Lemma load_app m a n1 n2 : 0 <= n1 -> 0 <= n2 ->
  load m a (n1 + n2) = load m a n1 ++ load m (a + n1) n2.
Proof. intros. unfold load. rewrite <- fmap_app, <- seqZ_app; [done|lia..]. Qed.

Lemma store_in m a bs i b : bs !! i = Some b -> store m a bs (a + Z.of_nat i) = b.
Proof.
  intros E. pose proof (lookup_lt_Some _ _ _ E). unfold store.
  rewrite (proj2 (Z.leb_le _ _)), (proj2 (Z.ltb_lt _ _)) by lia. cbn [andb].
  replace (Z.to_nat (a + Z.of_nat i - a)) with i by lia. by rewrite E.
Qed.

Lemma store_out m a bs x : x < a \/ a + Z.of_nat (length bs) <= x ->
  store m a bs x = m x.
Proof.
  intros H. unfold store. destruct (Z.leb_spec a x), (Z.ltb_spec x (a + Z.of_nat (length bs))); (done || lia).
Qed.

Lemma store_nil m a x : store m a [] x = m x.
Proof. apply store_out. cbn. lia. Qed.

Lemma store_ext m m' a bs x : (forall y, m y = m' y) -> store m a bs x = store m' a bs x.
Proof. intros E. unfold store. by rewrite E. Qed.

Lemma load_store_same m a bs n : Z.of_nat (length bs) = n ->
  load (store m a bs) a n = bs.
Proof. intros. apply load_eq; [done|]. intros. by apply store_in. Qed.

Lemma load_store_disjoint m a bs a' n :
  a' + n <= a \/ a + Z.of_nat (length bs) <= a' ->
  load (store m a bs) a' n = load m a' n.
Proof. intros H. apply load_ext. intros. apply store_out. lia. Qed.

(** A write of [n] bytes at [d] copied from [s], seen at address [d + o]. *)
Lemma store_app m a bs1 bs2 x :
  store m a (bs1 ++ bs2) x =
  store (store m a bs1) (a + Z.of_nat (length bs1)) bs2 x.
Proof.
  destruct (decide (a <= x < a + Z.of_nat (length bs1))) as [D|D].
  - rewrite (store_out _ _ bs2) by lia. destruct (lookup_lt_is_Some_2 bs1 (Z.to_nat (x - a))) as [b E]; [lia|].
    replace x with (a + Z.of_nat (Z.to_nat (x - a))) by lia.
    rewrite (store_in _ _ bs1 _ b) by done. apply store_in. by apply lookup_app_l_Some.
  - destruct (decide (a + Z.of_nat (length bs1) <= x < a + Z.of_nat (length bs1) + Z.of_nat (length bs2))) as [D'|D'].
    + set (i := Z.to_nat (x - (a + Z.of_nat (length bs1)))).
      destruct (lookup_lt_is_Some_2 bs2 i) as [b E]; [lia|].
      replace x with (a + Z.of_nat (length bs1) + Z.of_nat i) by lia. rewrite (store_in _ _ bs2 _ b) by done.
      replace (a + Z.of_nat (length bs1) + Z.of_nat i) with (a + Z.of_nat (length bs1 + i)) by lia.
      apply store_in. rewrite lookup_app_r by lia. by replace (length bs1 + i - length bs1)%nat with i by lia.
    + rewrite !store_out; [done|lia..|rewrite length_app; lia].
Qed.

(** Two writes to disjoint ranges commute. *)
Lemma store_comm m a1 bs1 a2 bs2 x :
  a1 + Z.of_nat (length bs1) <= a2 \/ a2 + Z.of_nat (length bs2) <= a1 ->
  store (store m a1 bs1) a2 bs2 x = store (store m a2 bs2) a1 bs1 x.
Proof.
  intros H.
  destruct (decide (a1 <= x < a1 + Z.of_nat (length bs1))) as [D|D].
  - rewrite (store_out _ a2) by lia. unfold store at 1 2.
    rewrite (proj2 (Z.leb_le a1 x)), (proj2 (Z.ltb_lt x _)) by lia. cbn [andb].
    destruct (lookup_lt_is_Some_2 bs1 (Z.to_nat (x - a1))) as [b ->]; [lia|done].
  - rewrite (store_out _ a1 bs1 x) by lia.
    unfold store at 1 3. destruct (_ && _); [|by apply store_out; lia].
    destruct (bs2 !! _); [done|]. cbn. apply store_out. lia.
Qed.
