(* ===== verification/Ring.v ===== *)
(** * Rings of fixed-size entries

    The arithmetic every ring of the program shares (the userspace ring buffers
    of [user/lib/ring_buffer.c], the RX and TX rings the firmware and the host
    share), and the contents of such a ring in a byte memory. *)

From S2P Require Export Mem.

Local Open Scope Z_scope.

(** ** Ring offsets

    A ring of [k] entries of [p] bytes each is indexed by byte offsets that are
    multiples of [p]; a producer or consumer that has handled [n] entries since
    the start stands at offset [off k p n].  Every ring of the program (the
    userspace ring buffers, the two rings the firmware and the host share) is
    advanced with the same test, [x + p >= cap ? 0 : x + p]. *)

Definition off (k p n : Z) : Z := (n mod k) * p.

(** The advance step, at 32 bits, as [ringbuffer_push], [rx_process] and
    [tx_process] write it. *)
Definition ring_next (cap p x : Z) : Z :=
  let y := u32 (x + p) in if y >=? cap then 0 else y.

Section RingOffsets.
Context (k p : Z).
Hypothesis k_pos : 0 < k.
Hypothesis p_pos : 0 < p.
Hypothesis cap_u32 : is_u32 (k * p).

Lemma off_range n : 0 <= off k p n <= k * p - p.
Proof using k_pos p_pos.
  unfold off. pose proof (Z.mod_pos_bound n k k_pos). nia.
Qed.

Lemma off_succ n :
  off k p (n + 1) = if (n + 1) mod k =? 0 then 0 else off k p n + p.
Proof using k_pos.
  unfold off. destruct (Z.eqb_spec ((n + 1) mod k) 0) as [E|E].
  - rewrite E. lia.
  - pose proof (Z.mod_pos_bound n k k_pos).
    assert ((n + 1) mod k = n mod k + 1) as ->; [|lia].
    rewrite <- (Z.add_mod_idemp_l n 1 k) in E |- * by lia.
    destruct (Z.eq_dec (n mod k + 1) k) as [F|F].
    + rewrite F, Z.mod_same in E by lia. lia.
    + apply Z.mod_small. lia.
Qed.

(** Advancing by one entry with the [>=] test is the next ring offset. *)
Lemma ring_next_off n : ring_next (k * p) p (off k p n) = off k p (n + 1).
Proof using k_pos p_pos cap_u32.
  pose proof (off_range n) as Hr. unfold ring_next, is_u32 in *.
  rewrite u32_id by (unfold is_u32; lia).
  unfold off in *. pose proof (Z.mod_pos_bound n k k_pos) as Hm.
  rewrite <- (Z.add_mod_idemp_l n 1 k) by lia.
  destruct (Z.geb_spec (n mod k * p + p) (k * p)) as [E|E].
  - assert (n mod k + 1 = k) as -> by nia. rewrite Z.mod_same by lia. lia.
  - rewrite (Z.mod_small (n mod k + 1)) by nia. lia.
Qed.

(** The advance written with [%] ([ringbuffer_full]) is the same offset. *)
Lemma ring_mod_off n : is_u32 (k * p + p) -> u32 (off k p n + p) mod (k * p) = off k p (n + 1).
Proof using k_pos p_pos.
  clear cap_u32. intros H32. pose proof (off_range n). rewrite u32_id by (unfold is_u32 in *; nia).
  rewrite off_succ. unfold off in *. pose proof (Z.mod_pos_bound n k k_pos) as Hm.
  rewrite <- (Z.add_mod_idemp_l n 1 k) by lia.
  destruct (Z.eq_dec (n mod k + 1) k) as [F|F].
  - rewrite F, Z.mod_same by lia. rewrite Z.eqb_refl.
    replace (n mod k * p + p) with (k * p) by (rewrite <- F at 1; lia).
    apply Z.mod_same. nia.
  - rewrite (Z.mod_small (n mod k + 1)) by lia.
    destruct (Z.eqb_spec (n mod k + 1) 0); [lia|]. apply Z.mod_small. nia.
Qed.

(** Two counters less than [k] apart are at the same offset only if equal. *)
Lemma off_inj a b : - k < a - b < k -> off k p a = off k p b -> a = b.
Proof using k_pos p_pos.
  unfold off. intros Hd E.
  assert (a mod k = b mod k) as M by (apply (Z.mul_reg_r _ _ p); lia).
  rewrite (Z.div_mod a k), (Z.div_mod b k), M in Hd |- * by lia.
  generalize dependent (a / k). generalize dependent (b / k). clear E M.
  intros y x Hd. assert (x = y) as -> by nia. done.
Qed.

Lemma off_period n : off k p (n + k) = off k p n.
Proof using k_pos.
  unfold off. rewrite <- (Z.mul_1_l k) at 1. rewrite Z.mod_add by lia. done.
Qed.

Lemma off_eq_iff a b : - k < a - b < k -> off k p a = off k p b <-> a = b.
Proof using k_pos p_pos. intros. split; [by apply off_inj|by intros ->]. Qed.

(** Different entries of the ring do not overlap. *)
Lemma off_disjoint a b : off k p a <> off k p b ->
  off k p a + p <= off k p b \/ off k p b + p <= off k p a.
Proof using p_pos.
  unfold off. generalize (a mod k), (b mod k). intros x y H.
  destruct (Z.lt_trichotomy x y) as [|[->|]]; nia.
Qed.
End RingOffsets.

(** ** Contents of a ring

    Entry [i] of a ring at [base], and the entries [h .. t-1] it holds. *)

Definition slot (m : mem) (base k p i : Z) : list Z := load m (base + off k p i) p.

Definition slots (m : mem) (base k p h t : Z) : list (list Z) :=
  slot m base k p <$> seqZ h (t - h).

Section Slots.
Context (base k p : Z).
Hypothesis k_pos : 0 < k.
Hypothesis p_pos : 0 < p.

Lemma slots_nil m h : slots m base k p h h = [].
Proof using. unfold slots. by rewrite Z.sub_diag. Qed.

Lemma slots_length m h t : length (slots m base k p h t) = Z.to_nat (t - h).
Proof using. unfold slots. by rewrite length_fmap, length_seqZ. Qed.

Lemma slots_cons m h t : h < t ->
  slots m base k p h t = slot m base k p h :: slots m base k p (h + 1) t.
Proof using.
  intros. unfold slots. rewrite seqZ_cons by lia. cbn.
  by replace (Z.succ h) with (h + 1) by lia; replace (Z.pred (t - h)) with (t - (h + 1)) by lia.
Qed.

Lemma slots_snoc m h t : h <= t ->
  slots m base k p h (t + 1) = slots m base k p h t ++ [slot m base k p t].
Proof using.
  intros. unfold slots. replace (t + 1 - h) with ((t - h) + 1) by lia.
  rewrite seqZ_app by lia. rewrite fmap_app.
  replace (h + (t - h)) with t by lia. done.
Qed.

Lemma slots_ext m m' h t :
  (forall x, base <= x < base + k * p -> m x = m' x) ->
  slots m base k p h t = slots m' base k p h t.
Proof using k_pos p_pos.
  intros H. unfold slots. apply list_fmap_ext. intros i x E.
  unfold slot. apply load_ext. intros y Hy. apply H.
  pose proof (off_range k p k_pos p_pos x). lia.
Qed.

Lemma slot_store_same m bs i : Z.of_nat (length bs) = p ->
  slot (store m (base + off k p i) bs) base k p i = bs.
Proof using. intros. by apply load_store_same. Qed.

Lemma slot_store_other m bs i j : Z.of_nat (length bs) = p -> i <> j -> - k < i - j < k ->
  slot (store m (base + off k p j) bs) base k p i = slot m base k p i.
Proof using k_pos p_pos.
  intros. apply load_store_disjoint.
  destruct (off_disjoint k p p_pos i j); [|lia..].
  intros Eo. apply off_inj in Eo; lia.
Qed.

Lemma slot_store_out m a bs i :
  a + Z.of_nat (length bs) <= base \/ base + k * p <= a ->
  slot (store m a bs) base k p i = slot m base k p i.
Proof using k_pos p_pos.
  intros. apply load_store_disjoint.
  pose proof (off_range k p k_pos p_pos i). lia.
Qed.

Lemma slot_length m i : Z.of_nat (length (slot m base k p i)) = p.
Proof using p_pos. unfold slot. rewrite load_length. lia. Qed.

(** A write outside the ring keeps its contents. *)
Lemma slots_store_out m a bs h t :
  a + Z.of_nat (length bs) <= base \/ base + k * p <= a ->
  slots (store m a bs) base k p h t = slots m base k p h t.
Proof using k_pos p_pos. intros. apply slots_ext. intros. apply store_out. lia. Qed.

(** A write to entry [t] keeps the other entries. *)
Lemma slots_store_other m bs h t t' : Z.of_nat (length bs) = p ->
  t' <= t -> t - h < k ->
  slots (store m (base + off k p t) bs) base k p h t' = slots m base k p h t'.
Proof using k_pos p_pos.
  intros Hl Ht Hk. unfold slots. apply list_fmap_ext. intros i x E.
  apply lookup_seqZ in E as [-> ?]. apply slot_store_other; lia.
Qed.

(** Writing an entry at the tail of a ring that is not full and advancing the
    tail appends the entry. *)
Lemma slots_push m bs h t : Z.of_nat (length bs) = p -> h <= t -> t - h < k ->
  slots (store m (base + off k p t) bs) base k p h (t + 1)
  = slots m base k p h t ++ [bs].
Proof using k_pos p_pos.
  intros. rewrite slots_snoc by lia. rewrite slots_store_other by lia.
  by rewrite slot_store_same.
Qed.
End Slots.

Create HintDb ring.
#[export] Hint Resolve off_range ring_next_off : ring.
