(* ===== verification/RingBuffer.v ===== *)
(** * Userspace ring buffers ([user/lib/ring_buffer.c], [ring_buffer.h])

    [struct ringbuffer_t], its queries and its two updates, at 32 bits, with
    [assert] as failure; and the refinement: over a byte memory, a ring buffer
    whose capacity is [k] entries implements a FIFO queue of at most [k - 1]
    entries.  The write barrier of push and pop orders memory accesses of one
    thread and has no effect on the values modelled here. *)

From S2P Require Export Ring.

Local Open Scope Z_scope.

Record ringbuffer_t := mk_ringbuffer {
  base_addr : Z;
  entry_size : Z;
  capacity : Z;
  head : Z;
  tail : Z
}.

Definition set_head (rb : ringbuffer_t) (h : Z) : ringbuffer_t :=
  mk_ringbuffer (base_addr rb) (entry_size rb) (capacity rb) h (tail rb).

Definition set_tail (rb : ringbuffer_t) (t : Z) : ringbuffer_t :=
  mk_ringbuffer (base_addr rb) (entry_size rb) (capacity rb) (head rb) t.

Definition ringbuffer_empty (rb : ringbuffer_t) : bool := head rb =? tail rb.

Definition ringbuffer_size (rb : ringbuffer_t) : Z :=
  if head rb >? tail rb
  then u32 (u32 (capacity rb - head rb) + tail rb)
  else u32 (tail rb - head rb).

(** The remainder by a zero capacity traps: the query then has no value. *)
Definition ringbuffer_full (rb : ringbuffer_t) : option bool :=
  if capacity rb =? 0 then None
  else Some (u32 (tail rb + entry_size rb) mod capacity rb =? head rb).

Definition ringbuffer_front (rb : ringbuffer_t) : Z := base_addr rb + head rb.

Definition ringbuffer_back (rb : ringbuffer_t) : Z := base_addr rb + tail rb.

(** [None]: the process aborts (the assertion fails, or the division traps). *)
Definition ringbuffer_push (rb : ringbuffer_t) : option ringbuffer_t :=
  match ringbuffer_full rb with
  | Some false => Some (set_tail rb (ring_next (capacity rb) (entry_size rb) (tail rb)))
  | _ => None
  end.

Definition ringbuffer_pop (rb : ringbuffer_t) : option ringbuffer_t :=
  if ringbuffer_empty rb then None
  else Some (set_head rb (ring_next (capacity rb) (entry_size rb) (head rb))).

(** ** Well-formed ring buffers

    [rb_view k h t rb]: [rb] has room for [k] entries and stands after [h] pops
    and [t] pushes since it was empty at offset 0. *)

Record rb_view (k h t : Z) (rb : ringbuffer_t) : Prop := {
  rv_k : 0 < k;
  rv_entry : 0 < entry_size rb;
  rv_cap : capacity rb = k * entry_size rb;
  rv_cap32 : is_u32 (capacity rb + entry_size rb);
  rv_head : head rb = off k (entry_size rb) h;
  rv_tail : tail rb = off k (entry_size rb) t;
  rv_bounds : 0 <= t - h < k
}.

Lemma rb_view_init base p k : 0 < k -> 0 < p -> is_u32 (k * p + p) ->
  rb_view k 0 0 (mk_ringbuffer base p (k * p) 0 0).
Proof. intros. split; cbn; try done; lia. Qed.

Section View.
Context {k h t : Z} {rb : ringbuffer_t} (V : rb_view k h t rb).

Lemma rb_cap_u32 : is_u32 (k * entry_size rb).
Proof using V. destruct V. unfold is_u32 in *. nia. Qed.

Lemma rb_empty_iff : ringbuffer_empty rb = (t - h =? 0).
Proof using V.
  destruct V. unfold ringbuffer_empty. rewrite rv_head0, rv_tail0.
  apply eq_true_iff_eq. rewrite !Z.eqb_eq. split; intros E.
  - apply off_inj in E; lia.
  - f_equal. lia.
Qed.

(** The [%] of the full test and the [>=] of the advance agree. *)
Lemma rb_tail_next : u32 (tail rb + entry_size rb) mod capacity rb
  = off k (entry_size rb) (t + 1).
Proof using V. destruct V. rewrite rv_cap0, rv_tail0. apply ring_mod_off; [done|done|congruence]. Qed.

Lemma rb_full_iff : ringbuffer_full rb = Some (t - h =? k - 1).
Proof using V.
  unfold ringbuffer_full. rewrite rb_tail_next. destruct V. rewrite rv_head0.
  destruct (Z.eqb_spec (capacity rb) 0); [nia|]. f_equal.
  apply eq_true_iff_eq. rewrite !Z.eqb_eq. split; intros E.
  - destruct (decide (t - h = k - 1)) as [|N]; [done|].
    apply off_inj in E; lia.
  - rewrite <- (off_period k (entry_size rb) ltac:(lia) h). f_equal. lia.
Qed.

Lemma rb_push_view : ringbuffer_push rb =
  if t - h =? k - 1 then None
  else Some (set_tail rb (off k (entry_size rb) (t + 1))).
Proof using V.
  unfold ringbuffer_push. rewrite rb_full_iff. pose proof rb_cap_u32.
  destruct V. destruct (t - h =? k - 1); [done|].
  rewrite rv_cap0, rv_tail0, ring_next_off by done. done.
Qed.

Lemma rb_pop_view : ringbuffer_pop rb =
  if t - h =? 0 then None
  else Some (set_head rb (off k (entry_size rb) (h + 1))).
Proof using V.
  unfold ringbuffer_pop. rewrite rb_empty_iff. pose proof rb_cap_u32.
  destruct V. destruct (t - h =? 0); [done|].
  rewrite rv_cap0, rv_head0, ring_next_off by done. done.
Qed.

Lemma rb_view_push : t - h < k - 1 ->
  rb_view k h (t + 1) (set_tail rb (off k (entry_size rb) (t + 1))).
Proof using V. intros. destruct V. split; cbn; try done; lia. Qed.

Lemma rb_view_pop : h < t ->
  rb_view k (h + 1) t (set_head rb (off k (entry_size rb) (h + 1))).
Proof using V. intros. destruct V. split; cbn; try done; lia. Qed.
End View.

Lemma off_eq_bytes k p n : 0 < k -> off k p n = n * p - k * p * (n / k).
Proof. intros. unfold off. rewrite (Z.mod_eq n k) by lia. lia. Qed.

(** [ringbuffer_size] is the number of bytes queued. *)
Lemma rb_size_view k h t rb : rb_view k h t rb ->
  ringbuffer_size rb = (t - h) * entry_size rb.
Proof.
  intros V. pose proof (rb_cap_u32 V) as Hc.
  destruct V as [Hk Hp Hcap Hc32 Hh Ht Hb]. unfold ringbuffer_size.
  pose proof (off_range k (entry_size rb) Hk Hp h) as Rh.
  pose proof (off_range k (entry_size rb) Hk Hp t) as Rt.
  rewrite Hh, Ht, Hcap in *. unfold is_u32 in *.
  assert (exists j, off k (entry_size rb) t - off k (entry_size rb) h
    = (t - h) * entry_size rb - k * entry_size rb * j) as [j Hj].
  { exists (t / k - h / k). rewrite !off_eq_bytes by done. lia. }
  set (ot := off k (entry_size rb) t) in *. set (oh := off k (entry_size rb) h) in *.
  set (p := entry_size rb) in *. clearbody ot oh p.
  assert (0 <= (t - h) * p <= k * p - p) by nia.
  destruct (Z.gtb_spec oh ot).
  - assert (j = 1) as -> by nia. rewrite (u32_id (k * p - oh)) by (unfold is_u32; lia).
    rewrite u32_id by (unfold is_u32; lia). lia.
  - assert (j = 0) as -> by nia. rewrite u32_id by (unfold is_u32; lia). lia.
Qed.

(** ** Refinement of a bounded FIFO queue *)

(** The worker writes an entry at the back, then pushes; it reads the entry at
    the front, then pops ([udp_worker]). *)
Definition rb_enqueue (m : mem) (rb : ringbuffer_t) (bs : list Z)
    : option (mem * ringbuffer_t) :=
  rb' ← ringbuffer_push rb; Some (store m (ringbuffer_back rb) bs, rb').

Definition rb_dequeue (m : mem) (rb : ringbuffer_t) : option (list Z * ringbuffer_t) :=
  rb' ← ringbuffer_pop rb; Some (load m (ringbuffer_front rb) (entry_size rb), rb').

(** Ring buffer [rb] in memory [m] holds the queue [q]. *)
Definition rb_rep (k : Z) (m : mem) (rb : ringbuffer_t) (q : list (list Z)) : Prop :=
  exists h t, rb_view k h t rb /\
    q = slots m (base_addr rb) k (entry_size rb) h t.

Lemma rb_rep_length k m rb q : rb_rep k m rb q ->
  exists h t, rb_view k h t rb /\ q = slots m (base_addr rb) k (entry_size rb) h t
    /\ Z.of_nat (length q) = t - h.
Proof.
  intros (h & t & V & ->). exists h, t. split; [done|]. split; [done|].
  rewrite slots_length. destruct V. lia.
Qed.

Lemma rb_rep_init m base p k : 0 < k -> 0 < p -> is_u32 (k * p + p) ->
  rb_rep k m (mk_ringbuffer base p (k * p) 0 0) [].
Proof.
  intros. exists 0, 0. split; [by apply rb_view_init|]. by rewrite slots_nil.
Qed.

Lemma rb_enqueue_rep k m rb q bs : rb_rep k m rb q ->
  Z.of_nat (length bs) = entry_size rb -> Z.of_nat (length q) < k - 1 ->
  exists m' rb', rb_enqueue m rb bs = Some (m', rb') /\ rb_rep k m' rb' (q ++ [bs]).
Proof.
  intros R Hl Hq. destruct (rb_rep_length _ _ _ _ R) as (h & t & V & Eq & El).
  unfold rb_enqueue. rewrite (rb_push_view V).
  destruct (Z.eqb_spec (t - h) (k - 1)); [lia|]. cbn.
  eexists _, _. split; [done|]. exists h, (t + 1).
  split; [apply (rb_view_push V); lia|]. cbn.
  unfold ringbuffer_back. rewrite (rv_tail _ _ _ _ V).
  destruct V. rewrite slots_push by (done || lia). by rewrite Eq.
Qed.

Lemma rb_dequeue_rep k m rb x q : rb_rep k m rb (x :: q) ->
  exists rb', rb_dequeue m rb = Some (x, rb') /\ rb_rep k m rb' q.
Proof.
  intros R. destruct (rb_rep_length _ _ _ _ R) as (h & t & V & Eq & El). cbn in El.
  unfold rb_dequeue. rewrite (rb_pop_view V).
  destruct (Z.eqb_spec (t - h) 0); [lia|]. cbn.
  rewrite slots_cons in Eq by lia. injection Eq as Ex Eq.
  unfold ringbuffer_front. rewrite (rv_head _ _ _ _ V).
  eexists. split; [by rewrite Ex|]. exists (h + 1), t.
  split; [apply (rb_view_pop V); lia|done].
Qed.

(** C7 (refinement): a ring buffer whose capacity is [k] entries is a FIFO queue
    of at most [k - 1] entries.  In every state that holds a queue [q]:
    [ringbuffer_empty], [ringbuffer_full] and [ringbuffer_size] answer for [q];
    enqueueing appends, and aborts exactly when [q] has [k - 1] entries;
    dequeueing yields the oldest entry, and aborts exactly when [q] is empty. *)
Theorem ringbuffer_refines_queue k m rb q bs :
  rb_rep k m rb q -> Z.of_nat (length bs) = entry_size rb ->
  Z.of_nat (length q) <= k - 1 /\
  ringbuffer_empty rb = bool_decide (q = []) /\
  ringbuffer_full rb = Some (bool_decide (Z.of_nat (length q) = k - 1)) /\
  ringbuffer_size rb = Z.of_nat (length q) * entry_size rb /\
  (if bool_decide (Z.of_nat (length q) = k - 1) then rb_enqueue m rb bs = None
   else exists m' rb', rb_enqueue m rb bs = Some (m', rb') /\ rb_rep k m' rb' (q ++ [bs])) /\
  match q with
  | [] => rb_dequeue m rb = None
  | x :: q' => exists rb', rb_dequeue m rb = Some (x, rb') /\ rb_rep k m rb' q'
  end.
Proof.
  intros R Hl. pose proof (rb_rep_length _ _ _ _ R) as (h & t & V & Eq & El).
  pose proof (rv_bounds _ _ _ _ V).
  assert (q = [] <-> t - h = 0) as Hnil by (rewrite <- El; destruct q; cbn; split; done || lia).
  split; [lia|]. split.
  { rewrite (rb_empty_iff V). apply eq_true_iff_eq.
    rewrite Z.eqb_eq, bool_decide_eq_true. tauto. }
  split.
  { rewrite (rb_full_iff V), El. f_equal. apply eq_true_iff_eq.
    by rewrite Z.eqb_eq, bool_decide_eq_true. }
  split; [by rewrite (rb_size_view _ _ _ _ V), El|]. split.
  - case_bool_decide as D; [|apply rb_enqueue_rep; [done..|lia]].
    unfold rb_enqueue. rewrite (rb_push_view V), (proj2 (Z.eqb_eq _ _)) by lia. done.
  - destruct q as [|x q']; [|by apply rb_dequeue_rep].
    unfold rb_dequeue. rewrite (rb_pop_view V), (proj2 (Z.eqb_eq _ _)) by tauto. done.
Qed.

Lemma ringbuffer_refines_queue_witness :
  rb_rep 8 (fun _ => 7) (mk_ringbuffer 0x1000 64 512 0 0) [] /\
  ringbuffer_size (mk_ringbuffer 0x1000 64 512 0 0) = 0.
Proof.
  assert (rb_rep 8 (fun _ => 7) (mk_ringbuffer 0x1000 64 512 0 0) []) as R
    by (apply (rb_rep_init _ 0x1000 64 8); [lia|lia|unfold is_u32; lia]).
  split; [exact R|].
  destruct (ringbuffer_refines_queue 8 (fun _ => 7) _ [] (replicate 64 1) R eq_refl)
    as (_ & _ & _ & H & _). exact H.
Defined.

(** ** Capacities that are not a multiple of the entry size *)

Fixpoint rb_pushes (n : nat) (rb : ringbuffer_t) : option ringbuffer_t :=
  match n with
  | O => Some rb
  | S n => rb' ← rb_pushes n rb; ringbuffer_push rb'
  end.

Lemma rb_pushes_unaligned base p cap n : 0 < p -> is_u32 (cap + p) ->
  cap mod p <> 0 -> Z.of_nat n <= cap / p ->
  rb_pushes n (mk_ringbuffer base p cap 0 0)
    = Some (mk_ringbuffer base p cap 0 (Z.of_nat n * p)).
Proof.
  intros Hp Hc Hm. induction n as [|n IH]; intros Hn; [done|].
  cbn [rb_pushes]. rewrite IH by lia. clear IH.
  pose proof (Z.div_mod cap p ltac:(lia)) as D.
  pose proof (Z.mod_pos_bound cap p Hp) as B.
  assert ((Z.of_nat n + 1) * p < cap) by nia.
  unfold ringbuffer_push, ringbuffer_full, ring_next, is_u32 in *. cbn -[Z.mul].
  destruct (Z.eqb_spec cap 0); [nia|].
  rewrite u32_id by (unfold is_u32; nia).
  rewrite Z.mod_small by nia.
  destruct (Z.eqb_spec (Z.of_nat n * p + p) 0); [nia|].
  destruct (Z.geb_spec (Z.of_nat n * p + p) cap); [nia|].
  unfold set_tail. cbn -[Z.mul]. do 2 f_equal. lia.
Qed.

(** When the capacity is not a multiple of the entry size (and the
    entry size not one of the capacity), pushing [cap / p] entries into the
    empty ring raises no assertion, the ring then reports that it is not full,
    and the entry its back designates extends beyond the end of the buffer. *)
Lemma ringbuffer_unaligned_overruns base p cap :
  0 < p -> is_u32 (cap + p) -> 0 < cap -> cap mod p <> 0 -> p mod cap <> 0 ->
  exists rb, rb_pushes (Z.to_nat (cap / p)) (mk_ringbuffer base p cap 0 0) = Some rb /\
    ringbuffer_full rb = Some false /\
    ringbuffer_back rb + entry_size rb > base + cap.
Proof.
  intros Hp Hc Hcap Hm Hm'. eexists.
  pose proof (Z.div_mod cap p ltac:(lia)) as D.
  pose proof (Z.mod_pos_bound cap p Hp) as B.
  assert (0 <= cap / p) by (apply Z.div_pos; lia).
  split; [apply rb_pushes_unaligned; (done || lia)|].
  rewrite Z2Nat.id by done.
  unfold ringbuffer_full, ringbuffer_back, is_u32 in *. cbn -[Z.mul].
  destruct (Z.eqb_spec cap 0); [lia|].
  rewrite u32_id by (unfold is_u32; nia).
  split; [|nia]. f_equal. apply Z.eqb_neq.
  destruct (Z.eq_dec (cap / p) 0) as [->|E]; [done|].
  replace (cap / p * p + p) with ((p - cap mod p) + 1 * cap) by lia.
  rewrite Z.mod_add by lia. rewrite Z.mod_small; nia.
Qed.

(** The packet size of the measurements with the default buffer size. *)
Lemma ringbuffer_unaligned_overruns_witness :
  exists rb, rb_pushes 0 (mk_ringbuffer 0x1000 1408 512 0 0) = Some rb /\
    ringbuffer_full rb = Some false /\
    ringbuffer_back rb + entry_size rb > 0x1000 + 512.
Proof.
  apply (ringbuffer_unaligned_overruns 0x1000 1408 512);
    [lia | unfold is_u32; lia | lia | by vm_compute | by vm_compute].
Defined.
