(* ===== verification/Bytes.v ===== *)
(** * Byte strings and fixed-width fields

    Slices of byte lists, big- and little-endian encodings of machine words, and
    the encoding of a record as a sequence of fixed-width fields, with their
    round trips. *)

From S2P Require Export Mem.

Local Open Scope Z_scope.

Definition slice {A} (o n : nat) (l : list A) : list A := take n (drop o l).

Definition bytes_ok (bs : list Z) : Prop := Forall is_u8 bs.

Lemma slice_length {A} o n (l : list A) : (o + n <= length l)%nat ->
  length (slice o n l) = n.
Proof. intros. unfold slice. rewrite length_take, length_drop. lia. Qed.

Lemma slice_join {A} o n m (l : list A) :
  slice o n l ++ slice (o + n) m l = slice o (n + m) l.
Proof.
  unfold slice. replace (drop (o + n) l) with (drop n (drop o l)) by (by rewrite drop_drop).
  generalize (drop o l) as q. induction n as [|n IH]; intros [|x q]; cbn; [by rewrite ?take_nil..|].
  f_equal. apply IH.
Qed.

Lemma slice_all {A} (l : list A) n : (length l <= n)%nat -> slice 0 n l = l.
Proof. intros. unfold slice. by rewrite drop_0, take_ge. Qed.

Lemma slice_ok o n bs : bytes_ok bs -> bytes_ok (slice o n bs).
Proof. intros. by apply Forall_take, Forall_drop. Qed.

Lemma slice_load m a n o c : (o + c <= Z.to_nat n)%nat ->
  slice o c (load m a n) = load m (a + Z.of_nat o) (Z.of_nat c).
Proof.
  intros H. apply list_eq. intros i. unfold slice.
  destruct (decide (i < c)%nat) as [L|L].
  - rewrite lookup_take_lt, lookup_drop, !load_lookup by lia. do 2 f_equal. lia.
  - rewrite lookup_take_ge, lookup_ge_None_2 by (rewrite ?load_length; lia). done.
Qed.

(** ** Words as bytes *)

Fixpoint le_split (n : nat) (x : Z) : list Z :=
  match n with
  | O => []
  | S n => x mod 0x100 :: le_split n (x / 0x100)
  end.

Fixpoint le_combine (bs : list Z) : Z :=
  match bs with
  | [] => 0
  | b :: bs => b + 0x100 * le_combine bs
  end.

Definition be_split (n : nat) (x : Z) : list Z := rev (le_split n x).
Definition be_combine (bs : list Z) : Z := le_combine (rev bs).

Lemma le_split_length n x : length (le_split n x) = n.
Proof. revert x. induction n; intros; cbn; auto. Qed.

Lemma le_split_ok n x : bytes_ok (le_split n x).
Proof.
  revert x. induction n; intros; cbn; constructor; [unfold is_u8; lia|apply IHn].
Qed.

Lemma le_combine_range bs : bytes_ok bs ->
  0 <= le_combine bs < 2 ^ (8 * Z.of_nat (length bs)).
Proof.
  induction 1 as [|b bs Hb _ IH]; [done|]. unfold is_u8 in Hb. cbn [le_combine length].
  replace (8 * Z.of_nat (S (length bs))) with (8 + 8 * Z.of_nat (length bs)) by lia.
  rewrite Z.pow_add_r by lia. change (2 ^ 8) with 0x100. nia.
Qed.

Lemma le_split_combine bs : bytes_ok bs -> le_split (length bs) (le_combine bs) = bs.
Proof.
  induction 1 as [|b bs Hb _ IH]; [done|]. unfold is_u8 in Hb. cbn [le_split le_combine length].
  rewrite (Z.mul_comm 0x100), Z.mod_add, Z.div_add by lia.
  rewrite (Z.mod_small b), (Z.div_small b) by lia. by rewrite Z.add_0_l, IH.
Qed.

Lemma le_combine_split n x : 0 <= x < 2 ^ (8 * Z.of_nat n) ->
  le_combine (le_split n x) = x.
Proof.
  revert x. induction n as [|n IH]; intros x Hx.
  - cbn in *. lia.
  - cbn [le_split le_combine].
    replace (8 * Z.of_nat (S n)) with (8 * Z.of_nat n + 8) in Hx by lia.
    rewrite Z.pow_add_r in Hx by lia. change (2 ^ 8) with 0x100 in Hx.
    rewrite IH.
    + pose proof (Z.div_mod x 0x100 ltac:(lia)). lia.
    + split; [apply Z.div_pos; lia|]. apply Z.div_lt_upper_bound; lia.
Qed.

Lemma be_split_length n x : length (be_split n x) = n.
Proof. unfold be_split. by rewrite length_rev, le_split_length. Qed.

Lemma be_split_combine bs : bytes_ok bs -> be_split (length bs) (be_combine bs) = bs.
Proof.
  intros H. unfold be_split, be_combine. rewrite <- (length_rev bs).
  rewrite le_split_combine; [apply rev_involutive|]. by apply Forall_rev in H.
Qed.

Lemma be_split_combine_n n bs : bytes_ok bs -> length bs = n ->
  be_split n (be_combine bs) = bs.
Proof. intros ? <-. by apply be_split_combine. Qed.

Lemma be_combine_split n x : 0 <= x < 2 ^ (8 * Z.of_nat n) ->
  be_combine (be_split n x) = x.
Proof.
  intros. unfold be_combine, be_split. rewrite rev_involutive. by apply le_combine_split.
Qed.

Lemma be_combine_range bs : bytes_ok bs ->
  0 <= be_combine bs < 2 ^ (8 * Z.of_nat (length bs)).
Proof.
  intros H. unfold be_combine. rewrite <- (length_rev bs).
  apply le_combine_range. by apply Forall_rev in H.
Qed.

(** ** Sequences of fixed-width fields *)

Fixpoint parse_fields (ws : list nat) (bs : list Z) : list Z :=
  match ws with
  | [] => []
  | w :: ws => be_combine (take w bs) :: parse_fields ws (drop w bs)
  end.

Fixpoint print_fields (ws : list nat) (xs : list Z) : list Z :=
  match ws, xs with
  | w :: ws, x :: xs => be_split w x ++ print_fields ws xs
  | _, _ => []
  end.

Lemma print_parse_fields ws bs : bytes_ok bs -> length bs = sum_list ws ->
  print_fields ws (parse_fields ws bs) = bs.
Proof.
  revert bs. induction ws as [|w ws IH]; intros bs Hok Hl; cbn in *.
  - by destruct bs.
  - rewrite be_split_combine_n 
      by first [by apply Forall_take|rewrite length_take; lia].
    rewrite IH; [by rewrite take_drop|by apply Forall_drop|rewrite length_drop; lia].
Qed.

Lemma parse_print_fields ws xs :
  Forall2 (fun w x => 0 <= x < 2 ^ (8 * Z.of_nat w)) ws xs ->
  parse_fields ws (print_fields ws xs) = xs.
Proof.
  induction 1 as [|w x ws xs Hx _ IH]; [done|]. cbn.
  rewrite take_app_length', drop_app_length' by (by rewrite be_split_length).
  by rewrite be_combine_split, IH.
Qed.

Lemma print_fields_length ws xs : length xs = length ws ->
  length (print_fields ws xs) = sum_list ws.
Proof.
  revert xs. induction ws as [|w ws IH]; intros [|x xs] H; cbn in *; try done.
  rewrite length_app, be_split_length, IH by lia. done.
Qed.
