(* ===== verification/CLib.v ===== *)
(** * Strings of the C library

    What the program uses of [strtoul], [printf], [strchr], [fgets] on strings of bytes
    without their terminator. *)

From S2P Require Export Prelude.
From stdpp Require Export strings.

Local Open Scope Z_scope.

(** The bytes of a literal. *)
Fixpoint lit (s : string) : list Z :=
  match s with EmptyString => [] | String c s => Z.of_nat (Ascii.nat_of_ascii c) :: lit s end.

(** ** Numbers *)

Definition digit_val (c : Z) : Z :=
  if (48 <=? c) && (c <=? 57) then c - 48
  else if (97 <=? c) && (c <=? 102) then c - 87
  else if (65 <=? c) && (c <=? 70) then c - 55
  else 255.

Definition is_space (c : Z) : bool := (c =? 32) || ((9 <=? c) && (c <=? 13)).

(** The digits at the front: their value after [acc], whether there are any, the rest. *)
Fixpoint digits (base acc : Z) (s : list Z) : Z * bool * list Z :=
  match s with
  | [] => (acc, false, s)
  | c :: s' =>
      if digit_val c <? base
      then let '(v, _, rest) := digits base (acc * base + digit_val c) s' in (v, true, rest)
      else (acc, false, s)
  end.

Fixpoint skip_space (s : list Z) : list Z :=
  match s with c :: s' => if is_space c then skip_space s' else s | [] => [] end.

(** "0x" before a hexadecimal digit. *)
Definition hex_prefix (s : list Z) : option (list Z) :=
  match s with
  | z :: x :: c :: s' => if (z =? 48) && ((x =? 120) || (x =? 88)) && (digit_val c <? 16) then Some (c :: s') else None
  | _ => None
  end.

Definition number_base (base : Z) (s : list Z) : Z * list Z :=
  match hex_prefix s with
  | Some s' => if (base =? 16) || (base =? 0) then (16, s') else (base, s)
  | None => if base =? 0 then match s with 48 :: _ => (8, s) | _ => (10, s) end else (base, s)
  end.

(** The value, what is left ([endptr]), and whether [errno] is [ERANGE]. *)
Definition strtoul (s : list Z) (base : Z) : Z * list Z * bool :=
  let s1 := skip_space s in
  let '(neg, s2) := match s1 with 43 :: s2 => (false, s2) | 45 :: s2 => (true, s2) | _ => (false, s1) end in
  let '(base, s3) := number_base base s2 in
  let '(v, some, rest) := digits base 0 s3 in
  if negb some then (0, s, false)
  else if v >=? 2 ^ 64 then (2 ^ 64 - 1, rest, true)
  else (if neg then u64 (- v) else v, rest, false).

(** ** Printing *)

Definition digit_char (d : Z) : Z := if d <? 10 then 48 + d else 87 + d.

(** [w] hexadecimal digits. *)
Fixpoint hex_digits (w : nat) (x : Z) : list Z :=
  match w with O => [] | S w => hex_digits w (x / 16) ++ [digit_char (x mod 16)] end.

(** How many digits a number has. *)
Definition hex_width (x : Z) : nat := if x =? 0 then 1 else Z.to_nat (Z.log2 x / 4 + 1).

(** ["%.wx"] *)
Definition print_hex (w : nat) (x : Z) : list Z := hex_digits (Nat.max w (hex_width x)) x.

(** ["%u"]: the digits, at most ten for 32 bits. *)
Fixpoint dec_digits (fuel : nat) (x : Z) : list Z :=
  match fuel with
  | O => []
  | S fuel => if x <? 10 then [digit_char x] else dec_digits fuel (x / 10) ++ [digit_char (x mod 10)]
  end.
Definition print_dec (x : Z) : list Z := dec_digits 10 x.

(** ** Lines *)

Definition cstring (s : list Z) : list Z := match list_find (eq 0) s with Some (i, _) => take i s | None => s end.

(** The first line with its end, and the rest; [None] at the end of the file. Lines are
    shorter than the buffer. *)
Fixpoint fgets (s : list Z) : list Z * list Z :=
  match s with
  | [] => ([], [])
  | c :: s' => if c =? 10 then ([c], s') else let '(l, r) := fgets s' in (c :: l, r)
  end.

(** [strchr]: before and after the first occurrence. *)
Fixpoint split_at (delim : Z) (s : list Z) : list Z * option (list Z) :=
  match s with
  | [] => ([], None)
  | c :: s' => if c =? delim then ([], Some s') else let '(a, b) := split_at delim s' in (c :: a, b)
  end.

(** ** What is printed is parsed *)

Lemma digit_val_char d : 0 <= d < 16 -> digit_val (digit_char d) = d.
Proof.
  intros Hd. unfold digit_char, digit_val.
  destruct (Z.ltb_spec d 10).
  - rewrite (proj2 (Z.leb_le 48 _)), (proj2 (Z.leb_le _ 57)) by lia. cbn. lia.
  - rewrite (proj2 (Z.leb_gt _ 57)), andb_false_r, (proj2 (Z.leb_le 97 _)), (proj2 (Z.leb_le _ 102)) by lia. cbn. lia.
Qed.

Lemma digits_hex w : forall x acc rest, 0 <= x < 16 ^ Z.of_nat w ->
  digits 16 acc (hex_digits w x ++ rest) =
  let '(v, some, r) := digits 16 (acc * 16 ^ Z.of_nat w + x) rest in (v, if w then some else true, r).
Proof.
  induction w as [|w IH]; intros x acc rest Hx.
  - cbn [hex_digits app]. assert (x = 0) as -> by (cbn in Hx; lia).
    replace (acc * 16 ^ Z.of_nat 0 + 0) with acc by (cbn; lia). by destruct (digits 16 acc rest) as [[]].
  - cbn [hex_digits]. rewrite <- app_assoc. cbn [app].
    rewrite Nat2Z.inj_succ, Z.pow_succ_r in Hx by lia. pose proof (Z.mod_pos_bound x 16 ltac:(lia)) as Hm.
    rewrite IH by lia. cbn [digits]. rewrite digit_val_char by lia. rewrite (proj2 (Z.ltb_lt _ 16)) by lia.
    replace ((acc * 16 ^ Z.of_nat w + x / 16) * 16 + x mod 16) with (acc * 16 ^ Z.of_nat (S w) + x)
      by (rewrite Nat2Z.inj_succ, Z.pow_succ_r by lia; lia).
    destruct (digits 16 _ rest) as [[v b] r]. by destruct w.
Qed.

Lemma hex_width_bound x : 0 <= x -> x < 16 ^ Z.of_nat (hex_width x).
Proof.
  intros Hx. unfold hex_width. destruct (Z.eqb_spec x 0) as [->|]; [done|].
  pose proof (Z.log2_spec x ltac:(lia)) as [_ H]. pose proof (Z.log2_nonneg x).
  eapply Z.lt_le_trans; [exact H|]. change 16 with (2 ^ 4). rewrite <- Z.pow_mul_r by lia. apply Z.pow_le_mono_r; lia.
Qed.

Lemma print_hex_bound w x : 0 <= x -> 0 <= x < 16 ^ Z.of_nat (Nat.max w (hex_width x)).
Proof.
  intros Hx. split; [done|]. eapply Z.lt_le_trans; [by apply hex_width_bound|]. apply Z.pow_le_mono_r; lia.
Qed.

Lemma hex_digits_chars w : forall x, 0 <= x -> Forall (fun c => 48 <= c <= 57 \/ 97 <= c <= 102) (hex_digits w x).
Proof.
  induction w as [|w IH]; intros x Hx; cbn [hex_digits]; [constructor|]. apply Forall_app. split; [apply IH; lia|].
  constructor; [|constructor]. unfold digit_char. pose proof (Z.mod_pos_bound x 16 ltac:(lia)).
  destruct (Z.ltb_spec (x mod 16) 10); lia.
Qed.

Lemma print_hex_nonempty w x : exists c l, print_hex w x = c :: l.
Proof.
  unfold print_hex. assert (exists n, Nat.max w (hex_width x) = S n) as [n ->].
  { exists (Nat.pred (Nat.max w (hex_width x))). unfold hex_width. pose proof (Z.log2_nonneg x).
    destruct (x =? 0); lia. }
  cbn [hex_digits]. destruct (hex_digits n (x / 16)) as [|c l]; cbn; eauto.
Qed.

(** A character that ends a number. *)
Definition stops (rest : list Z) : Prop :=
  match rest with [] => True | c :: _ => 16 <= digit_val c /\ c <> 120 /\ c <> 88 end.

Lemma digits_stop base acc rest : 0 < base <= 16 -> stops rest -> digits base acc rest = (acc, false, rest).
Proof.
  intros Hb Hs. destruct rest as [|c rest]; [done|]. cbn. destruct Hs as [Hd _]. by rewrite (proj2 (Z.ltb_ge _ _)) by lia.
Qed.

Lemma hex_no_prefix s rest : Forall (fun c => 48 <= c <= 57 \/ 97 <= c <= 102) s -> s <> [] -> stops rest ->
  hex_prefix (s ++ rest) = None.
Proof.
  intros Hs Hn Hr. destruct s as [|z [|x [|c s]]]; [done|..]; cbn [app hex_prefix].
  - destruct rest as [|x [|c rest]]; try done. destruct Hr as (_ & H1 & H2).
    rewrite (proj2 (Z.eqb_neq x 120)), (proj2 (Z.eqb_neq x 88)) by lia. cbn. by rewrite andb_false_r.
  - inversion Hs as [|? ? _ Hs']; subst. inversion Hs' as [|? ? Hx _]; subst. destruct rest as [|c rest]; [done|].
    rewrite (proj2 (Z.eqb_neq x 120)), (proj2 (Z.eqb_neq x 88)) by lia. cbn. by rewrite andb_false_r.
  - inversion Hs as [|? ? _ Hs']; subst. inversion Hs' as [|? ? Hx _]; subst.
    rewrite (proj2 (Z.eqb_neq x 120)), (proj2 (Z.eqb_neq x 88)) by lia. cbn. by rewrite andb_false_r.
Qed.

Lemma strtoul_start c s base : 48 <= c <= 57 \/ 97 <= c <= 102 ->
  strtoul (c :: s) base =
  (let '(b, s3) := number_base base (c :: s) in
   let '(v, some, rest) := digits b 0 s3 in
   if negb some then (0, c :: s, false) else if v >=? 2 ^ 64 then (2 ^ 64 - 1, rest, true) else (v, rest, false)).
Proof.
  intros Hc. unfold strtoul, skip_space, is_space.
  rewrite (proj2 (Z.eqb_neq c 32)), (proj2 (Z.leb_gt c 13)), andb_false_r by lia. cbn [orb].
  replace (match c :: s with 43 :: s2 => (false, s2) | 45 :: s2 => (true, s2) | _ => (false, c :: s) end) with (false, c :: s)
    by (destruct c as [|[[[[[[p|p|]|[p|p|]|]|[[p|p|]|[p|p|]|]|]|[[[p|p|]|[p|p|]|]|[[p|p|]|[p|p|]|]|]|]|[[[[p|p|]|[p|p|]|]|[[p|p|]|[p|p|]|]|]|[[[p|p|]|[p|p|]|]|[[p|p|]|[p|p|]|]|]|]|]|p|]|]; done || (exfalso; lia)).
  done.
Qed.

Lemma strtoul_hex w x rest : 0 <= x < 2 ^ 64 -> stops rest -> strtoul (print_hex w x ++ rest) 16 = (x, rest, false).
Proof.
  intros Hx Hs. pose proof (hex_digits_chars (Nat.max w (hex_width x)) x ltac:(lia)) as Hc. fold (print_hex w x) in Hc.
  destruct (print_hex_nonempty w x) as (c & l & E).
  assert (digits 16 0 (print_hex w x ++ rest) = (x, true, rest)) as Hd.
  { unfold print_hex. rewrite digits_hex by (apply print_hex_bound; lia). rewrite digits_stop by done.
    replace (0 * _ + x) with x by lia. unfold print_hex in E. by destruct (Nat.max w (hex_width x)). }
  assert (hex_prefix (print_hex w x ++ rest) = None) as Hp by (apply hex_no_prefix; [done|by rewrite E|done]).
  rewrite E in Hd, Hp, Hc |- *. cbn [app] in *. rewrite strtoul_start by (by inversion Hc).
  unfold number_base. rewrite Hp. cbn [Z.eqb]. change (16 =? 0) with false. cbv iota. rewrite Hd. cbn [negb].
  rewrite Z.geb_leb, (proj2 (Z.leb_gt _ _)) by lia. done.
Qed.

Lemma strtoul_0x w x rest base : base = 0 \/ base = 16 -> 0 <= x < 2 ^ 64 -> stops rest ->
  strtoul (lit "0x" ++ print_hex w x ++ rest) base = (x, rest, false).
Proof.
  intros Hb Hx Hs. pose proof (hex_digits_chars (Nat.max w (hex_width x)) x ltac:(lia)) as Hc. fold (print_hex w x) in Hc.
  destruct (print_hex_nonempty w x) as (c & l & E).
  assert (digits 16 0 (print_hex w x ++ rest) = (x, true, rest)) as Hd.
  { unfold print_hex. rewrite digits_hex by (apply print_hex_bound; lia). rewrite digits_stop by done.
    replace (0 * _ + x) with x by lia. unfold print_hex in E. by destruct (Nat.max w (hex_width x)). }
  rewrite E in Hd, Hc |- *. inversion Hc as [|? ? Hc1 _]; subst. cbn [app] in Hd.
  change (lit "0x" ++ (c :: l) ++ rest) with (48 :: 120 :: c :: l ++ rest). rewrite strtoul_start by lia.
  unfold number_base, hex_prefix.
  assert (digit_val c < 16) as Hlt.
  { unfold digit_val. destruct Hc1; [rewrite (proj2 (Z.leb_le 48 c)), (proj2 (Z.leb_le c 57)) by lia; cbn; lia|].
    rewrite (proj2 (Z.leb_gt c 57)), andb_false_r, (proj2 (Z.leb_le 97 c)), (proj2 (Z.leb_le c 102)) by lia. cbn. lia. }
  rewrite (proj2 (Z.ltb_lt _ _)) by done. cbn [Z.eqb Pos.eqb andb orb].
  replace ((base =? 16) || (base =? 0)) with true by (destruct Hb as [-> | ->]; done).
  rewrite Hd. cbn [negb]. rewrite Z.geb_leb, (proj2 (Z.leb_gt _ _)) by lia. done.
Qed.

Lemma split_at_here d s r : Forall (fun c => c <> d) s -> split_at d (s ++ d :: r) = (s, Some r).
Proof.
  induction 1 as [|c s Hc _ IH]; cbn; [by rewrite Z.eqb_refl|]. by rewrite (proj2 (Z.eqb_neq c d)), IH by done.
Qed.

Lemma split_at_none d s : Forall (fun c => c <> d) s -> split_at d s = (s, None).
Proof. induction 1 as [|c s Hc _ IH]; cbn; [done|]. by rewrite (proj2 (Z.eqb_neq c d)), IH by done. Qed.

Lemma print_hex_chars w x d : 0 <= x -> d < 48 \/ 57 < d < 97 \/ 102 < d -> Forall (fun c => c <> d) (print_hex w x).
Proof.
  intros Hx Hd. eapply Forall_impl; [by apply hex_digits_chars|]. cbn. lia.
Qed.

Lemma fgets_line s r : Forall (fun c => c <> 10) s -> fgets (s ++ 10 :: r) = (s ++ [10], r).
Proof. induction 1 as [|c s Hc _ IH]; cbn; [done|]. by rewrite (proj2 (Z.eqb_neq c 10)), IH by done. Qed.

Lemma cstring_id s : Forall (fun c => c <> 0) s -> cstring s = s.
Proof.
  intros Hs. unfold cstring. destruct (list_find _ s) as [[i c]|] eqn:E; [|done].
  apply list_find_Some in E as (Hc & <- & _). by apply (Forall_lookup_1 _ _ _ _ Hs) in Hc.
Qed.
