(* ===== verification/RteIo.v ===== *)
(** * Register accesses and string copies ([user/nfpcore/rte_io.h], [rte_string_fns.h])

    An access is a load from or a store to a byte memory, in program order: on this
    processor [rte_io_rmb] and [rte_io_wmb] only keep the compiler from moving it.  A
    string is an array of bytes; [snprintf] with ["%s"] copies to the terminator. *)

From S2P Require Export Bytes CLib.

Local Open Scope Z_scope.

(** ** Registers *)

(** The accesses of a write in order: an address and the bytes stored there. *)
Definition stores := list (Z * list Z).
Definition exec_stores (s : stores) (m : mem) : mem := foldl (fun m a => store m a.1 a.2) m s.

Definition rte_read8_relaxed (m : mem) (addr : Z) : Z := le_combine (load m addr 1).
Definition rte_read16_relaxed (m : mem) (addr : Z) : Z := le_combine (load m addr 2).
Definition rte_read32_relaxed (m : mem) (addr : Z) : Z := le_combine (load m addr 4).
Definition rte_read64_relaxed (m : mem) (addr : Z) : Z := le_combine (load m addr 8).
Definition rte_write8_relaxed (value addr : Z) : stores := [(addr, le_split 1 value)].
Definition rte_write16_relaxed (value addr : Z) : stores := [(addr, le_split 2 value)].
Definition rte_write32_relaxed (value addr : Z) : stores := [(addr, le_split 4 value)].
Definition rte_write64_relaxed (value addr : Z) : stores := [(addr, le_split 8 value)].

Definition rte_read8 (m : mem) (addr : Z) : Z := rte_read8_relaxed m addr.
Definition rte_read16 (m : mem) (addr : Z) : Z := rte_read16_relaxed m addr.
Definition rte_read32 (m : mem) (addr : Z) : Z := rte_read32_relaxed m addr.
Definition rte_read64 (m : mem) (addr : Z) : Z := rte_read64_relaxed m addr.
Definition rte_write8 (value addr : Z) : stores := rte_write8_relaxed value addr.
Definition rte_write16 (value addr : Z) : stores := rte_write16_relaxed value addr.
Definition rte_write32 (value addr : Z) : stores := rte_write32_relaxed value addr.
Definition rte_write64 (value addr : Z) : stores := rte_write64_relaxed value addr.

(** ** Strings *)

(** [snprintf (dst, size, "%s", src)]: the array and the length of [src]. *)
Definition rte_strlcpy (dst src : list Z) (size : nat) : list Z * nat :=
  let s := cstring src in
  let copied := match size with O => [] | S n => take n s ++ [0] end in
  (copied ++ drop (length copied) dst, length s).

Definition strnlen (s : list Z) (n : nat) : nat := Nat.min n (length (cstring (take n s))).

Definition rte_strlcat (dst src : list Z) (size : nat) : list Z * nat :=
  let l := strnlen dst size in
  if (l <? size)%nat
  then let '(tail, n) := rte_strlcpy (drop l dst) src (size - l) in (take l dst ++ tail, (l + n)%nat)
  else (dst, (l + length (cstring src))%nat).

(** ** Both stay in the array and leave a string *)

Lemma cstring_cons b s : cstring (b :: s) = if b =? 0 then [] else b :: cstring s.
Proof.
  unfold cstring. cbn [list_find]. destruct (decide (0 = b)) as [<-|N]; [done|].
  rewrite (proj2 (Z.eqb_neq b 0)) by lia. by destruct (list_find (eq 0) s) as [[i c]|].
Qed.

Lemma cstring_nonzero s : Forall (fun c => c <> 0) (cstring s).
Proof.
  induction s as [|b s IH]; [done|]. rewrite cstring_cons. destruct (Z.eqb_spec b 0); [done|]. by constructor.
Qed.

Lemma cstring_end s rest : Forall (fun c => c <> 0) s -> cstring (s ++ 0 :: rest) = s.
Proof.
  induction 1 as [|b s Hb _ IH]; [done|]. cbn [app]. by rewrite cstring_cons, (proj2 (Z.eqb_neq b 0)), IH.
Qed.

Lemma strlcpy_ok dst src size : (size <= length dst)%nat ->
  let '(d, n) := rte_strlcpy dst src size in
  length d = length dst /\ n = length (cstring src) /\ drop size d = drop size dst /\
  ((0 < size)%nat -> cstring d = take (size - 1) (cstring src)).
Proof.
  intros Hs. unfold rte_strlcpy. destruct size as [|k].
  { cbn [app length]. rewrite drop_0. split_and!; [done..|lia]. }
  set (c := take k (cstring src)). assert (length c <= k)%nat by (unfold c; rewrite length_take; lia).
  split_and!; [rewrite !length_app, length_drop; cbn; rewrite ?length_app; cbn; lia|done| |].
  - rewrite length_app. cbn [length]. rewrite drop_app_ge, length_app by (rewrite length_app; cbn; lia). cbn [length].
    rewrite drop_drop. f_equal. lia.
  - intros _. rewrite <- app_assoc. cbn [app]. rewrite cstring_end by apply Forall_take, cstring_nonzero.
    unfold c. f_equal. lia.
Qed.

Lemma strnlen_min s n : strnlen s n = Nat.min n (length (cstring s)).
Proof.
  unfold strnlen. revert n. induction s as [|b s IH]; intros [|n]; try done; cbn [take].
  rewrite !cstring_cons. destruct (b =? 0); [done|]. cbn [length]. specialize (IH n). lia.
Qed.

Lemma cstring_take s : take (length (cstring s)) s = cstring s.
Proof.
  induction s as [|b s IH]; [done|]. rewrite cstring_cons. destruct (b =? 0); [done|]. cbn. by rewrite IH.
Qed.

Lemma cstring_app s s' : Forall (fun c => c <> 0) s -> cstring (s ++ s') = s ++ cstring s'.
Proof. induction 1 as [|b s Hb _ IH]; [done|]. cbn [app]. by rewrite cstring_cons, (proj2 (Z.eqb_neq b 0)), IH. Qed.

(** The string of [dst], then what fits of that of [src]. *)
Lemma strlcat_ok dst src size : (size <= length dst)%nat -> (length (cstring dst) < size)%nat ->
  let '(d, n) := rte_strlcat dst src size in
  length d = length dst /\ n = (length (cstring dst) + length (cstring src))%nat /\ drop size d = drop size dst /\
  cstring d = take (size - 1) (cstring dst ++ cstring src).
Proof.
  intros Hs Hl. unfold rte_strlcat. rewrite strnlen_min, Nat.min_r by lia. rewrite (proj2 (Nat.ltb_lt _ _)) by done.
  rewrite cstring_take. set (l := length (cstring dst)) in *.
  pose proof (strlcpy_ok (drop l dst) src (size - l) ltac:(rewrite length_drop; lia)) as H.
  destruct (rte_strlcpy (drop l dst) src (size - l)) as [t n]. destruct H as (H1 & -> & H2 & H3).
  rewrite length_drop in H1. rewrite !drop_drop in H2. split_and!.
  - rewrite length_app. fold l. lia.
  - done.
  - rewrite drop_app_ge by (fold l; lia). fold l. rewrite H2. f_equal. lia.
  - rewrite cstring_app by apply cstring_nonzero. rewrite H3, take_app_ge by (fold l; lia). fold l. do 2 f_equal. lia.
Qed.
