(* ===== verification/Packet.v ===== *)
(** * Packets on the NIC ([firmware/pktdef.h], [rxops.c], [txops.c])

    The packet metadata and header the firmware handles, the filter, the header
    rewrite that turns a request into its echo reply, and the packet I/O
    operations, over the packet memories of the NIC.  The NBI, the buffer list
    manager and the CTM packet engine are hardware reached through SDK
    intrinsics; they are the operations of the class [NbiEngine].

    Theorems: the header encoding round-trips; the filter's decision; the rewrite
    is, on the wire, the exchange of the two MAC and of the two IPv4 addresses and
    the clearing of the ICMP type; it keeps the IPv4 header checksum valid. *)

From S2P Require Export Bytes.

Local Open Scope Z_scope.

(** ** Configuration constants ([firmware/config.h]) *)

Definition PKT_NBI_OFFSET : Z := 64.
Definition MAC_PREPEND_BYTES : Z := 4.

Definition PORT_TO_CHANNEL (x : Z) : Z := Z.shiftl x 3.

(** The numbers that EtherType, IP protocol and ICMP type names denote. *)
Definition NET_ETH_TYPE_IPV4 : Z := 0x0800.
Definition NET_IP_PROTO_ICMP : Z := 1.
Definition NET_IP_PROTO_UDP : Z := 17.
Definition NET_ICMP_TYPE_ECHO_REPLY : Z := 0.

(** ** Data *)

(** The fields of the SDK's [struct nbi_meta_catamaran] the program uses. *)
Record pkt_info_t := mk_pkt_info {
  isl : Z; pnum : Z; bls : Z; muptr : Z; split : Z; len : Z
}.

Record nbi_meta_catamaran := mk_nbi_meta {
  pkt_info : pkt_info_t;
  seqr : Z;
  seq : Z
}.

(** [struct pkt_hdr_t].  The union of [udp_hdr] and [icmp_hdr] is its first byte,
    [icmp_type] (in a UDP header the high byte of the source port), and its
    seven other bytes. *)
Record pkt_hdr_t := mk_pkt_hdr {
  mac_timestamp : Z;
  mac_prepend : Z;
  eth_dst : Z;
  eth_src : Z;
  eth_type : Z;
  ip_ver_hl : Z;
  ip_tos : Z;
  ip_len : Z;
  ip_id : Z;
  ip_frag : Z;
  ip_ttl : Z;
  ip_proto : Z;
  ip_sum : Z;
  ip_src : Z;
  ip_dst : Z;
  icmp_type : Z;
  l4_rest : Z;
  pad : Z
}.

Record pkt_t := mk_pkt {
  nbi_meta : nbi_meta_catamaran;
  hdr : pkt_hdr_t
}.

(** ** The header in memory, in network byte order *)

Definition pkt_hdr_widths : list nat :=
  [4; 4; 6; 6; 2; 1; 1; 2; 2; 2; 1; 1; 2; 4; 4; 1; 7; 2]%nat.

Definition sizeof_pkt_hdr : nat := 52.

Definition hdr_fields (h : pkt_hdr_t) : list Z :=
  [mac_timestamp h; mac_prepend h; eth_dst h; eth_src h; eth_type h;
   ip_ver_hl h; ip_tos h; ip_len h; ip_id h; ip_frag h; ip_ttl h; ip_proto h;
   ip_sum h; ip_src h; ip_dst h; icmp_type h; l4_rest h; pad h].

Definition hdr_bytes (h : pkt_hdr_t) : list Z :=
  print_fields pkt_hdr_widths (hdr_fields h).

Definition hdr_of_bytes (bs : list Z) : pkt_hdr_t :=
  let f (i : nat) := default 0 (parse_fields pkt_hdr_widths bs !! i) in
  mk_pkt_hdr (f 0%nat) (f 1%nat) (f 2%nat) (f 3%nat) (f 4%nat) (f 5%nat) (f 6%nat)
    (f 7%nat) (f 8%nat) (f 9%nat) (f 10%nat) (f 11%nat) (f 12%nat) (f 13%nat)
    (f 14%nat) (f 15%nat) (f 16%nat) (f 17%nat).

(** ** The filter and the rewrite ([rxops.c]) *)

Inductive verdict := ALLOW | DROP.

#[export] Instance verdict_eq_dec : EqDecision verdict.
Proof. solve_decision. Defined.

Definition filter_packets (packet_size : Z) (pkt : pkt_t) : verdict :=
  if negb (eth_type (hdr pkt) =? NET_ETH_TYPE_IPV4) then DROP
  else if negb ((ip_proto (hdr pkt) =? NET_IP_PROTO_UDP)
             || (ip_proto (hdr pkt) =? NET_IP_PROTO_ICMP)) then DROP
  else if negb (u32 (len (pkt_info (nbi_meta pkt)) - 2 * MAC_PREPEND_BYTES) =? packet_size)
  then DROP
  else ALLOW.

Definition modify_hdr (h : pkt_hdr_t) : pkt_hdr_t :=
  mk_pkt_hdr (mac_timestamp h) (mac_prepend h) (eth_src h) (eth_dst h) (eth_type h)
    (ip_ver_hl h) (ip_tos h) (ip_len h) (ip_id h) (ip_frag h) (ip_ttl h) (ip_proto h)
    (ip_sum h) (ip_dst h) (ip_src h)
    (if ip_proto h =? NET_IP_PROTO_ICMP then NET_ICMP_TYPE_ECHO_REPLY else icmp_type h)
    (l4_rest h) (pad h).

Definition modify_packet_header (pkt : pkt_t) : pkt_t :=
  mk_pkt (nbi_meta pkt) (modify_hdr (hdr pkt)).

(** ** The hardware interface

    [W] is the state of the NIC.  [ctm_ptr40] is the SDK's [pkt_ctm_ptr40]; the
    NIC's memories are one 40-bit byte-addressed space, [nfp_mem]. *)

Class NbiEngine (W : Type) := {
  nfp_mem : W -> mem;
  set_nfp_mem : W -> mem -> W;
  ctm_ptr40 : Z -> Z -> Z -> Z;
  me_island : Z;
  (** the metadata of the next packet from the NBI *)
  nbi_recv : W -> nbi_meta_catamaran * W;
  PKT_CTM_SIZE_256 : Z;
  (** island, buffer size, and the flags to take and to replenish credits *)
  ctm_alloc : W -> Z -> Z -> bool -> bool -> option Z * W;
  blm_buf_alloc : W -> Z -> option Z * W;
  blm_buf_free : W -> Z -> Z -> W;
  ctm_free : W -> Z -> Z -> W;
  nbi_drop_seq : W -> Z -> Z -> Z * Z -> Z -> Z -> Z -> Z -> Z -> Z -> W;
  mac_egress_cmd_write : W -> Z -> Z -> bool -> bool -> W;
  msd_write : W -> Z -> Z -> (Z * Z) * W;
  nbi_send : W -> Z -> Z -> Z * Z -> Z -> Z -> Z -> Z -> Z -> Z -> W;
  (** bytes of the metadata written ahead of a transmitted packet *)
  meta_bytes : nbi_meta_catamaran -> list Z
}.

Section Ops.
Context {W : Type} `{NbiEngine W}.

(** The address of byte [o] of a packet's CTM buffer. *)
Definition pkt_addr (pkt : pkt_t) (o : Z) : Z :=
  ctm_ptr40 (isl (pkt_info (nbi_meta pkt))) (pnum (pkt_info (nbi_meta pkt))) o.

(** Reads the header of a received packet at [PKT_NBI_OFFSET] of its buffer. *)
Definition read_packet_header (w : W) (pkt : pkt_t) : pkt_t :=
  mk_pkt (nbi_meta pkt)
    (hdr_of_bytes (load (nfp_mem w) (pkt_addr pkt PKT_NBI_OFFSET) (Z.of_nat sizeof_pkt_hdr))).

Definition write_packet_header (w : W) (pkt : pkt_t) : W :=
  set_nfp_mem w (store (nfp_mem w) (pkt_addr pkt PKT_NBI_OFFSET) (hdr_bytes (hdr pkt))).

(** The two-step receive: metadata, then [read_packet_header]. *)
Definition receive_packet (w : W) (pkt : pkt_t) : Z * pkt_t * W :=
  let '(m, w) := nbi_recv w in
  let pkt := mk_pkt m (hdr pkt) in
  (pkt_addr pkt PKT_NBI_OFFSET, pkt, w).

(** One command delivers metadata and header. *)
Definition receive_packet_with_hdrs (w : W) : Z * pkt_t * W :=
  let '(m, w) := nbi_recv w in
  let pkt := read_packet_header w (mk_pkt m (hdr_of_bytes [])) in
  (pkt_addr pkt PKT_NBI_OFFSET, pkt, w).

Definition free_packet (w : W) (pkt : pkt_t) : W :=
  let i := pkt_info (nbi_meta pkt) in
  ctm_free (blm_buf_free w (muptr i) (bls i)) (isl i) (pnum i).

Definition drop_packet (w : W) (pkt : pkt_t) : W :=
  let i := pkt_info (nbi_meta pkt) in
  nbi_drop_seq (free_packet w pkt) (isl i) (pnum i) (0, 0) (len i) 0 0
    (seqr (nbi_meta pkt)) (seq (nbi_meta pkt)) PKT_CTM_SIZE_256.

(** The two allocation loops of [allocate_packet], with fuel; [None]: still
    waiting for a buffer when the fuel is used up. *)
Fixpoint ctm_alloc_loop (fuel : nat) (w : W) : option (Z * W) :=
  match fuel with
  | O => None
  | S fuel =>
      match ctm_alloc w me_island PKT_CTM_SIZE_256 true true with
      | (Some n, w) => Some (n, w)
      | (None, w) => ctm_alloc_loop fuel w
      end
  end.

Fixpoint blm_alloc_loop (fuel : nat) (w : W) (blq : Z) : option (Z * W) :=
  match fuel with
  | O => None
  | S fuel =>
      match blm_buf_alloc w blq with
      | (Some b, w) => Some (b, w)
      | (None, w) => blm_alloc_loop fuel w blq
      end
  end.

Definition allocate_packet (fuel : nat) (w : W) (pkt : pkt_t) : option (Z * pkt_t * W) :=
  '(pkt_num, w) ← ctm_alloc_loop fuel w;
  let blq := 0 in
  '(buf, w) ← blm_alloc_loop fuel w blq;
  let m := mk_nbi_meta (mk_pkt_info me_island pkt_num blq buf 1 0)
             (seqr (nbi_meta pkt)) (seq (nbi_meta pkt)) in
  let w := set_nfp_mem w (store (nfp_mem w) (ctm_ptr40 me_island pkt_num 0) (meta_bytes m)) in
  Some (ctm_ptr40 me_island pkt_num PKT_NBI_OFFSET, mk_pkt m (hdr pkt), w).

Definition send_packet (w : W) (pkt : pkt_t) : W :=
  let i := pkt_info (nbi_meta pkt) in
  let pkt_data := pkt_addr pkt 0 in
  let q_dst := PORT_TO_CHANNEL 3 in
  let w := mac_egress_cmd_write w pkt_data (PKT_NBI_OFFSET + MAC_PREPEND_BYTES) true true in
  let '(msi_gen, w) := msd_write w pkt_data PKT_NBI_OFFSET in
  nbi_send w (isl i) (pnum i) msi_gen (len i) 0 q_dst 0 0 PKT_CTM_SIZE_256.
End Ops.

(** ** Header encoding *)

(** Each header field fits its width. *)
Definition hdr_ok (h : pkt_hdr_t) : Prop :=
  Forall2 (fun w x => 0 <= x < 2 ^ (8 * Z.of_nat w)) pkt_hdr_widths (hdr_fields h).

Lemma hdr_fields_of_bytes bs : hdr_fields (hdr_of_bytes bs) = parse_fields pkt_hdr_widths bs.
Proof. done. Qed.

Lemma hdr_of_fields bs h : parse_fields pkt_hdr_widths bs = hdr_fields h ->
  hdr_of_bytes bs = h.
Proof. intros E. unfold hdr_of_bytes. rewrite E. by destruct h. Qed.

Lemma hdr_bytes_length h : length (hdr_bytes h) = sizeof_pkt_hdr.
Proof. unfold hdr_bytes. by rewrite print_fields_length. Qed.

Lemma hdr_bytes_of_bytes bs : bytes_ok bs -> length bs = sizeof_pkt_hdr ->
  hdr_bytes (hdr_of_bytes bs) = bs.
Proof.
  intros. unfold hdr_bytes. rewrite hdr_fields_of_bytes. by apply print_parse_fields.
Qed.

(** A header written to packet memory and read back is the same
    header, and the bytes of a header read and written back are unchanged. *)
Lemma hdr_roundtrip h bs :
  hdr_ok h -> bytes_ok bs -> length bs = sizeof_pkt_hdr ->
  hdr_of_bytes (hdr_bytes h) = h /\ hdr_bytes (hdr_of_bytes bs) = bs.
Proof.
  intros Hh Hb Hl. split; [|by apply hdr_bytes_of_bytes].
  apply hdr_of_fields. by apply parse_print_fields.
Qed.

Lemma hdr_roundtrip_witness :
  let bs := seqZ 0 52 in
  hdr_of_bytes (hdr_bytes (hdr_of_bytes bs)) = hdr_of_bytes bs /\ hdr_bytes (hdr_of_bytes bs) = bs.
Proof.
  intros bs. apply (hdr_roundtrip (hdr_of_bytes bs) bs); [| |reflexivity].
  - unfold hdr_ok. vm_compute. repeat constructor; discriminate.
  - apply Forall_forall. intros x Hx. apply elem_of_seqZ in Hx. unfold is_u8. lia.
Defined.

(** ** The echo on the wire

    What the rewrite does to the bytes of an Ethernet frame: exchange the MAC
    addresses (bytes 0-5 and 6-11) and the IPv4 addresses (26-29 and 30-33), and
    make an ICMP message (protocol byte 23) an echo reply (type byte 34). *)

Definition echo_frame (f : list Z) : list Z :=
  slice 6 6 f ++ slice 0 6 f ++ slice 12 14 f ++ slice 30 4 f ++ slice 26 4 f ++
  (if default 0 (f !! 23%nat) =? NET_IP_PROTO_ICMP then [NET_ICMP_TYPE_ECHO_REPLY]
   else slice 34 1 f) ++ drop 35 f.

Ltac bytes_ok_tac :=
  first [ reflexivity
        | repeat (apply Forall_cons_2; [assumption|]); apply Forall_nil_2 ].

Lemma modify_hdr_wire bs : bytes_ok bs -> length bs = sizeof_pkt_hdr ->
  hdr_bytes (modify_hdr (hdr_of_bytes bs)) = take 8 bs ++ echo_frame (drop 8 bs).
Proof.
  intros Hok Hl. unfold sizeof_pkt_hdr in Hl.
  do 52 (destruct bs as [|? bs]; [discriminate Hl|]).
  destruct bs; [clear Hl|discriminate Hl].
  unfold bytes_ok in Hok. rewrite !Forall_cons in Hok. destruct_and? Hok.
  unfold hdr_bytes, hdr_of_bytes, modify_hdr, hdr_fields.
  cbn -[be_split be_combine Z.eqb].
  rewrite !be_split_combine_n by bytes_ok_tac.
  replace (be_combine [z30]) with z30 by (cbn; lia).
  destruct (z30 =? NET_IP_PROTO_ICMP); [reflexivity|].
  rewrite be_split_combine_n by bytes_ok_tac.
  reflexivity.
Qed.

(** C8 (functional): on the wire, the header rewrite is [echo_frame] on the frame
    that follows the eight bytes of timestamp and MAC prepend. *)
Theorem modify_packet_header_wire pkt bs :
  bytes_ok bs -> length bs = sizeof_pkt_hdr -> hdr pkt = hdr_of_bytes bs ->
  hdr_bytes (hdr (modify_packet_header pkt)) = take 8 bs ++ echo_frame (drop 8 bs) /\
  nbi_meta (modify_packet_header pkt) = nbi_meta pkt.
Proof. intros Hok Hl E. cbn. rewrite E. split; [by apply modify_hdr_wire|done]. Qed.

Lemma modify_packet_header_wire_witness :
  let bs := seqZ 0 52 in
  hdr_bytes (hdr (modify_packet_header
    (mk_pkt (mk_nbi_meta (mk_pkt_info 0 0 0 0 0 52) 0 0) (hdr_of_bytes bs))))
  = take 8 bs ++ echo_frame (drop 8 bs).
Proof.
  intros bs. refine (proj1 (modify_packet_header_wire (mk_pkt _ (hdr_of_bytes bs)) bs _ _ eq_refl));
    [|reflexivity].
  apply Forall_forall. intros x Hx. apply elem_of_seqZ in Hx. unfold is_u8. lia.
Defined.

Lemma echo_frame_length f : (44 <= length f)%nat -> length (echo_frame f) = length f.
Proof.
  intros H. unfold echo_frame. rewrite !length_app, !slice_length, length_drop by lia.
  destruct (_ =? _); cbn [length]; rewrite ?slice_length by lia; lia.
Qed.

(** Only the first 35 bytes of a frame matter to the rewrite. *)
Lemma echo_frame_app f g : (44 <= length f)%nat ->
  echo_frame (f ++ g) = echo_frame f ++ g.
Proof.
  intros H. do 44 (destruct f as [|? f]; [cbn in H; lia|]).
  unfold echo_frame, slice. cbn [take drop app]. 
  cbn [lookup list_lookup]. by destruct (_ =? _).
Qed.

Lemma echo_frame_u8 f : bytes_ok f -> (44 <= length f)%nat -> bytes_ok (echo_frame f).
Proof.
  intros Hok H. unfold echo_frame, bytes_ok.
  rewrite !Forall_app. repeat split; try by apply slice_ok.
  - destruct (_ =? _); [|by apply slice_ok]. by apply Forall_singleton.
  - by apply Forall_drop.
Qed.

(** The 16-bit words of a byte string, summed: an Internet checksum is correct
    when the sum is congruent to zero modulo 0xffff. *)
Fixpoint inet_sum (bs : list Z) : Z :=
  match bs with
  | a :: b :: bs => 0x100 * a + b + inet_sum bs
  | [a] => 0x100 * a
  | [] => 0
  end.

(** The rewrite keeps the sum over the IPv4 header (bytes 14-33),
    so a correct header checksum stays correct without being recomputed; for UDP
    it keeps the sum over the addresses and the datagram, so a correct UDP
    checksum stays correct as well; and echoing a UDP reply gives the request. *)
Lemma echo_frame_checksum f : (44 <= length f)%nat ->
  inet_sum (slice 14 20 (echo_frame f)) = inet_sum (slice 14 20 f) /\
  (default 0 (f !! 23%nat) <> NET_IP_PROTO_ICMP ->
   inet_sum (slice 26 8 (echo_frame f)) = inet_sum (slice 26 8 f) /\
   drop 34 (echo_frame f) = drop 34 f /\ echo_frame (echo_frame f) = f).
Proof.
  intros H. do 44 (destruct f as [|? f]; [cbn in H; lia|]). clear H.
  unfold echo_frame, slice. cbn [take drop app lookup list_lookup].
  cbn [lookup list_lookup default from_option].
  match goal with |- context [?x =? NET_IP_PROTO_ICMP] =>
    destruct (Z.eqb_spec x NET_IP_PROTO_ICMP) as [E|E] end;
  cbn [take drop app lookup list_lookup default from_option inet_sum].
  - split; [lia|]. intros D. exfalso. by apply D.
  - split; [lia|]. intros _. split; [lia|]. split; [done|].
    cbn. unfold NET_IP_PROTO_ICMP in *. by destruct (Z.eqb_spec z22 1).
Qed.

(** A UDP frame: its own request is the reply to its reply. *)
Lemma echo_frame_checksum_witness :
  let f := seqZ 0 64 in
  inet_sum (slice 14 20 (echo_frame f)) = inet_sum (slice 14 20 f) /\
  echo_frame (echo_frame f) = f.
Proof.
  intros f. destruct (echo_frame_checksum f) as [H1 H2]; [unfold f; rewrite length_seqZ; lia|].
  split; [exact H1|]. apply H2. vm_compute. discriminate.
Defined.

Lemma filter_packets_allow_len ps pkt :
  filter_packets ps pkt = ALLOW ->
  0 <= len (pkt_info (nbi_meta pkt)) < 0x4000 -> 0 <= ps < 0xfffffff8 ->
  len (pkt_info (nbi_meta pkt)) = ps + 8.
Proof.
  unfold filter_packets, MAC_PREPEND_BYTES. intros H Hl Hp.
  destruct (negb (_ =? _)); [done|]. destruct (negb (_ || _)); [done|].
  destruct (Z.eqb_spec (u32 (len (pkt_info (nbi_meta pkt)) - 2 * 4)) ps) as [E|]; [|done].
  unfold u32 in E. lia.
Qed.

(** The filter lets a packet pass exactly when it is an IPv4
    UDP or ICMP packet whose frame (the length less the two four-byte prepends)
    has the configured size; and the rewrite does not change the verdict. *)
Lemma filter_packets_allow packet_size pkt :
  0 <= len (pkt_info (nbi_meta pkt)) < 0x4000 -> 0 <= packet_size < 0xfffffff8 ->
  (filter_packets packet_size pkt = ALLOW <->
   eth_type (hdr pkt) = 0x0800 /\
   (ip_proto (hdr pkt) = 17 \/ ip_proto (hdr pkt) = 1) /\
   len (pkt_info (nbi_meta pkt)) = packet_size + 8) /\
  filter_packets packet_size (modify_packet_header pkt) = filter_packets packet_size pkt.
Proof.
  intros Hl Hp. split; [|done]. unfold filter_packets.
  unfold NET_ETH_TYPE_IPV4, NET_IP_PROTO_UDP, NET_IP_PROTO_ICMP, MAC_PREPEND_BYTES.
  set (n := len _) in *. clearbody n.
  assert (u32 (n - 2 * 4) = packet_size <-> n = packet_size + 8) as Hn by words.
  destruct (Z.eqb_spec (eth_type (hdr pkt)) 0x800); cbn [negb]; [|naive_solver].
  destruct (Z.eqb_spec (ip_proto (hdr pkt)) 17), (Z.eqb_spec (ip_proto (hdr pkt)) 1),
    (Z.eqb_spec (u32 (n - 2 * 4)) packet_size); cbn [negb orb]; naive_solver.
Qed.

Lemma filter_packets_allow_witness :
  let pkt := mk_pkt (mk_nbi_meta (mk_pkt_info 1 2 0 3 1 72) 0 0)
    (hdr_of_bytes (replicate 20 0 ++ [8; 0] ++ replicate 9 0 ++ [17] ++ replicate 20 0)) in
  filter_packets 64 pkt = ALLOW.
Proof.
  intros pkt. refine (proj2 (proj1 (filter_packets_allow 64 pkt _ _)) _); [cbn; lia|lia|].
  split; [by vm_compute|]. split; [left; by vm_compute|by vm_compute].
Defined.

(** ** Packet buffers in NIC memory *)

(** What the code relies on in the hardware interface: the memory is updated as
    assigned, and a CTM pointer's offset is added to the buffer's address. *)
Class NbiLaws (W : Type) `{NbiEngine W} := {
  nfp_mem_set : forall w m, nfp_mem (set_nfp_mem w m) = m;
  ctm_ptr40_add : forall i p o d, 0 <= o -> 0 <= d -> o + d < 2048 ->
    ctm_ptr40 i p (o + d) = ctm_ptr40 i p o + d
}.

Section Buffers.
Context {W : Type} `{NbiLaws W}.

Lemma pkt_addr_off pkt o d : 0 <= o -> 0 <= d -> o + d < 2048 ->
  pkt_addr pkt (o + d) = pkt_addr pkt o + d.
Proof using Type*. intros. unfold pkt_addr. by apply ctm_ptr40_add. Qed.

Lemma pkt_addr_hdr pkt n : 64 <= n < 2048 ->
  pkt_addr pkt n = pkt_addr pkt PKT_NBI_OFFSET + (n - 64).
Proof using Type*.
  intros. rewrite <- pkt_addr_off by (unfold PKT_NBI_OFFSET; lia).
  f_equal. unfold PKT_NBI_OFFSET. lia.
Qed.

(** After the rewritten header is written back, the CTM part of the frame (the
    [c] bytes from offset 72) is the echo of what it was. *)
Lemma write_echo_header w pkt c :
  bytes_ok (load (nfp_mem w) (pkt_addr pkt PKT_NBI_OFFSET) (Z.of_nat sizeof_pkt_hdr)) -> 44 <= c < 1024 ->
  let pkt := read_packet_header w pkt in
  load (nfp_mem (write_packet_header w (modify_packet_header pkt))) (pkt_addr pkt 72) c
  = echo_frame (load (nfp_mem w) (pkt_addr pkt 72) c).
Proof using Type*.
  intros Hb Hc. cbn zeta. unfold write_packet_header. rewrite nfp_mem_set.
  set (a := pkt_addr pkt PKT_NBI_OFFSET).
  assert (pkt_addr (read_packet_header w pkt) 72 = a + 8) as -> by (apply pkt_addr_hdr; lia).
  change (pkt_addr (modify_packet_header (read_packet_header w pkt)) PKT_NBI_OFFSET) with a.
  cbn [hdr modify_packet_header read_packet_header]. fold a.
  set (m := nfp_mem w) in *.
  rewrite modify_hdr_wire by (done || by rewrite load_length).
  change (Z.of_nat sizeof_pkt_hdr) with (8 + 44).
  rewrite load_app by lia. rewrite take_app_length', drop_app_length' by (by rewrite load_length).
  replace c with (44 + (c - 44)) by lia.
  rewrite !(load_app _ (a + 8) 44) by lia.
  rewrite echo_frame_app by (rewrite load_length; lia).
  set (f := load m (a + 8) 44). f_equal.
  - apply load_eq; [unfold f; rewrite echo_frame_length by (rewrite load_length; lia); by rewrite load_length|].
    intros i b Hi. rewrite store_app, load_length.
    by apply (store_in _ (a + Z.of_nat (Z.to_nat 8))).
  - apply load_store_disjoint. right.
    rewrite length_app, echo_frame_length; unfold f; rewrite !load_length; lia.
Qed.

(** The header write leaves the memory outside the header alone. *)
Lemma write_header_out w pkt x :
  x < pkt_addr pkt PKT_NBI_OFFSET \/ pkt_addr pkt PKT_NBI_OFFSET + 52 <= x ->
  nfp_mem (write_packet_header w pkt) x = nfp_mem w x.
Proof using Type*.
  intros. unfold write_packet_header. rewrite nfp_mem_set.
  apply store_out. rewrite hdr_bytes_length.
  change (Z.of_nat sizeof_pkt_hdr) with 52. lia.
Qed.
End Buffers.
