(* ===== verification/Dma.v ===== *)
(** * PCIe DMA ([firmware/dma.c])

    The descriptor set-up, the enqueueing of one transfer, and the packet
    transfers, which are split at the end of the packet's 256-byte CTM buffer.
    The DMA engine is hardware: the class [DmaEngine] holds its operations and
    [DmaLaws] what the firmware relies on.  Theorems: a packet sent is stored in
    host memory as one contiguous frame, whatever the order in which the engine
    completes the two transfers; a frame received is placed where [send_packet]
    reads it; no transfer leaves the CTM buffer. *)

From S2P Require Export Packet.

Local Open Scope Z_scope.

Inductive dma_queue := TOPCI_HI | FROMPCI_HI.

(** The fields of the SDK's [struct nfp_pcie_dma_cmd]; [dma_mode] is the part of
    [__raw[1]] above [NFP_PCIE_DMA_CMD_DMA_MODE_shf]. *)
Record nfp_pcie_dma_cmd := mk_dma_cmd {
  dma_mode : Z;
  cpp_token : Z;
  cpp_addr_hi : Z;
  cpp_addr_lo : Z;
  pcie_addr_hi : Z;
  pcie_addr_lo : Z;
  cmd_length : Z
}.

Record nfp_pcie_dma_cfg := mk_dma_cfg {
  target_64_even : Z;
  cpp_target_even : Z;
  target_64_odd : Z;
  cpp_target_odd : Z
}.

Class DmaEngine (W : Type) := {
  host_mem : W -> mem;
  (** bit widths of the descriptor's high address and length fields, and the
      position of its mode *)
  hi_bits : Z;
  length_bits : Z;
  DMA_MODE_shf : Z;
  me_id : Z;
  me_ctx : Z;
  dma_cfg_set_pair : W -> Z -> Z -> nfp_pcie_dma_cfg -> W;
  pcie_dma_enq : W -> Z -> nfp_pcie_dma_cmd -> dma_queue -> Z -> W;
  wait_for_all : W -> list Z -> W
}.

Section Dma.
Context {W : Type} `{NbiEngine W, DmaEngine W}.

(** [signo] is the number of the even signal of the pair. *)
Definition pcie_dma_desc_setup (w : W) (signo ln dev_addr_hi dev_addr_lo : Z)
    : nfp_pcie_dma_cmd * W :=
  let w := dma_cfg_set_pair w 0 0 (mk_dma_cfg 1 7 1 7) in
  let mode := Z.lor (Z.lor (Z.lor (Z.shiftl (Z.land me_id 0xF) 13)
                (Z.shiftl (Z.land (Z.shiftr me_id 4) 0x3F) 7))
                (Z.shiftl (Z.land me_ctx 0x7) 4)) signo in
  (mk_dma_cmd (Z.shiftr (u32 (Z.shiftl mode DMA_MODE_shf)) DMA_MODE_shf) 0
    (dev_addr_hi mod 2 ^ hi_bits) dev_addr_lo 0 0
    (u32 (ln - 1) mod 2 ^ length_bits), w).

(** A signal pair is given by its number: the even signal, and the odd one
    after it. *)
Definition dma_op (w : W) (addr ln pcie_addr : Z) (queue : dma_queue) (sig_pair : Z) : W :=
  let '(c, w) := pcie_dma_desc_setup w sig_pair ln
                   (u32 (Z.shiftr addr 32)) (Z.land addr 0xFFFFFFFF) in
  let c := mk_dma_cmd (dma_mode c) (cpp_token c) (cpp_addr_hi c) (cpp_addr_lo c)
             (Z.shiftr pcie_addr 32 mod 2 ^ hi_bits) (Z.land pcie_addr 0xFFFFFFFF)
             (cmd_length c) in
  pcie_dma_enq w 0 c queue (sig_pair + 1).

Definition dma_send (w : W) (addr ln pcie_addr sig : Z) : W :=
  wait_for_all (dma_op w addr ln pcie_addr TOPCI_HI sig) [sig; sig + 1].

Definition dma_recv (w : W) (addr ln pcie_addr sig : Z) : W :=
  wait_for_all (dma_op w addr ln pcie_addr FROMPCI_HI sig) [sig; sig + 1].

(** The MU part of a packet starts 256 bytes into its 2 KB-aligned buffer; the
    shift is done in 32-bit arithmetic. *)
Definition pkt_mu_buffer (pkt : pkt_t) : Z :=
  u32 (u32 (Z.shiftl (muptr (pkt_info (nbi_meta pkt))) 11) + 256).

(** The split of a frame of [ln] bytes at [offset] in CTM. *)
Definition ctm_transfer_len (prepend ln : Z) : Z := Z.min (256 - PKT_NBI_OFFSET - prepend) ln.
Definition buf_transfer_len (prepend ln : Z) : Z := u32 (ln - ctm_transfer_len prepend ln).

Definition dma_packet (w : W) (pkt : pkt_t) (prepend ln pcie_addr : Z)
    (queue : dma_queue) (ctm_sig buf_sig : Z) : W :=
  let cl := ctm_transfer_len prepend ln in
  let bl := buf_transfer_len prepend ln in
  let w := dma_op w (pkt_addr pkt (PKT_NBI_OFFSET + prepend)) cl pcie_addr queue ctm_sig in
  if bl >? 0
  then
    let w := dma_op w (pkt_mu_buffer pkt) bl (u64 (pcie_addr + cl)) queue buf_sig in
    wait_for_all w [ctm_sig; ctm_sig + 1; buf_sig; buf_sig + 1]
  else wait_for_all w [ctm_sig; ctm_sig + 1].

Definition dma_packet_send (w : W) (pkt : pkt_t) (pcie_addr ctm_sig buf_sig : Z) : W :=
  let ln := u32 (len (pkt_info (nbi_meta pkt)) - 2 * MAC_PREPEND_BYTES) in
  dma_packet w pkt (2 * MAC_PREPEND_BYTES) ln pcie_addr TOPCI_HI ctm_sig buf_sig.

Definition dma_packet_recv (w : W) (pkt : pkt_t) (ln pcie_addr ctm_sig buf_sig : Z) : W :=
  dma_packet w pkt MAC_PREPEND_BYTES ln pcie_addr FROMPCI_HI ctm_sig buf_sig.

(** The frame of [ln] bytes a packet holds at [prepend] bytes after
    [PKT_NBI_OFFSET]: its CTM part and its MU part. *)
Definition packet_frame (m : mem) (pkt : pkt_t) (prepend ln : Z) : list Z :=
  load m (pkt_addr pkt (PKT_NBI_OFFSET + prepend)) (ctm_transfer_len prepend ln)
  ++ load m (pkt_mu_buffer pkt) (buf_transfer_len prepend ln).
End Dma.

(** ** The engine's laws *)

Definition cmd_cpp_addr (c : nfp_pcie_dma_cmd) : Z :=
  cpp_addr_hi c * 0x100000000 + cpp_addr_lo c.
Definition cmd_pcie_addr (c : nfp_pcie_dma_cmd) : Z :=
  pcie_addr_hi c * 0x100000000 + pcie_addr_lo c.

(** The transfer a descriptor asks for, on (NIC memory, host memory); the length
    field holds the length less one. *)
Definition dma_transfer (q : dma_queue) (c : nfp_pcie_dma_cmd) (ms : mem * mem) : mem * mem :=
  let n := cmd_length c + 1 in
  match q with
  | TOPCI_HI => (ms.1, store ms.2 (cmd_pcie_addr c) (load ms.1 (cmd_cpp_addr c) n))
  | FROMPCI_HI => (store ms.1 (cmd_cpp_addr c) (load ms.2 (cmd_pcie_addr c) n), ms.2)
  end.

Definition dma_run (l : list (dma_queue * nfp_pcie_dma_cmd * Z)) (ms : mem * mem) : mem * mem :=
  foldl (fun ms t => dma_transfer t.1.1 t.1.2 ms) ms l.

(** What the firmware relies on: 40-bit addresses and 12-bit lengths fit the
    descriptor; enqueueing only queues; waiting for signals completes queued
    transfers in an order the engine chooses, and leaves none pending whose
    completion signal was waited for. *)
Class DmaLaws (W : Type) `{NbiEngine W, DmaEngine W} := {
  dma_pending : W -> list (dma_queue * nfp_pcie_dma_cmd * Z);
  hi_bits_ok : 8 <= hi_bits;
  length_bits_ok : 12 <= length_bits;
  set_mem_host : forall w m, host_mem (set_nfp_mem w m) = host_mem w /\
    dma_pending (set_nfp_mem w m) = dma_pending w;
  cfg_pending : forall w a b c, dma_pending (dma_cfg_set_pair w a b c) = dma_pending w;
  cfg_mem : forall w a b c, nfp_mem (dma_cfg_set_pair w a b c) = nfp_mem w /\
    host_mem (dma_cfg_set_pair w a b c) = host_mem w;
  enq_pending : forall w i c q s,
    dma_pending (pcie_dma_enq w i c q s) = dma_pending w ++ [(q, c, s)];
  enq_mem : forall w i c q s, nfp_mem (pcie_dma_enq w i c q s) = nfp_mem w /\
    host_mem (pcie_dma_enq w i c q s) = host_mem w;
  wait_done : forall w sigs, exists order,
    order ++ dma_pending (wait_for_all w sigs) ≡ₚ dma_pending w /\
    Forall (fun t => t.2 ∉ sigs) (dma_pending (wait_for_all w sigs)) /\
    (nfp_mem (wait_for_all w sigs), host_mem (wait_for_all w sigs))
      = dma_run order (nfp_mem w, host_mem w)
}.

(** ** A reference NIC

    A concrete NIC that satisfies the laws: CTM buffers of 2 KB per packet number,
    transfers completed in the order they were enqueued.  The instances run the
    model on concrete inputs and show the laws can hold. *)

Record sim_nic := mk_sim_nic {
  sim_nfp : mem;
  sim_host : mem;
  sim_pending : list (dma_queue * nfp_pcie_dma_cmd * Z);
  sim_rx : list nbi_meta_catamaran;
  sim_free : list (Z * Z);
  sim_tx : list (Z * Z * Z)
}.

Definition sim_set_mem (w : sim_nic) (m : mem) : sim_nic :=
  mk_sim_nic m (sim_host w) (sim_pending w) (sim_rx w) (sim_free w) (sim_tx w).

Definition sim_ctm_ptr40 (i p o : Z) : Z :=
  0x8000000000 + (i mod 64) * 0x100000000 + (p mod 512) * 0x800 + o.

Definition sim_meta0 : nbi_meta_catamaran := mk_nbi_meta (mk_pkt_info 0 0 0 0 0 0) 0 0.

#[export] Instance sim_nbi : NbiEngine sim_nic := {
  nfp_mem := sim_nfp;
  set_nfp_mem := sim_set_mem;
  ctm_ptr40 := sim_ctm_ptr40;
  me_island := 33;
  nbi_recv w := (hd sim_meta0 (sim_rx w),
    mk_sim_nic (sim_nfp w) (sim_host w) (sim_pending w) (tl (sim_rx w)) (sim_free w) (sim_tx w));
  PKT_CTM_SIZE_256 := 0;
  ctm_alloc w _ _ _ _ := (Some 7, w);
  blm_buf_alloc w _ := (Some 0x100, w);
  blm_buf_free w _ _ := w;
  ctm_free w i p := mk_sim_nic (sim_nfp w) (sim_host w) (sim_pending w) (sim_rx w)
    ((i, p) :: sim_free w) (sim_tx w);
  nbi_drop_seq w _ _ _ _ _ _ _ _ _ := w;
  mac_egress_cmd_write w _ _ _ _ := w;
  msd_write w _ _ := ((0, 0), w);
  nbi_send w i p _ n _ _ _ _ _ := mk_sim_nic (sim_nfp w) (sim_host w) (sim_pending w)
    (sim_rx w) (sim_free w) ((i, p, n) :: sim_tx w);
  meta_bytes _ := replicate 48 0
}.

#[export] Instance sim_dma : DmaEngine sim_nic := {
  host_mem := sim_host;
  hi_bits := 8;
  length_bits := 12;
  DMA_MODE_shf := 16;
  me_id := 0x214;
  me_ctx := 0;
  dma_cfg_set_pair w _ _ _ := w;
  pcie_dma_enq w _ c q s := mk_sim_nic (sim_nfp w) (sim_host w) (sim_pending w ++ [(q, c, s)])
    (sim_rx w) (sim_free w) (sim_tx w);
  wait_for_all w _ :=
    let ms := dma_run (sim_pending w) (sim_nfp w, sim_host w) in
    mk_sim_nic ms.1 ms.2 [] (sim_rx w) (sim_free w) (sim_tx w)
}.

#[export] Instance sim_nbi_laws : NbiLaws sim_nic.
Proof. split; [done|]. intros. cbn. unfold sim_ctm_ptr40. lia. Qed.

Lemma sim_wait_done (w : sim_nic) (sigs : list Z) : exists order,
  order ++ sim_pending (wait_for_all w sigs) ≡ₚ sim_pending w /\
  Forall (fun t => t.2 ∉ sigs) (sim_pending (wait_for_all w sigs)) /\
  (nfp_mem (wait_for_all w sigs), host_mem (wait_for_all w sigs))
    = dma_run order (nfp_mem w, host_mem w).
Proof.
  exists (sim_pending w). cbn. rewrite app_nil_r.
  split; [done|]. split; [by constructor|]. by rewrite <- surjective_pairing.
Qed.

#[export] Instance sim_dma_laws : DmaLaws sim_nic.
Proof.
  refine {| dma_pending := sim_pending; wait_done := sim_wait_done |}; done.
Defined.

Lemma addr40_split a : 0 <= a < 0x10000000000 ->
  u32 (Z.shiftr a 32) = a / 0x100000000 /\ Z.land a 0xFFFFFFFF = a mod 0x100000000 /\
  0 <= a / 0x100000000 < 0x100.
Proof.
  intros. change 0xFFFFFFFF with (Z.ones 32). rewrite Z.land_ones, Z.shiftr_div_pow2 by lia.
  change (2 ^ 32) with 0x100000000. unfold u32. lia.
Qed.

Lemma mod_pow2_ge x n b : 0 <= x < 2 ^ n -> 0 <= n <= b -> x mod 2 ^ b = x.
Proof.
  intros Hx Hb. apply Z.mod_small. split; [lia|].
  apply Z.lt_le_trans with (2 ^ n); [lia|]. apply Z.pow_le_mono_r; lia.
Qed.

Section Transfers.
Context {W : Type} `{DmaLaws W}.

(** Transfer [t] moves [n] bytes between NIC address [a] and host address [p]. *)
Definition transfer_of (q : dma_queue) (a p n : Z) (t : dma_queue * nfp_pcie_dma_cmd * Z) : Prop :=
  t.1.1 = q /\ cmd_cpp_addr t.1.2 = a /\ cmd_pcie_addr t.1.2 = p /\ cmd_length t.1.2 + 1 = n.

Lemma dma_op_spec w a n p q s :
  0 <= a < 0x10000000000 -> 0 <= p < 0x10000000000 -> 1 <= n <= 4096 ->
  nfp_mem (dma_op w a n p q s) = nfp_mem w /\ host_mem (dma_op w a n p q s) = host_mem w /\
  exists t, dma_pending (dma_op w a n p q s) = dma_pending w ++ [t] /\
    t.2 = s + 1 /\ transfer_of q a p n t.
Proof using Type*.
  intros Ha Hp Hn. destruct (addr40_split a Ha) as (Ea1 & Ea2 & Ra).
  destruct (addr40_split p Hp) as (Ep1 & Ep2 & Rp).
  pose proof hi_bits_ok. pose proof length_bits_ok.
  unfold dma_op, pcie_dma_desc_setup. cbv zeta beta iota.
  split; [by rewrite (proj1 (enq_mem _ _ _ _ _)), (proj1 (cfg_mem _ _ _ _))|].
  split; [by rewrite (proj2 (enq_mem _ _ _ _ _)), (proj2 (cfg_mem _ _ _ _))|].
  eexists. rewrite enq_pending, cfg_pending. split; [done|]. split; [done|].
  unfold transfer_of, cmd_cpp_addr, cmd_pcie_addr. cbn.
  rewrite Ea1, Ea2, Ep2. rewrite Z.shiftr_div_pow2 by lia. change (2 ^ 32) with 0x100000000.
  rewrite !(mod_pow2_ge _ 8) by (change (2 ^ 8) with 0x100; lia).
  rewrite u32_id by (unfold is_u32; lia).
  rewrite (mod_pow2_ge (n - 1) 12) by (change (2 ^ 12) with 4096; lia).
  split; [done|]. lia.
Qed.

Lemma run_one q a p n t ms : transfer_of q a p n t ->
  dma_run [t] ms = match q with
    | TOPCI_HI => (ms.1, store ms.2 p (load ms.1 a n))
    | FROMPCI_HI => (store ms.1 a (load ms.2 p n), ms.2)
    end.
Proof using Type.
  intros (Eq & Ea & Ep & En). cbn. unfold dma_transfer.
  rewrite Eq, Ea, Ep, En. done.
Qed.

Lemma run_two q a1 p1 n1 t1 a2 p2 n2 t2 ms :
  transfer_of q a1 p1 n1 t1 -> transfer_of q a2 p2 n2 t2 ->
  dma_run [t1; t2] ms = match q with
    | TOPCI_HI => (ms.1, store (store ms.2 p1 (load ms.1 a1 n1)) p2 (load ms.1 a2 n2))
    | FROMPCI_HI => (store (store ms.1 a1 (load ms.2 p1 n1)) a2 (load ms.2 p2 n2), ms.2)
    end.
Proof using Type.
  intros T1 T2. change (dma_run [t1; t2] ms) with (dma_run [t2] (dma_run [t1] ms)).
  rewrite (run_one _ _ _ _ _ _ T1), (run_one _ _ _ _ _ _ T2). by destruct q.
Qed.

(** After the wait, nothing that was enqueued is pending, and the transfers
    happened in one of the two orders. *)
Lemma wait_one w t sigs : dma_pending w = [t] -> t.2 ∈ sigs ->
  dma_pending (wait_for_all w sigs) = [] /\
  (nfp_mem (wait_for_all w sigs), host_mem (wait_for_all w sigs))
    = dma_run [t] (nfp_mem w, host_mem w).
Proof using Type*.
  intros Ep Hs. destruct (wait_done w sigs) as (o & Hperm & Hrest & Hm).
  rewrite Ep in Hperm. destruct (dma_pending (wait_for_all w sigs)) as [|u r].
  - rewrite app_nil_r in Hperm. apply Permutation_singleton_r in Hperm as ->. done.
  - apply Forall_cons in Hrest as [Hu _].
    assert (u ∈ [t]) as ->%list_elem_of_singleton; [|done].
    rewrite <- Hperm. set_solver.
Qed.

Lemma wait_two w t1 t2 sigs : dma_pending w = [t1; t2] -> t1.2 ∈ sigs -> t2.2 ∈ sigs ->
  dma_pending (wait_for_all w sigs) = [] /\
  exists o, (o = [t1; t2] \/ o = [t2; t1]) /\
  (nfp_mem (wait_for_all w sigs), host_mem (wait_for_all w sigs))
    = dma_run o (nfp_mem w, host_mem w).
Proof using Type*.
  intros Ep Hs1 Hs2. destruct (wait_done w sigs) as (o & Hperm & Hrest & Hm).
  rewrite Ep in Hperm. destruct (dma_pending (wait_for_all w sigs)) as [|u r].
  - rewrite app_nil_r in Hperm. split; [done|]. exists o. split; [|done].
    symmetry in Hperm. by apply Permutation_length_2_inv in Hperm as [->| ->]; auto.
  - apply Forall_cons in Hrest as [Hu _].
    assert (u ∈ [t1; t2]) as E by (rewrite <- Hperm; set_solver).
    apply elem_of_cons in E as [->| ->%list_elem_of_singleton]; done.
Qed.
End Transfers.

(** ** Packet transfers *)

Section Packets.
Context {W : Type} `{DmaLaws W, !NbiLaws W}.

(** The packet's two buffers have 40-bit addresses and are disjoint. *)
Definition buffers_ok (pkt : pkt_t) (n : Z) : Prop :=
  (forall o, 0 <= o < 256 -> 0 <= pkt_addr pkt o < 0x10000000000) /\
  (pkt_addr pkt PKT_NBI_OFFSET + 192 <= pkt_mu_buffer pkt \/
   pkt_mu_buffer pkt + (n - 184) <= pkt_addr pkt PKT_NBI_OFFSET).

Lemma pkt_mu_buffer_range pkt : 0 <= pkt_mu_buffer pkt < 0x100000000.
Proof using Type. unfold pkt_mu_buffer, u32. lia. Qed.

Lemma transfer_lens prepend ln : 0 <= prepend < 192 -> 0 <= ln < 0x100000000 ->
  buf_transfer_len prepend ln = ln - ctm_transfer_len prepend ln /\
  ctm_transfer_len prepend ln = Z.min (192 - prepend) ln.
Proof using Type.
  intros. unfold buf_transfer_len, ctm_transfer_len, PKT_NBI_OFFSET.
  split; [|f_equal; lia]. apply u32_id. unfold is_u32. lia.
Qed.

Lemma packet_frame_split m pkt prepend ln : 0 <= prepend < 192 -> 0 <= ln < 0x100000000 ->
  length (packet_frame m pkt prepend ln) = Z.to_nat ln.
Proof using Type.
  intros Hp Hl. destruct (transfer_lens prepend ln Hp Hl) as [E1 E2].
  unfold packet_frame. rewrite length_app, !load_length, E1, E2. lia.
Qed.

Lemma dma_packet_orders w pkt prepend ln p q cs bs :
  dma_pending w = [] -> 0 <= prepend < 128 -> 1 <= ln <= 192 - prepend + 4096 ->
  buffers_ok pkt ln -> 0 <= p -> p + ln <= 0x10000000000 ->
  let w' := dma_packet w pkt prepend ln p q cs bs in
  let cl := ctm_transfer_len prepend ln in
  dma_pending w' = [] /\
  exists t1 t2 o, transfer_of q (pkt_addr pkt (PKT_NBI_OFFSET + prepend)) p cl t1 /\
    transfer_of q (pkt_mu_buffer pkt) (p + cl) (ln - cl) t2 /\
    (nfp_mem w', host_mem w') = dma_run o (nfp_mem w, host_mem w) /\
    (ln = cl /\ o = [t1] \/ cl < ln /\ (o = [t1; t2] \/ o = [t2; t1])).
Proof using Type*.
  intros Hpend Hpre Hln [Ha _] Hp Hpl. cbn zeta.
  destruct (transfer_lens prepend ln) as [E1 E2]; [lia..|].
  pose proof (pkt_mu_buffer_range pkt) as Hmu.
  unfold dma_packet. rewrite E1.
  set (cl := ctm_transfer_len prepend ln) in *. clearbody cl.
  assert (0 <= pkt_addr pkt (PKT_NBI_OFFSET + prepend) < 0x10000000000) as Hca
    by (apply Ha; unfold PKT_NBI_OFFSET; lia).
  destruct (dma_op_spec w _ cl p q cs Hca ltac:(lia) ltac:(lia))
    as (M1 & M2 & t1 & P1 & S1 & T1).
  rewrite Hpend in P1. cbn [app] in P1.
  destruct (Z.gtb_spec (ln - cl) 0) as [G|G].
  - rewrite u64_id by (unfold is_u64; lia).
    destruct (dma_op_spec (dma_op w (pkt_addr pkt (PKT_NBI_OFFSET + prepend)) cl p q cs)
      (pkt_mu_buffer pkt) (ln - cl) (p + cl) q bs ltac:(lia) ltac:(lia) ltac:(lia))
      as (M3 & M4 & t2 & P2 & S2 & T2).
    rewrite P1 in P2. cbn [app] in P2.
    destruct (wait_two _ t1 t2 [cs; cs + 1; bs; bs + 1] P2) as (D & o & Ho & Hm);
      [rewrite S1; set_solver|rewrite S2; set_solver|].
    split; [done|]. exists t1, t2, o. rewrite Hm, M3, M4, M1, M2.
    split; [done|]. split; [done|]. split; [done|]. right. split; [lia|done].
  - destruct (wait_one _ t1 [cs; cs + 1] P1) as (D & Hm); [rewrite S1; set_solver|].
    split; [done|].
    exists t1, (q, mk_dma_cmd 0 0 0 (pkt_mu_buffer pkt) 0 (p + cl) (ln - cl - 1), 0), [t1].
    rewrite Hm, M1, M2. split; [done|]. split.
    + unfold transfer_of, cmd_cpp_addr, cmd_pcie_addr. cbn -[pkt_mu_buffer].
      split; [done|lia].
    + split; [done|]. left. split; [lia|done].
Qed.

(** Sending a packet of up to 4280 bytes (CTM part plus one
    maximal descriptor) stores its frame contiguously in host memory at the PCIe
    address given, whichever transfer the engine completes first; NIC memory is
    unchanged and no transfer is left pending when the call returns. *)
Lemma dma_packet_send_stores_frame w pkt p cs bs n :
  dma_pending w = [] -> len (pkt_info (nbi_meta pkt)) = n + 8 -> 1 <= n <= 4280 ->
  buffers_ok pkt n -> 0 <= p -> p + n <= 0x10000000000 ->
  let w' := dma_packet_send w pkt p cs bs in
  dma_pending w' = [] /\ nfp_mem w' = nfp_mem w /\
  forall x, host_mem w' x = store (host_mem w) p (packet_frame (nfp_mem w) pkt 8 n) x.
Proof using Type*.
  intros Hpend Hlen Hn Hb Hp Hpn. cbn zeta. unfold dma_packet_send.
  change (2 * MAC_PREPEND_BYTES) with 8. rewrite Hlen.
  replace (n + 8 - 8) with n by lia. rewrite (u32_id n) by (unfold is_u32; lia).
  destruct (dma_packet_orders w pkt 8 n p TOPCI_HI cs bs) as (D & t1 & t2 & o & T1 & T2 & Hm & Ho);
    [done|lia|lia|done|lia|lia|].
  destruct (transfer_lens 8 n) as [E1 E2]; [lia..|].
  split; [done|]. unfold packet_frame. rewrite E1.
  set (cl := ctm_transfer_len 8 n) in *.
  destruct Ho as [[El ->]|[El [-> | ->]]].
  - rewrite (run_one _ _ _ _ _ _ T1) in Hm. cbn in Hm. injection Hm as -> ->.
    split; [done|]. intros x. replace (n - cl) with 0 by lia. by rewrite app_nil_r.
  - rewrite (run_two _ _ _ _ _ _ _ _ _ _ T1 T2) in Hm. cbn in Hm. injection Hm as -> ->.
    split; [done|]. intros x. rewrite store_app, load_length.
    by rewrite Z2Nat.id by lia.
  - rewrite (run_two _ _ _ _ _ _ _ _ _ _ T2 T1) in Hm. cbn in Hm. injection Hm as -> ->.
    split; [done|]. intros x. rewrite store_app, load_length, Z2Nat.id by lia.
    apply store_comm. rewrite !load_length. lia.
Qed.

(** Receiving [n] bytes from host memory leaves them as the
    packet's frame, at the offset from which [send_packet] transmits, whichever
    transfer completes first; host memory is unchanged, NIC memory is unchanged
    outside the packet's two buffers, and no transfer is left pending. *)
Lemma dma_packet_recv_fills_frame w pkt p cs bs n :
  dma_pending w = [] -> 1 <= n <= 4284 ->
  buffers_ok pkt n -> 0 <= p -> p + n <= 0x10000000000 ->
  let w' := dma_packet_recv w pkt n p cs bs in
  dma_pending w' = [] /\ host_mem w' = host_mem w /\
  packet_frame (nfp_mem w') pkt 4 n = load (host_mem w) p n /\
  forall x, (x < pkt_addr pkt 68 \/ pkt_addr pkt 68 + 188 <= x) ->
    (x < pkt_mu_buffer pkt \/ pkt_mu_buffer pkt + (n - 188) <= x) ->
    nfp_mem w' x = nfp_mem w x.
Proof using Type*.
  intros Hpend Hn Hb Hp Hpn. cbn zeta. unfold dma_packet_recv.
  change MAC_PREPEND_BYTES with 4.
  destruct (dma_packet_orders w pkt 4 n p FROMPCI_HI cs bs) as (D & t1 & t2 & o & T1 & T2 & Hm & Ho);
    [done|lia|lia|done|lia|lia|].
  destruct (transfer_lens 4 n) as [E1 E2]; [lia..|].
  destruct Hb as [_ Hd]. 
  split; [done|]. unfold packet_frame. rewrite E1.
  assert (pkt_addr pkt 68 = pkt_addr pkt PKT_NBI_OFFSET + 4) as Ea
    by (rewrite (pkt_addr_hdr pkt 68) by lia; lia).
  change (PKT_NBI_OFFSET + 4) with 68 in *. rewrite Ea in *.
  set (cl := ctm_transfer_len 4 n) in *. clearbody cl.
  set (c := pkt_addr pkt PKT_NBI_OFFSET) in *. set (u := pkt_mu_buffer pkt) in *.
  destruct Ho as [[El ->]|[El [-> | ->]]].
  - rewrite (run_one _ _ _ _ _ _ T1) in Hm. cbn in Hm. injection Hm as -> ->.
    split; [done|]. replace (n - cl) with 0 by lia. split.
    + rewrite load_store_same by (rewrite load_length; lia).
      by rewrite El, app_nil_r.
    + intros x Hx _. apply store_out. rewrite load_length. lia.
  - rewrite (run_two _ _ _ _ _ _ _ _ _ _ T1 T2) in Hm. cbn in Hm. injection Hm as -> ->.
    split; [done|]. split.
    + rewrite load_store_disjoint by (rewrite load_length; lia).
      rewrite !load_store_same by (rewrite load_length; lia).
      rewrite <- load_app by lia. f_equal. lia.
    + intros x Hx1 Hx2. rewrite !store_out; [done|rewrite load_length; lia..].
  - rewrite (run_two _ _ _ _ _ _ _ _ _ _ T2 T1) in Hm. cbn in Hm. injection Hm as -> ->.
    split; [done|]. split.
    + rewrite load_store_same by (rewrite load_length; lia).
      rewrite load_store_disjoint by (rewrite load_length; lia).
      rewrite load_store_same by (rewrite load_length; lia).
      rewrite <- load_app by lia. f_equal. lia.
    + intros x Hx1 Hx2. rewrite !store_out; [done|rewrite load_length; lia..].
Qed.
End Packets.

Definition sim_pkt (n mu : Z) : pkt_t :=
  mk_pkt (mk_nbi_meta (mk_pkt_info 33 5 0 mu 1 n) 0 0) (hdr_of_bytes []).

Definition sim_start : sim_nic := mk_sim_nic (fun x => x mod 251) (fun _ => 0) [] [] [] [].

Lemma sim_buffers_ok n mu : 0 <= mu < 0x1fffff -> 0 <= n <= 4284 ->
  buffers_ok (sim_pkt n mu) n.
Proof.
  intros Hm Hn. split.
  - intros o Ho. cbn. unfold sim_ctm_ptr40. lia.
  - right. unfold pkt_mu_buffer. cbn -[Z.add u32 Z.shiftl]. unfold sim_ctm_ptr40, u32.
    rewrite Z.shiftl_mul_pow2 by lia. change (2 ^ 11) with 2048. unfold PKT_NBI_OFFSET. lia.
Qed.

(** A 1408-byte frame, in both parts of the packet. *)
Lemma dma_packet_send_stores_frame_witness :
  let w' := dma_packet_send sim_start (sim_pkt 1416 0x300) 0x10000 1 3 in
  host_mem w' 0x10000 = nfp_mem sim_start (pkt_addr (sim_pkt 1416 0x300) 72) /\
  host_mem w' 0x100b8 = nfp_mem sim_start (0x300 * 2048 + 256).
Proof.
  assert (dma_pending sim_start = []) as Hp by reflexivity.
  assert (buffers_ok (sim_pkt 1416 0x300) 1408) as Hb
    by (split; [apply (sim_buffers_ok 1416 0x300); lia|right; by vm_compute]).
  destruct (dma_packet_send_stores_frame sim_start (sim_pkt 1416 0x300) 0x10000 1 3 1408
    Hp eq_refl ltac:(lia) Hb ltac:(lia) ltac:(lia)) as (_ & _ & Hx).
  split; rewrite Hx; by vm_compute.
Defined.

Lemma dma_packet_recv_fills_frame_witness :
  let w' := dma_packet_recv sim_start (sim_pkt 0 0x300) 1408 0x10000 1 3 in
  packet_frame (nfp_mem w') (sim_pkt 0 0x300) 4 1408 = load (fun _ => 0) 0x10000 1408.
Proof.
  assert (dma_pending sim_start = []) as Hp by reflexivity.
  assert (buffers_ok (sim_pkt 0 0x300) 1408) as Hb
    by (split; [apply (sim_buffers_ok 0 0x300); lia|right; by vm_compute]).
  exact (proj1 (proj2 (proj2 (dma_packet_recv_fills_frame sim_start (sim_pkt 0 0x300)
    0x10000 1 3 1408 Hp ltac:(lia) Hb ltac:(lia) ltac:(lia))))).
Defined.
