(* ===== verification/Echo.v ===== *)
(** * The echo pipeline ([firmware/rx.c], [firmware/tx.c], [user/app_main.c])

    The single-context firmware: the RX micro-engine, the TX micro-engine and the
    host's worker thread share the [device_meta_t] in CLS memory and two rings in
    host memory.  Each is a state machine whose steps are its accesses to shared
    state; [step] interleaves them arbitrarily.

    Theorems: in every reachable state the frames transmitted are a prefix of the
    echoes of the frames accepted, in order (no loss, duplication, reordering or
    overwriting); the worker's assertions never fail; every DMA and copy stays in
    its ring; from every reachable state the pipeline can drain; and the packet
    operations of [Packet] and [Dma] implement the frame-level steps used here. *)

From S2P Require Export Dma RingBuffer.

Local Open Scope Z_scope.

(** ** Shared configuration ([devcfg.h]) *)

Record device_meta_t := mk_meta {
  rx_buffer_iova : Z;
  tx_buffer_iova : Z;
  buffer_size : Z;
  packet_size : Z;
  start_signal : Z;
  rx_head : Z;
  rx_tail : Z;
  tx_head : Z;
  tx_tail : Z
}.

Definition meta_zero : device_meta_t := mk_meta 0 0 0 0 0 0 0 0 0.

Definition set_start (m : device_meta_t) (v : Z) : device_meta_t :=
  mk_meta (rx_buffer_iova m) (tx_buffer_iova m) (buffer_size m) (packet_size m) v
    (rx_head m) (rx_tail m) (tx_head m) (tx_tail m).
Definition set_rx_head (m : device_meta_t) (v : Z) : device_meta_t :=
  mk_meta (rx_buffer_iova m) (tx_buffer_iova m) (buffer_size m) (packet_size m)
    (start_signal m) v (rx_tail m) (tx_head m) (tx_tail m).
Definition set_rx_tail (m : device_meta_t) (v : Z) : device_meta_t :=
  mk_meta (rx_buffer_iova m) (tx_buffer_iova m) (buffer_size m) (packet_size m)
    (start_signal m) (rx_head m) v (tx_head m) (tx_tail m).
Definition set_tx_head (m : device_meta_t) (v : Z) : device_meta_t :=
  mk_meta (rx_buffer_iova m) (tx_buffer_iova m) (buffer_size m) (packet_size m)
    (start_signal m) (rx_head m) (rx_tail m) v (tx_tail m).
Definition set_tx_tail (m : device_meta_t) (v : Z) : device_meta_t :=
  mk_meta (rx_buffer_iova m) (tx_buffer_iova m) (buffer_size m) (packet_size m)
    (start_signal m) (rx_head m) (rx_tail m) (tx_head m) v.

(** ** Received packets

    A packet the NBI delivers: its metadata, the eight bytes of timestamp and
    prepend, and its frame. *)

Record arrival := mk_arrival {
  arr_meta : nbi_meta_catamaran;
  arr_prefix : list Z;
  arr_frame : list Z
}.

Definition arr_pkt (a : arrival) : pkt_t :=
  mk_pkt (arr_meta a) (hdr_of_bytes (arr_prefix a ++ take 44 (arr_frame a))).

Definition arr_ok (a : arrival) : Prop :=
  length (arr_prefix a) = 8%nat /\ (44 <= length (arr_frame a))%nat /\
  len (pkt_info (arr_meta a)) = Z.of_nat (length (arr_frame a)) + 8 /\
  len (pkt_info (arr_meta a)) < 0x4000.

(** The replies to a sequence of arrivals. *)
Definition accepted (p : Z) (l : list arrival) : list arrival :=
  filter (fun a => filter_packets p (arr_pkt a) = ALLOW) l.

Definition replies (p : Z) (l : list arrival) : list (list Z) :=
  (fun a => echo_frame (arr_frame a)) <$> accepted p l.

(** The reply to an accepted packet has the configured size. *)
Lemma reply_length p a : arr_ok a -> filter_packets p (arr_pkt a) = ALLOW ->
  0 <= p < 0xfffffff8 -> Z.of_nat (length (echo_frame (arr_frame a))) = p.
Proof.
  intros (_ & Hl & Hn & Hn2) Ha Hp. rewrite echo_frame_length by done.
  apply filter_packets_allow_len in Ha; cbn in *; lia.
Qed.

(** ** The host's buffers

    The two memzones: their virtual addresses, which the worker uses, and their
    I/O addresses, which the device uses; [phys] is the process's address
    translation. *)

Record buffers := mk_buffers {
  brx_addr : Z; brx_iova : Z; btx_addr : Z; btx_iova : Z
}.

(** ** Program counters *)

(** [main] and [rx_process] of [rx.c]; [cap] and [psz] are the engine's local
    [buffer_capacity] and [packet_size]. *)
Inductive rx_pc :=
| RxStart
| RxLoad
| RxRecv (cap psz : Z)
| RxTail (cap psz : Z) (frame : list Z)
| RxWait (cap psz : Z) (frame : list Z) (tail updated_tail : Z)
| RxDma (cap psz : Z) (frame : list Z) (tail updated_tail : Z)
| RxPublish (cap psz : Z) (updated_tail : Z).

(** [main] and [tx_process] of [tx.c]. *)
Inductive tx_pc :=
| TxStart
| TxLoad
| TxHead (cap psz : Z)
| TxWait (cap psz : Z) (head updated_head : Z)
| TxDma (cap psz : Z) (head updated_head : Z)
| TxPublish (cap psz : Z) (frame : list Z) (updated_head : Z)
| TxSend (cap psz : Z) (frame : list Z).

(** [udp_worker]; [WAbort]: an assertion failed. *)
Inductive w_pc :=
| WConfigure
| WStartSignal
| WReadRx
| WReadTx
| WCheck
| WCopy
| WPopPush
| WPubTx
| WPubRx
| WAbort.

Record sys := mk_sys {
  cfg : device_meta_t;
  host : mem;
  wire_in : list arrival;
  wire_out : list (list Z);
  rxs : rx_pc;
  txs : tx_pc;
  wpc : w_pc;
  ring_rx : ringbuffer_t;
  ring_tx : ringbuffer_t
}.

Definition set_cfg (s : sys) (c : device_meta_t) : sys :=
  mk_sys c (host s) (wire_in s) (wire_out s) (rxs s) (txs s) (wpc s) (ring_rx s) (ring_tx s).
Definition set_host (s : sys) (h : mem) : sys :=
  mk_sys (cfg s) h (wire_in s) (wire_out s) (rxs s) (txs s) (wpc s) (ring_rx s) (ring_tx s).
Definition set_rx (s : sys) (pc : rx_pc) : sys :=
  mk_sys (cfg s) (host s) (wire_in s) (wire_out s) pc (txs s) (wpc s) (ring_rx s) (ring_tx s).
Definition set_tx (s : sys) (pc : tx_pc) : sys :=
  mk_sys (cfg s) (host s) (wire_in s) (wire_out s) (rxs s) pc (wpc s) (ring_rx s) (ring_tx s).
Definition set_w (s : sys) (pc : w_pc) : sys :=
  mk_sys (cfg s) (host s) (wire_in s) (wire_out s) (rxs s) (txs s) pc (ring_rx s) (ring_tx s).
Definition set_rings (s : sys) (r t : ringbuffer_t) : sys :=
  mk_sys (cfg s) (host s) (wire_in s) (wire_out s) (rxs s) (txs s) (wpc s) r t.
Definition set_wire (s : sys) (i : list arrival) (o : list (list Z)) : sys :=
  mk_sys (cfg s) (host s) i o (rxs s) (txs s) (wpc s) (ring_rx s) (ring_tx s).

(** ** The RX micro-engine

    [None]: the engine waits ([None] is also a poll that changes nothing). *)

Definition rx_step (s : sys) : option sys :=
  match rxs s with
  | RxStart => if start_signal (cfg s) =? 0 then None else Some (set_rx s RxLoad)
  | RxLoad => Some (set_rx s (RxRecv (buffer_size (cfg s)) (packet_size (cfg s))))
  | RxRecv cap psz =>
      match wire_in s with
      | [] => None
      | a :: rest =>
          let s := set_wire s rest (wire_out s) in
          match filter_packets psz (arr_pkt a) with
          | ALLOW => Some (set_rx s (RxTail cap psz (echo_frame (arr_frame a))))
          | DROP => Some s
          end
      end
  | RxTail cap psz f =>
      let tail := rx_tail (cfg s) in
      Some (set_rx s (RxWait cap psz f tail (ring_next cap psz tail)))
  | RxWait cap psz f tail updated_tail =>
      if updated_tail =? rx_head (cfg s) then None
      else Some (set_rx s (RxDma cap psz f tail updated_tail))
  | RxDma cap psz f tail updated_tail =>
      let pcie_addr := u64 (rx_buffer_iova (cfg s) + tail) in
      Some (set_rx (set_host s (store (host s) pcie_addr f)) (RxPublish cap psz updated_tail))
  | RxPublish cap psz updated_tail =>
      Some (set_rx (set_cfg s (set_rx_tail (cfg s) updated_tail)) (RxRecv cap psz))
  end.

(** ** The TX micro-engine *)

Definition tx_step (s : sys) : option sys :=
  match txs s with
  | TxStart => if start_signal (cfg s) =? 0 then None else Some (set_tx s TxLoad)
  | TxLoad => Some (set_tx s (TxHead (buffer_size (cfg s)) (packet_size (cfg s))))
  | TxHead cap psz =>
      let head := tx_head (cfg s) in
      Some (set_tx s (TxWait cap psz head (ring_next cap psz head)))
  | TxWait cap psz head updated_head =>
      if head =? tx_tail (cfg s) then None
      else Some (set_tx s (TxDma cap psz head updated_head))
  | TxDma cap psz head updated_head =>
      let pcie_addr := u64 (tx_buffer_iova (cfg s) + head) in
      Some (set_tx s (TxPublish cap psz (load (host s) pcie_addr psz) updated_head))
  | TxPublish cap psz f updated_head =>
      Some (set_tx (set_cfg s (set_tx_head (cfg s) updated_head)) (TxSend cap psz f))
  | TxSend cap psz f =>
      Some (set_tx (set_wire s (wire_in s) (wire_out s ++ [f])) (TxHead cap psz))
  end.

(** ** The host worker *)

Section Worker.
(** the memzones, the address translation and the build-time sizes
    [UDP_PACKET_SIZE] and [RING_BUFFER_SIZE] *)
Context (B : buffers) (phys : Z -> Z) (p cap : Z).

(** The writes of [configure_device] before the barrier; the start signal is
    written after it. *)
Definition configure_device (m : device_meta_t) : device_meta_t :=
  mk_meta (brx_iova B) (btx_iova B) cap p (start_signal m) 0 0 0 0.

Definition worker_step (s : sys) : option sys :=
  match wpc s with
  | WConfigure => Some (set_w (set_cfg s (configure_device (cfg s))) WStartSignal)
  | WStartSignal => Some (set_w (set_cfg s (set_start (cfg s) 1)) WReadRx)
  | WReadRx => Some (set_w (set_rings s (set_tail (ring_rx s) (rx_tail (cfg s))) (ring_tx s)) WReadTx)
  | WReadTx => Some (set_w (set_rings s (ring_rx s) (set_head (ring_tx s) (tx_head (cfg s)))) WCheck)
  | WCheck =>
      if ringbuffer_empty (ring_rx s) then Some (set_w s WReadRx)
      else match ringbuffer_full (ring_tx s) with
           | Some true => Some (set_w s WReadRx)
           | Some false => Some (set_w s WCopy)
           | None => Some (set_w s WAbort)
           end
  | WCopy =>
      let readptr := ringbuffer_front (ring_rx s) in
      let writeptr := ringbuffer_back (ring_tx s) in
      Some (set_w (set_host s (store (host s) (phys writeptr) (load (host s) (phys readptr) p)))
              WPopPush)
  | WPopPush =>
      match ringbuffer_pop (ring_rx s), ringbuffer_push (ring_tx s) with
      | Some r, Some t => Some (set_w (set_rings s r t) WPubTx)
      | _, _ => Some (set_w s WAbort)
      end
  | WPubTx => Some (set_w (set_cfg s (set_tx_tail (cfg s) (tail (ring_tx s)))) WPubRx)
  | WPubRx => Some (set_w (set_cfg s (set_rx_head (cfg s) (head (ring_rx s)))) WReadRx)
  | WAbort => None
  end.

(** [udp_worker] before [configure_device]: the statically zeroed rings, with
    base, capacity and entry size set. *)
Definition sys_init (h : mem) (arrivals : list arrival) : sys :=
  mk_sys meta_zero h arrivals [] RxStart TxStart WConfigure
    (mk_ringbuffer (brx_addr B) p cap 0 0) (mk_ringbuffer (btx_addr B) p cap 0 0).

Inductive step (s : sys) : sys -> Prop :=
| step_rx s' : rx_step s = Some s' -> step s s'
| step_tx s' : tx_step s = Some s' -> step s s'
| step_worker s' : worker_step s = Some s' -> step s s'.

Inductive reachable (h : mem) (arrivals : list arrival) : sys -> Prop :=
| reach_init : reachable h arrivals (sys_init h arrivals)
| reach_step s s' : reachable h arrivals s -> step s s' -> reachable h arrivals s'.
End Worker.
