(* ===== verification/EchoInv.v ===== *)
(** * Invariant and theorems of the echo pipeline

    The inductive invariant of [Echo.step]: every head and tail is the offset of
    a counter, the counters are ordered and less than a ring apart, and the
    entries between consumer and producer hold the replies with those numbers. *)

From S2P Require Export Echo.

Local Open Scope Z_scope.

#[local] Arguments replies : simpl never.

Lemma replies_cons p x l : replies p (x :: l) =
  match filter_packets p (arr_pkt x) with
  | ALLOW => echo_frame (arr_frame x) :: replies p l
  | DROP => replies p l
  end.
Proof.
  unfold replies, accepted. rewrite filter_cons.
  destruct (filter_packets p (arr_pkt x)); by case_decide.
Qed.

Section Invariant.
Context (B : buffers) (phys : Z -> Z) (k p : Z).
Hypothesis k_pos : 0 < k.
Hypothesis p_min : 44 <= p.
Hypothesis cap32 : is_u32 (k * p + p).
(** the rings lie in 40-bit I/O address space, do not overlap, and the worker's
    virtual buffers map to them contiguously *)
Hypothesis rx_range : 0 <= brx_iova B /\ brx_iova B + k * p <= 0x10000000000.
Hypothesis tx_range : 0 <= btx_iova B /\ btx_iova B + k * p <= 0x10000000000.
Hypothesis rings_disjoint :
  brx_iova B + k * p <= btx_iova B \/ btx_iova B + k * p <= brx_iova B.
Hypothesis phys_rx : forall o, 0 <= o < k * p -> phys (brx_addr B + o) = brx_iova B + o.
Hypothesis phys_tx : forall o, 0 <= o < k * p -> phys (btx_addr B + o) = btx_iova B + o.

Context (arrivals : list arrival).
Hypothesis arrivals_ok : Forall arr_ok arrivals.

Notation cap := (k * p).
Notation R := (replies p arrivals).
Notation rxslot s i := (slot (host s) (brx_iova B) k p i).
Notation txslot s i := (slot (host s) (btx_iova B) k p i).

Definition configured (s : sys) : Prop :=
  rx_buffer_iova (cfg s) = brx_iova B /\ tx_buffer_iova (cfg s) = btx_iova B /\
  buffer_size (cfg s) = cap /\ packet_size (cfg s) = p.

Definition started (s : sys) : Prop :=
  match wpc s with WConfigure | WStartSignal => False | _ => True end.

Definition rx_ok (s : sys) (a b : Z) : Prop :=
  let rest := replies p (wire_in s) in
  let todo := drop (Z.to_nat a) R in
  match rxs s with
  | RxStart => todo = rest
  | RxLoad => started s /\ todo = rest
  | RxRecv c z => started s /\ c = cap /\ z = p /\ todo = rest
  | RxTail c z f => started s /\ c = cap /\ z = p /\ todo = f :: rest
  | RxWait c z f t u => started s /\ c = cap /\ z = p /\ todo = f :: rest /\
      t = off k p a /\ u = off k p (a + 1)
  | RxDma c z f t u => started s /\ c = cap /\ z = p /\ todo = f :: rest /\
      t = off k p a /\ u = off k p (a + 1) /\ a - b < k - 1
  | RxPublish c z u => started s /\ c = cap /\ z = p /\ todo = rxslot s a :: rest /\
      u = off k p (a + 1) /\ a - b < k - 1
  end.

Definition tx_ok (s : sys) (e g : Z) : Prop :=
  let sent := take (Z.to_nat g) R in
  match txs s with
  | TxStart => wire_out s = sent
  | TxLoad => started s /\ wire_out s = sent
  | TxHead c z => started s /\ c = cap /\ z = p /\ wire_out s = sent
  | TxWait c z hd u => started s /\ c = cap /\ z = p /\ wire_out s = sent /\
      hd = off k p g /\ u = off k p (g + 1)
  | TxDma c z hd u => started s /\ c = cap /\ z = p /\ wire_out s = sent /\
      hd = off k p g /\ u = off k p (g + 1) /\ g < e
  | TxPublish c z f u => started s /\ c = cap /\ z = p /\ wire_out s = sent /\
      u = off k p (g + 1) /\ g < e /\ R !! Z.to_nat g = Some f
  | TxSend c z f => started s /\ c = cap /\ z = p /\ wire_out s ++ [f] = sent
  end.

Definition w_ok (s : sys) (a b c d e g h : Z) : Prop :=
  match wpc s with
  | WConfigure | WStartSignal => start_signal (cfg s) = 0 /\ rxs s = RxStart /\
      txs s = TxStart /\ a = 0 /\ g = 0 /\ b = c /\ e = c /\ d = 0 /\ h = 0 /\ c = 0
  | WReadRx | WReadTx | WCheck => b = c /\ e = c
  | WCopy => b = c /\ e = c /\ c < d /\ c - h < k - 1
  | WPopPush => b = c /\ e = c /\ c < d /\ c - h < k - 1 /\
      R !! Z.to_nat c = Some (txslot s c)
  | WPubTx => b = c - 1 /\ e = c - 1
  | WPubRx => b = c - 1 /\ e = c
  | WAbort => False
  end.

Record inv (s : sys) (a b c d e g h : Z) : Prop := {
  i_cfg : wpc s <> WConfigure -> configured s;
  i_start : started s -> start_signal (cfg s) <> 0;
  i_rt : rx_tail (cfg s) = off k p a;
  i_rh : rx_head (cfg s) = off k p b;
  i_tt : tx_tail (cfg s) = off k p e;
  i_th : tx_head (cfg s) = off k p g;
  i_wrx : ring_rx s = mk_ringbuffer (brx_addr B) p cap (off k p c) (off k p d);
  i_wtx : ring_tx s = mk_ringbuffer (btx_addr B) p cap (off k p h) (off k p c);
  i_ord : 0 <= b <= c /\ c <= d <= a /\ a - b <= k - 1 /\
          0 <= h <= g /\ g <= e <= c /\ c - h <= k - 1;
  i_len : a <= Z.of_nat (length R);
  i_rxc : forall i, c <= i < a -> R !! Z.to_nat i = Some (rxslot s i);
  i_txc : forall i, g <= i < c -> R !! Z.to_nat i = Some (txslot s i);
  i_rx : rx_ok s a b;
  i_tx : tx_ok s e g;
  i_w : w_ok s a b c d e g h
}.

Lemma p_pos : 0 < p.
Proof. lia. Qed.

Lemma cap_u32 : is_u32 cap.
Proof. unfold is_u32 in *. nia. Qed.

Lemma off0 : off k p 0 = 0.
Proof. unfold off. rewrite Z.mod_0_l by lia. lia. Qed.

Lemma inv_init hm : inv (sys_init B p cap hm arrivals) 0 0 0 0 0 0 0.
Proof.
  split; cbn; rewrite ?off0; try done; lia.
Qed.

Lemma p_u32 : 0 <= p < 0xfffffff8.
Proof. assert (p <= k * p) by nia. unfold is_u32 in cap32. lia. Qed.

(** Replies have the size of a ring entry. *)
Lemma replies_length f : f ∈ R -> Z.of_nat (length f) = p.
Proof.
  unfold replies, accepted. intros (a & -> & (Ha & Hin)%list_elem_of_filter)%list_elem_of_fmap.
  rewrite Forall_forall in arrivals_ok. apply (reply_length p); [by apply arrivals_ok|done|apply p_u32].
Qed.

Lemma replies_in_range i f : R !! i = Some f -> Z.of_nat (length f) = p.
Proof. intros E. apply replies_length. by eapply list_elem_of_lookup_2. Qed.

(** The next reply the RX engine is to publish. *)
Lemma todo_head a f l : drop (Z.to_nat a) R = f :: l -> R !! Z.to_nat a = Some f.
Proof.
  intros E. rewrite <- (Nat.add_0_r (Z.to_nat a)), <- lookup_drop. by rewrite E.
Qed.

Lemma todo_next a f l : 0 <= a -> drop (Z.to_nat a) R = f :: l ->
  drop (Z.to_nat (a + 1)) R = l.
Proof.
  intros Ha E. replace (Z.to_nat (a + 1)) with (Z.to_nat a + 1)%nat by lia.
  rewrite <- drop_drop, E. done.
Qed.

Lemma sent_next g f : 0 <= g -> R !! Z.to_nat g = Some f ->
  take (Z.to_nat (g + 1)) R = take (Z.to_nat g) R ++ [f].
Proof.
  intros Hg E. replace (Z.to_nat (g + 1)) with (S (Z.to_nat g)) by lia.
  by apply take_S_r.
Qed.

Lemma rx_addr i : u64 (brx_iova B + off k p i) = brx_iova B + off k p i.
Proof.
  pose proof (off_range k p k_pos p_pos i). apply u64_id. unfold is_u64. lia.
Qed.

Lemma tx_addr i : u64 (btx_iova B + off k p i) = btx_iova B + off k p i.
Proof.
  pose proof (off_range k p k_pos p_pos i). apply u64_id. unfold is_u64. lia.
Qed.

Lemma next_off i : ring_next cap p (off k p i) = off k p (i + 1).
Proof. apply ring_next_off; [done|apply p_pos|apply cap_u32]. Qed.

(** An entry written in one ring leaves the other ring alone. *)
Lemma tx_slot_rx_write s f i j : Z.of_nat (length f) = p ->
  slot (store (host s) (brx_iova B + off k p j) f) (btx_iova B) k p i = txslot s i.
Proof.
  intros. pose proof (off_range k p k_pos p_pos j).
  apply slot_store_out; [done|apply p_pos|lia].
Qed.

Lemma rx_slot_tx_write s f i j : Z.of_nat (length f) = p ->
  slot (store (host s) (btx_iova B + off k p j) f) (brx_iova B) k p i = rxslot s i.
Proof.
  intros. pose proof (off_range k p k_pos p_pos j).
  apply slot_store_out; [done|apply p_pos|lia].
Qed.

(** Once the engines have left their start state the worker has started. *)
Lemma w_ok_started s a b c d e g h : w_ok s a b c d e g h ->
  start_signal (cfg s) <> 0 -> started s.
Proof. unfold w_ok, started. destruct (wpc s); naive_solver. Qed.

Lemma started_configured s : started s -> wpc s <> WConfigure.
Proof. unfold started. by destruct (wpc s). Qed.

(** A started worker's condition does not depend on the engines' program
    counters, nor on the RX count. *)
Lemma w_ok_ext s s' a a' b c d e g g' h : started s -> wpc s' = wpc s ->
  (forall i, txslot s' i = txslot s i) ->
  w_ok s a b c d e g h -> w_ok s' a' b c d e g' h.
Proof.
  unfold w_ok, started. intros St -> E. destruct (wpc s); try done. by rewrite E.
Qed.

Ltac w_ext St := eapply w_ok_ext; [exact St|done|done|eassumption].

Lemma inv_rx_step s s' a b c d e g h : inv s a b c d e g h -> rx_step s = Some s' ->
  inv s' (match rxs s with RxPublish _ _ _ => a + 1 | _ => a end) b c d e g h.
Proof.
  intros [] Hs. destruct s as [cf hm wi wo rxs' txs' w rr rt].
  unfold rx_step in Hs. unfold rx_ok in i_rx0. cbn in *.
  destruct rxs' as [| |c0 z|c0 z f|c0 z f t u|c0 z f t u|c0 z u].
  - destruct (Z.eqb_spec (start_signal cf) 0) as [|N]; [done|].
    injection Hs as <-.
    pose proof (w_ok_started _ _ _ _ _ _ _ _ i_w0 N) as St.
    split; try done; w_ext St.
  - injection Hs as <-. destruct i_rx0 as [St Ht].
    destruct (i_cfg0 (started_configured _ St)) as (_ & _ & E1 & E2).
    split; try done; w_ext St.
  - destruct wi as [|x wi]; [done|]. destruct i_rx0 as (St & -> & -> & Ht).
    rewrite replies_cons in Ht.
    destruct (filter_packets p (arr_pkt x)) eqn:F; injection Hs as <-; (split; try done; w_ext St).
  - injection Hs as <-. destruct i_rx0 as (St & -> & -> & Ht).
    split; try done; [|w_ext St].
    unfold rx_ok. cbn. rewrite i_rt0, next_off. done.
  - destruct (Z.eqb_spec u (rx_head cf)) as [|N]; [done|]. injection Hs as <-.
    destruct i_rx0 as (St & -> & -> & Ht & -> & ->).
    split; try done; [|w_ext St].
    unfold rx_ok. cbn. do 6 (split; [done|]). rewrite i_rh0 in N.
    destruct (decide (a - b = k - 1)) as [E|]; [|lia].
    destruct N. rewrite <- (off_period k p k_pos b). f_equal. lia.
  - injection Hs as <-. destruct i_rx0 as (St & -> & -> & Ht & -> & -> & Hab).
    destruct (i_cfg0 (started_configured _ St)) as (E1 & _). cbn in E1.
    pose proof (replies_in_range _ _ (todo_head _ _ _ Ht)) as Hf.
    rewrite E1, rx_addr.
    split; try done; cbn.
    + intros i Hi. rewrite slot_store_other by (done || lia). by apply i_rxc0.
    + intros i Hi. rewrite slot_store_out; [by apply i_txc0|done|lia|].
      pose proof (off_range k p k_pos p_pos a). lia.
    + unfold rx_ok. cbn. rewrite slot_store_same by done. done.
    + eapply w_ok_ext; [exact St|done| |exact i_w0].
      intros i. cbn. apply (tx_slot_rx_write (mk_sys cf hm wi wo RxStart txs' w rr rt)). done.
  - injection Hs as <-. destruct i_rx0 as (St & -> & -> & Ht & -> & Hab).
    split; try done; cbn.
    + lia.
    + apply todo_head, lookup_lt_Some in Ht. lia.
    + intros i Hi. destruct (decide (i = a)) as [->|]; [|apply i_rxc0; lia].
      by apply todo_head in Ht.
    + unfold rx_ok. cbn. do 3 (split; [done|]). apply todo_next in Ht; [done|lia].
    + w_ext St.
Qed.

Lemma inv_tx_step s s' a b c d e g h : inv s a b c d e g h -> tx_step s = Some s' ->
  inv s' a b c d e (match txs s with TxPublish _ _ _ _ => g + 1 | _ => g end) h.
Proof.
  intros [] Hs. destruct s as [cf hm wi wo rxs' txs' w rr rt].
  unfold tx_step in Hs. unfold tx_ok in i_tx0. cbn in *.
  destruct txs' as [| |c0 z|c0 z hd u|c0 z hd u|c0 z f u|c0 z f].
  - destruct (Z.eqb_spec (start_signal cf) 0) as [|N]; [done|].
    injection Hs as <-.
    pose proof (w_ok_started _ _ _ _ _ _ _ _ i_w0 N) as St.
    split; try done; w_ext St.
  - injection Hs as <-. destruct i_tx0 as [St Ht].
    destruct (i_cfg0 (started_configured _ St)) as (_ & _ & E1 & E2).
    split; try done; w_ext St.
  - injection Hs as <-. destruct i_tx0 as (St & -> & -> & Ht).
    split; try done; [|w_ext St].
    unfold tx_ok. cbn. rewrite i_th0, next_off. done.
  - destruct (Z.eqb_spec hd (tx_tail cf)) as [|N]; [done|]. injection Hs as <-.
    destruct i_tx0 as (St & -> & -> & Ht & -> & ->).
    split; try done; [|w_ext St].
    unfold tx_ok. cbn. do 6 (split; [done|]). rewrite i_tt0 in N.
    destruct (decide (g = e)) as [->|]; [done|lia].
  - injection Hs as <-. destruct i_tx0 as (St & -> & -> & Ht & -> & -> & Hge).
    destruct (i_cfg0 (started_configured _ St)) as (_ & E1 & _). cbn in E1.
    rewrite E1, tx_addr. split; try done; [|w_ext St].
    unfold tx_ok. cbn. do 6 (split; [done|]). apply i_txc0. lia.
  - injection Hs as <-. destruct i_tx0 as (St & -> & -> & Ht & -> & Hge & Hf).
    split; try done; cbn.
    + lia.
    + intros i Hi. apply i_txc0. lia.
    + unfold tx_ok. cbn. do 3 (split; [done|]). rewrite Ht. symmetry. apply sent_next; [lia|done].
    + w_ext St.
  - injection Hs as <-. destruct i_tx0 as (St & -> & -> & Ht).
    split; try done; w_ext St.
Qed.

Lemma view_rx s a b c d e g h : inv s a b c d e g h -> rb_view k c d (ring_rx s).
Proof.
  intros []. rewrite i_wrx0. split; cbn; try done; [apply p_pos|lia].
Qed.

Lemma view_tx s a b c d e g h : inv s a b c d e g h -> rb_view k h c (ring_tx s).
Proof.
  intros []. rewrite i_wtx0. split; cbn; try done; [apply p_pos|lia].
Qed.

Lemma phys_front s a b c d e g h : inv s a b c d e g h ->
  phys (ringbuffer_front (ring_rx s)) = brx_iova B + off k p c.
Proof.
  intros []. rewrite i_wrx0. cbn. apply phys_rx.
  pose proof (off_range k p k_pos p_pos c). lia.
Qed.

Lemma phys_back s a b c d e g h : inv s a b c d e g h ->
  phys (ringbuffer_back (ring_tx s)) = btx_iova B + off k p c.
Proof.
  intros []. rewrite i_wtx0. cbn. apply phys_tx.
  pose proof (off_range k p k_pos p_pos c). lia.
Qed.

(** The engines' conditions when the worker moves. *)
Lemma rx_ok_ext s s' a b b' : rx_ok s a b -> b <= b' -> rxs s' = rxs s -> wire_in s' = wire_in s ->
  (started s -> started s') -> rxslot s' a = rxslot s a -> rx_ok s' a b'.
Proof.
  unfold rx_ok. intros H Hb -> -> Hst Hslot. rewrite Hslot.
  destruct (rxs s); naive_solver lia.
Qed.

Lemma tx_ok_ext s s' e e' g : tx_ok s e g -> e <= e' -> txs s' = txs s -> wire_out s' = wire_out s ->
  (started s -> started s') -> tx_ok s' e' g.
Proof.
  unfold tx_ok. intros H He -> -> Hst. destruct (txs s); naive_solver lia.
Qed.

Ltac keep_started :=
  first [done | unfold started; match goal with E : wpc _ = _ |- _ => rewrite E end; done].
Ltac keep_start := intros _; match goal with H : started _ -> _ |- _ => apply H end; keep_started.
Ltac keep_rx := 
  eapply rx_ok_ext; [eassumption|lia|done|done|keep_started|try done].
Ltac keep_tx :=
  eapply tx_ok_ext; [eassumption|lia|done|done|keep_started].

Lemma inv_worker_copy s a b c d e g h : inv s a b c d e g h -> wpc s = WCopy ->
  inv (set_w (set_host s (store (host s) (phys (ringbuffer_back (ring_tx s)))
    (load (host s) (phys (ringbuffer_front (ring_rx s))) p))) WPopPush) a b c d e g h.
Proof.
  intros I Ew. pose proof I as []. rewrite (phys_back _ _ _ _ _ _ _ _ I).
  rewrite (phys_front _ _ _ _ _ _ _ _ I).
  unfold w_ok in i_w0. rewrite Ew in i_w0. destruct i_w0 as (Eb & Ee & Hd & Hh).
  assert (Z.of_nat (length (rxslot s c)) = p) as Hl by (apply slot_length; lia).
  change (load (host s) (brx_iova B + off k p c) p) with (rxslot s c).
  split; try done; cbn.
  - intros _. apply i_cfg0. by rewrite Ew.
  - keep_start.
  - intros i Hi. rewrite rx_slot_tx_write by done. by apply i_rxc0.
  - intros i Hi. rewrite slot_store_other by (done || lia). by apply i_txc0.
  - keep_rx. by apply rx_slot_tx_write.
  - keep_tx.
  - unfold w_ok. cbn. rewrite slot_store_same by done.
    do 4 (split; [done|]). apply i_rxc0. lia.
Qed.

Lemma inv_worker_poppush s a b c d e g h : inv s a b c d e g h -> wpc s = WPopPush ->
  exists r t, ringbuffer_pop (ring_rx s) = Some r /\ ringbuffer_push (ring_tx s) = Some t /\
  inv (set_w (set_rings s r t) WPubTx) a b (c + 1) d e g h.
Proof.
  intros I Ew. pose proof I as [].
  unfold w_ok in i_w0. rewrite Ew in i_w0. destruct i_w0 as (Eb & Ee & Hd & Hh & Hc).
  rewrite (rb_pop_view (view_rx _ _ _ _ _ _ _ _ I)).
  rewrite (rb_push_view (view_tx _ _ _ _ _ _ _ _ I)).
  destruct (Z.eqb_spec (d - c) 0); [lia|]. destruct (Z.eqb_spec (c - h) (k - 1)); [lia|].
  rewrite i_wrx0, i_wtx0. cbn. eexists _, _. do 2 (split; [done|]).
  split; try done; cbn.
  - intros _. apply i_cfg0. by rewrite Ew.
  - keep_start.
  - lia.
  - intros i Hi. apply i_rxc0. lia.
  - intros i Hi. destruct (decide (i = c)) as [->|]; [done|]. apply i_txc0. lia.
  - keep_rx.
  - keep_tx.
  - unfold w_ok. cbn. lia.
Qed.

Lemma inv_worker_check s s' a b c d e g h : inv s a b c d e g h -> wpc s = WCheck ->
  worker_step B phys p cap s = Some s' -> inv s' a b c d e g h.
Proof.
  intros I Ew Hs. unfold worker_step in Hs. rewrite Ew in Hs.
  rewrite (rb_empty_iff (view_rx _ _ _ _ _ _ _ _ I)) in Hs.
  rewrite (rb_full_iff (view_tx _ _ _ _ _ _ _ _ I)) in Hs.
  destruct I. unfold w_ok in i_w0. rewrite Ew in i_w0.
  assert (configured s) as Hc by (apply i_cfg0; by rewrite Ew).
  assert (started s) as Hst by (unfold started; by rewrite Ew).
  destruct (Z.eqb_spec (d - c) 0); [|destruct (Z.eqb_spec (c - h) (k - 1))];
    injection Hs as <-; split; try done; try keep_start;
    try (keep_rx); try (keep_tx);
    unfold w_ok; cbn; lia.
Qed.

(** The remaining worker steps, each with the counters it leaves. *)
Ltac w_start I Ew :=
  destruct (I) as [? ? Hrt ? ? Hth Hrx Htx ? ? ? ? ? ? Hw]; unfold w_ok in Hw; rewrite Ew in Hw.
Ltac keep_cfg :=
  intros _; match goal with H : wpc _ <> _ -> _, E : wpc _ = _ |- _ => apply H; by rewrite E end.

Lemma inv_worker_configure s a b c d e g h : inv s a b c d e g h -> wpc s = WConfigure ->
  inv (set_w (set_cfg s (configure_device B p cap (cfg s))) WStartSignal) 0 0 0 0 0 0 0.
Proof.
  intros I Ew. w_start I Ew.
  destruct Hw as (E1 & E2 & E3 & -> & -> & -> & -> & -> & -> & ->).
  split; cbn; rewrite ?off0 in *; try done; try lia; [keep_rx|keep_tx].
Qed.

Lemma inv_worker_start s a b c d e g h : inv s a b c d e g h -> wpc s = WStartSignal ->
  inv (set_w (set_cfg s (set_start (cfg s) 1)) WReadRx) a b c d e g h.
Proof.
  intros I Ew. w_start I Ew.
  destruct Hw as (E1 & E2 & E3 & -> & -> & -> & -> & -> & -> & ->).
  split; cbn; try done; [keep_cfg|keep_rx|keep_tx].
Qed.

Lemma inv_worker_readrx s a b c d e g h : inv s a b c d e g h -> wpc s = WReadRx ->
  inv (set_w (set_rings s (set_tail (ring_rx s) (rx_tail (cfg s))) (ring_tx s)) WReadTx)
    a b c a e g h.
Proof.
  intros I Ew. w_start I Ew.
  split; cbn; try done; try lia; [keep_cfg|keep_start| |keep_rx|keep_tx].
  by rewrite Hrx, Hrt.
Qed.

Lemma inv_worker_readtx s a b c d e g h : inv s a b c d e g h -> wpc s = WReadTx ->
  inv (set_w (set_rings s (ring_rx s) (set_head (ring_tx s) (tx_head (cfg s)))) WCheck)
    a b c d e g g.
Proof.
  intros I Ew. w_start I Ew.
  split; cbn; try done; try lia; [keep_cfg|keep_start| |keep_rx|keep_tx].
  by rewrite Htx, Hth.
Qed.

Lemma inv_worker_pubtx s a b c d e g h : inv s a b c d e g h -> wpc s = WPubTx ->
  inv (set_w (set_cfg s (set_tx_tail (cfg s) (tail (ring_tx s)))) WPubRx) a b c d c g h.
Proof.
  intros I Ew. w_start I Ew.
  split; cbn; try done; try lia; [keep_cfg|keep_start| |keep_rx|keep_tx].
  by rewrite Htx.
Qed.

Lemma inv_worker_pubrx s a b c d e g h : inv s a b c d e g h -> wpc s = WPubRx ->
  inv (set_w (set_cfg s (set_rx_head (cfg s) (head (ring_rx s)))) WReadRx) a c c d e g h.
Proof.
  intros I Ew. w_start I Ew.
  split; cbn; try done; try lia; [keep_cfg|keep_start| |keep_rx|keep_tx].
  by rewrite Hrx.
Qed.

Lemma inv_worker_step s s' a b c d e g h : inv s a b c d e g h ->
  worker_step B phys p cap s = Some s' ->
  exists a' b' c' d' e' g' h', inv s' a' b' c' d' e' g' h'.
Proof.
  intros I Hs. destruct (wpc s) eqn:Ew.
  all: try (by do 7 eexists; eapply inv_worker_check).
  all: unfold worker_step in Hs; rewrite Ew in Hs; simplify_eq.
  - do 7 eexists; by eapply inv_worker_configure.
  - do 7 eexists; by eapply inv_worker_start.
  - do 7 eexists; by eapply inv_worker_readrx.
  - do 7 eexists; by eapply inv_worker_readtx.
  - do 7 eexists; by eapply inv_worker_copy.
  - destruct (inv_worker_poppush _ _ _ _ _ _ _ _ I Ew) as (r & t & Er & Et & I').
    rewrite Er, Et in Hs. injection Hs as <-. by do 7 eexists.
  - do 7 eexists; by eapply inv_worker_pubtx.
  - do 7 eexists; by eapply inv_worker_pubrx.
Qed.

Lemma step_inv s s' a b c d e g h : inv s a b c d e g h -> step B phys p cap s s' ->
  exists a' b' c' d' e' g' h', inv s' a' b' c' d' e' g' h'.
Proof.
  intros I [s'' Hs|s'' Hs|s'' Hs].
  - do 7 eexists; by eapply inv_rx_step.
  - do 7 eexists; by eapply inv_tx_step.
  - by eapply inv_worker_step.
Qed.

Lemma reachable_inv hm s : reachable B phys p cap hm arrivals s ->
  exists a b c d e g h, inv s a b c d e g h.
Proof.
  induction 1 as [|s s' _ (a & b & c & d & e & g & h & I) Hst].
  - do 7 eexists; by eapply inv_init.
  - by eapply step_inv.
Qed.

(** ** Draining

  Each engine, when it has something to do, reaches the end of its cycle. *)

Notation steps := (rtc (step B phys p cap)).

Lemma steps_rx s s' s'' : rx_step s = Some s' -> steps s' s'' -> steps s s''.
Proof. intros H. apply rtc_l. by apply step_rx. Qed.
Lemma steps_tx s s' s'' : tx_step s = Some s' -> steps s' s'' -> steps s s''.
Proof. intros H. apply rtc_l. by apply step_tx. Qed.
Lemma steps_w s s' s'' : worker_step B phys p cap s = Some s' -> steps s' s'' -> steps s s''.
Proof. intros H. apply rtc_l. by apply step_worker. Qed.

(** What a run of one engine leaves alone. *)
Definition tx_frame (s s' : sys) : Prop := wpc s' = wpc s /\ rxs s' = rxs s.
Definition rx_frame (s s' : sys) : Prop := wpc s' = wpc s /\ txs s' = txs s.

Lemma tx_step_frame s s' : tx_step s = Some s' -> tx_frame s s'.
Proof.
  unfold tx_step. destruct (txs s); intros H; simplify_option_eq;
    repeat case_match; by simplify_eq.
Qed.

Lemma rx_step_frame s s' : rx_step s = Some s' -> rx_frame s s'.
Proof.
  unfold rx_step. destruct (rxs s); intros H; simplify_option_eq;
    repeat case_match; by simplify_eq.
Qed.

Definition tx_rank (pc : tx_pc) : nat :=
  match pc with
  | TxPublish _ _ _ _ => 0 | TxDma _ _ _ _ => 1 | TxWait _ _ _ _ => 2 | TxHead _ _ => 3
  | TxSend _ _ _ => 4 | TxLoad => 4 | TxStart => 5
  end.

Definition rx_rank (s : sys) : nat :=
  match rxs s with
  | RxPublish _ _ _ => 0 | RxDma _ _ _ _ _ => 1 | RxWait _ _ _ _ _ => 2 | RxTail _ _ _ => 3
  | RxRecv _ _ => 4 + length (wire_in s) | RxLoad => 5 + length (wire_in s)
  | RxStart => 6 + length (wire_in s)
  end.

Lemma tx_step_rank s s' : tx_step s = Some s' -> tx_rank (txs s) <> 0%nat ->
  (tx_rank (txs s') < tx_rank (txs s))%nat.
Proof.
  unfold tx_step. destruct (txs s); intros H Hr; cbn in *; try lia;
    repeat case_match; simplify_eq; cbn; lia.
Qed.

Lemma rx_step_rank s s' : rx_step s = Some s' -> rx_rank s <> 0%nat ->
  (rx_rank s' < rx_rank s)%nat.
Proof.
  intros H Hr. unfold rx_rank in Hr. unfold rx_rank at 2. unfold rx_step in H.
  destruct (rxs s) eqn:Ep; try done;
    repeat match type of H with context [match ?x with _ => _ end] => destruct x end;
    simplify_eq; unfold rx_rank; cbn; rewrite ?Ep; cbn; lia.
Qed.

(** The TX engine is not stuck while the host is ahead of it, nor the RX
    engine while the ring has room and replies are due. *)
Lemma tx_enabled s a b c d e g h : inv s a b c d e g h -> started s -> g < e ->
  exists s', tx_step s = Some s'.
Proof.
  intros I St Hg. pose proof (i_tx _ _ _ _ _ _ _ _ I) as Htx.
  unfold tx_step. unfold tx_ok in Htx. destruct (txs s); try by eexists.
  - destruct (Z.eqb_spec (start_signal (cfg s)) 0) as [E|]; [|by eexists].
    by destruct (i_start _ _ _ _ _ _ _ _ I St).
  - destruct Htx as (_ & _ & _ & _ & -> & _). rewrite (i_tt _ _ _ _ _ _ _ _ I).
    destruct (Z.eqb_spec (off k p g) (off k p e)) as [E|]; [|by eexists].
    apply off_inj in E; [lia|done|apply p_pos|].
    pose proof (i_ord _ _ _ _ _ _ _ _ I). lia.
Qed.

Lemma rx_enabled s a b c d e g h : inv s a b c d e g h -> started s ->
  a - b < k - 1 -> a < Z.of_nat (length R) -> exists s', rx_step s = Some s'.
Proof.
  intros I St Hab Ha. pose proof (i_rx _ _ _ _ _ _ _ _ I) as Hrx.
  pose proof (i_ord _ _ _ _ _ _ _ _ I) as Ho.
  unfold rx_step. unfold rx_ok in Hrx. destruct (rxs s); try by eexists.
  - destruct (Z.eqb_spec (start_signal (cfg s)) 0) as [E|]; [|by eexists].
    by destruct (i_start _ _ _ _ _ _ _ _ I St).
  - destruct (wire_in s) as [|x l]; [|destruct (filter_packets psz (arr_pkt x)); by eexists].
    destruct Hrx as (_ & _ & _ & Hd). exfalso.
    apply (f_equal length) in Hd. rewrite length_drop in Hd.
    change (replies p []) with (@nil (list Z)) in Hd. cbn in Hd. lia.
  - destruct Hrx as (_ & _ & _ & _ & _ & ->). rewrite (i_rh _ _ _ _ _ _ _ _ I).
    destruct (Z.eqb_spec (off k p (a + 1)) (off k p b)) as [E|]; [|by eexists].
    apply off_inj in E; [lia|done|apply p_pos|lia].
Qed.

(** With an entry to send, the TX engine completes a cycle. *)
Lemma tx_cycle n s a b c d e g h : inv s a b c d e g h -> started s -> g < e ->
  (tx_rank (txs s) <= n)%nat ->
  exists s', steps s s' /\ inv s' a b c d e (g + 1) h /\ tx_frame s s'.
Proof.
  revert s. induction n as [|n IH]; intros s I St Hg Hn;
    destruct (tx_enabled _ _ _ _ _ _ _ _ I St Hg) as [s1 Hs];
    pose proof (inv_tx_step _ _ _ _ _ _ _ _ _ I Hs) as I1;
    pose proof (tx_step_frame _ _ Hs) as [F1 F2].
  - exists s1. split; [by eapply steps_tx, rtc_refl|].
    destruct (txs s); cbn in Hn; by try lia.
  - destruct (decide (tx_rank (txs s) = 0%nat)) as [E|E]; [apply (IH s); try done; lia|].
    pose proof (tx_step_rank _ _ Hs E) as Hr.
    assert (inv s1 a b c d e g h) as I2 by (by destruct (txs s)).
    assert (started s1) as St1 by (unfold started; by rewrite F1).
    destruct (IH s1 I2 St1 Hg ltac:(lia)) as (s' & Hss & I' & F3 & F4).
    exists s'. split; [by eapply steps_tx|]. split; [done|]. split; congruence.
Qed.

(** With room in the ring and replies due, the RX engine completes a cycle. *)
Lemma rx_cycle n s a b c d e g h : inv s a b c d e g h -> started s ->
  a - b < k - 1 -> a < Z.of_nat (length R) -> (rx_rank s <= n)%nat ->
  exists s', steps s s' /\ inv s' (a + 1) b c d e g h /\ rx_frame s s'.
Proof.
  revert s. induction n as [|n IH]; intros s I St Hab Ha Hn;
    destruct (rx_enabled _ _ _ _ _ _ _ _ I St Hab Ha) as [s1 Hs];
    pose proof (inv_rx_step _ _ _ _ _ _ _ _ _ I Hs) as I1;
    pose proof (rx_step_frame _ _ Hs) as [F1 F2].
  - exists s1. split; [by eapply steps_rx, rtc_refl|].
    unfold rx_rank in Hn. destruct (rxs s); cbn in Hn; by try lia.
  - destruct (decide (rx_rank s = 0%nat)) as [E|E]; [apply (IH s); try done; lia|].
    pose proof (rx_step_rank _ _ Hs E) as Hr.
    assert (inv s1 a b c d e g h) as I2.
    { unfold rx_rank in E. by destruct (rxs s). }
    assert (started s1) as St1 by (unfold started; by rewrite F1).
    destruct (IH s1 I2 St1 Hab Ha ltac:(lia)) as (s' & Hss & I' & F3 & F4).
    exists s'. split; [by eapply steps_rx|]. split; [done|]. split; congruence.
Qed.

(** The worker, wherever it is, returns to the top of its loop. *)
Definition settles (s : sys) (a g : Z) : Prop :=
  exists s' c d h, steps s s' /\ inv s' a c c d c g h /\ wpc s' = WReadRx.

Lemma settles_step s s' a g : worker_step B phys p cap s = Some s' ->
  settles s' a g -> settles s a g.
Proof.
  intros Hs (s'' & c & d & h & Hss & I & Ew). exists s'', c, d, h.
  split; [by eapply steps_w|done].
Qed.

Ltac w_go Ew := eapply settles_step; [unfold worker_step; rewrite Ew; reflexivity|].

Lemma settle_top s a b c d e g h : inv s a b c d e g h -> wpc s = WReadRx -> settles s a g.
Proof.
  intros I Ew. pose proof (i_w _ _ _ _ _ _ _ _ I) as Hw. unfold w_ok in Hw.
  rewrite Ew in Hw. destruct Hw as [-> ->]. exists s, c, d, h. split; [apply rtc_refl|done].
Qed.

Lemma settle_pubrx s a b c d e g h : inv s a b c d e g h -> wpc s = WPubRx -> settles s a g.
Proof.
  intros I Ew. w_go Ew. by eapply settle_top, eq_refl; apply inv_worker_pubrx in I.
Qed.

Lemma settle_pubtx s a b c d e g h : inv s a b c d e g h -> wpc s = WPubTx -> settles s a g.
Proof.
  intros I Ew. w_go Ew. by eapply settle_pubrx, eq_refl; apply inv_worker_pubtx in I.
Qed.

Lemma settle_poppush s a b c d e g h : inv s a b c d e g h -> wpc s = WPopPush -> settles s a g.
Proof.
  intros I Ew. destruct (inv_worker_poppush _ _ _ _ _ _ _ _ I Ew) as (r & t & Er & Et & I').
  eapply settles_step; [unfold worker_step; rewrite Ew, Er, Et; reflexivity|].
  by eapply settle_pubtx, eq_refl.
Qed.

Lemma settle_copy s a b c d e g h : inv s a b c d e g h -> wpc s = WCopy -> settles s a g.
Proof.
  intros I Ew. w_go Ew. by eapply settle_poppush, eq_refl; apply inv_worker_copy in I.
Qed.

Lemma check_enabled s a b c d e g h : inv s a b c d e g h -> wpc s = WCheck ->
  exists s', worker_step B phys p cap s = Some s' /\
    wpc s' = (if d - c =? 0 then WReadRx else if c - h =? k - 1 then WReadRx else WCopy) /\
    inv s' a b c d e g h /\ rxs s' = rxs s /\ txs s' = txs s.
Proof.
  intros I Ew.
  assert (exists s', worker_step B phys p cap s = Some s' /\
    wpc s' = (if d - c =? 0 then WReadRx else if c - h =? k - 1 then WReadRx else WCopy) /\
    rxs s' = rxs s /\ txs s' = txs s) as (s' & Hs & E & Er & Et).
  { unfold worker_step. rewrite Ew.
    rewrite (rb_empty_iff (view_rx _ _ _ _ _ _ _ _ I)).
    rewrite (rb_full_iff (view_tx _ _ _ _ _ _ _ _ I)).
    destruct (d - c =? 0); [by eexists|]. destruct (c - h =? k - 1); by eexists. }
  exists s'. split; [done|]. split; [done|]. split; [by eapply inv_worker_check|done].
Qed.

Lemma settle_check s a b c d e g h : inv s a b c d e g h -> wpc s = WCheck -> settles s a g.
Proof.
  intros I Ew. destruct (check_enabled _ _ _ _ _ _ _ _ I Ew) as (s' & Hs & E & I' & _).
  eapply settles_step; [done|].
  destruct (d - c =? 0); [by eapply settle_top|].
  destruct (c - h =? k - 1); [by eapply settle_top|by eapply settle_copy].
Qed.

Lemma settle_readtx s a b c d e g h : inv s a b c d e g h -> wpc s = WReadTx -> settles s a g.
Proof.
  intros I Ew. w_go Ew. by eapply settle_check, eq_refl; apply inv_worker_readtx in I.
Qed.

Lemma settle_start s a b c d e g h : inv s a b c d e g h -> wpc s = WStartSignal -> settles s a g.
Proof.
  intros I Ew. w_go Ew. by eapply settle_top, eq_refl; apply inv_worker_start in I.
Qed.

Lemma settle_configure s a b c d e g h : inv s a b c d e g h -> wpc s = WConfigure -> settles s a g.
Proof.
  intros I Ew. pose proof (i_w _ _ _ _ _ _ _ _ I) as Hw. unfold w_ok in Hw.
  rewrite Ew in Hw. destruct Hw as (_ & _ & _ & -> & -> & _).
  w_go Ew. by eapply settle_start, eq_refl; apply inv_worker_configure in I.
Qed.

Lemma worker_settles s a b c d e g h : inv s a b c d e g h -> settles s a g.
Proof.
  intros I. destruct (wpc s) eqn:Ew; eauto using settle_configure, settle_start, settle_top,
    settle_readtx, settle_check, settle_copy, settle_poppush, settle_pubtx, settle_pubrx.
  pose proof (i_w _ _ _ _ _ _ _ _ I) as Hw. unfold w_ok in Hw. by rewrite Ew in Hw.
Qed.

(** One pass of the loop that copies a packet. *)
Lemma worker_cycle s a c d g h : inv s a c c d c g h -> wpc s = WReadRx ->
  c < a -> c - g < k - 1 ->
  exists s', steps s s' /\ inv s' a (c + 1) (c + 1) a (c + 1) g g /\ started s'.
Proof.
  intros I0 E0 Hc Hg.
  pose proof (inv_worker_readrx _ _ _ _ _ _ _ _ I0 E0) as I1.
  pose proof (inv_worker_readtx _ _ _ _ _ _ _ _ I1 eq_refl) as I2.
  destruct (check_enabled _ _ _ _ _ _ _ _ I2 eq_refl) as (s3 & H3 & E3 & I3 & _).
  destruct (Z.eqb_spec (a - c) 0); [lia|]. destruct (Z.eqb_spec (c - g) (k - 1)); [lia|].
  pose proof (inv_worker_copy _ _ _ _ _ _ _ _ I3 E3) as I4.
  destruct (inv_worker_poppush _ _ _ _ _ _ _ _ I4 eq_refl) as (r & t & Er & Et & I5).
  pose proof (inv_worker_pubtx _ _ _ _ _ _ _ _ I5 eq_refl) as I6.
  pose proof (inv_worker_pubrx _ _ _ _ _ _ _ _ I6 eq_refl) as I7.
  eexists. split; [|by split; [exact I7|]].
  eapply steps_w; [unfold worker_step; rewrite E0; reflexivity|].
  eapply steps_w; [reflexivity|]. eapply steps_w; [exact H3|].
  eapply steps_w; [unfold worker_step; rewrite E3; reflexivity|].
  eapply steps_w; [unfold worker_step; cbn in Er, Et |- *; rewrite Er, Et; reflexivity|].
  eapply steps_w; [reflexivity|]. eapply steps_w; [reflexivity|apply rtc_refl].
Qed.

(** From every state of the invariant the pipeline can send everything that is
    due. *)
Lemma inv_drain n s a b c d e g h : 2 <= k -> inv s a b c d e g h ->
  (Z.to_nat (Z.of_nat (length R) - a) + Z.to_nat (Z.of_nat (length R) - g) <= n)%nat ->
  exists s', steps s s' /\ wire_out s' = R.
Proof.
  intros Hk. revert s a b c d e g h. induction n as [n IH] using lt_wf_ind.
  intros s0 a b0 c0 d0 e0 g h0 I0 Hn.
  destruct (worker_settles _ _ _ _ _ _ _ _ I0) as (s & c & d & h & Hss & I & Ew).
  assert (started s) as St by (unfold started; by rewrite Ew).
  pose proof (i_ord _ _ _ _ _ _ _ _ I) as Ho. pose proof (i_len _ _ _ _ _ _ _ _ I) as Hl.
  cut (exists s', steps s s' /\ wire_out s' = R).
  { intros (s' & ? & ?). exists s'. split; [by etrans|done]. }
  clear Hss I0 s0 b0 c0 d0 e0 h0.
  destruct (decide (g < c)) as [Hgc|Hgc].
  { destruct (tx_cycle _ _ _ _ _ _ _ _ _ I St Hgc (le_n _)) as (s1 & Hs1 & I1 & _).
    destruct (IH (n - 1)%nat ltac:(lia) _ _ _ _ _ _ _ _ I1 ltac:(lia)) as (s' & ? & ?).
    exists s'. split; [by etrans|done]. }
  assert (g = c) as -> by lia. destruct (decide (c < a)) as [Hca|Hca].
  { destruct (worker_cycle _ _ _ _ _ _ I Ew Hca ltac:(lia)) as (s1 & Hs1 & I1 & St1).
    destruct (tx_cycle _ _ _ _ _ _ _ _ _ I1 St1 ltac:(lia) (le_n _)) as (s2 & Hs2 & I2 & _).
    destruct (IH (n - 1)%nat ltac:(lia) _ _ _ _ _ _ _ _ I2 ltac:(lia)) as (s' & ? & ?).
    exists s'. split; [by do 2 (etrans; [done|])|done]. }
  assert (c = a) as -> by lia. destruct (decide (a < Z.of_nat (length R))) as [Ha|Ha].
  { destruct (rx_cycle _ _ _ _ _ _ _ _ _ I St ltac:(lia) Ha (le_n _)) as (s1 & Hs1 & I1 & _).
    destruct (IH (n - 1)%nat ltac:(lia) _ _ _ _ _ _ _ _ I1 ltac:(lia)) as (s' & ? & ?).
    exists s'. split; [by etrans|done]. }
  pose proof (i_tx _ _ _ _ _ _ _ _ I) as Htx. unfold tx_ok in Htx.
  rewrite take_ge in Htx by lia.
  destruct (txs s) eqn:Et;
    try (exists s; split; [apply rtc_refl|]; tauto).
  destruct Htx as (_ & _ & _ & Hw). eexists.
  split; [eapply steps_tx; [unfold tx_step; by rewrite Et|apply rtc_refl]|done].
Qed.

Lemma inv_prefix s a b c d e g h : inv s a b c d e g h -> wire_out s `prefix_of` R.
Proof.
  intros I. pose proof (i_tx _ _ _ _ _ _ _ _ I) as Htx. unfold tx_ok in Htx.
  assert (take (Z.to_nat g) R `prefix_of` R) as Hp
    by (eexists; symmetry; apply (take_drop (Z.to_nat g))).
  assert (wire_out s = take (Z.to_nat g) R \/
    exists f, wire_out s ++ [f] = take (Z.to_nat g) R) as [->|[f Hf]].
  { destruct (txs s); try (left; tauto). right. eexists. apply Htx. }
  - done.
  - etrans; [|exact Hp]. rewrite <- Hf. by apply prefix_app_r.
Qed.
End Invariant.
