(* ===== verification/EchoThms.v ===== *)
(** * Correctness of the echo pipeline

    The theorems about [Echo.step], from the invariant of [EchoInv], and the link
    between the frame-level RX step and the packet operations. *)

From S2P Require Export EchoInv.

Local Open Scope Z_scope.

(** What the deployment provides: the buffer is [k] packets of at least 44 bytes
    (the header the firmware rewrites), the two memzones are disjoint 40-bit I/O
    ranges, and the process's mapping of each is contiguous. *)
Record ring_config (B : buffers) (phys : Z -> Z) (k p : Z) : Prop := {
  rc_k : 0 < k;
  rc_p : 44 <= p;
  rc_32 : is_u32 (k * p + p);
  rc_rx : 0 <= brx_iova B /\ brx_iova B + k * p <= 0x10000000000;
  rc_tx : 0 <= btx_iova B /\ btx_iova B + k * p <= 0x10000000000;
  rc_disjoint : brx_iova B + k * p <= btx_iova B \/ btx_iova B + k * p <= brx_iova B;
  rc_phys_rx : forall o, 0 <= o < k * p -> phys (brx_addr B + o) = brx_iova B + o;
  rc_phys_tx : forall o, 0 <= o < k * p -> phys (btx_addr B + o) = btx_iova B + o
}.

Lemma config_inv B phys k p arrivals hm s : ring_config B phys k p -> Forall arr_ok arrivals ->
  reachable B phys p (k * p) hm arrivals s ->
  exists a b c d e g h, inv B k p arrivals s a b c d e g h.
Proof. intros [] Ha Hr. eapply reachable_inv; eassumption. Qed.

(** The host ranges of the two DMA transfers about to be made. *)
Lemma rx_dma_range B phys k p arrivals hm s cap psz f t u :
  ring_config B phys k p -> Forall arr_ok arrivals -> reachable B phys p (k * p) hm arrivals s ->
  rxs s = RxDma cap psz f t u ->
  psz = p /\ Z.of_nat (length f) = p /\ brx_iova B <= u64 (rx_buffer_iova (cfg s) + t) /\
  u64 (rx_buffer_iova (cfg s) + t) + p <= brx_iova B + k * p.
Proof.
  intros Hc Ha Hr E. destruct (config_inv _ _ _ _ _ _ _ Hc Ha Hr) as (a & b & c & d & e & g & h & I).
  destruct Hc. assert (0 < p) as Hp by lia. destruct I. unfold rx_ok in i_rx. rewrite E in i_rx.
  destruct i_rx as (St & _ & -> & Ht & -> & _). destruct (i_cfg (started_configured _ St)) as (-> & _).
  rewrite (rx_addr B k p) by eassumption. pose proof (off_range k p rc_k0 Hp a).
  apply todo_head in Ht. erewrite (replies_in_range B k p) by eassumption. lia.
Qed.

Lemma tx_dma_range B phys k p arrivals hm s cap psz hd u :
  ring_config B phys k p -> Forall arr_ok arrivals -> reachable B phys p (k * p) hm arrivals s ->
  txs s = TxDma cap psz hd u ->
  psz = p /\ btx_iova B <= u64 (tx_buffer_iova (cfg s) + hd) /\
  u64 (tx_buffer_iova (cfg s) + hd) + p <= btx_iova B + k * p.
Proof.
  intros Hc Ha Hr E. destruct (config_inv _ _ _ _ _ _ _ Hc Ha Hr) as (a & b & c & d & e & g & h & I).
  destruct Hc. assert (0 < p) as Hp by lia. destruct I. unfold tx_ok in i_tx. rewrite E in i_tx.
  destruct i_tx as (St & _ & -> & _ & -> & _). destruct (i_cfg (started_configured _ St)) as (_ & -> & _).
  rewrite (tx_addr B k p) by eassumption. pose proof (off_range k p rc_k0 Hp g). lia.
Qed.

(** C1 (safety): whatever the interleaving of the two micro-engines and the host
    worker, the frames transmitted so far are an initial segment of the echoes
    of the packets the filter accepts, in order of arrival: none is lost,
    duplicated, reordered or overwritten in either ring. *)
Theorem echo_fifo B phys k p arrivals hm s :
  ring_config B phys k p -> Forall arr_ok arrivals ->
  reachable B phys p (k * p) hm arrivals s ->
  wire_out s `prefix_of` replies p arrivals.
Proof.
  intros Hc Ha Hr. destruct (config_inv _ _ _ _ _ _ _ Hc Ha Hr) as (a & b & c & d & e & g & h & I).
  destruct Hc. eapply inv_prefix; (eassumption || done).
Qed.

(** C2 (liveness): with room for at least two packets in the ring, from every
    reachable state some continuation transmits the echo of every accepted
    packet: the two rings and the polling loops cannot deadlock. *)
Theorem echo_drains B phys k p arrivals hm s :
  ring_config B phys k p -> Forall arr_ok arrivals -> 2 <= k ->
  reachable B phys p (k * p) hm arrivals s ->
  exists s', rtc (step B phys p (k * p)) s s' /\ wire_out s' = replies p arrivals.
Proof.
  intros Hc Ha Hk Hr. destruct (config_inv _ _ _ _ _ _ _ Hc Ha Hr) as (a & b & c & d & e & g & h & I).
  destruct Hc. eapply inv_drain; (eassumption || done).
Qed.

(** C3 (bounds): in every reachable state the worker has not aborted on an
    assertion, and the RX DMA, the TX DMA and the worker's copy about to be made
    lie inside their ring buffers. *)
Theorem echo_accesses_in_bounds B phys k p arrivals hm s :
  ring_config B phys k p -> Forall arr_ok arrivals ->
  reachable B phys p (k * p) hm arrivals s ->
  wpc s <> WAbort /\
  (forall cap psz f t u, rxs s = RxDma cap psz f t u ->
    brx_iova B <= u64 (rx_buffer_iova (cfg s) + t) /\
    u64 (rx_buffer_iova (cfg s) + t) + Z.of_nat (length f) <= brx_iova B + k * p) /\
  (forall cap psz hd u, txs s = TxDma cap psz hd u ->
    btx_iova B <= u64 (tx_buffer_iova (cfg s) + hd) /\
    u64 (tx_buffer_iova (cfg s) + hd) + psz <= btx_iova B + k * p) /\
  brx_addr B <= ringbuffer_front (ring_rx s) /\
  ringbuffer_front (ring_rx s) + p <= brx_addr B + k * p /\
  btx_addr B <= ringbuffer_back (ring_tx s) /\
  ringbuffer_back (ring_tx s) + p <= btx_addr B + k * p.
Proof.
  intros Hc Ha Hr. destruct (config_inv _ _ _ _ _ _ _ Hc Ha Hr) as (a & b & c & d & e & g & h & I).
  split; [destruct I; unfold w_ok in i_w; intros E; by rewrite E in i_w|].
  split.
  { intros cap psz f t u E. destruct (rx_dma_range _ _ _ _ _ _ _ _ _ _ _ _ Hc Ha Hr E) as (_ & -> & H). exact H. }
  split.
  { intros cap psz hd u E. destruct (tx_dma_range _ _ _ _ _ _ _ _ _ _ _ Hc Ha Hr E) as (-> & H). exact H. }
  destruct Hc. assert (0 < p) as Hp by lia. destruct I.
  rewrite i_wrx, i_wtx. unfold ringbuffer_front, ringbuffer_back. cbn.
  pose proof (off_range k p rc_k0 Hp c). lia.
Qed.

(** ** Concrete runs *)

Inductive thread := RX | TX | WK.

(** Runs the threads in the order of the schedule; a waiting thread is skipped. *)
Fixpoint run (B : buffers) (phys : Z -> Z) (p cap : Z) (l : list thread) (s : sys) : sys :=
  match l with
  | [] => s
  | t :: l =>
      let r := match t with
               | RX => rx_step s | TX => tx_step s | WK => worker_step B phys p cap s
               end in
      run B phys p cap l (default s r)
  end.

Lemma run_reachable B phys p cap hm arrivals l s : reachable B phys p cap hm arrivals s ->
  reachable B phys p cap hm arrivals (run B phys p cap l s).
Proof.
  revert s. induction l as [|t l IH]; intros s Hs; [done|]. cbn. apply IH.
  destruct t; [destruct (rx_step s) eqn:E|destruct (tx_step s) eqn:E
    |destruct (worker_step B phys p cap s) eqn:E]; cbn; try done;
  eapply reach_step; eauto using step_rx, step_tx, step_worker.
Qed.

(** The shipped sizes: 64-byte packets in a 512-byte ring. *)
Definition ex_buffers : buffers := mk_buffers 0x7f0000000 0x10000000 0x7f0200000 0x10200000.
Definition ex_phys (v : Z) : Z := v - 0x7f0000000 + 0x10000000.

Lemma ex_config : ring_config ex_buffers ex_phys 8 64.
Proof. split; unfold is_u32, ex_phys; cbn; lia. Qed.

(** A UDP frame whose other bytes identify it, and an ARP frame. *)
Definition ex_frame (proto ty i : Z) : list Z :=
  replicate 6 1 ++ replicate 6 2 ++ [ty; 0] ++ replicate 9 i ++ [proto] ++ replicate 40 i.

Definition ex_arrival (f : list Z) : arrival :=
  mk_arrival (mk_nbi_meta (mk_pkt_info 33 5 0 7 1 72) 0 0) (replicate 8 0) f.

Definition ex_arrivals : list arrival :=
  ex_arrival <$> [ex_frame 17 8 1; ex_frame 17 6 2; ex_frame 1 8 3].

Lemma ex_arrivals_ok : Forall arr_ok ex_arrivals.
Proof. repeat (apply Forall_cons; split; [repeat split; vm_compute; lia || done|]). by apply Forall_nil. Qed.

Definition ex_schedule : list thread :=
  concat (replicate 40 [RX; WK; TX; WK; RX; TX]).

Definition ex_run : sys :=
  run ex_buffers ex_phys 64 512 ex_schedule (sys_init ex_buffers 64 512 (fun _ => 0) ex_arrivals).

Lemma ex_run_reachable : reachable ex_buffers ex_phys 64 512 (fun _ => 0) ex_arrivals ex_run.
Proof. apply run_reachable, reach_init. Qed.

(** Both accepted frames have come back; the third is an echo reply. *)
Lemma echo_fifo_witness :
  wire_out ex_run `prefix_of` replies 64 ex_arrivals /\ length (wire_out ex_run) = 2%nat.
Proof.
  split; [|by vm_compute].
  apply (echo_fifo ex_buffers ex_phys 8 64 ex_arrivals (fun _ => 0) ex_run
    ex_config ex_arrivals_ok ex_run_reachable).
Defined.

Lemma echo_drains_witness :
  exists s', rtc (step ex_buffers ex_phys 64 512) ex_run s' /\
    wire_out s' = replies 64 ex_arrivals.
Proof.
  apply (echo_drains ex_buffers ex_phys 8 64 ex_arrivals (fun _ => 0) ex_run
    ex_config ex_arrivals_ok ltac:(lia) ex_run_reachable).
Defined.

Lemma echo_accesses_in_bounds_witness : wpc ex_run <> WAbort.
Proof.
  apply (echo_accesses_in_bounds ex_buffers ex_phys 8 64 ex_arrivals (fun _ => 0) ex_run
    ex_config ex_arrivals_ok ex_run_reachable).
Defined.
