(* ===== verification/RxPath.v ===== *)
(** * The packet path of the RX engine ([firmware/rx.c], steps 1-5, 7 and 9)

    [rx_process] without its ring arithmetic, on NIC and host memory; and the
    proof that it implements the frame-level steps of [Echo]: the verdict is the
    one on the arrival, and what reaches host memory is the arrival's echo. *)

From S2P Require Export EchoThms.

Local Open Scope Z_scope.

Section RxPath.
Context {W : Type} `{NbiEngine W, DmaEngine W}.

(** Steps 4, 5 and 7: rewrite, write back, transfer. *)
Definition rx_forward (w : W) (pkt : pkt_t) (pcie_addr ctm_sig buf_sig : Z) : W :=
  let pkt := modify_packet_header pkt in
  let w := write_packet_header w pkt in
  dma_packet_send w pkt pcie_addr ctm_sig buf_sig.

(** All packet operations of one [rx_process], given the address computed from
    the ring. *)
Definition rx_packet (w : W) (packet_size pcie_addr ctm_sig buf_sig : Z) : W :=
  let '(_, pkt, w) := receive_packet_with_hdrs w in
  match filter_packets packet_size pkt with
  | DROP => drop_packet w pkt
  | ALLOW => drop_packet (rx_forward w pkt pcie_addr ctm_sig buf_sig) (modify_packet_header pkt)
  end.
End RxPath.

Section Refinement.
Context {W : Type} `{DmaLaws W, !NbiLaws W}.

(** The arrival that a received packet's buffers represent. *)
Definition arrival_of (w : W) (pkt : pkt_t) (n : Z) : arrival :=
  mk_arrival (nbi_meta pkt) (load (nfp_mem w) (pkt_addr pkt PKT_NBI_OFFSET) 8)
    (packet_frame (nfp_mem w) pkt 8 n).

Lemma arrival_pkt w pkt n : 44 <= n <= 4280 ->
  arr_pkt (arrival_of w pkt n) = read_packet_header w pkt.
Proof using Type*.
  intros Hn. unfold arr_pkt, read_packet_header. cbn [arr_meta arr_prefix arr_frame arrival_of].
  f_equal. f_equal. change (Z.of_nat sizeof_pkt_hdr) with (8 + 44).
  rewrite load_app by lia. f_equal. unfold packet_frame.
  destruct (transfer_lens 8 n) as [_ E]; [lia..|]. rewrite E.
  replace (Z.min (192 - 8) n) with (44 + (Z.min 184 n - 44)) by lia.
  rewrite load_app by lia. rewrite <- app_assoc, take_app_length' by (by rewrite load_length).
  f_equal. rewrite (pkt_addr_hdr pkt (PKT_NBI_OFFSET + 8)); unfold PKT_NBI_OFFSET; lia.
Qed.

(** The frame in the buffers once the rewritten header is written back. *)
Lemma write_echo_frame w pkt0 n :
  let pkt := read_packet_header w pkt0 in
  bytes_ok (load (nfp_mem w) (pkt_addr pkt0 PKT_NBI_OFFSET) (Z.of_nat sizeof_pkt_hdr)) ->
  44 <= n <= 4280 -> buffers_ok pkt n ->
  packet_frame (nfp_mem (write_packet_header w (modify_packet_header pkt))) pkt 8 n
  = echo_frame (packet_frame (nfp_mem w) pkt 8 n).
Proof using Type*.
  intros pkt Hu8 Hn [_ Hb]. destruct (transfer_lens 8 n) as [E1 E2]; [lia..|].
  unfold packet_frame. rewrite E1, E2. change (PKT_NBI_OFFSET + 8) with 72.
  pose proof (write_echo_header w pkt0 (Z.min (192 - 8) n) Hu8 ltac:(lia)) as Hw.
  cbv zeta in Hw. fold pkt in Hw. rewrite Hw.
  rewrite echo_frame_app by (rewrite load_length; lia). f_equal.
  apply load_ext. intros y Hy. apply write_header_out.
  change (pkt_addr (modify_packet_header pkt) PKT_NBI_OFFSET) with (pkt_addr pkt PKT_NBI_OFFSET). lia.
Qed.

(** For a packet of [n] bytes just received, with nothing else
    in flight, the filter decides as on its arrival, and rewriting, writing back
    and transferring it stores the echo of its frame at the host address: the
    steps [RxRecv] and [RxDma] of the pipeline. *)
Lemma rx_path_implements_echo w m w1 n p cs bs psz :
  nbi_recv w = (m, w1) ->
  let '(_, pkt, w2) := receive_packet_with_hdrs w in
  let a := arrival_of w2 pkt n in
  len (pkt_info m) = n + 8 -> 44 <= n <= 4280 -> dma_pending w1 = [] ->
  (forall x, is_u8 (nfp_mem w1 x)) -> buffers_ok pkt n -> 0 <= p -> p + n <= 0x10000000000 ->
  w2 = w1 /\ filter_packets psz pkt = filter_packets psz (arr_pkt a) /\
  dma_pending (rx_forward w2 pkt p cs bs) = [] /\
  forall x, host_mem (rx_forward w2 pkt p cs bs) x
            = store (host_mem w1) p (echo_frame (arr_frame a)) x.
Proof using Type*.
  intros E. unfold receive_packet_with_hdrs. rewrite E.
  set (pkt0 := mk_pkt m (hdr_of_bytes [])).
  intros Hlen Hn Hpend Hu8 Hb Hp Hpn.
  split; [done|]. split.
  { f_equal. symmetry. rewrite arrival_pkt by done. done. }
  set (pkt := read_packet_header w1 pkt0) in *.
  unfold rx_forward. set (w' := write_packet_header w1 (modify_packet_header pkt)).
  destruct (set_mem_host w1 (store (nfp_mem w1) (pkt_addr (modify_packet_header pkt) PKT_NBI_OFFSET)
    (hdr_bytes (hdr (modify_packet_header pkt))))) as [Hh Hd].
  fold (write_packet_header w1 (modify_packet_header pkt)) in Hh, Hd. fold w' in Hh, Hd.
  destruct (dma_packet_send_stores_frame w' (modify_packet_header pkt) p cs bs n)
    as (D & _ & Hx); [congruence|done|lia|done|done|done|].
  split; [done|]. intros x. rewrite Hx, Hh. f_equal. apply write_echo_frame; [|done|done].
  apply Forall_forall. intros y (z & -> & _)%list_elem_of_fmap. apply Hu8.
Qed.
End Refinement.

Definition ex_nic : sim_nic :=
  mk_sim_nic (fun x => x mod 251) (fun _ => 0) []
    [mk_nbi_meta (mk_pkt_info 33 5 0 0x300 1 72) 0 0] [] [].

Lemma rx_path_implements_echo_witness :
  let '(_, pkt, w2) := receive_packet_with_hdrs ex_nic in
  host_mem (rx_forward w2 pkt 0x10000 1 3) 0x10000
  = store (fun _ => 0) 0x10000 (echo_frame (arr_frame (arrival_of w2 pkt 64))) 0x10000.
Proof.
  pose proof (rx_path_implements_echo ex_nic _ _ 64 0x10000 1 3 64
    (surjective_pairing (nbi_recv ex_nic))) as T.
  destruct (receive_packet_with_hdrs ex_nic) as [[a pkt] w2] eqn:E.
  assert (pkt = read_packet_header ex_nic (mk_pkt (mk_nbi_meta (mk_pkt_info 33 5 0 0x300 1 72) 0 0)
    (hdr_of_bytes []))) as -> by (by injection E).
  apply T; [done|lia|done| |split|lia|lia].
  - intros x. cbn. unfold is_u8. lia.
  - intros o Ho. cbn. unfold sim_ctm_ptr40. lia.
  - right. by vm_compute.
Defined.
