(* ===== verification/NicEcho.v ===== *)
(** * The pipeline with the firmware's packets ([firmware/rx.c], [firmware/tx.c])

    The system of [Echo] in detail: the RX and TX engines run the packet operations of
    [rxops.c], [txops.c] and [dma.c] on a card with packet buffers, beside the worker.
    A step of an engine is a numbered part of [rx_process] or [tx_process].  What the
    card does is the classes [NbiEngine] and [DmaEngine] and, for what arrives, what is
    sent and which buffers are in use, [NicWorld], with the laws [NicLaws]. *)

From S2P Require Export RxPath.

Local Open Scope Z_scope.

(** ** The card *)

(** [nbi_ready]: a packet is there for the next receive.  [nbi_in]: the packets that
    arrive, as the eight bytes before the frame and the frame; [nbi_out]: the frames
    sent, as the card hands them to the MAC: the checksums that the MAC command asks it
    to fill in are filled in past this point.  [ctm_used] has the buffers of the packet engine (island and number) that are
    not free, [mu_used] those of the buffer lists; of these, [mu_bytes] can be used
    from byte 256 on. *)
Class NicWorld (W : Type) `{NbiEngine W, DmaEngine W} := {
  set_host_mem : W -> mem -> W;
  nbi_ready : W -> bool;
  nbi_in : W -> list (list Z * list Z);
  nbi_out : W -> list (list Z);
  ctm_used : W -> gset (Z * Z);
  mu_used : W -> gset Z;
  mu_bytes : Z
}.

(** What the traffic is: frames that fit the buffers and the metadata's length. *)
Definition traffic_ok {W} `{NicWorld W} (t : list Z * list Z) : Prop :=
  length t.1 = 8%nat /\ (44 <= length t.2)%nat /\ Z.of_nat (length t.2) <= Z.min 4280 (184 + mu_bytes) /\
  bytes_ok (t.1 ++ t.2).

(** The arrival of the frame-level model: what the filter looks at. *)
Definition traffic_arrival (t : list Z * list Z) : arrival :=
  mk_arrival (mk_nbi_meta (mk_pkt_info 0 0 0 0 0 (Z.of_nat (length t.2) + 8)) 0 0) t.1 t.2.

Section Parts.
Context {W : Type} `{NicWorld W}.

Definition mu_addr (u : Z) : Z := u32 (u32 (Z.shiftl u 11) + 256).
Definition pkt_ctm (pkt : pkt_t) : Z * Z := (isl (pkt_info (nbi_meta pkt)), pnum (pkt_info (nbi_meta pkt))).
Definition pkt_mu (pkt : pkt_t) : Z := muptr (pkt_info (nbi_meta pkt)).

(** The addresses of a packet's buffers. *)
Definition in_ctm (b : Z * Z) (x : Z) : Prop := ctm_ptr40 b.1 b.2 0 <= x < ctm_ptr40 b.1 b.2 0 + 256.
Definition in_mu (u : Z) (x : Z) : Prop := mu_addr u <= x < mu_addr u + mu_bytes.
Definition in_pkt (b : Z * Z) (u : Z) (x : Z) : Prop := in_ctm b x \/ in_mu u x.

(** What an operation leaves alone: the card's memory but for the addresses [P]; host
    memory; the wire; and the buffers in use. *)
Definition touches (P : Z -> Prop) (w w' : W) : Prop := forall x, ~ P x -> nfp_mem w' x = nfp_mem w x.
Definition leaves (P : Z -> Prop) (w w' : W) : Prop := touches P w w' /\ host_mem w' = host_mem w.
Definition same_wire (w w' : W) : Prop := nbi_in w' = nbi_in w /\ nbi_out w' = nbi_out w.
Definition same_used (w w' : W) : Prop := ctm_used w' = ctm_used w /\ mu_used w' = mu_used w.
End Parts.

Definition nowhere (x : Z) : Prop := False.

(** ** Laws

    What the firmware relies on: receive and allocation hand out buffers that are free,
    buffers in use do not overlap, and a packet sent is the bytes from the offset that
    the modification script was written for, of the CTM buffer and then of the buffer
    that the metadata at its start names, without the MAC command, which the MAC acts on
    afterwards. *)
Class NicLaws (W : Type) `{DmaLaws W, !NbiLaws W, !NicWorld W} := {
  mu_bytes_ok : 0 < mu_bytes;
  ctm_range : forall w b o, b ∈ ctm_used w -> 0 <= o < 256 -> 0 <= ctm_ptr40 b.1 b.2 o < 0x10000000000;
  ctm_apart : forall w b b' x, b ∈ ctm_used w -> b' ∈ ctm_used w -> b <> b' -> in_ctm b x -> ~ in_ctm b' x;
  mu_apart : forall w u u' x, u ∈ mu_used w -> u' ∈ mu_used w -> u <> u' -> in_mu u x -> ~ in_mu u' x;
  ctm_mu_apart : forall w b u x, b ∈ ctm_used w -> u ∈ mu_used w -> in_ctm b x -> ~ in_mu u x;

  set_host_mem_laws : forall w m, let w' := set_host_mem w m in
    host_mem w' = m /\ nfp_mem w' = nfp_mem w /\ dma_pending w' = dma_pending w /\ same_wire w w' /\ same_used w w';
  set_nfp_mem_keeps : forall w m, same_wire w (set_nfp_mem w m) /\ same_used w (set_nfp_mem w m);
  dma_cfg_keeps : forall w a b c, same_wire w (dma_cfg_set_pair w a b c) /\ same_used w (dma_cfg_set_pair w a b c);
  dma_enq_keeps : forall w i c q s, same_wire w (pcie_dma_enq w i c q s) /\ same_used w (pcie_dma_enq w i c q s);
  dma_wait_keeps : forall w sigs, same_wire w (wait_for_all w sigs) /\ same_used w (wait_for_all w sigs);

  nbi_recv_laws : forall w, nbi_ready w = true ->
    exists pre f rest, nbi_in w = (pre, f) :: rest /\
    let '(m, w') := nbi_recv w in
    let pkt := mk_pkt m (hdr_of_bytes []) in
    len (pkt_info m) = Z.of_nat (length f) + 8 /\
    pkt_ctm pkt ∉ ctm_used w /\ pkt_mu pkt ∉ mu_used w /\
    ctm_used w' = {[pkt_ctm pkt]} ∪ ctm_used w /\ mu_used w' = {[pkt_mu pkt]} ∪ mu_used w /\
    nbi_in w' = rest /\ nbi_out w' = nbi_out w /\ dma_pending w' = dma_pending w /\
    leaves (in_pkt (pkt_ctm pkt) (pkt_mu pkt)) w w' /\
    (traffic_ok (pre, f) -> load (nfp_mem w') (pkt_addr pkt PKT_NBI_OFFSET) 8 = pre /\
       packet_frame (nfp_mem w') pkt 8 (Z.of_nat (length f)) = f);
  ctm_alloc_laws : forall w n w', ctm_alloc w me_island PKT_CTM_SIZE_256 true true = (Some n, w') ->
    (me_island, n) ∉ ctm_used w /\ ctm_used w' = {[(me_island, n)]} ∪ ctm_used w /\ mu_used w' = mu_used w /\
    same_wire w w' /\ dma_pending w' = dma_pending w /\ leaves nowhere w w';
  ctm_alloc_fails : forall w w', ctm_alloc w me_island PKT_CTM_SIZE_256 true true = (None, w') ->
    same_used w w' /\ same_wire w w' /\ dma_pending w' = dma_pending w /\ leaves nowhere w w';
  blm_buf_alloc_laws : forall w l u w', blm_buf_alloc w l = (Some u, w') ->
    u ∉ mu_used w /\ mu_used w' = {[u]} ∪ mu_used w /\ ctm_used w' = ctm_used w /\
    same_wire w w' /\ dma_pending w' = dma_pending w /\ leaves nowhere w w';
  blm_buf_alloc_fails : forall w l w', blm_buf_alloc w l = (None, w') ->
    same_used w w' /\ same_wire w w' /\ dma_pending w' = dma_pending w /\ leaves nowhere w w';
  ctm_free_laws : forall w i p, let w' := ctm_free w i p in
    ctm_used w' = ctm_used w ∖ {[(i, p)]} /\ mu_used w' = mu_used w /\
    same_wire w w' /\ dma_pending w' = dma_pending w /\ leaves nowhere w w';
  blm_buf_free_laws : forall w u l, let w' := blm_buf_free w u l in
    mu_used w' = mu_used w ∖ {[u]} /\ ctm_used w' = ctm_used w /\
    same_wire w w' /\ dma_pending w' = dma_pending w /\ leaves nowhere w w';
  nbi_drop_seq_laws : forall w i p m n a b sr sq z, let w' := nbi_drop_seq w i p m n a b sr sq z in
    same_used w w' /\ same_wire w w' /\ dma_pending w' = dma_pending w /\ leaves nowhere w w';

  (** The metadata is before the script, the script before the packet, the MAC command
      in its first four bytes. *)
  meta_size : Z;
  meta_bytes_length : forall m, Z.of_nat (length (meta_bytes m)) = meta_size;
  meta_size_ok : meta_size <= PKT_NBI_OFFSET;
  mac_egress_laws : forall w a o l3 l4, let w' := mac_egress_cmd_write w a o l3 l4 in
    same_used w w' /\ same_wire w w' /\ dma_pending w' = dma_pending w /\
    leaves (fun x => a + o - 4 <= x < a + o) w w';
  msd_write_laws : forall w a o, let '(_, w') := msd_write w a o in
    same_used w w' /\ same_wire w w' /\ dma_pending w' = dma_pending w /\
    leaves (fun x => a + meta_size <= x < a + o) w w';
  nbi_send_laws : forall w m h msi w1 n q,
    let pkt := mk_pkt m h in
    let i := pkt_info m in
    let w' := nbi_send w1 (isl i) (pnum i) msi n 0 q 0 0 PKT_CTM_SIZE_256 in
    pkt_ctm pkt ∈ ctm_used w1 -> pkt_mu pkt ∈ mu_used w1 ->
    msd_write w (pkt_addr pkt 0) PKT_NBI_OFFSET = (msi, w1) ->
    load (nfp_mem w1) (pkt_addr pkt 0) meta_size = meta_bytes m ->
    nbi_out w' = nbi_out w1 ++ [packet_frame (nfp_mem w1) pkt MAC_PREPEND_BYTES (n - MAC_PREPEND_BYTES)] /\
    nbi_in w' = nbi_in w1 /\ dma_pending w' = dma_pending w1 /\ leaves nowhere w1 w' /\
    ctm_used w' = ctm_used w1 ∖ {[pkt_ctm pkt]} /\ mu_used w' = mu_used w1 ∖ {[pkt_mu pkt]}
}.

(** ** The engines *)

(** [rx.c]; the numbers are those of the comments of [rx_process]. *)
Inductive frx_pc :=
| FRxStart
| FRxLoad
| FRxRecv (cap psz : Z)                                       (* 1, 2 *)
| FRxFilter (cap psz : Z) (pkt : pkt_t)                       (* 3 *)
| FRxModify (cap psz : Z) (pkt : pkt_t)                       (* 4, 5 *)
| FRxTail (cap psz : Z) (pkt : pkt_t)                         (* 6 *)
| FRxWait (cap psz : Z) (pkt : pkt_t) (tail updated_tail : Z)
| FRxDma (cap psz : Z) (pkt : pkt_t) (tail updated_tail : Z)  (* 7 *)
| FRxPublish (cap psz : Z) (pkt : pkt_t) (updated_tail : Z)   (* 8 *)
| FRxFree (cap psz : Z) (pkt : pkt_t).                        (* 9 *)

(** [tx.c]. *)
Inductive ftx_pc :=
| FTxStart
| FTxLoad
| FTxAlloc (cap psz : Z)                                      (* 1 *)
| FTxHead (cap psz : Z) (pkt : pkt_t)                         (* 2 *)
| FTxWait (cap psz : Z) (pkt : pkt_t) (head updated_head : Z)
| FTxDma (cap psz : Z) (pkt : pkt_t) (head updated_head : Z)  (* 3 *)
| FTxPublish (cap psz : Z) (pkt : pkt_t) (updated_head : Z)   (* 4 *)
| FTxSend (cap psz : Z) (pkt : pkt_t).                        (* 5 *)

Section System.
Context {W : Type} `{NicWorld W}.

Record fsys := mk_fsys {
  f_cfg : device_meta_t;
  f_nic : W;
  f_rx : frx_pc;
  f_tx : ftx_pc;
  f_w : w_pc;
  f_ring_rx : ringbuffer_t;
  f_ring_tx : ringbuffer_t
}.

Definition f_set_cfg (s : fsys) (c : device_meta_t) : fsys :=
  mk_fsys c (f_nic s) (f_rx s) (f_tx s) (f_w s) (f_ring_rx s) (f_ring_tx s).
Definition f_set_nic (s : fsys) (w : W) : fsys :=
  mk_fsys (f_cfg s) w (f_rx s) (f_tx s) (f_w s) (f_ring_rx s) (f_ring_tx s).
Definition f_set_rx (s : fsys) (pc : frx_pc) : fsys :=
  mk_fsys (f_cfg s) (f_nic s) pc (f_tx s) (f_w s) (f_ring_rx s) (f_ring_tx s).
Definition f_set_tx (s : fsys) (pc : ftx_pc) : fsys :=
  mk_fsys (f_cfg s) (f_nic s) (f_rx s) pc (f_w s) (f_ring_rx s) (f_ring_tx s).

(** The signals of the two transfers. *)
Context (ctm_sig buf_sig : Z).

Definition frx_step (s : fsys) : option fsys :=
  let nic := f_nic s in
  match f_rx s with
  | FRxStart => if start_signal (f_cfg s) =? 0 then None else Some (f_set_rx s FRxLoad)
  | FRxLoad => Some (f_set_rx s (FRxRecv (buffer_size (f_cfg s)) (packet_size (f_cfg s))))
  | FRxRecv cap psz =>
      if nbi_ready nic then
        let '(_, pkt, nic) := receive_packet_with_hdrs nic in
        Some (f_set_rx (f_set_nic s nic) (FRxFilter cap psz pkt))
      else None
  | FRxFilter cap psz pkt =>
      match filter_packets psz pkt with
      | ALLOW => Some (f_set_rx s (FRxModify cap psz pkt))
      | DROP => Some (f_set_rx (f_set_nic s (drop_packet nic pkt)) (FRxRecv cap psz))
      end
  | FRxModify cap psz pkt =>
      let pkt := modify_packet_header pkt in
      Some (f_set_rx (f_set_nic s (write_packet_header nic pkt)) (FRxTail cap psz pkt))
  | FRxTail cap psz pkt =>
      let tail := rx_tail (f_cfg s) in
      Some (f_set_rx s (FRxWait cap psz pkt tail (ring_next cap psz tail)))
  | FRxWait cap psz pkt tail updated_tail =>
      if updated_tail =? rx_head (f_cfg s) then None
      else Some (f_set_rx s (FRxDma cap psz pkt tail updated_tail))
  | FRxDma cap psz pkt tail updated_tail =>
      let pcie_addr := u64 (rx_buffer_iova (f_cfg s) + tail) in
      Some (f_set_rx (f_set_nic s (dma_packet_send nic pkt pcie_addr ctm_sig buf_sig))
              (FRxPublish cap psz pkt updated_tail))
  | FRxPublish cap psz pkt updated_tail =>
      Some (f_set_rx (f_set_cfg s (set_rx_tail (f_cfg s) updated_tail)) (FRxFree cap psz pkt))
  | FRxFree cap psz pkt =>
      Some (f_set_rx (f_set_nic s (drop_packet nic pkt)) (FRxRecv cap psz))
  end.

Definition set_pkt_len (pkt : pkt_t) (n : Z) : pkt_t :=
  let m := nbi_meta pkt in
  let i := pkt_info m in
  mk_pkt (mk_nbi_meta (mk_pkt_info (isl i) (pnum i) (bls i) (muptr i) (Packet.split i) n) (Packet.seqr m) (Packet.seq m)) (hdr pkt).

(** [pkt] of [tx_process] starts as whatever is on the stack, [junk]; [fuel] tries of
    each allocation are enough, or the engine is still waiting. *)
Definition ftx_step (fuel : nat) (junk : pkt_t) (s : fsys) : option fsys :=
  let nic := f_nic s in
  match f_tx s with
  | FTxStart => if start_signal (f_cfg s) =? 0 then None else Some (f_set_tx s FTxLoad)
  | FTxLoad => Some (f_set_tx s (FTxAlloc (buffer_size (f_cfg s)) (packet_size (f_cfg s))))
  | FTxAlloc cap psz =>
      '(_, pkt, nic) ← allocate_packet fuel nic junk;
      Some (f_set_tx (f_set_nic s nic) (FTxHead cap psz pkt))
  | FTxHead cap psz pkt =>
      let head := tx_head (f_cfg s) in
      Some (f_set_tx s (FTxWait cap psz pkt head (ring_next cap psz head)))
  | FTxWait cap psz pkt head updated_head =>
      if head =? tx_tail (f_cfg s) then None
      else Some (f_set_tx s (FTxDma cap psz pkt head updated_head))
  | FTxDma cap psz pkt head updated_head =>
      let pcie_addr := u64 (tx_buffer_iova (f_cfg s) + head) in
      let nic := dma_packet_recv nic pkt psz pcie_addr ctm_sig buf_sig in
      Some (f_set_tx (f_set_nic s nic)
              (FTxPublish cap psz (set_pkt_len pkt (u32 (psz + MAC_PREPEND_BYTES))) updated_head))
  | FTxPublish cap psz pkt updated_head =>
      Some (f_set_tx (f_set_cfg s (set_tx_head (f_cfg s) updated_head)) (FTxSend cap psz pkt))
  | FTxSend cap psz pkt =>
      Some (f_set_tx (f_set_nic s (send_packet nic pkt)) (FTxAlloc cap psz))
  end.

(** The worker, which sees the configuration, host memory and its rings. *)
Context (B : buffers) (phys : Z -> Z) (p cap : Z).

Definition host_view (s : fsys) : sys :=
  mk_sys (f_cfg s) (host_mem (f_nic s)) [] [] RxStart TxStart (f_w s) (f_ring_rx s) (f_ring_tx s).

Definition fworker_step (s : fsys) : option fsys :=
  v ← worker_step B phys p cap (host_view s);
  Some (mk_fsys (Echo.cfg v) (set_host_mem (f_nic s) (host v)) (f_rx s) (f_tx s) (wpc v) (ring_rx v) (ring_tx v)).

Definition fsys_init (nic : W) : fsys :=
  mk_fsys meta_zero nic FRxStart FTxStart WConfigure
    (mk_ringbuffer (brx_addr B) p cap 0 0) (mk_ringbuffer (btx_addr B) p cap 0 0).

Inductive fstep (s : fsys) : fsys -> Prop :=
| fstep_rx s' : frx_step s = Some s' -> fstep s s'
| fstep_tx fuel junk s' : ftx_step fuel junk s = Some s' -> fstep s s'
| fstep_worker s' : fworker_step s = Some s' -> fstep s s'.

Inductive freachable (nic : W) : fsys -> Prop :=
| freach_init : freachable nic (fsys_init nic)
| freach_step s s' : freachable nic s -> fstep s s' -> freachable nic s'.
End System.

(** The packet each engine has. *)
Definition rx_packet_of (pc : frx_pc) : option pkt_t :=
  match pc with
  | FRxStart | FRxLoad | FRxRecv _ _ => None
  | FRxFilter _ _ pkt | FRxModify _ _ pkt | FRxTail _ _ pkt | FRxWait _ _ pkt _ _ | FRxDma _ _ pkt _ _
  | FRxPublish _ _ pkt _ | FRxFree _ _ pkt => Some pkt
  end.
Definition tx_packet_of (pc : ftx_pc) : option pkt_t :=
  match pc with
  | FTxStart | FTxLoad | FTxAlloc _ _ => None
  | FTxHead _ _ pkt | FTxWait _ _ pkt _ _ | FTxDma _ _ pkt _ _ | FTxPublish _ _ pkt _ | FTxSend _ _ pkt => Some pkt
  end.
