(* ===== verification/NicOps.v ===== *)
(** * The packet operations on the card

    What receive, drop, allocate, send and the packet transfers do to the buffers in
    use, to the wire, to host memory and to the packet's own buffers, and that they leave
    every other packet alone: the lemmas by which [NicEchoSim] relates [NicEcho] to
    [Echo]. *)

From S2P Require Export NicEcho.

Local Open Scope Z_scope.

Section Ops.
Context {W : Type} `{NicLaws W}.

(** No transfer is started or completed, and the wire is as before. *)
Definition quiet (P : Z -> Prop) (w w' : W) : Prop :=
  dma_pending w' = dma_pending w /\ same_wire w w' /\ leaves P w w'.

Lemma leaves_refl P w : leaves P w w.
Proof using. by split. Qed.

Lemma leaves_trans P w1 w2 w3 : leaves P w1 w2 -> leaves P w2 w3 -> leaves P w1 w3.
Proof using. intros [L1 E1] [L2 E2]. split; [|congruence]. intros x Hx. by rewrite L2, L1. Qed.

Lemma leaves_mono (P Q : Z -> Prop) w w' : leaves P w w' -> (forall x, P x -> Q x) -> leaves Q w w'.
Proof using. intros [L E] HPQ. split; [|done]. intros x Hx. apply L. auto. Qed.

Lemma quiet_refl P w : quiet P w w.
Proof using. repeat split. Qed.

Lemma quiet_trans P w1 w2 w3 : quiet P w1 w2 -> quiet P w2 w3 -> quiet P w1 w3.
Proof using.
  intros (E1 & [I1 O1] & L1) (E2 & [I2 O2] & L2). split; [congruence|].
  split; [split; congruence|]. by eapply leaves_trans.
Qed.

Lemma quiet_mono (P Q : Z -> Prop) w w' : quiet P w w' -> (forall x, P x -> Q x) -> quiet Q w w'.
Proof using. intros (E & S & L) HPQ. split; [done|]. split; [done|]. by eapply leaves_mono. Qed.

(** ** Buffers *)

Definition own (w : W) (pkt : pkt_t) : Prop := pkt_ctm pkt ∈ ctm_used w /\ pkt_mu pkt ∈ mu_used w.
Definition apart (a b : pkt_t) : Prop := pkt_ctm a <> pkt_ctm b /\ pkt_mu a <> pkt_mu b.
Definition of_pkt (pkt : pkt_t) : Z -> Prop := in_pkt (pkt_ctm pkt) (pkt_mu pkt).

Lemma of_pkt_apart w a b x : own w a -> own w b -> apart a b -> of_pkt a x -> ~ of_pkt b x.
Proof using Type*.
  intros [Ca Ua] [Cb Ub] [Nc Nu] [X|X] [Y|Y].
  - by apply (ctm_apart w _ _ x Ca Cb Nc).
  - by apply (ctm_mu_apart w _ _ x Ca Ub).
  - by apply (ctm_mu_apart w _ _ x Cb Ua).
  - by apply (mu_apart w _ _ x Ua Ub Nu).
Qed.

Lemma pkt_addr_at pkt o : 0 <= o < 2048 -> pkt_addr pkt o = pkt_addr pkt 0 + o.
Proof using Type*. intros. rewrite <- (Z.add_0_l o) at 1. apply pkt_addr_off; lia. Qed.

Lemma mu_addr_pkt pkt : pkt_mu_buffer pkt = mu_addr (pkt_mu pkt).
Proof using. done. Qed.

(** A packet of [n] bytes at [prepend] lies in its buffers. *)
Lemma frame_in_pkt pkt prepend n x : 0 <= prepend <= 8 -> 0 <= n <= 192 - prepend + mu_bytes -> n < 0x100000000 ->
  pkt_addr pkt (PKT_NBI_OFFSET + prepend) <= x < pkt_addr pkt (PKT_NBI_OFFSET + prepend) + ctm_transfer_len prepend n \/
  pkt_mu_buffer pkt <= x < pkt_mu_buffer pkt + buf_transfer_len prepend n -> of_pkt pkt x.
Proof using Type*.
  intros Hp Hn Hn2. destruct (transfer_lens prepend n) as [-> ->]; [lia..|]. rewrite mu_addr_pkt.
  unfold PKT_NBI_OFFSET. rewrite (pkt_addr_at pkt (64 + prepend)) by lia. intros [X|X]; [left|right].
  - unfold in_ctm, pkt_ctm. cbn [fst snd]. fold (pkt_addr pkt 0). lia.
  - unfold in_mu. lia.
Qed.

Lemma frame_stable P w w' pkt prepend n : touches P w w' -> (forall x, of_pkt pkt x -> ~ P x) ->
  0 <= prepend <= 8 -> 0 <= n <= 192 - prepend + mu_bytes -> n < 0x100000000 ->
  packet_frame (nfp_mem w') pkt prepend n = packet_frame (nfp_mem w) pkt prepend n.
Proof using Type*.
  intros L HP Hp Hn Hn2. unfold packet_frame.
  f_equal; apply load_ext; intros x Hx; apply L, HP, (frame_in_pkt pkt prepend n); auto.
Qed.

Lemma own_buffers_ok w pkt n : own w pkt -> n <= 184 + mu_bytes -> buffers_ok pkt n.
Proof using Type*.
  intros [Hc Hu] Hn. pose proof mu_bytes_ok as Hm. split.
  - intros o Ho. exact (ctm_range w _ o Hc Ho).
  - pose proof (fun x => ctm_mu_apart w _ _ x Hc Hu) as D. unfold in_ctm, in_mu in D.
    fold (pkt_addr pkt 0) in D. cbn [pkt_ctm fst snd] in D. rewrite mu_addr_pkt.
    fold (pkt_addr pkt 0) in D. rewrite (pkt_addr_at pkt PKT_NBI_OFFSET) by (unfold PKT_NBI_OFFSET; lia).
    unfold PKT_NBI_OFFSET. set (c := pkt_addr pkt 0) in *. set (u := mu_addr (pkt_mu pkt)) in *.
    destruct (Z.le_gt_cases (c + 256) u) as [|Hlt]; [left; lia|right].
    destruct (Z.le_gt_cases c u) as [|Hlt']; [exfalso; apply (D u); lia|].
    destruct (Z.le_gt_cases (u + mu_bytes) c) as [|]; [lia|]. exfalso. apply (D c); lia.
Qed.

(** ** The DMA engine *)

Lemma dma_op_keeps w a n p q s : same_wire w (dma_op w a n p q s) /\ same_used w (dma_op w a n p q s).
Proof using Type*.
  unfold dma_op, pcie_dma_desc_setup. cbv zeta beta iota.
  match goal with |- same_wire _ (pcie_dma_enq ?w1 ?i ?c ?q ?s) /\ _ =>
    destruct (dma_enq_keeps w1 i c q s) as [[I1 O1] [C1 U1]] end.
  destruct (dma_cfg_keeps w 0 0 (mk_dma_cfg 1 7 1 7)) as [[I2 O2] [C2 U2]].
  repeat split; congruence.
Qed.

Lemma dma_packet_keeps w pkt prepend n p q cs bs : let w' := dma_packet w pkt prepend n p q cs bs in
  same_wire w w' /\ same_used w w'.
Proof using Type*.
  cbv zeta. unfold dma_packet.
  set (w1 := dma_op w _ _ _ _ _). destruct (dma_op_keeps w (pkt_addr pkt (PKT_NBI_OFFSET + prepend))
    (ctm_transfer_len prepend n) p q cs) as [[I1 O1] [C1 U1]]. fold w1 in I1, O1, C1, U1.
  destruct (_ >? 0).
  - set (w2 := dma_op w1 _ _ _ _ _). destruct (dma_op_keeps w1 (pkt_mu_buffer pkt) (buf_transfer_len prepend n)
      (u64 (p + ctm_transfer_len prepend n)) q bs) as [[I2 O2] [C2 U2]]. fold w2 in I2, O2, C2, U2.
    destruct (dma_wait_keeps w2 [cs; cs + 1; bs; bs + 1]) as [[I3 O3] [C3 U3]]. repeat split; congruence.
  - destruct (dma_wait_keeps w1 [cs; cs + 1]) as [[I3 O3] [C3 U3]]. repeat split; congruence.
Qed.

(** ** Packets *)

Lemma drop_spec w pkt : let w' := drop_packet w pkt in
  ctm_used w' = ctm_used w ∖ {[pkt_ctm pkt]} /\ mu_used w' = mu_used w ∖ {[pkt_mu pkt]} /\ quiet nowhere w w'.
Proof using Type*.
  cbv zeta. unfold drop_packet, free_packet.
  destruct (blm_buf_free_laws w (muptr (pkt_info (nbi_meta pkt))) (bls (pkt_info (nbi_meta pkt)))) as (U1 & C1 & S1 & P1 & L1).
  set (w1 := blm_buf_free _ _ _) in *.
  destruct (ctm_free_laws w1 (isl (pkt_info (nbi_meta pkt))) (pnum (pkt_info (nbi_meta pkt)))) as (C2 & U2 & S2 & P2 & L2).
  set (w2 := ctm_free _ _ _) in *.
  match goal with |- context [nbi_drop_seq w2 ?i ?p ?m ?n ?a ?b ?c ?d ?z] =>
    destruct (nbi_drop_seq_laws w2 i p m n a b c d z) as ([C3 U3] & S3 & P3 & L3) end.
  set (w3 := nbi_drop_seq _ _ _ _ _ _ _ _ _ _) in *.
  split; [by rewrite C3, C2, C1|]. split; [by rewrite U3, U2, U1|].
  apply (quiet_trans _ _ w1); [done|]. by apply (quiet_trans _ _ w2).
Qed.

Lemma ctm_alloc_loop_spec fuel : forall w n w', ctm_alloc_loop fuel w = Some (n, w') ->
  (me_island, n) ∉ ctm_used w /\ ctm_used w' = {[(me_island, n)]} ∪ ctm_used w /\ mu_used w' = mu_used w /\
  quiet nowhere w w'.
Proof using Type*.
  induction fuel as [|fuel IH]; intros w n w' E; [done|]. cbn in E.
  destruct (ctm_alloc w me_island PKT_CTM_SIZE_256 true true) as [[m|] w1] eqn:Ea.
  - injection E as <- <-. destruct (ctm_alloc_laws _ _ _ Ea) as (F & C & U & S & P & L). done.
  - destruct (ctm_alloc_fails _ _ Ea) as ([C U] & S & P & L). destruct (IH _ _ _ E) as (F' & C' & U' & Q').
    rewrite C in F', C'. split; [done|]. split; [done|]. split; [congruence|]. by eapply quiet_trans.
Qed.

Lemma blm_alloc_loop_spec fuel l : forall w u w', blm_alloc_loop fuel w l = Some (u, w') ->
  u ∉ mu_used w /\ mu_used w' = {[u]} ∪ mu_used w /\ ctm_used w' = ctm_used w /\ quiet nowhere w w'.
Proof using Type*.
  induction fuel as [|fuel IH]; intros w u w' E; [done|]. cbn in E.
  destruct (blm_buf_alloc w l) as [[m|] w1] eqn:Ea.
  - injection E as <- <-. destruct (blm_buf_alloc_laws _ _ _ _ Ea) as (F & U & C & S & P & L). done.
  - destruct (blm_buf_alloc_fails _ _ _ Ea) as ([C U] & S & P & L). destruct (IH _ _ _ E) as (F' & U' & C' & Q').
    rewrite U in F', U'. split; [done|]. split; [done|]. split; [congruence|]. by eapply quiet_trans.
Qed.

(** The metadata at the start of the packet's CTM buffer names its buffers. *)
Definition has_meta (w : W) (pkt : pkt_t) : Prop :=
  exists m, load (nfp_mem w) (pkt_addr pkt 0) meta_size = meta_bytes m /\
    pkt_ctm (mk_pkt m (hdr pkt)) = pkt_ctm pkt /\ pkt_mu (mk_pkt m (hdr pkt)) = pkt_mu pkt.

Lemma meta_in_ctm pkt x : pkt_addr pkt 0 <= x < pkt_addr pkt 0 + meta_size -> of_pkt pkt x.
Proof using Type*.
  intros Hx. left. unfold in_ctm. cbn [pkt_ctm fst snd]. fold (pkt_addr pkt 0).
  pose proof meta_size_ok as Hm. unfold PKT_NBI_OFFSET in Hm. lia.
Qed.

Lemma meta_same w w' pkt :
  (forall x, pkt_addr pkt 0 <= x < pkt_addr pkt 0 + meta_size -> nfp_mem w' x = nfp_mem w x) ->
  has_meta w pkt -> has_meta w' pkt.
Proof using Type*. intros L (m & Em & E). exists m. split; [|done]. rewrite <- Em. by apply load_ext. Qed.

Lemma meta_stable P w w' pkt : touches P w w' -> (forall x, of_pkt pkt x -> ~ P x) -> has_meta w pkt -> has_meta w' pkt.
Proof using Type*. intros L HP. apply meta_same. intros x Hx. apply L, HP. by apply meta_in_ctm. Qed.

Lemma allocate_spec fuel w junk a pkt w' : allocate_packet fuel w junk = Some (a, pkt, w') ->
  pkt_ctm pkt ∉ ctm_used w /\ pkt_mu pkt ∉ mu_used w /\
  ctm_used w' = {[pkt_ctm pkt]} ∪ ctm_used w /\ mu_used w' = {[pkt_mu pkt]} ∪ mu_used w /\
  quiet (in_ctm (pkt_ctm pkt)) w w' /\ has_meta w' pkt.
Proof using Type*.
  unfold allocate_packet. intros E.
  destruct (ctm_alloc_loop fuel w) as [[n w1]|] eqn:E1; [|done]. cbn in E.
  destruct (blm_alloc_loop fuel w1 0) as [[u w2]|] eqn:E2; [|done]. cbn in E. injection E as <- <- <-.
  destruct (ctm_alloc_loop_spec _ _ _ _ E1) as (F1 & C1 & U1 & Q1).
  destruct (blm_alloc_loop_spec _ _ _ _ _ E2) as (F2 & U2 & C2 & Q2). rewrite U1 in F2.
  match goal with |- context [set_nfp_mem w2 ?m] => destruct (set_nfp_mem_keeps w2 m) as [S3 [C3 U3]]; set (m3 := m) in * end.
  unfold pkt_ctm, pkt_mu. cbn [nbi_meta pkt_info isl pnum muptr].
  split; [done|]. split; [done|]. split; [by rewrite C3, C2, C1|]. split; [by rewrite U3, U2, U1|].
  split.
  - assert (quiet nowhere w w2) as (P & S & [L Lh]) by (by eapply quiet_trans).
    destruct (set_mem_host w2 m3) as [Hh Hd].
    split; [congruence|]. split; [destruct S, S3; split; congruence|].
    split; [|by rewrite Hh]. intros x Hx. rewrite nfp_mem_set. subst m3. rewrite store_out; [by apply L; intros []|].
    rewrite meta_bytes_length. pose proof meta_size_ok as Hm. unfold PKT_NBI_OFFSET in Hm.
    unfold in_ctm in Hx. cbn [fst snd] in Hx. lia.
  - eexists. split; [|done]. unfold pkt_addr. cbn [nbi_meta pkt_info isl pnum]. rewrite nfp_mem_set. subst m3.
    apply load_store_same, meta_bytes_length.
Qed.

(** What a packet just received is. *)
Record received (w : W) (pkt : pkt_t) (pre f : list Z) : Prop := {
  rv_traffic : traffic_ok (pre, f);
  rv_len : len (pkt_info (nbi_meta pkt)) = Z.of_nat (length f) + 8;
  rv_pre : load (nfp_mem w) (pkt_addr pkt PKT_NBI_OFFSET) 8 = pre;
  rv_frame : packet_frame (nfp_mem w) pkt 8 (Z.of_nat (length f)) = f;
  rv_hdr : hdr pkt = hdr_of_bytes (load (nfp_mem w) (pkt_addr pkt PKT_NBI_OFFSET) (Z.of_nat sizeof_pkt_hdr))
}.

Lemma received_header w pkt pre f : received w pkt pre f ->
  load (nfp_mem w) (pkt_addr pkt PKT_NBI_OFFSET) (Z.of_nat sizeof_pkt_hdr) = pre ++ take 44 f.
Proof using Type*.
  intros [(Hp & Hl & Hn & _) _ Epre Ef _]. cbn [fst snd] in *.
  change (Z.of_nat sizeof_pkt_hdr) with (8 + 44). rewrite load_app, Epre by lia. f_equal.
  rewrite <- Ef at 1. unfold packet_frame. destruct (transfer_lens 8 (Z.of_nat (length f))) as [_ E]; [lia..|]. rewrite E.
  replace (Z.min (192 - 8) (Z.of_nat (length f))) with (44 + (Z.min 184 (Z.of_nat (length f)) - 44)) by lia.
  rewrite load_app by lia. rewrite <- app_assoc, take_app_length' by (by rewrite load_length).
  f_equal. rewrite (pkt_addr_hdr pkt (PKT_NBI_OFFSET + 8)); unfold PKT_NBI_OFFSET; lia.
Qed.

(** The filter decides as on the arrival. *)
Lemma received_filter w pkt pre f psz : received w pkt pre f ->
  filter_packets psz pkt = filter_packets psz (arr_pkt (traffic_arrival (pre, f))).
Proof using Type*.
  intros R. pose proof (received_header _ _ _ _ R) as Eh. destruct R as [_ El _ _ Ehdr].
  unfold filter_packets, arr_pkt, traffic_arrival. cbn [arr_meta arr_prefix arr_frame fst snd nbi_meta pkt_info len hdr].
  by rewrite El, Ehdr, Eh.
Qed.

Lemma received_stable P w w' pkt pre f : touches P w w' -> (forall x, of_pkt pkt x -> ~ P x) ->
  received w pkt pre f -> received w' pkt pre f.
Proof using Type*.
  intros L HP [Ht El Epre Ef Ehdr]. pose proof Ht as (_ & Hl & Hn & _). cbn [fst snd] in *.
  assert (forall n, 0 <= n <= 192 -> load (nfp_mem w') (pkt_addr pkt PKT_NBI_OFFSET) n = load (nfp_mem w) (pkt_addr pkt PKT_NBI_OFFSET) n) as E.
  { intros n Hn'. apply load_ext. intros x Hx. apply L, HP. left. unfold in_ctm. cbn [pkt_ctm fst snd].
    fold (pkt_addr pkt 0). rewrite (pkt_addr_at pkt PKT_NBI_OFFSET) in Hx by (unfold PKT_NBI_OFFSET; lia).
    unfold PKT_NBI_OFFSET in Hx. lia. }
  split; [done|done|by rewrite E by lia| |by rewrite E by (unfold sizeof_pkt_hdr; lia)].
  rewrite (frame_stable P w w' pkt) by (done || lia). done.
Qed.

Lemma receive_spec w : nbi_ready w = true ->
  exists pre f rest pkt w', receive_packet_with_hdrs w = (pkt_addr pkt PKT_NBI_OFFSET, pkt, w') /\
    nbi_in w = (pre, f) :: rest /\ nbi_in w' = rest /\ nbi_out w' = nbi_out w /\
    pkt_ctm pkt ∉ ctm_used w /\ pkt_mu pkt ∉ mu_used w /\
    ctm_used w' = {[pkt_ctm pkt]} ∪ ctm_used w /\ mu_used w' = {[pkt_mu pkt]} ∪ mu_used w /\
    dma_pending w' = dma_pending w /\ leaves (of_pkt pkt) w w' /\
    (traffic_ok (pre, f) -> received w' pkt pre f).
Proof using Type*.
  intros Hr. destruct (nbi_recv_laws w Hr) as (pre & f & rest & Ein & R). unfold receive_packet_with_hdrs.
  destruct (nbi_recv w) as [m w'].
  destruct R as (El & Fc & Fu & C & U & Ein' & Eout & P & L & Hc).
  eexists pre, f, rest, (read_packet_header w' (mk_pkt m (hdr_of_bytes []))), w'.
  split; [done|]. repeat (split; [done|]). intros Ht. destruct (Hc Ht) as [Epre Ef]. by split.
Qed.

(** Writing back the rewritten header. *)
Lemma modify_spec w pkt pre f : own w pkt -> received w pkt pre f ->
  let pkt' := modify_packet_header pkt in
  let w' := write_packet_header w pkt' in
  packet_frame (nfp_mem w') pkt' 8 (Z.of_nat (length f)) = echo_frame f /\
  quiet (of_pkt pkt) w w' /\ same_used w w'.
Proof using Type*.
  intros Ho R pkt' w'. pose proof (received_header _ _ _ _ R) as Eh.
  destruct R as [(Hp & Hl & Hn & Hu8) El Epre Ef Ehdr]. cbn [fst snd] in *.
  assert (pkt = read_packet_header w pkt) as Epkt by (destruct pkt; unfold read_packet_header; by rewrite <- Ehdr).
  split.
  - subst w' pkt'. rewrite Epkt. change (packet_frame ?m (modify_packet_header ?q)) with (packet_frame m q).
    rewrite write_echo_frame; [by rewrite <- Epkt, Ef| |lia|rewrite <- Epkt; eapply own_buffers_ok; [done|lia]].
    rewrite Eh. apply Forall_app in Hu8 as [H1' H2']. apply Forall_app. split; [done|by apply Forall_take].
  - unfold w', write_packet_header. match goal with |- context [set_nfp_mem w ?m] =>
      destruct (set_nfp_mem_keeps w m) as [S U]; destruct (set_mem_host w m) as [Hh Hd] end.
    split; [|done]. split; [done|]. split; [done|]. split; [|done]. intros x Hx.
    fold (write_packet_header w pkt'). apply write_header_out. change (pkt_addr pkt') with (pkt_addr pkt).
    destruct (decide (pkt_addr pkt PKT_NBI_OFFSET <= x < pkt_addr pkt PKT_NBI_OFFSET + 52)); [|lia].
    exfalso. apply Hx. left. unfold in_ctm. cbn [pkt_ctm fst snd]. fold (pkt_addr pkt 0).
    rewrite (pkt_addr_at pkt PKT_NBI_OFFSET) in * by (unfold PKT_NBI_OFFSET; lia). unfold PKT_NBI_OFFSET in *. lia.
Qed.

(** A frame to the host. *)
Lemma dma_send_spec w pkt p cs bs f : own w pkt -> dma_pending w = [] ->
  len (pkt_info (nbi_meta pkt)) = Z.of_nat (length f) + 8 -> 1 <= Z.of_nat (length f) <= Z.min 4280 (184 + mu_bytes) ->
  packet_frame (nfp_mem w) pkt 8 (Z.of_nat (length f)) = f -> 0 <= p -> p + Z.of_nat (length f) <= 0x10000000000 ->
  let w' := dma_packet_send w pkt p cs bs in
  dma_pending w' = [] /\ nfp_mem w' = nfp_mem w /\ (forall x, host_mem w' x = store (host_mem w) p f x) /\
  same_wire w w' /\ same_used w w'.
Proof using Type*.
  intros Ho Hd El Hn Ef Hp Hpn w'.
  destruct (dma_packet_send_stores_frame w pkt p cs bs (Z.of_nat (length f)) Hd El ltac:(lia)
    ltac:(eapply own_buffers_ok; [done|lia]) Hp Hpn) as (D & M & Hh).
  split; [done|]. split; [done|]. rewrite Ef in Hh. split; [done|]. apply dma_packet_keeps.
Qed.

(** A frame from the host. *)
Lemma dma_recv_spec w pkt p cs bs n : own w pkt -> has_meta w pkt -> dma_pending w = [] ->
  1 <= n <= Z.min 4280 (184 + mu_bytes) -> 0 <= p -> p + n <= 0x10000000000 ->
  let w' := dma_packet_recv w pkt n p cs bs in
  packet_frame (nfp_mem w') pkt MAC_PREPEND_BYTES n = load (host_mem w) p n /\ has_meta w' pkt /\
  quiet (of_pkt pkt) w w' /\ same_used w w'.
Proof using Type*.
  intros Ho Hm Hd Hn Hp Hpn w'.
  destruct (dma_packet_recv_fills_frame w pkt p cs bs n Hd ltac:(lia)
    ltac:(eapply own_buffers_ok; [done|lia]) Hp Hpn) as (D & Hh & Ef & Hx). fold w' in D, Hh, Ef, Hx.
  pose proof (dma_packet_keeps w pkt MAC_PREPEND_BYTES n p FROMPCI_HI cs bs) as [S U].
  rewrite (pkt_addr_at pkt 68) in Hx by lia. rewrite mu_addr_pkt in Hx.
  pose proof meta_size_ok as Hs. unfold PKT_NBI_OFFSET in Hs.
  destruct Ho as [Hc Hu]. split; [exact Ef|]. split; [|split; [|exact U]].
  - apply (meta_same w); [|done]. intros x X. pose proof (ctm_mu_apart w _ _ x Hc Hu) as N.
    unfold in_ctm, in_mu in N. cbn [pkt_ctm fst snd] in N. fold (pkt_addr pkt 0) in N. apply Hx; lia.
  - split; [by rewrite D|]. split; [exact S|]. split; [|done]. intros x X. unfold of_pkt, in_pkt, in_ctm, in_mu in X.
    cbn [pkt_ctm fst snd] in X. fold (pkt_addr pkt 0) in X. apply Hx; lia.
Qed.

(** A frame to the wire, and the buffers with it. *)
Lemma send_spec w pkt n : own w pkt -> has_meta w pkt -> len (pkt_info (nbi_meta pkt)) = n + MAC_PREPEND_BYTES ->
  0 <= n <= 188 + mu_bytes -> n < 0x100000000 ->
  let w' := send_packet w pkt in
  nbi_out w' = nbi_out w ++ [packet_frame (nfp_mem w) pkt MAC_PREPEND_BYTES n] /\ nbi_in w' = nbi_in w /\
  dma_pending w' = dma_pending w /\ leaves (of_pkt pkt) w w' /\
  ctm_used w' = ctm_used w ∖ {[pkt_ctm pkt]} /\ mu_used w' = mu_used w ∖ {[pkt_mu pkt]}.
Proof using Type*.
  intros [Hc Hu] (m & Em & Ec & Eu) El Hn Hn2 w'. unfold w', send_packet. rewrite El.
  change (PKT_NBI_OFFSET + MAC_PREPEND_BYTES) with 68.
  pose proof meta_size_ok as Hs. unfold PKT_NBI_OFFSET in Hs.
  pose proof (meta_bytes_length m) as Hml.
  set (w0 := mac_egress_cmd_write w (pkt_addr pkt 0) 68 true true).
  destruct (mac_egress_laws w (pkt_addr pkt 0) 68 true true) as ([C0 U0] & [I0 O0] & P0 & [L0 H0']).
  fold w0 in C0, U0, I0, O0, P0, L0, H0'.
  pose proof (msd_write_laws w0 (pkt_addr pkt 0) PKT_NBI_OFFSET) as Q1.
  destruct (msd_write w0 (pkt_addr pkt 0) PKT_NBI_OFFSET) as [msi w1] eqn:E1.
  destruct Q1 as ([C1 U1] & [I1 O1] & P1 & [L1 H1']). unfold PKT_NBI_OFFSET in L1.
  assert (forall x, x < pkt_addr pkt 0 + meta_size \/ pkt_addr pkt 0 + 68 <= x -> nfp_mem w1 x = nfp_mem w x) as L.
  { intros x Hx. rewrite L1, L0 by lia. done. }
  assert (pkt_addr (mk_pkt m (hdr pkt)) = pkt_addr pkt) as Ea by (unfold pkt_addr; injection Ec as Ei Ep; rewrite <- Ei, <- Ep; done).
  assert (pkt_mu_buffer (mk_pkt m (hdr pkt)) = pkt_mu_buffer pkt) as Eb by (unfold pkt_mu_buffer, pkt_mu in *; by rewrite Eu).
  pose proof (nbi_send_laws w0 m (hdr pkt) msi w1 (n + MAC_PREPEND_BYTES) (PORT_TO_CHANNEL 3)) as Q2.
  cbv zeta in Q2. rewrite Ea, Ec, Eu in Q2.
  destruct Q2 as (O2 & I2 & P2 & [L2 H2'] & C2 & U2); [by rewrite C1, C0|by rewrite U1, U0|done| |].
  { rewrite <- Em. apply load_ext. intros x Hx. apply L. lia. }
  replace (nbi_send w1 (isl (pkt_info (nbi_meta pkt))) (pnum (pkt_info (nbi_meta pkt))))
    with (nbi_send w1 (isl (pkt_info m)) (pnum (pkt_info m))) by (by injection Ec as -> ->).
  split; [|split; [congruence|split; [congruence|split; [split|split; congruence]]]].
  - rewrite O2, O1, O0. do 2 f_equal. replace (n + MAC_PREPEND_BYTES - MAC_PREPEND_BYTES) with n by lia.
    unfold packet_frame. rewrite Ea, Eb. destruct (transfer_lens MAC_PREPEND_BYTES n) as [-> ->];
      [unfold MAC_PREPEND_BYTES; lia|lia|]. unfold PKT_NBI_OFFSET, MAC_PREPEND_BYTES.
    f_equal; apply load_ext; intros x Hx; apply L.
    + rewrite (pkt_addr_at pkt (64 + 4)) in Hx by lia. lia.
    + rewrite mu_addr_pkt in Hx. assert (~ in_ctm (pkt_ctm pkt) x) as N.
      { intros X. apply (ctm_mu_apart w _ _ x Hc Hu X). unfold in_mu. lia. }
      unfold in_ctm in N. cbn [pkt_ctm fst snd] in N. fold (pkt_addr pkt 0) in N. lia.
  - intros x X. rewrite L2 by (intros []). apply L. unfold of_pkt, in_pkt, in_ctm in X. cbn [pkt_ctm fst snd] in X.
    fold (pkt_addr pkt 0) in X. lia.
  - congruence.
Qed.
End Ops.
