(* ===== verification/NicEchoSim.v ===== *)
(** * The detailed pipeline refines the frame-level one

    Every step of [NicEcho] is a step of [Echo] or none: the states are related by [sim],
    in which the packet an engine has holds the frame that the engine of [Echo] has, and
    the buffers in use are those of the engines' packets. *)

From S2P Require Export NicOps.

Local Open Scope Z_scope.

(** ** The buffers in use *)

Definition opt_ctm (o : option pkt_t) : gset (Z * Z) := match o with Some pkt => {[pkt_ctm pkt]} | None => ∅ end.
Definition opt_mu (o : option pkt_t) : gset Z := match o with Some pkt => {[pkt_mu pkt]} | None => ∅ end.

Lemma taken_back {A} `{Countable A} (a : A) (X : gset A) : a ∉ X -> ({[a]} ∪ X) ∖ {[a]} = ∅ ∪ X.
Proof. set_solver. Qed.

Section Sim.
Context {W : Type} `{NicLaws W}.

(** They are those of the two packets, which share none. *)
Definition accounted (w : W) (a b : option pkt_t) : Prop :=
  ctm_used w = opt_ctm a ∪ opt_ctm b /\ mu_used w = opt_mu a ∪ opt_mu b /\
  forall x y, a = Some x -> b = Some y -> apart x y.

Lemma acc_same w w' a b : same_used w w' -> accounted w a b -> accounted w' a b.
Proof using. intros [Ec Eu] A. unfold accounted. by rewrite Ec, Eu. Qed.

Lemma acc_sym w a b : accounted w a b -> accounted w b a.
Proof using.
  intros (C & U & A). split; [by rewrite C, (comm_L (∪))|]. split; [by rewrite U, (comm_L (∪))|].
  intros x y Ex Ey. destruct (A y x Ey Ex) as [Nc Nu]. by split; apply not_eq_sym.
Qed.

Lemma acc_relabel w x x' b : accounted w (Some x) b -> pkt_ctm x' = pkt_ctm x -> pkt_mu x' = pkt_mu x ->
  accounted w (Some x') b.
Proof using.
  intros (C & U & A) Ec Eu. unfold accounted. cbn [opt_ctm opt_mu] in *. rewrite Ec, Eu. split; [done|]. split; [done|].
  intros y z [= <-] Ez. unfold apart. rewrite Ec, Eu. by apply A.
Qed.

Lemma acc_own w pkt b : accounted w (Some pkt) b -> own w pkt.
Proof using. intros (C & U & _). unfold own. rewrite C, U. cbn [opt_ctm opt_mu]. by rewrite !elem_of_union, !elem_of_singleton; split; left. Qed.

Lemma acc_take w w' pkt b : accounted w None b -> pkt_ctm pkt ∉ ctm_used w -> pkt_mu pkt ∉ mu_used w ->
  ctm_used w' = {[pkt_ctm pkt]} ∪ ctm_used w -> mu_used w' = {[pkt_mu pkt]} ∪ mu_used w -> accounted w' (Some pkt) b.
Proof using.
  intros (C & U & _) Nc Nu Ec Eu. rewrite C in Nc, Ec. rewrite U in Nu, Eu. cbn [opt_ctm opt_mu] in *.
  rewrite (left_id_L ∅ (∪)) in Nc, Ec. rewrite (left_id_L ∅ (∪)) in Nu, Eu. split; [done|]. split; [done|].
  intros x y [= <-] ->. cbn in Nc, Nu. by rewrite elem_of_singleton in Nc; rewrite elem_of_singleton in Nu.
Qed.

Lemma acc_give w w' pkt b : accounted w (Some pkt) b ->
  ctm_used w' = ctm_used w ∖ {[pkt_ctm pkt]} -> mu_used w' = mu_used w ∖ {[pkt_mu pkt]} -> accounted w' None b.
Proof using.
  intros (C & U & A) Ec Eu. rewrite C in Ec. rewrite U in Eu. cbn [opt_ctm opt_mu] in *.
  assert (pkt_ctm pkt ∉ opt_ctm b /\ pkt_mu pkt ∉ opt_mu b) as [Nc Nu].
  { destruct b as [y|]; cbn [opt_ctm opt_mu]; [|split; apply not_elem_of_empty].
    destruct (A pkt y eq_refl eq_refl) as [Nc Nu]. by rewrite !elem_of_singleton. }
  rewrite taken_back in Ec by done. rewrite taken_back in Eu by done. done.
Qed.

(** What is done to one packet leaves the other's buffers alone. *)
Lemma acc_apart w pkt b y : accounted w (Some pkt) b -> b = Some y -> forall x, of_pkt y x -> ~ of_pkt pkt x.
Proof using Type*.
  intros A Eb x. apply (of_pkt_apart w); [apply (acc_own w y (Some pkt)), acc_sym; by rewrite <- Eb|by eapply acc_own|].
  destruct A as (_ & _ & A). destruct (A pkt y eq_refl Eb). by split; apply not_eq_sym.
Qed.

(** ** The relation *)

(** A packet whose buffers hold the frame [f] from byte [72] on. *)
Definition holds_echo (w : W) (pkt : pkt_t) (f : list Z) : Prop :=
  len (pkt_info (nbi_meta pkt)) = Z.of_nat (length f) + 8 /\
  44 <= Z.of_nat (length f) <= Z.min 4280 (184 + mu_bytes) /\
  packet_frame (nfp_mem w) pkt 8 (Z.of_nat (length f)) = f.

Definition rx_rel (w : W) (pc : frx_pc) (apc : rx_pc) : Prop :=
  match pc with
  | FRxStart => apc = RxStart
  | FRxLoad => apc = RxLoad
  | FRxRecv c z => apc = RxRecv c z
  | FRxFilter c z pkt => exists pre f, received w pkt pre f /\
      apc = match filter_packets z pkt with ALLOW => RxTail c z (echo_frame f) | DROP => RxRecv c z end
  | FRxModify c z pkt => exists pre f, received w pkt pre f /\ apc = RxTail c z (echo_frame f)
  | FRxTail c z pkt => exists f, holds_echo w pkt f /\ apc = RxTail c z f
  | FRxWait c z pkt t u => exists f, holds_echo w pkt f /\ apc = RxWait c z f t u
  | FRxDma c z pkt t u => exists f, holds_echo w pkt f /\ apc = RxDma c z f t u
  | FRxPublish c z pkt u => apc = RxPublish c z u
  | FRxFree c z pkt => apc = RxRecv c z
  end.

(** A packet that holds the frame [f] to send. *)
Definition holds_frame (w : W) (pkt : pkt_t) (z : Z) (f : list Z) : Prop :=
  has_meta w pkt /\ len (pkt_info (nbi_meta pkt)) = z + MAC_PREPEND_BYTES /\ 0 <= z <= Z.min 4280 (184 + mu_bytes) /\
  packet_frame (nfp_mem w) pkt MAC_PREPEND_BYTES z = f.

Definition tx_rel (w : W) (pc : ftx_pc) (apc : tx_pc) : Prop :=
  match pc with
  | FTxStart => apc = TxStart
  | FTxLoad => apc = TxLoad
  | FTxAlloc c z => apc = TxHead c z
  | FTxHead c z pkt => has_meta w pkt /\ apc = TxHead c z
  | FTxWait c z pkt h u => has_meta w pkt /\ apc = TxWait c z h u
  | FTxDma c z pkt h u => has_meta w pkt /\ apc = TxDma c z h u
  | FTxPublish c z pkt u => exists f, holds_frame w pkt z f /\ apc = TxPublish c z f u
  | FTxSend c z pkt => exists f, holds_frame w pkt z f /\ apc = TxSend c z f
  end.

Record sim (f : fsys) (s : sys) : Prop := mk_sim {
  sm_cfg : Echo.cfg s = f_cfg f;
  sm_host : forall x, host_mem (f_nic f) x = host s x;
  sm_w : wpc s = f_w f;
  sm_rrx : ring_rx s = f_ring_rx f;
  sm_rtx : ring_tx s = f_ring_tx f;
  sm_pend : dma_pending (f_nic f) = [];
  sm_in : wire_in s = traffic_arrival <$> nbi_in (f_nic f);
  sm_out : wire_out s = nbi_out (f_nic f);
  sm_traffic : Forall traffic_ok (nbi_in (f_nic f));
  sm_rx : rx_rel (f_nic f) (f_rx f) (rxs s);
  sm_tx : tx_rel (f_nic f) (f_tx f) (txs s);
  sm_acc : accounted (f_nic f) (rx_packet_of (f_rx f)) (tx_packet_of (f_tx f))
}.

Lemma holds_echo_stable P w w' pkt f : touches P w w' -> (forall x, of_pkt pkt x -> ~ P x) ->
  holds_echo w pkt f -> holds_echo w' pkt f.
Proof using Type*.
  intros L HP (El & Hn & Ef). split; [done|]. split; [done|]. by rewrite (frame_stable P w w' pkt) by (done || lia).
Qed.

Lemma rx_rel_stable P w w' pc apc : touches P w w' ->
  (forall pkt, rx_packet_of pc = Some pkt -> forall x, of_pkt pkt x -> ~ P x) -> rx_rel w pc apc -> rx_rel w' pc apc.
Proof using Type*.
  intros L HP. destruct pc; cbn [rx_packet_of rx_rel] in *; try done; specialize (HP _ eq_refl).
  1,2: intros (pre & f & R & E); exists pre, f; split; [by eapply received_stable|done].
  all: intros (f & R & E); exists f; split; [by eapply holds_echo_stable|done].
Qed.

Lemma holds_frame_stable P w w' pkt z f : touches P w w' -> (forall x, of_pkt pkt x -> ~ P x) ->
  holds_frame w pkt z f -> holds_frame w' pkt z f.
Proof using Type*.
  intros L HP (Hm & El & Hz & Ef). split; [by eapply meta_stable|]. split; [done|]. split; [done|].
  rewrite (frame_stable P w w' pkt); [done..|unfold MAC_PREPEND_BYTES; lia|unfold MAC_PREPEND_BYTES; lia|lia].
Qed.

Lemma tx_rel_stable P w w' pc apc : touches P w w' ->
  (forall pkt, tx_packet_of pc = Some pkt -> forall x, of_pkt pkt x -> ~ P x) -> tx_rel w pc apc -> tx_rel w' pc apc.
Proof using Type*.
  intros L HP. destruct pc; cbn [tx_packet_of tx_rel] in *; try done; specialize (HP _ eq_refl).
  1,2,3: intros (R & E); split; [by eapply meta_stable|done].
  all: intros (f & R & E); exists f; split; [by eapply holds_frame_stable|done].
Qed.

(** ** The engines' steps *)

Context (cs bs : Z) (p : Z).
Hypothesis p_fits : 44 <= p <= Z.min 4280 (184 + mu_bytes).

(** The address of the transfer about to be made to or from the host. *)
Definition rx_ready (s : sys) : Prop := forall c z f t u, rxs s = RxDma c z f t u ->
  0 <= u64 (rx_buffer_iova (cfg s) + t) /\ u64 (rx_buffer_iova (cfg s) + t) + Z.of_nat (length f) <= 0x10000000000.
Definition tx_ready (s : sys) : Prop := forall c z h u, txs s = TxDma c z h u ->
  z = p /\ 0 <= u64 (tx_buffer_iova (cfg s) + h) /\ u64 (tx_buffer_iova (cfg s) + h) + p <= 0x10000000000.

(** An engine's step leaves the other's packet as it was. *)
Lemma tx_untouched w0 w w' pkt pc apc : accounted w0 (Some pkt) (tx_packet_of pc) -> leaves (of_pkt pkt) w w' ->
  tx_rel w pc apc -> tx_rel w' pc apc.
Proof using Type*. intros A [L _]. eapply tx_rel_stable; [exact L|]. intros y E. by eapply acc_apart. Qed.

Lemma rx_untouched w0 w w' pkt pc apc : accounted w0 (rx_packet_of pc) (Some pkt) -> leaves (of_pkt pkt) w w' ->
  rx_rel w pc apc -> rx_rel w' pc apc.
Proof using Type*. intros A%acc_sym [L _]. eapply rx_rel_stable; [exact L|]. intros y E. by eapply acc_apart. Qed.

Lemma leaves_nowhere P w w' : leaves nowhere w w' -> leaves P w w'.
Proof using. intros L. eapply leaves_mono; [exact L|]. intros x []. Qed.

Lemma sim_rx_recv c nic tpc w rr rt s cap z f' : sim (mk_fsys c nic (FRxRecv cap z) tpc w rr rt) s ->
  frx_step cs bs (mk_fsys c nic (FRxRecv cap z) tpc w rr rt) = Some f' -> exists s', rx_step s = Some s' /\ sim f' s'.
Proof using Type*.
  intros [] Hs. destruct s as [ac ah ai ao arx atx aw arr art]. cbn in *. subst ac aw arr art ai ao arx.
  unfold frx_step in Hs. cbn in Hs. destruct (nbi_ready nic) eqn:Er; [|done].
  destruct (receive_spec nic Er) as (pre & f & rest & pkt & nic' & E & Ein & Ein' & Eout & Nc & Nu & Ec & Eu & Ep & L & R).
  rewrite E in Hs. injection Hs as <-. rewrite Ein in *. apply Forall_cons in sm_traffic0 as [Ht Hrest].
  specialize (R Ht). pose proof (acc_take _ nic' _ _ sm_acc0 Nc Nu Ec Eu) as A.
  exists (set_rx (mk_sys c ah (traffic_arrival <$> rest) (nbi_out nic) (RxRecv cap z) atx w rr rt)
    (match filter_packets z pkt with ALLOW => RxTail cap z (echo_frame f) | DROP => RxRecv cap z end)).
  split.
  - unfold rx_step. cbn. rewrite <- (received_filter _ _ _ _ z R). by destruct (filter_packets z pkt).
  - destruct L as [L Lh]. split; cbn; try done; try congruence.
    + by exists pre, f.
    + by eapply tx_untouched.
Qed.

(** The packet given back. *)
Lemma sim_rx_drop c nic pc tpc w rr rt s cap z pkt : sim (mk_fsys c nic pc tpc w rr rt) s -> rx_packet_of pc = Some pkt ->
  rxs s = RxRecv cap z -> sim (mk_fsys c (drop_packet nic pkt) (FRxRecv cap z) tpc w rr rt) s.
Proof using Type*.
  intros [] Epc Ea. destruct s as [ac ah ai ao arx atx aw arr art]. cbn in *. rewrite Epc in *.
  destruct (drop_spec nic pkt) as (Ec & Eu & Ep & [Ei Eo] & L). pose proof L as [_ Lh].
  split; cbn; try done; try congruence.
  - eapply tx_untouched; [done|by apply leaves_nowhere|done].
  - by eapply acc_give.
Qed.

Lemma sim_rx_step f f' s : sim f s -> rx_ready s -> frx_step cs bs f = Some f' ->
  exists s', (s' = s \/ rx_step s = Some s') /\ sim f' s'.
Proof using Type*.
  intros Hsim Hr Hs. pose proof Hsim as []. destruct f as [c nic pc tpc w rr rt], s as [ac ah ai ao arx atx aw arr art].
  cbn in *. subst ac aw arr art ai ao.
  destruct pc as [| |cap z|cap z pkt|cap z pkt|cap z pkt|cap z pkt t u|cap z pkt t u|cap z pkt u|cap z pkt];
    try (destruct (sim_rx_recv _ _ _ _ _ _ _ _ _ _ Hsim Hs) as (s' & E & S); exists s'; by auto);
    unfold frx_step in Hs; cbn in Hs, sm_rx0.
  - subst arx. destruct (start_signal c =? 0) eqn:E; [done|]. injection Hs as <-.
    eexists. split; [right; unfold rx_step; cbn; by rewrite E|]. by split.
  - subst arx. injection Hs as <-. eexists. split; [by right|]. by split.
  - destruct sm_rx0 as (pre & g & R & ->). destruct (filter_packets z pkt).
    + injection Hs as <-. eexists. split; [by left|]. split; try done. cbn. by exists pre, g.
    + injection Hs as <-. eexists. split; [by left|]. by eapply sim_rx_drop.
  - destruct sm_rx0 as (pre & g & R & ->). injection Hs as <-. eexists. split; [by left|].
    pose proof (rv_traffic _ _ _ _ R) as (Hp & Hl & Hn & _). pose proof (rv_len _ _ _ _ R) as El. cbn [fst snd] in *.
    destruct (modify_spec nic pkt pre g (acc_own _ _ _ sm_acc0) R) as (Ef & (Ep & [Ei Eo] & L) & U).
    assert (length (echo_frame g) = length g) as Elen by (by apply echo_frame_length).
    pose proof L as [_ Lh]. split; cbn; try done; try congruence.
    + exists (echo_frame g). split; [|done]. unfold holds_echo. rewrite Elen. split; [done|]. split; [lia|done].
    + by eapply tx_untouched.
    + eapply acc_relabel; [by eapply acc_same|done..].
  - destruct sm_rx0 as (g & R & ->). injection Hs as <-. eexists. split; [by right|]. split; try done. cbn. by exists g.
  - destruct sm_rx0 as (g & R & ->). destruct (u =? rx_head c) eqn:E; [done|]. injection Hs as <-.
    eexists. split; [right; unfold rx_step; cbn; by rewrite E|]. split; try done. cbn. by exists g.
  - destruct sm_rx0 as (g & (El & Hn & Ef) & ->). injection Hs as <-. eexists. split; [by right|].
    destruct (Hr _ _ _ _ _ eq_refl) as [Ha Hb]. cbn in Ha, Hb.
    destruct (dma_send_spec nic pkt (u64 (rx_buffer_iova c + t)) cs bs g (acc_own _ _ _ sm_acc0) sm_pend0 El
      ltac:(lia) Ef Ha Hb) as (Ep & Em & Eh & [Ei Eo] & U).
    split; cbn; try done; try congruence.
    + intros x. rewrite Eh. by apply store_ext.
    + eapply (tx_rel_stable nowhere); [intros x _; by rewrite Em|by intros y _ x _ []|done].
    + by eapply acc_same.
  - subst arx. injection Hs as <-. eexists. split; [by right|]. by split.
  - injection Hs as <-. eexists. split; [by left|]. by eapply sim_rx_drop.
Qed.

Lemma sim_tx_alloc fuel junk c nic pc cap z w rr rt s f' : sim (mk_fsys c nic pc (FTxAlloc cap z) w rr rt) s ->
  ftx_step cs bs fuel junk (mk_fsys c nic pc (FTxAlloc cap z) w rr rt) = Some f' -> sim f' s.
Proof using Type*.
  intros [] Hs. destruct s as [ac ah ai ao arx atx aw arr art]. cbn in *. subst ac aw arr art ai ao atx.
  unfold ftx_step in Hs. cbn in Hs. destruct (allocate_packet fuel nic junk) as [[[a pkt] nic']|] eqn:E; [|done].
  cbn in Hs. injection Hs as <-.
  destruct (allocate_spec _ _ _ _ _ _ E) as (Nc & Nu & Ec & Eu & (Ep & [Ei Eo] & L) & M).
  apply acc_sym in sm_acc0. pose proof (acc_take _ nic' _ _ sm_acc0 Nc Nu Ec Eu) as A. apply acc_sym in A.
  pose proof L as [_ Lh]. split; cbn; try done; try congruence.
  eapply rx_untouched; [exact A| |done]. eapply leaves_mono; [exact L|]. intros x X. by left.
Qed.

Lemma sim_tx_recv c nic pc cap z pkt h u w rr rt s : sim (mk_fsys c nic pc (FTxDma cap z pkt h u) w rr rt) s ->
  tx_ready s -> exists s', tx_step s = Some s' /\
  sim (mk_fsys c (dma_packet_recv nic pkt z (u64 (tx_buffer_iova c + h)) cs bs) pc
    (FTxPublish cap z (set_pkt_len pkt (u32 (z + MAC_PREPEND_BYTES))) u) w rr rt) s'.
Proof using Type*.
  intros [] Hr. destruct s as [ac ah ai ao arx atx aw arr art]. cbn in *. subst ac aw arr art ai ao.
  destruct sm_tx0 as (M & ->). destruct (Hr _ _ _ _ eq_refl) as (-> & Ha & Hb). cbn in Ha, Hb.
  eexists. split; [done|]. apply acc_sym in sm_acc0.
  destruct (dma_recv_spec nic pkt (u64 (tx_buffer_iova c + h)) cs bs p (acc_own _ _ _ sm_acc0) M sm_pend0
    ltac:(lia) Ha Hb) as (Ef & M' & (Ep & [Ei Eo] & L) & U).
  pose proof L as [_ Lh]. split; cbn; try done; try congruence.
  - apply acc_sym in sm_acc0. eapply rx_untouched; [exact sm_acc0|exact L|done].
  - exists (load ah (u64 (tx_buffer_iova c + h)) p). split; [|done]. split; [exact M'|].
    cbn [nbi_meta pkt_info len set_pkt_len]. split; [apply u32_id; unfold is_u32, MAC_PREPEND_BYTES; lia|]. split; [lia|].
    change (packet_frame ?m (set_pkt_len pkt ?n)) with (packet_frame m pkt). rewrite Ef. apply load_ext. intros x _. apply sm_host0.
  - apply acc_sym. eapply acc_relabel; [by eapply acc_same|done..].
Qed.

Lemma sim_tx_send c nic pc cap z pkt w rr rt s : sim (mk_fsys c nic pc (FTxSend cap z pkt) w rr rt) s ->
  exists s', tx_step s = Some s' /\ sim (mk_fsys c (send_packet nic pkt) pc (FTxAlloc cap z) w rr rt) s'.
Proof using Type*.
  intros []. destruct s as [ac ah ai ao arx atx aw arr art]. cbn in *. subst ac aw arr art ai ao.
  destruct sm_tx0 as (f & (M & El & Hz & Ef) & ->). eexists. split; [done|]. apply acc_sym in sm_acc0.
  destruct (send_spec nic pkt z (acc_own _ _ _ sm_acc0) M El ltac:(lia) ltac:(lia)) as (Eo & Ei & Ep & L & Ec & Eu).
  pose proof L as [_ Lh]. split; cbn; try done; try congruence.
  - apply acc_sym in sm_acc0. by eapply rx_untouched.
  - apply acc_sym. by eapply acc_give.
Qed.

Lemma sim_tx_step fuel junk f f' s : sim f s -> tx_ready s -> ftx_step cs bs fuel junk f = Some f' ->
  exists s', (s' = s \/ tx_step s = Some s') /\ sim f' s'.
Proof using Type*.
  intros Hsim Hr Hs. destruct f as [c nic pc tpc w rr rt].
  destruct tpc as [| |cap z|cap z pkt|cap z pkt h u|cap z pkt h u|cap z pkt u|cap z pkt];
    try (exists s; split; [by left|]; by eapply sim_tx_alloc);
    unfold ftx_step in Hs; cbn in Hs.
  5: { injection Hs as <-. destruct (sim_tx_recv _ _ _ _ _ _ _ _ _ _ _ _ Hsim Hr) as (s' & E & S). exists s'. auto. }
  6: { injection Hs as <-. destruct (sim_tx_send _ _ _ _ _ _ _ _ _ _ Hsim) as (s' & E & S). exists s'. auto. }
  all: destruct Hsim; destruct s as [ac ah ai ao arx atx aw arr art]; cbn in *; subst ac aw arr art ai ao.
  - subst atx. destruct (start_signal c =? 0) eqn:E; [done|]. injection Hs as <-.
    eexists. split; [right; unfold tx_step; cbn; by rewrite E|]. by split.
  - subst atx. injection Hs as <-. eexists. split; [by right|]. by split.
  - destruct sm_tx0 as (M & ->). injection Hs as <-. eexists. split; [by right|]. by split.
  - destruct sm_tx0 as (M & ->). destruct (h =? tx_tail c) eqn:E; [done|]. injection Hs as <-.
    eexists. split; [right; unfold tx_step; cbn; by rewrite E|]. by split.
  - destruct sm_tx0 as (g & R & ->). injection Hs as <-. eexists. split; [by right|]. split; try done. cbn. by exists g.
Qed.

(** ** The worker's steps *)

Context (B : buffers) (phys : Z -> Z) (cap : Z).

Lemma sim_worker_step f f' s : sim f s -> fworker_step B phys p cap f = Some f' ->
  exists s', worker_step B phys p cap s = Some s' /\ sim f' s'.
Proof using Type*.
  intros [] Hs. destruct f as [c nic pc tpc w rr rt], s as [ac ah ai ao arx atx aw arr art].
  cbn in *. subst ac aw arr art. unfold fworker_step, host_view in Hs. cbn in Hs.
  destruct (worker_step B phys p cap _) as [v|] eqn:Ev in Hs; [|done]. cbn in Hs. injection Hs as <-.
  destruct (set_host_mem_laws nic (host v)) as (Eh & Em & Ep & [Ei Eo] & U).
  assert (exists s', worker_step B phys p cap (mk_sys c ah ai ao arx atx w rr rt) = Some s' /\
    Echo.cfg s' = Echo.cfg v /\ (forall x, host v x = host s' x) /\ wpc s' = wpc v /\ ring_rx s' = ring_rx v /\
    ring_tx s' = ring_tx v /\ wire_in s' = ai /\ wire_out s' = ao /\ rxs s' = arx /\ txs s' = atx)
    as (s' & E & E1 & E2 & E3 & E4 & E5 & E6 & E7 & E8 & E9).
  { unfold worker_step in *. cbn in *. destruct w; repeat case_match; simplify_eq; eexists; (split; [done|]); cbn; try done.
    repeat (split; [done|]). split; [|done]. intros x. erewrite (load_ext (host_mem nic) ah) by (intros y _; apply sm_host0).
    by apply store_ext. }
  exists s'. split; [done|].
  assert (touches nowhere nic (set_host_mem nic (host v))) as L by (intros x _; by rewrite Em).
  split; cbn; try congruence.
  - rewrite E8. eapply rx_rel_stable; [exact L|by intros y _ x _ []|done].
  - rewrite E9. eapply tx_rel_stable; [exact L|by intros y _ x _ []|done].
  - by eapply acc_same.
Qed.
End Sim.
