(* ===== verification/NicEchoThms.v ===== *)
(** * The echo server on a card

    What the detailed pipeline of [NicEcho] does, from the simulation of [NicEchoSim]; and
    a card that satisfies the laws, on which it runs. *)

From S2P Require Export NicEchoSim.

Local Open Scope Z_scope.

Section Card.
Context {W : Type} `{NicLaws W}.

Lemma traffic_arr_ok l : Forall traffic_ok l -> Forall arr_ok (traffic_arrival <$> l).
Proof using.
  intros Hl. apply Forall_fmap. eapply Forall_impl; [exact Hl|]. intros [pre f] (Hp & Hf & Hn & _).
  unfold arr_ok, traffic_arrival. cbn in *. repeat split; lia.
Qed.

Lemma freachable_sim cs bs B phys k p nic f :
  ring_config B phys k p -> p <= Z.min 4280 (184 + mu_bytes) ->
  dma_pending nic = [] -> ctm_used nic = ∅ -> mu_used nic = ∅ -> nbi_out nic = [] -> Forall traffic_ok (nbi_in nic) ->
  freachable cs bs B phys p (k * p) nic f ->
  exists s, reachable B phys p (k * p) (host_mem nic) (traffic_arrival <$> nbi_in nic) s /\ sim f s.
Proof using Type*.
  intros Hc Hp Ed Ec Eu Eo Ht Hr. pose proof (traffic_arr_ok _ Ht) as Ha.
  assert (44 <= p <= Z.min 4280 (184 + mu_bytes)) as Hfit by (destruct Hc; lia).
  induction Hr as [|f f' _ (s & Rs & Hs) Hst].
  - eexists. split; [apply reach_init|]. by split.
  - assert (rx_ready s) as Hrx.
    { intros c z g t u E. destruct (rx_dma_range _ _ _ _ _ _ _ _ _ _ _ _ Hc Ha Rs E) as (_ & -> & H1' & H2').
      pose proof (rc_rx _ _ _ _ Hc). lia. }
    assert (tx_ready p s) as Htx.
    { intros c z h u E. destruct (tx_dma_range _ _ _ _ _ _ _ _ _ _ _ Hc Ha Rs E) as (-> & H1' & H2').
      pose proof (rc_tx _ _ _ _ Hc). split; [done|]. lia. }
    destruct Hst as [f' Hf|fuel junk f' Hf|f' Hf].
    + destruct (sim_rx_step cs bs p Hfit _ _ _ Hs Hrx Hf) as (s' & [->|E] & S'); [by exists s|].
      exists s'. split; [|done]. eapply reach_step; [exact Rs|by apply step_rx].
    + destruct (sim_tx_step cs bs p Hfit _ _ _ _ _ Hs Htx Hf) as (s' & [->|E] & S'); [by exists s|].
      exists s'. split; [|done]. eapply reach_step; [exact Rs|by apply step_tx].
    + destruct (sim_worker_step p Hfit B phys (k * p) _ _ _ Hs Hf) as (s' & E & S').
      exists s'. split; [|done]. eapply reach_step; [exact Rs|by apply step_worker].
Qed.

(** C6 (refinement): the firmware with its packet buffers, transfers and allocations is
    the pipeline of frames.  From a card with no buffer in use, in every interleaving of
    the numbered parts of [rx_process] and [tx_process] and the worker's steps, the state
    is one of [Echo] with the same configuration, host memory and frames sent (as handed
    to the MAC, before it fills in checksums); so these are an initial segment of the echoes of the frames accepted; the worker's
    assertions hold; and the buffers in use are those of the two packets the engines
    have, which share none: no buffer is lost, freed twice or used after it is freed. *)
Theorem nic_pipeline_echoes cs bs B phys k p nic f :
  ring_config B phys k p -> p <= Z.min 4280 (184 + mu_bytes) ->
  dma_pending nic = [] -> ctm_used nic = ∅ -> mu_used nic = ∅ -> nbi_out nic = [] -> Forall traffic_ok (nbi_in nic) ->
  freachable cs bs B phys p (k * p) nic f ->
  (exists s, reachable B phys p (k * p) (host_mem nic) (traffic_arrival <$> nbi_in nic) s /\
     Echo.cfg s = f_cfg f /\ (forall x, host s x = host_mem (f_nic f) x) /\ wire_out s = nbi_out (f_nic f)) /\
  nbi_out (f_nic f) `prefix_of` replies p (traffic_arrival <$> nbi_in nic) /\ f_w f <> WAbort /\
  ctm_used (f_nic f) = opt_ctm (rx_packet_of (f_rx f)) ∪ opt_ctm (tx_packet_of (f_tx f)) /\
  mu_used (f_nic f) = opt_mu (rx_packet_of (f_rx f)) ∪ opt_mu (tx_packet_of (f_tx f)) /\
  (forall a b, rx_packet_of (f_rx f) = Some a -> tx_packet_of (f_tx f) = Some b -> apart a b).
Proof using Type*.
  intros Hc Hp Ed Ec Eu Eo Ht Hr. pose proof (traffic_arr_ok _ Ht) as Ha.
  destruct (freachable_sim _ _ _ _ _ _ _ _ Hc Hp Ed Ec Eu Eo Ht Hr) as (s & Rs & []).
  destruct (config_inv _ _ _ _ _ _ _ Hc Ha Rs) as (a & b & c & d & e & g & h & I).
  split; [by exists s|]. rewrite <- sm_out, <- sm_w.
  split; [destruct Hc; eapply inv_prefix; (eassumption || done)|].
  split; [destruct I; unfold w_ok in i_w; intros E; by rewrite E in i_w|exact sm_acc].
Qed.
End Card.
