(* ===== verification/NicCard.v ===== *)
(** * A card that satisfies the laws of [NicEcho]

    Sixty-four buffers of each kind, transfers in the order they were asked for, a
    modification script and a MAC command that are written before the packet.  On it the
    detailed pipeline runs. *)

From S2P Require Export NicEchoThms.

Local Open Scope Z_scope.

Record card := mk_card {
  c_nfp : mem;
  c_host : mem;
  c_pending : list (dma_queue * nfp_pcie_dma_cmd * Z);
  c_in : list (list Z * list Z);
  c_out : list (list Z);
  c_ctm : Z -> bool;
  c_mu : Z -> bool
}.

Definition c_set_mem (w : card) (m h : mem) (p : list (dma_queue * nfp_pcie_dma_cmd * Z)) : card :=
  mk_card m h p (c_in w) (c_out w) (c_ctm w) (c_mu w).
Definition c_set_used (w : card) (c u : Z -> bool) : card :=
  mk_card (c_nfp w) (c_host w) (c_pending w) (c_in w) (c_out w) c u.

Definition c_island : Z := 33.
Definition c_buffers : list Z := seqZ 0 64.
Definition update (f : Z -> bool) (n : Z) (b : bool) : Z -> bool := fun x => if x =? n then b else f x.
Definition c_free (f : Z -> bool) : option Z := snd <$> list_find (fun n => f n = false) c_buffers.
Definition c_muptr (n : Z) : Z := 0x100 + n.
Definition c_ptr40 (i p o : Z) : Z := 0x8000000000 + p * 0x800 + o.

Definition c_nbi_recv (w : card) : nbi_meta_catamaran * card :=
  match c_in w, c_free (c_ctm w), c_free (c_mu w) with
  | (pre, f) :: rest, Some n, Some u =>
      let m := store (c_nfp w) (c_ptr40 c_island n PKT_NBI_OFFSET) (take 192 (pre ++ take 184 f)) in
      let m := store m (mu_addr (c_muptr u)) (take 1792 (drop 184 f)) in
      (mk_nbi_meta (mk_pkt_info c_island n 0 (c_muptr u) 1 (Z.of_nat (length f) + 8)) 0 0,
       mk_card m (c_host w) (c_pending w) rest (c_out w) (update (c_ctm w) n true) (update (c_mu w) u true))
  | _, _, _ => (sim_meta0, w)
  end.

(** The frame of [n] bytes sent: from byte 68 of the CTM buffer and then from the buffer
    whose number is stored at its start. *)
Definition c_sent (w : card) (i p n : Z) : list Z :=
  let u := le_combine (load (c_nfp w) (c_ptr40 i p 0) 4) in
  load (c_nfp w) (c_ptr40 i p 68) (ctm_transfer_len 4 n) ++ load (c_nfp w) (mu_addr u) (buf_transfer_len 4 n).

#[export] Instance card_nbi : NbiEngine card := {
  nfp_mem := c_nfp;
  set_nfp_mem w m := c_set_mem w m (c_host w) (c_pending w);
  ctm_ptr40 := c_ptr40;
  me_island := c_island;
  nbi_recv := c_nbi_recv;
  PKT_CTM_SIZE_256 := 0;
  ctm_alloc w _ _ _ _ :=
    match c_free (c_ctm w) with
    | Some n => (Some n, c_set_used w (update (c_ctm w) n true) (c_mu w))
    | None => (None, w)
    end;
  blm_buf_alloc w _ :=
    match c_free (c_mu w) with
    | Some u => (Some (c_muptr u), c_set_used w (c_ctm w) (update (c_mu w) u true))
    | None => (None, w)
    end;
  blm_buf_free w u _ := c_set_used w (c_ctm w) (update (c_mu w) (u - 0x100) false);
  ctm_free w i p := if i =? c_island then c_set_used w (update (c_ctm w) p false) (c_mu w) else w;
  nbi_drop_seq w _ _ _ _ _ _ _ _ _ := w;
  mac_egress_cmd_write w a o _ _ := c_set_mem w (store (c_nfp w) (a + o - 4) [0xc0; 0; 0; 0]) (c_host w) (c_pending w);
  msd_write w a o :=
    ((1, 2), if o <? 12 then w else c_set_mem w (store (c_nfp w) (a + o - 8) (replicate 8 0x5a)) (c_host w) (c_pending w));
  nbi_send w i p _ n _ _ _ _ _ :=
    let u := le_combine (load (c_nfp w) (c_ptr40 i p 0) 4) in
    mk_card (c_nfp w) (c_host w) (c_pending w) (c_in w) (c_out w ++ [c_sent w i p (n - 4)])
      (update (c_ctm w) p false) (update (c_mu w) (u - 0x100) false);
  meta_bytes m := le_split 4 (muptr (pkt_info m))
}.

#[export] Instance card_dma : DmaEngine card := {
  host_mem := c_host;
  hi_bits := 8;
  length_bits := 12;
  DMA_MODE_shf := 16;
  me_id := 0x214;
  me_ctx := 0;
  dma_cfg_set_pair w _ _ _ := w;
  pcie_dma_enq w _ c q s := c_set_mem w (c_nfp w) (c_host w) (c_pending w ++ [(q, c, s)]);
  wait_for_all w _ :=
    let ms := dma_run (c_pending w) (c_nfp w, c_host w) in c_set_mem w ms.1 ms.2 []
}.

#[export] Instance card_nbi_laws : NbiLaws card.
Proof. split; [done|]. intros. cbn. unfold c_ptr40. lia. Qed.

Lemma card_wait_done (w : card) (sigs : list Z) : exists order,
  order ++ c_pending (wait_for_all w sigs) ≡ₚ c_pending w /\
  Forall (fun t => t.2 ∉ sigs) (c_pending (wait_for_all w sigs)) /\
  (nfp_mem (wait_for_all w sigs), host_mem (wait_for_all w sigs)) = dma_run order (nfp_mem w, host_mem w).
Proof.
  exists (c_pending w). cbn. rewrite app_nil_r. split; [done|]. split; [by constructor|]. by rewrite <- surjective_pairing.
Qed.

#[export] Instance card_dma_laws : DmaLaws card.
Proof. refine {| dma_pending := c_pending; wait_done := card_wait_done |}; done. Defined.

Definition numbers (f : Z -> bool) : list Z := filter (fun n => f n = true) c_buffers.

#[export] Instance card_world : NicWorld card := {
  set_host_mem w m := c_set_mem w (c_nfp w) m (c_pending w);
  nbi_ready w := match c_in w, c_free (c_ctm w), c_free (c_mu w) with _ :: _, Some _, Some _ => true | _, _, _ => false end;
  nbi_in := c_in;
  nbi_out := c_out;
  ctm_used w := list_to_set ((fun n => (c_island, n)) <$> numbers (c_ctm w));
  mu_used w := list_to_set (c_muptr <$> numbers (c_mu w));
  mu_bytes := 1792
}.

(** ** Its buffers *)

Lemma elem_numbers f n : n ∈ numbers f <-> 0 <= n < 64 /\ f n = true.
Proof. unfold numbers. rewrite list_elem_of_filter. unfold c_buffers. rewrite elem_of_seqZ. naive_solver lia. Qed.

Lemma used_ctm w b : b ∈ ctm_used w <-> b.1 = c_island /\ 0 <= b.2 < 64 /\ c_ctm w b.2 = true.
Proof.
  cbn. rewrite elem_of_list_to_set, list_elem_of_fmap. destruct b as [i n]. cbn. setoid_rewrite elem_numbers.
  split; [intros (y & [= -> ->] & H); done|intros (-> & H); by exists n].
Qed.

Lemma used_mu w u : u ∈ mu_used w <-> 0 <= u - 0x100 < 64 /\ c_mu w (u - 0x100) = true.
Proof.
  cbn. rewrite elem_of_list_to_set, list_elem_of_fmap. setoid_rewrite elem_numbers. unfold c_muptr.
  split; [intros (y & -> & H); by replace (256 + y - 256) with y by lia|intros H; exists (u - 256); split; [lia|done]].
Qed.

Lemma c_free_spec f n : c_free f = Some n -> 0 <= n < 64 /\ f n = false.
Proof.
  unfold c_free. destruct (list_find _ _) as [[i m]|] eqn:E; cbn; [|done]. intros [= ->].
  apply list_find_Some in E as (Hl & Hf & _). split; [|done]. apply list_elem_of_lookup_2 in Hl.
  unfold c_buffers in Hl. by apply elem_of_seqZ in Hl.
Qed.

Lemma mu_addr_range u : 0 <= u - 0x100 < 64 -> mu_addr u = u * 2048 + 256.
Proof.
  intros Hu. unfold mu_addr. rewrite Z.shiftl_mul_pow2 by lia. change (2 ^ 11) with 2048. words.
Qed.

Lemma ctm_take (w w' : card) n : c_ctm w' = update (c_ctm w) n true -> 0 <= n < 64 ->
  ctm_used w' = {[(c_island, n)]} ∪ ctm_used w.
Proof.
  intros E Hn. apply set_eq. intros [i m]. rewrite elem_of_union, elem_of_singleton, !used_ctm, E. unfold update. cbn [fst snd].
  destruct (Z.eqb_spec m n); naive_solver.
Qed.

Lemma mu_take (w w' : card) u : c_mu w' = update (c_mu w) u true -> 0 <= u < 64 ->
  mu_used w' = {[c_muptr u]} ∪ mu_used w.
Proof.
  intros E Hu. apply set_eq. intros x. rewrite elem_of_union, elem_of_singleton, !used_mu, E. unfold update, c_muptr.
  destruct (Z.eqb_spec (x - 256) u); naive_solver lia.
Qed.

Lemma ctm_give (w w' : card) n : c_ctm w' = update (c_ctm w) n false ->
  ctm_used w' = ctm_used w ∖ {[(c_island, n)]}.
Proof.
  intros E. apply set_eq. intros [i m]. rewrite elem_of_difference, elem_of_singleton, !used_ctm, E. unfold update. cbn [fst snd].
  destruct (Z.eqb_spec m n); naive_solver.
Qed.

Lemma mu_give (w w' : card) u : c_mu w' = update (c_mu w) (u - 0x100) false -> mu_used w' = mu_used w ∖ {[u]}.
Proof.
  intros E. apply set_eq. intros x. rewrite elem_of_difference, elem_of_singleton, !used_mu, E. unfold update.
  destruct (Z.eqb_spec (x - 256) (u - 256)); naive_solver lia.
Qed.

(** ** The laws *)

Lemma store_touches m a bs (P : Z -> Prop) x : (forall y, a <= y < a + Z.of_nat (length bs) -> P y) -> ~ P x ->
  store m a bs x = m x.
Proof. intros HP Hx. apply store_out. destruct (decide (a <= x < a + Z.of_nat (length bs))) as [|]; [|lia]. naive_solver. Qed.

Lemma card_recv w : nbi_ready w = true ->
  exists pre f rest, nbi_in w = (pre, f) :: rest /\
  let '(m, w') := nbi_recv w in
  let pkt := mk_pkt m (hdr_of_bytes []) in
  len (pkt_info m) = Z.of_nat (length f) + 8 /\
  pkt_ctm pkt ∉ ctm_used w /\ pkt_mu pkt ∉ mu_used w /\
  ctm_used w' = {[pkt_ctm pkt]} ∪ ctm_used w /\ mu_used w' = {[pkt_mu pkt]} ∪ mu_used w /\
  nbi_in w' = rest /\ nbi_out w' = nbi_out w /\ dma_pending w' = dma_pending w /\
  leaves (in_pkt (pkt_ctm pkt) (pkt_mu pkt)) w w' /\
  (traffic_ok (pre, f) -> load (nfp_mem w') (pkt_addr pkt PKT_NBI_OFFSET) 8 = pre /\
     packet_frame (nfp_mem w') pkt 8 (Z.of_nat (length f)) = f).
Proof.
  cbn [nbi_ready nbi_recv card_world card_nbi nbi_in]. unfold c_nbi_recv.
  destruct (c_in w) as [|[pre f] rest] eqn:Ein; [done|].
  destruct (c_free (c_ctm w)) as [n|] eqn:En; [|done]. destruct (c_free (c_mu w)) as [u|] eqn:Eu; [|done]. intros _.
  apply c_free_spec in En as [Hn Fn]. apply c_free_spec in Eu as [Hu Fu].
  exists pre, f, rest. split; [done|]. cbv zeta beta.
  set (pkt := mk_pkt _ _). set (w' := mk_card _ _ _ _ _ _ _). split; [done|].
  change (pkt_ctm pkt) with (c_island, n). change (pkt_mu pkt) with (c_muptr u).
  split; [rewrite used_ctm; cbn; rewrite Fn; naive_solver|].
  split; [rewrite used_mu; unfold c_muptr; replace (256 + u - 256) with u by lia; rewrite Fu; naive_solver|].
  split; [by apply ctm_take|]. split; [by apply mu_take|]. do 3 (split; [done|]).
  assert (mu_addr (c_muptr u) = c_muptr u * 2048 + 256) as Ea by (apply mu_addr_range; unfold c_muptr; lia).
  split; [split; [|done]|].
  - intros x Hx. cbn. rewrite (store_touches _ _ _ (in_pkt (c_island, n) (c_muptr u))); [|intros y Hy; right|done].
    + apply (store_touches _ _ _ (in_pkt (c_island, n) (c_muptr u))); [|done]. intros y Hy. left. unfold in_ctm. cbn.
      rewrite length_take in Hy. unfold c_ptr40, PKT_NBI_OFFSET in *. lia.
    + unfold in_mu. cbn [mu_bytes card_world]. rewrite length_take in Hy. lia.
  - intros (Hp & Hf & Hl & _). cbn [fst snd mu_bytes card_world] in *.
    assert (take 192 (pre ++ take 184 f) = pre ++ take 184 f) as Et by (apply take_ge; rewrite length_app, length_take; lia).
    assert (take 1792 (drop 184 f) = drop 184 f) as Ed by (apply take_ge; rewrite length_drop; lia).
    assert (c_nfp w' = store (store (c_nfp w) (c_ptr40 c_island n PKT_NBI_OFFSET) (pre ++ take 184 f))
      (mu_addr (c_muptr u)) (drop 184 f)) as Em by (unfold w'; cbn; by rewrite Et, Ed).
    change (nfp_mem w') with (c_nfp w'). rewrite Em.
    change (pkt_addr pkt) with (c_ptr40 c_island n). change (pkt_mu_buffer pkt) with (mu_addr (c_muptr u)).
    unfold packet_frame. change (pkt_addr pkt) with (c_ptr40 c_island n).
    destruct (transfer_lens 8 (Z.of_nat (length f))) as [E1 E2]; [lia..|].
    change (pkt_mu_buffer pkt) with (mu_addr (c_muptr u)). rewrite E1, E2.
    assert (length (drop 184 f) = Z.to_nat (Z.of_nat (length f) - Z.min (192 - 8) (Z.of_nat (length f)))) as El
      by (rewrite length_drop; lia).
    unfold c_muptr, c_ptr40, PKT_NBI_OFFSET in *.
    rewrite !(load_store_disjoint _ (mu_addr _)) by (rewrite ?Ea; lia). split.
    + rewrite (load_eq _ _ pre); [done|lia|]. intros i b Hb. apply store_in. by apply lookup_app_l_Some.
    + rewrite (load_store_same _ (mu_addr _) (drop 184 f)) by (rewrite El; lia).
      trans (take 184 f ++ drop 184 f); [|apply take_drop]. f_equal. apply load_eq; [rewrite length_take; lia|]. intros i b Hb.
      replace (549755813888 + n * 2048 + (64 + 8) + Z.of_nat i) with (549755813888 + n * 2048 + 64 + Z.of_nat (length pre + i)) by lia.
      apply store_in. rewrite lookup_app_r by lia. by replace (length pre + i - length pre)%nat with i by lia.
Qed.

#[export] Instance card_laws : NicLaws card.
Proof.
  refine {| meta_size := 4; nbi_recv_laws := card_recv |}.
  - cbn. lia.
  - intros w [i n] o Hb Ho. apply used_ctm in Hb as (_ & Hn & _). cbn in *. unfold c_ptr40. lia.
  - intros w [i n] [j m] x Hb Hb' N. apply used_ctm in Hb as (Ei & Hn & _). apply used_ctm in Hb' as (Ej & Hm & _).
    cbn in *. unfold in_ctm. cbn. unfold c_ptr40. assert (n <> m) by congruence. lia.
  - intros w u v x Hu Hv N. apply used_mu in Hu as [Hu _]. apply used_mu in Hv as [Hv _]. unfold in_mu. cbn [mu_bytes card_world].
    rewrite !mu_addr_range by done. lia.
  - intros w [i n] u x Hb Hu. apply used_ctm in Hb as (_ & Hn & _). apply used_mu in Hu as [Hu _]. unfold in_ctm, in_mu.
    rewrite mu_addr_range by done. cbn in *. unfold c_ptr40. lia.
  - done.
  - done.
  - done.
  - done.
  - done.
  - intros w n w' E. cbn in E. destruct (c_free (c_ctm w)) as [m|] eqn:Em; [|done]. injection E as <- <-.
    apply c_free_spec in Em as [Hm Fm]. split; [rewrite used_ctm; cbn; rewrite Fm; naive_solver|]. by split; [apply ctm_take|].
  - intros w w' E. cbn in E. destruct (c_free (c_ctm w)) as [m|] eqn:Em; [done|]. injection E as <-. done.
  - intros w l u w' E. cbn in E. destruct (c_free (c_mu w)) as [m|] eqn:Em; [|done]. injection E as <- <-.
    apply c_free_spec in Em as [Hm Fm].
    split; [rewrite used_mu; unfold c_muptr; replace (256 + m - 256) with m by lia; rewrite Fm; naive_solver|].
    by split; [apply mu_take|].
  - intros w l w' E. cbn in E. destruct (c_free (c_mu w)) as [m|] eqn:Em; [done|]. injection E as <-. done.
  - intros w i p w'. subst w'. cbn [ctm_free card_nbi]. destruct (Z.eqb_spec i c_island) as [->|N].
    + by split; [apply ctm_give|].
    + split; [|done]. apply set_eq. intros b. rewrite elem_of_difference, elem_of_singleton, used_ctm. destruct b. naive_solver.
  - intros w u l w'. by split; [apply mu_give|].
  - done.
  - intros m. cbn [meta_bytes card_nbi]. by rewrite le_split_length.
  - done.
  - intros w a o l3 l4 w'. repeat split. intros x Hx. cbn. apply store_out. cbn [length]. lia.
  - intros w a o. cbn [msd_write card_nbi]. destruct (Z.ltb_spec o 12); [repeat split|]. repeat split. intros x Hx. cbn.
    apply store_out. cbn [length replicate]. lia.
  - intros w m h msi w1 n q pkt i w' Hc Hu E Em. apply used_ctm in Hc as (Ei & Hp & _). apply used_mu in Hu as [Hu _].
    change (pkt_ctm pkt) with (isl i, pnum i) in *. change (pkt_mu pkt) with (muptr i) in *. cbn [fst snd] in *.
    change (meta_bytes m) with (le_split 4 (muptr i)) in Em. change (nfp_mem w1) with (c_nfp w1) in Em.
    change (pkt_addr pkt 0) with (c_ptr40 (isl i) (pnum i) 0) in Em.
    assert (le_combine (load (c_nfp w1) (c_ptr40 (isl i) (pnum i) 0) 4) = muptr i) as Eu.
    { rewrite Em. apply le_combine_split. change (2 ^ (8 * Z.of_nat 4)) with 0x100000000. lia. }
    subst w'. cbn [nbi_send card_nbi]. rewrite Eu. split.
    { cbn [nbi_out card_world c_out]. f_equal. f_equal. unfold c_sent. by rewrite Eu. }
    split; [done|]. split; [done|]. split; [done|]. split; [rewrite Ei; by apply ctm_give|by apply mu_give].
Defined.

(** ** A run *)

Definition junk_pkt : pkt_t := mk_pkt sim_meta0 (hdr_of_bytes []).

(** Runs the threads in the order of the schedule; a waiting thread is skipped. *)
Fixpoint frun (B : buffers) (phys : Z -> Z) (p cap : Z) (l : list thread) (s : fsys (W := card)) : fsys :=
  match l with
  | [] => s
  | t :: l =>
      let r := match t with
               | RX => frx_step 1 3 s | TX => ftx_step 1 3 4 junk_pkt s | WK => fworker_step B phys p cap s
               end in
      frun B phys p cap l (default s r)
  end.

Lemma frun_reachable B phys p cap nic l s : freachable 1 3 B phys p cap nic s ->
  freachable 1 3 B phys p cap nic (frun B phys p cap l s).
Proof.
  revert s. induction l as [|t l IH]; intros s Hs; [done|]. cbn [frun]. apply IH.
  destruct t; [destruct (frx_step 1 3 s) eqn:E|destruct (ftx_step 1 3 4 junk_pkt s) eqn:E
    |destruct (fworker_step B phys p cap s) eqn:E]; cbn [default from_option id]; try done;
  eapply freach_step; eauto using fstep_rx, fstep_tx, fstep_worker.
Qed.

Definition ex_card : card :=
  mk_card (fun _ => 0) (fun _ => 0) []
    ((fun f => (replicate 8 0, f)) <$> [ex_frame 17 8 1; ex_frame 17 6 2; ex_frame 1 8 3]) [] (fun _ => false) (fun _ => false).

Definition ex_frun : fsys :=
  frun ex_buffers ex_phys 64 512 (concat (replicate 60 [RX; WK; TX; WK; RX; TX])) (fsys_init ex_buffers 64 512 ex_card).

Lemma only_tx X a b : X = opt_ctm a ∪ opt_ctm b -> a = None -> X = opt_ctm b.
Proof. intros -> ->. apply (left_id_L ∅ (∪)). Qed.

(** Both accepted frames have come back, the third as an echo reply, and the TX engine has
    the only buffers in use, allocated for the next. *)
Lemma nic_pipeline_echoes_witness :
  nbi_out (f_nic ex_frun) `prefix_of` replies 64 (traffic_arrival <$> nbi_in ex_card) /\
  length (nbi_out (f_nic ex_frun)) = 2%nat /\ nbi_in (f_nic ex_frun) = [] /\
  rx_packet_of (f_rx ex_frun) = None /\ ctm_used (f_nic ex_frun) = opt_ctm (tx_packet_of (f_tx ex_frun)).
Proof.
  assert (Forall traffic_ok (nbi_in ex_card)) as Ht.
  { unfold ex_card, traffic_ok, bytes_ok, is_u8. apply (bool_decide_unpack _). by vm_compute. }
  assert (freachable 1 3 ex_buffers ex_phys 64 (8 * 64) ex_card ex_frun) as Hr by (apply frun_reachable, freach_init).
  assert (64 <= Z.min 4280 (184 + mu_bytes (W := card))) as Hfit by (cbn; lia).
  assert (dma_pending ex_card = []) as Ed by reflexivity.
  destruct (nic_pipeline_echoes 1 3 ex_buffers ex_phys 8 64 ex_card ex_frun ex_config Hfit Ed eq_refl eq_refl eq_refl Ht Hr) as (_ & Hp & _ & Hc & _).
  split; [exact Hp|]. split; [by vm_compute|]. split; [by vm_compute|].
  assert (rx_packet_of (f_rx ex_frun) = None) as E by (by vm_compute). split; [exact E|].
  exact (only_tx _ _ _ Hc E).
Defined.
