(* ===== verification/MultiRxInv.v ===== *)
(** * Multi-context RX: invariant and theorems

    The invariant of [MultiRx] under in-order resumption and the delivery theorem it
    gives. *)

From Stdlib Require Export Sorted.
From S2P Require Export MultiRx EchoThms.

Local Open Scope Z_scope.

Lemma difference_head (i : nat) q : NoDup (i :: q) -> filter (fun j => j <> i) (i :: q) = q.
Proof.
  intros [Hn _]%NoDup_cons. rewrite filter_cons_False by tauto.
  induction q as [|j q IH]; [done|].
  rewrite filter_cons_True by set_solver. f_equal. apply IH. set_solver.
Qed.

Section Invariant.
Context (iova k p : Z).
Hypothesis k_pos : 0 < k.
Hypothesis p_min : 44 <= p.
Hypothesis cap32 : is_u32 (k * p + p).
Hypothesis range : 0 <= iova /\ iova + k * p <= 0x10000000000.

Notation slotm m i := (slot m iova k p i).

(** Entry [s] is reserved and not yet published. *)
Definition entry_ok (P S : Z) (s t u : Z) : Prop :=
  P <= s < S /\ t = off k p s /\ u = off k p (s + 1).

Definition mctx_ok (booted : bool) (P S : Z) (log : list (list Z)) (m : mem) (c : mrx_pc) : Prop :=
  match c with
  | MBoot => True
  | MRecv => booted = true
  | MHead f | MHeadRead f _ => booted = true /\ Z.of_nat (length f) = p
  | MDma f t u => booted = true /\ exists s, entry_ok P S s t u /\ log !! Z.to_nat s = Some f
  | MTail t u => booted = true /\ exists s, entry_ok P S s t u /\ log !! Z.to_nat s = Some (slotm m s)
  | MTailRead t u v => booted = true /\ exists s q, entry_ok P S s t u /\
      log !! Z.to_nat s = Some (slotm m s) /\ v = off k p q /\ q <= P /\ s - q < k
  end.

Definition entry_of (c : mrx_pc) : option Z :=
  match c with MDma _ t _ | MTail t _ | MTailRead t _ _ => Some t | _ => None end.

Record minv (s : mrx) (H P S : Z) (hs : list Z) : Prop := {
  mi_iova : rx_buffer_iova (m_cfg s) = iova;
  mi_size : buffer_size (m_cfg s) = k * p;
  mi_psz : packet_size (m_cfg s) = p;
  mi_boot : m_init s = true -> m_buffer_capacity s = k * p /\ m_packet_size s = p;
  mi_head : rx_head (m_cfg s) = off k p H;
  mi_tail : rx_tail (m_cfg s) = off k p P;
  mi_shadow : m_shadow_tail s = off k p S;
  mi_ord : 0 <= H <= P /\ P <= S /\ S - H <= k - 1;
  mi_log : Z.of_nat (length (m_log s)) = S;
  mi_len : Forall (fun f => Z.of_nat (length f) = p) (m_log s);
  mi_taken : m_taken s = take (Z.to_nat H) (m_log s);
  mi_full : forall i, H <= i < P -> m_log s !! Z.to_nat i = Some (slotm (m_host s) i);
  mi_wire : Forall arr_ok (m_wire s);
  mi_ctx : forall i c, m_ctxs s !! i = Some c -> mctx_ok (m_init s) P S (m_log s) (m_host s) c;
  mi_uniq : forall i j c c' t, m_ctxs s !! i = Some c -> m_ctxs s !! j = Some c' ->
    entry_of c = Some t -> entry_of c' = Some t -> i = j;
  mi_served : Forall2 (fun i h => exists f, m_ctxs s !! i = Some (MHeadRead f (off k p h)))
    (m_served s) hs;
  mi_nodup : NoDup (m_served s);
  mi_sorted : StronglySorted Z.le hs;
  mi_limits : Forall (fun h => h <= H /\ S - h <= k - 1) hs
}.

Lemma p_pos' : 0 < p.
Proof. lia. Qed.

Lemma cap_u32' : is_u32 (k * p).
Proof. unfold is_u32 in *. nia. Qed.

Lemma mrx_next i : ring_next (k * p) p (off k p i) = off k p (i + 1).
Proof. apply ring_next_off; [done|apply p_pos'|apply cap_u32']. Qed.

Lemma mrx_addr i : u64 (iova + off k p i) = iova + off k p i.
Proof. pose proof (off_range k p k_pos p_pos' i). apply u64_id. unfold is_u64. lia. Qed.

Lemma minv_init n hm arrivals : Forall arr_ok arrivals ->
  minv (mrx_init iova (k * p) p n hm arrivals) 0 0 0 [].
Proof.
  intros Ha. assert (off k p 0 = 0) as E by (unfold off; rewrite Z.mod_0_l; lia).
  split; cbn; rewrite ?E; try done; try lia.
  - intros i c [-> _]%lookup_replicate. done.
  - intros i j c c' t [-> _]%lookup_replicate. done.
  - constructor.
  - constructor.
Qed.

(** Extending the log, or moving the published count up to a context's entry,
    keeps a context's condition. *)
Lemma mctx_ok_mono b P P' S S' log log' m m' c :
  mctx_ok b P S log m c -> P <= P' -> S <= S' ->
  (forall s t u, entry_of c = Some t -> entry_ok P S s t u -> P' <= s) ->
  (forall i f, log !! i = Some f -> log' !! i = Some f) ->
  (forall s t u, entry_of c = Some t -> entry_ok P S s t u -> slotm m' s = slotm m s) ->
  mctx_ok b P' S' log' m' c.
Proof.
  unfold entry_ok. destruct c; cbn; try done.
  - intros (Hb & s & (Hs & -> & ->) & Hl) HP HS HP' Hlog Hm. split; [done|].
    exists s. split; [|by apply Hlog].
    pose proof (HP' s _ _ eq_refl (conj Hs (conj eq_refl eq_refl))). split; [lia|done].
  - intros (Hb & s & (Hs & -> & ->) & Hl) HP HS HP' Hlog Hm. split; [done|].
    exists s. pose proof (HP' s _ _ eq_refl (conj Hs (conj eq_refl eq_refl))).
    rewrite (Hm s _ _ eq_refl (conj Hs (conj eq_refl eq_refl))).
    split; [|by apply Hlog]. split; [lia|done].
  - intros (Hb & s & q & (Hs & -> & ->) & Hl & Hv & Hq & Hsq) HP HS HP' Hlog Hm.
    split; [done|]. exists s, q. pose proof (HP' s _ _ eq_refl (conj Hs (conj eq_refl eq_refl))).
    rewrite (Hm s _ _ eq_refl (conj Hs (conj eq_refl eq_refl))).
    split; [split; [lia|done]|]. split; [by apply Hlog|]. split; [done|]. lia.
Qed.

(** The samples of the served contexts are not affected by another context. *)
Lemma served_insert (l : list mrx_pc) (q : list nat) hs i c : i ∉ q ->
  Forall2 (fun j h => exists f, l !! j = Some (MHeadRead f (off k p h))) q hs ->
  Forall2 (fun j h => exists f, <[i := c]> l !! j = Some (MHeadRead f (off k p h))) q hs.
Proof.
  intros Hn HF. induction HF as [|j h q hs [f Hf] _ IH]; constructor.
  - exists f. rewrite list_lookup_insert_ne; set_solver.
  - apply IH. set_solver.
Qed.

Lemma entry_range b P S log m c t : mctx_ok b P S log m c -> entry_of c = Some t ->
  exists e, P <= e < S /\ t = off k p e.
Proof.
  unfold entry_ok. destruct c; cbn; intros Hok E; try done; injection E as <-.
  - destruct Hok as (_ & e & (? & -> & _) & _). eauto.
  - destruct Hok as (_ & e & (? & -> & _) & _). eauto.
  - destruct Hok as (_ & e & q & (? & -> & _) & _). eauto.
Qed.

Lemma mctx_ok_boot b P S log m c : mctx_ok b P S log m c -> mctx_ok true P S log m c.
Proof. destruct c; cbn; naive_solver. Qed.

(** A step that only moves context [i] between program counters that hold no
    entry, or keeps its entry, and is not a resumption. *)
Lemma minv_ctx s H P S hs i c c' : minv s H P S hs -> m_ctxs s !! i = Some c ->
  mctx_ok (m_init s) P S (m_log s) (m_host s) c' ->
  (entry_of c' = None \/ entry_of c' = entry_of c) ->
  i ∉ m_served s ->
  minv (with_ctx s i c') H P S hs.
Proof.
  intros [] Hi Hc He Hn. split; cbn; try done.
  - intros j d [(-> & -> & _)|[_ Hj]]%list_lookup_insert_Some; [done|eauto].
  - intros j1 j2 d1 d2 t H1 H2 E1 E2.
    apply list_lookup_insert_Some in H1 as [(-> & -> & _)|[N1 H1]];
    apply list_lookup_insert_Some in H2 as [(<- & -> & _)|[N2 H2]]; try done.
    + destruct He as [He|He]; rewrite He in E1; [done|]. eauto.
    + destruct He as [He|He]; rewrite He in E2; [done|]. eauto.
    + eauto.
  - by apply served_insert.
Qed.

(** A served context holds a sample of the head. *)
Lemma served_state s H P S hs i : minv s H P S hs -> i ∈ m_served s ->
  exists f h, m_ctxs s !! i = Some (MHeadRead f (off k p h)).
Proof.
  intros I Hi. pose proof (mi_served _ _ _ _ _ I) as HF. clear I. revert Hi.
  induction HF as [|j h q hs' [f Hf] _ IH]; intros Hi; [by apply elem_of_nil in Hi|].
  apply elem_of_cons in Hi as [->|Hi]; [by exists f, h|by apply IH].
Qed.

Lemma not_served s H P S hs i c : minv s H P S hs -> m_ctxs s !! i = Some c ->
  (forall f h, c <> MHeadRead f h) -> i ∉ m_served s.
Proof.
  intros I Hi Hc Hin. destruct (served_state _ _ _ _ _ _ I Hin) as (f & h & E).
  rewrite Hi in E. injection E as ->. by eapply Hc.
Qed.

(** ** The steps *)

Lemma minv_sample s H P S hs i f : minv s H P S hs -> m_ctxs s !! i = Some (MHead f) ->
  minv (with_served (with_ctx s i (MHeadRead f (rx_head (m_cfg s)))) (m_served s ++ [i]))
    H P S (hs ++ [H]).
Proof.
  intros I Hi. pose proof (not_served _ _ _ _ _ _ _ I Hi ltac:(done)) as Hn.
  pose proof (mi_ctx _ _ _ _ _ I _ _ Hi) as Hok. cbn in Hok.
  pose proof (minv_ctx _ _ _ _ _ _ _ (MHeadRead f (rx_head (m_cfg s))) I Hi Hok
    (or_introl eq_refl) Hn) as [].
  destruct I. split; cbn in *; try done.
  - apply Forall2_app; [done|]. constructor; [|constructor].
    exists f. rewrite mi_head1. apply list_lookup_insert_eq. by eapply lookup_lt_Some.
  - apply NoDup_app. split; [done|]. split; [set_solver|apply NoDup_singleton].
  - clear -mi_sorted1 mi_limits1. induction mi_sorted1 as [|h hs Hs IH Hf]; cbn.
    + repeat constructor.
    + apply Forall_cons in mi_limits1 as [Hh Hl]. constructor; [by apply IH|].
      apply Forall_app. split; [done|]. constructor; [lia|constructor].
  - apply Forall_app. split; [done|]. constructor; [lia|constructor].
Qed.


(** The oldest served context resumes: its sample leaves the queue. *)
Lemma minv_pop s H P S h hs i q : minv s H P S (h :: hs) -> m_served s = i :: q ->
  minv (with_served s q) H P S hs /\
  (exists f, m_ctxs s !! i = Some (MHeadRead f (off k p h))) /\
  filter (fun j => j <> i) (m_served s) = q /\ i ∉ q /\ h <= H /\ S - h <= k - 1 /\
  Forall (fun h' => h <= h') hs.
Proof.
  intros [] Hq. rewrite Hq in *. apply Forall2_cons in mi_served0 as [Hf HF].
  pose proof mi_nodup0 as [Hn Hd]%NoDup_cons. apply Forall_cons in mi_limits0 as [[Hh Hl] HL].
  apply StronglySorted_inv in mi_sorted0 as [Hs Hle].
  split; [by split|]. split; [done|]. split; [by apply difference_head|done].
Qed.

(** A resumed context that finds room reserves the entry at the shadow tail. *)
Lemma minv_reserve s H P S hs i f h : minv s H P S hs ->
  m_ctxs s !! i = Some (MHeadRead f (off k p h)) -> i ∉ m_served s ->
  h <= H -> S - h < k - 1 -> Forall (fun h' => h <= h') hs ->
  minv (with_ctx (with_reserved s (off k p (S + 1)) f) i (MDma f (off k p S) (off k p (S + 1))))
    H P (S + 1) hs.
Proof.
  intros [] Hi Hn Hh HS Hle. pose proof (mi_ctx0 _ _ Hi) as [Hb Hf].
  assert (m_log s !! Z.to_nat S = None) as Hend by (apply lookup_ge_None_2; lia).
  split; cbn; try done; try lia.
  - rewrite length_app. cbn. lia.
  - apply Forall_app. split; [done|]. by constructor.
  - rewrite mi_taken0, take_app_le by lia. done.
  - intros j Hj. rewrite lookup_app_l by lia. by apply mi_full0.
  - intros j c [(-> & <- & _)|[Nj Hj]]%list_lookup_insert_Some.
    + cbn. split; [done|]. exists S. split; [split; [lia|done]|].
      rewrite lookup_app_r by lia. by replace (Z.to_nat S - length (m_log s))%nat with 0%nat by lia.
    + eapply mctx_ok_mono; [by eapply mi_ctx0|lia|lia| | |done].
      * intros s' t u _ [? _]. lia.
      * intros j' f' Hl. by apply lookup_app_l_Some.
  - assert (forall j c, m_ctxs s !! j = Some c -> entry_of c <> Some (off k p S)) as Hfresh.
    { intros j c Hj E. destruct (entry_range _ _ _ _ _ _ _ (mi_ctx0 _ _ Hj) E) as (e & He & Ee).
      apply off_inj in Ee; lia. }
    intros j1 j2 d1 d2 t H1 H2 E1 E2.
    apply list_lookup_insert_Some in H1 as [(-> & <- & _)|[N1 H1]];
    apply list_lookup_insert_Some in H2 as [(-> & <- & _)|[N2 H2]]; try done.
    + cbn in E1. injection E1 as <-. by destruct (Hfresh _ _ H2).
    + cbn in E2. injection E2 as <-. by destruct (Hfresh _ _ H1).
    + eauto.
  - by apply served_insert.
  - rewrite Forall_forall in mi_limits0, Hle |- *. intros h' Hh'.
    pose proof (mi_limits0 _ Hh'). pose proof (Hle _ Hh'). cbn in *. lia.
Qed.

(** The DMA of a reserved entry. *)
Lemma minv_dma s H P S hs i f t u : minv s H P S hs -> m_ctxs s !! i = Some (MDma f t u) ->
  minv (with_ctx (with_host s (store (m_host s) (u64 (rx_buffer_iova (m_cfg s) + t)) f)) i (MTail t u))
    H P S hs.
Proof.
  intros I Hi. pose proof (not_served _ _ _ _ _ _ _ I Hi ltac:(done)) as Hn. destruct I.
  pose proof (mi_ctx0 _ _ Hi) as (Hb & e & (He & -> & ->) & Hl).
  assert (Z.of_nat (length f) = p) as Hf.
  { rewrite Forall_forall in mi_len0. apply mi_len0. by eapply list_elem_of_lookup_2. }
  rewrite mi_iova0, mrx_addr.
  assert (forall e', H <= e' < S -> e' <> e ->
    slotm (store (m_host s) (iova + off k p e) f) e' = slotm (m_host s) e') as Hsame.
  { intros e' ? ?. apply slot_store_other; (done || lia). }
  split; cbn; try done.
  - intros j Hj. rewrite Hsame by lia. by apply mi_full0.
  - intros j c [(-> & <- & _)|[Nj Hj]]%list_lookup_insert_Some.
    + cbn. split; [done|]. exists e. split; [split; [lia|done]|].
      by rewrite slot_store_same.
    + eapply mctx_ok_mono; [by eapply mi_ctx0|lia|lia| |done|].
      * intros s' t u _ [? _]. lia.
      * intros s' t u Et (Hs' & -> & _). apply Hsame; [lia|]. intros ->.
        by destruct Nj; eapply mi_uniq0; eauto.
  - intros j1 j2 d1 d2 t H1 H2 E1 E2.
    apply list_lookup_insert_Some in H1 as [(-> & <- & _)|[N1 H1]];
    apply list_lookup_insert_Some in H2 as [(-> & <- & _)|[N2 H2]]; try done.
    + by eapply (mi_uniq0 j1 j2 _ _ t Hi H2).
    + by eapply (mi_uniq0 j1 j2 _ _ t H1 Hi).
    + by eapply mi_uniq0.
  - by apply served_insert.
Qed.

(** A context whose read of the published tail equals its entry publishes it. *)
Lemma minv_publish s H P S hs i t u : minv s H P S hs ->
  m_ctxs s !! i = Some (MTailRead t u t) ->
  minv (with_ctx (with_cfg s (set_rx_tail (m_cfg s) u)) i MRecv) H (P + 1) S hs.
Proof.
  intros I Hi. pose proof (not_served _ _ _ _ _ _ _ I Hi ltac:(done)) as Hn. destruct I.
  pose proof (mi_ctx0 _ _ Hi) as (Hb & e & q & (He & -> & ->) & Hl & Hq & Hq1 & Hq2).
  assert (e = q) as <- by (apply (off_inj k p k_pos p_pos'); [lia|done]).
  assert (e = P) as -> by lia.
  split; cbn; try done; try lia.
  - intros j Hj. destruct (decide (j = P)) as [->|]; [done|]. apply mi_full0. lia.
  - intros j c [(-> & <- & _)|[Nj Hj]]%list_lookup_insert_Some; [done|].
    eapply mctx_ok_mono; [by eapply mi_ctx0|lia|lia| |done|done].
    intros s' t u Et (Hs' & -> & _). destruct (decide (s' = P)) as [->|]; [|lia].
    by destruct Nj; eapply mi_uniq0; eauto.
  - intros j1 j2 d1 d2 t H1 H2 E1 E2.
    apply list_lookup_insert_Some in H1 as [(-> & <- & _)|[N1 H1]];
    apply list_lookup_insert_Some in H2 as [(-> & <- & _)|[N2 H2]]; try done.
    by eapply (mi_uniq0 j1 j2).
  - by apply served_insert.
Qed.

(** The host removes the oldest published entry. *)
Lemma minv_take s s' H P S hs : minv s H P S hs -> mrx_host_take s = Some s' ->
  exists f, m_log s !! Z.to_nat H = Some f /\ m_taken s' = m_taken s ++ [f] /\
  minv s' (H + 1) P S hs.
Proof.
  intros [] Hs. unfold mrx_host_take in Hs.
  destruct (Z.eqb_spec (rx_head (m_cfg s)) (rx_tail (m_cfg s))) as [|N]; [done|].
  injection Hs as <-. rewrite mi_iova0, mi_head0, mi_psz0, mi_size0, mrx_next.
  assert (H < P) as HP.
  { destruct (decide (H = P)) as [->|]; [|lia]. by rewrite mi_head0, mi_tail0 in N. }
  exists (slotm (m_host s) H). split; [apply mi_full0; lia|]. split; [done|].
  split; cbn; try done; try lia.
  - rewrite mi_taken0. replace (Z.to_nat (H + 1)) with (Datatypes.S (Z.to_nat H)) by lia.
    symmetry. apply take_S_r. apply mi_full0. lia.
  - intros j Hj. apply mi_full0. lia.
  - eapply Forall_impl; [done|]. cbn. lia.
Qed.

Lemma minv_start s H P S hs : minv s H P S hs -> minv (mrx_host_start s) H P S hs.
Proof. intros []. by split. Qed.

(** Context [i] reads the parameters, or waits for context 0 to. *)
Lemma minv_boot s s' H P S hs i : minv s H P S hs -> m_ctxs s !! i = Some MBoot -> mrx_ctx_step true i s = Some s' ->
  minv s' H P S hs.
Proof.
  intros I Hi Hs. pose proof (not_served _ _ _ _ _ _ _ I Hi ltac:(done)) as Hn. unfold mrx_ctx_step in Hs. rewrite Hi in Hs.
  assert (forall b, b = true -> (b = m_init s \/ m_init s = false) ->
    minv (with_boot s (k * p) p) H P S hs) as Hboot.
  { intros b -> Hb. destruct I. split; cbn; try done.
    intros j c Hj. eapply mctx_ok_boot, mi_ctx0; done. }
  destruct (decide (i = 0%nat)).
  - destruct (start_signal (m_cfg s) =? 0); [done|]. injection Hs as <-.
    rewrite (mi_size _ _ _ _ _ I), (mi_psz _ _ _ _ _ I).
    eapply (minv_ctx (with_boot s (k * p) p)); [|done|done|by left|done].
    destruct (m_init s) eqn:E; by eapply Hboot; auto.
  - destruct (m_init s) eqn:E; [|done]. injection Hs as <-.
    eapply minv_ctx; [done|done|done|by left|done].
Qed.

(** It receives a packet. *)
Lemma minv_recv s s' H P S hs i : minv s H P S hs -> m_ctxs s !! i = Some MRecv -> mrx_ctx_step true i s = Some s' ->
  minv s' H P S hs.
Proof.
  intros I Hi Hs. pose proof (not_served _ _ _ _ _ _ _ I Hi ltac:(done)) as Hn.
  pose proof (mi_ctx _ _ _ _ _ I _ _ Hi) as Hok. cbn in Hok. unfold mrx_ctx_step in Hs. rewrite Hi in Hs.
  destruct (m_wire s) as [|a rest] eqn:Ew; [done|].
  assert (arr_ok a /\ Forall arr_ok rest) as [Ha Hr].
  { pose proof (mi_wire _ _ _ _ _ I) as Hw. rewrite Ew in Hw. by apply Forall_cons in Hw. }
  assert (minv (with_wire s rest) H P S hs) as I' by (destruct I; by split).
  cbn in Hs. rewrite (proj2 (mi_boot _ _ _ _ _ I Hok)) in Hs.
  destruct (filter_packets p (arr_pkt a)) eqn:F; injection Hs as <-; [|done].
  eapply minv_ctx; [done|done| |by left|done]. cbn. split; [done|].
  apply (reply_length p); [done|done|]. assert (p <= k * p) by nia. unfold is_u32 in cap32. lia.
Qed.

(** It is resumed with the head it read, and reserves an entry or reads again. *)
Lemma minv_turn s s' H P S hs i f h : minv s H P S hs -> m_ctxs s !! i = Some (MHeadRead f h) -> mrx_ctx_step true i s = Some s' ->
  exists S' hs', minv s' H P S' hs'.
Proof.
  intros I Hi Hs. pose proof (mi_ctx _ _ _ _ _ I _ _ Hi) as Hok. cbn in Hok. unfold mrx_ctx_step in Hs. rewrite Hi in Hs.
  cbn [may_resume] in Hs. case_bool_decide as Hq; [|done].
  destruct (m_served s) as [|j q] eqn:Eq; [done|]. injection Hq as ->.
  pose proof (mi_served _ _ _ _ _ I) as HF. rewrite Eq in HF.
  apply Forall2_cons_inv_l in HF as (h1 & hs1 & [f1 Hf1] & _ & ->).
  rewrite Hi in Hf1. injection Hf1 as <- ->.
  destruct (minv_pop _ _ _ _ _ _ _ _ I Eq) as (I' & _ & Hd & Hn & Hh & HS & Hle).
  rewrite Eq in Hd. rewrite Hd in Hs. cbn in Hs.
  destruct Hok as [Hb Hlen].
  destruct (mi_boot _ _ _ _ _ I Hb) as [Ec Ep].
  rewrite Ec, Ep, (mi_shadow _ _ _ _ _ I), mrx_next in Hs.
  pose proof (mi_ord _ _ _ _ _ I).
  destruct (Z.eqb_spec (off k p (S + 1)) (off k p h1)) as [E|N]; injection Hs as <-.
  - exists S, hs1. eapply (minv_ctx _ _ _ _ _ i _ (MHead f)); [done|done|done|by left|done].
  - exists (S + 1), hs1. eapply minv_reserve; [done|done|done|done| |done].
    destruct (decide (S - h1 = k - 1)); [|lia]. destruct N.
    rewrite <- (off_period k p k_pos h1). f_equal. lia.
Qed.

(** Every step of a context under in-order resumption. *)
Lemma minv_ctx_step s s' H P S hs i : minv s H P S hs -> mrx_ctx_step true i s = Some s' ->
  exists P' S' hs', minv s' H P' S' hs'.
Proof.
  intros I Hs. pose proof Hs as Hs'. unfold mrx_ctx_step in Hs. destruct (m_ctxs s !! i) as [c|] eqn:Hi; [|done].
  pose proof (mi_ctx _ _ _ _ _ I _ _ Hi) as Hok.
  destruct c as [| |f|f h|f t u|t u|t u v]; cbn in Hok.
  - eauto using minv_boot.
  - eauto using minv_recv.
  - injection Hs as <-. eauto using minv_sample.
  - destruct (minv_turn _ _ _ _ _ _ _ _ _ I Hi Hs') as (S' & hs' & I'). eauto.
  - injection Hs as <-. eauto using minv_dma.
  - pose proof (not_served _ _ _ _ _ _ _ I Hi ltac:(done)) as Hn.
    injection Hs as <-. exists P, S, hs. eapply minv_ctx; [done|done| |by right|done].
    destruct Hok as (Hb & e & He & Hl). cbn. split; [done|]. exists e, P.
    rewrite (mi_tail _ _ _ _ _ I). pose proof (mi_ord _ _ _ _ _ I).
    destruct He as [? ?]. do 3 (split; [done|]). lia.
  - pose proof (not_served _ _ _ _ _ _ _ I Hi ltac:(done)) as Hn.
    destruct (Z.eqb_spec v t) as [->|N]; injection Hs as <-.
    + eauto using minv_publish.
    + exists P, S, hs. eapply minv_ctx; [done|done| |by right|done].
      destruct Hok as (Hb & e & q & He & Hl & _). cbn. eauto.
Qed.

Lemma mrx_reach_inv n hm arrivals s : Forall arr_ok arrivals ->
  mrx_reach true (mrx_init iova (k * p) p n hm arrivals) s ->
  exists H P S hs, minv s H P S hs.
Proof.
  intros Ha. induction 1 as [|e s s' _ (H & P & S & hs & I) Hs].
  - eexists _, _, _, _. by apply minv_init.
  - destruct e as [|i|]; cbn in Hs.
    + injection Hs as <-. exists H, P, S, hs. by apply minv_start.
    + destruct (minv_ctx_step _ _ _ _ _ _ _ I Hs) as (P' & S' & hs' & I'). by exists H, P', S', hs'.
    + destruct (minv_take _ _ _ _ _ _ I Hs) as (f & _ & _ & I'). by exists (H + 1), P, S, hs.
Qed.
End Invariant.

(** C9 (safety): with any number of contexts, in any interleaving in which contexts
    resume in the order their reads of [cfg.rx_head] were served, what the host has
    taken from the RX ring is an initial segment of the frames in the order their
    entries were reserved: no reserved entry is overwritten before it is read or
    published before its DMA.  No more than [k - 1] entries are outstanding, and
    every entry's frame has the configured size. *)
Theorem multi_rx_in_order_delivers iova k p n hm arrivals s :
  0 < k -> 44 <= p -> is_u32 (k * p + p) -> 0 <= iova -> iova + k * p <= 0x10000000000 ->
  Forall arr_ok arrivals -> mrx_reach true (mrx_init iova (k * p) p n hm arrivals) s ->
  m_taken s `prefix_of` m_log s /\
  Z.of_nat (length (m_log s)) - Z.of_nat (length (m_taken s)) <= k - 1 /\
  Forall (fun f => Z.of_nat (length f) = p) (m_log s).
Proof.
  intros Hk Hp H32 Hi Hr Ha Hreach.
  destruct (mrx_reach_inv iova k p Hk Hp H32 (conj Hi Hr) _ _ _ _ Ha Hreach) as (H & P & S & hs & []).
  rewrite mi_taken0. split; [eexists; symmetry; apply take_drop|].
  split; [|done]. rewrite length_take. lia.
Qed.

Lemma mrx_ex_arrivals_ok : Forall arr_ok mrx_ex_arrivals.
Proof.
  unfold mrx_ex_arrivals. repeat (apply Forall_cons; split; [repeat split; vm_compute; lia || done|]).
  by apply Forall_nil.
Qed.

(** Three contexts, a ring of two entries. *)
Lemma multi_rx_in_order_delivers_witness :
  m_taken (mrx_ex true) `prefix_of` m_log (mrx_ex true) /\ length (m_taken (mrx_ex true)) = 1%nat.
Proof.
  split; [|by vm_compute].
  refine (proj1 (multi_rx_in_order_delivers 0x1000 2 64 3 (fun _ => 0) mrx_ex_arrivals (mrx_ex true)
    _ _ _ _ _ mrx_ex_arrivals_ok (mrx_ex_reach true)));
    unfold is_u32; lia.
Defined.
