(* ===== verification/MultiRxOverrun.v ===== *)
(** * Multi-context RX: the overrun

    When waiting contexts resume in any order, [rx_process] of [multi_rx.c] reserves an
    entry that a ring of any size does not have: one context keeps a head it read, the
    host takes a frame, another context fills the ring, and the first resumes. *)

From S2P Require Export MultiRxInv.

Local Open Scope Z_scope.

Lemma filter_none_ne (i : nat) (q : list nat) : i ∉ q -> filter (fun j => j <> i) q = q.
Proof.
  induction q as [|j q IH]; intros Hq; [done|]. apply not_elem_of_cons in Hq as [Hj Hq].
  rewrite filter_cons_True by done. by rewrite IH.
Qed.

Section Overrun.
Context (iova k p : Z).
Hypothesis k_two : 2 <= k.
Hypothesis p_min : 44 <= p.
Hypothesis cap32 : is_u32 (k * p + p).
Hypothesis range : 0 <= iova /\ iova + k * p <= 0x10000000000.

Notation off := (off k p).

(** A booted device between the steps of [rx_process]: [H] frames taken, [S] entries
    reserved and published. *)
Definition at_rest (H S : Z) (cs : list mrx_pc) (q : list nat) (wire : list arrival) (m : mem)
    (taken log : list (list Z)) : mrx :=
  mk_mrx (mk_meta iova 0 (k * p) p 1 (off H) (off S) 0 0) (k * p) p true (off S) cs q wire m taken log.

Lemma next_entry S : ring_next (k * p) p (off S) = off (S + 1).
Proof using k_two p_min cap32 range. by apply (mrx_next iova); [lia|..]. Qed.

Lemma entry_addr S : u64 (iova + off S) = iova + off S.
Proof using k_two p_min range. by apply mrx_addr; [lia|..]. Qed.

Section From.
Context (s0 : mrx).
Notation reach := (mrx_reach false s0).

Lemma reach_ctx i s s' : reach s -> mrx_ctx_step false i s = Some s' -> reach s'.
Proof using. intros. by apply (mrx_reach_step _ _ (EvCtx i) s). Qed.

(** A context that waits for a packet gets the next one accepted. *)
Lemma reach_recv H S cs q m taken log i f fs : forall wire,
  reach (at_rest H S cs q wire m taken log) -> Forall arr_ok wire -> cs !! i = Some MRecv -> replies p wire = f :: fs ->
  exists wire', reach (at_rest H S (<[i := MHead f]> cs) q wire' m taken log) /\ Forall arr_ok wire' /\ replies p wire' = fs.
Proof using.
  induction wire as [|a wire IH]; intros Hr Ha Hi Hf; [done|]. inversion Ha as [|? ? Ha1 Ha2]; subst.
  rewrite replies_cons in Hf. destruct (filter_packets p (arr_pkt a)) eqn:E.
  - injection Hf as <- <-. exists wire. split; [|done]. eapply (reach_ctx i); [exact Hr|].
    unfold mrx_ctx_step, at_rest. cbn. by rewrite Hi, E.
  - apply IH; [|done..]. eapply (reach_ctx i); [exact Hr|]. unfold mrx_ctx_step, at_rest. cbn. by rewrite Hi, E.
Qed.

(** One that has a packet reads the head. *)
Lemma reach_sample H S cs q wire m taken log i f :
  reach (at_rest H S cs q wire m taken log) -> cs !! i = Some (MHead f) ->
  reach (at_rest H S (<[i := MHeadRead f (off H)]> cs) (q ++ [i]) wire m taken log).
Proof using. intros Hr Hi. eapply (reach_ctx i); [exact Hr|]. unfold mrx_ctx_step, at_rest. cbn. by rewrite Hi. Qed.

(** Resumed with a head that differs from the next tail, whatever became of the ring in
    between, it reserves the entry, stores the frame and publishes it. *)
Lemma reach_resume H S cs q wire m taken log i f h :
  reach (at_rest H S cs q wire m taken log) -> cs !! i = Some (MHeadRead f h) -> i ∈ q -> off (S + 1) <> h ->
  reach (at_rest H (S + 1) (<[i := MRecv]> cs) (filter (fun j => j <> i) q) wire (store m (iova + off S) f) taken (log ++ [f])).
Proof using k_two p_min cap32 range.
  intros Hr Hi Hq Hne. assert (i < length cs)%nat as Hlt by (by eapply lookup_lt_Some).
  assert (reach (mk_mrx (mk_meta iova 0 (k * p) p 1 (off H) (off S) 0 0) (k * p) p true (off (S + 1))
    (<[i := MDma f (off S) (off (S + 1))]> cs) (filter (fun j => j <> i) q) wire m taken (log ++ [f]))) as H1.
  { eapply (reach_ctx i); [exact Hr|]. unfold mrx_ctx_step, at_rest. cbn. rewrite Hi, bool_decide_true by done.
    rewrite next_entry. by rewrite (proj2 (Z.eqb_neq _ _)) by done. }
  eapply (reach_ctx i) in H1.
  2:{ unfold mrx_ctx_step. cbn. rewrite list_lookup_insert_eq by done. rewrite entry_addr. unfold with_ctx, with_host. cbn.
      by rewrite list_insert_insert_eq. }
  eapply (reach_ctx i) in H1.
  2:{ unfold mrx_ctx_step. cbn. rewrite list_lookup_insert_eq by done. unfold with_ctx. cbn. by rewrite list_insert_insert_eq. }
  eapply (reach_ctx i) in H1.
  2:{ unfold mrx_ctx_step. cbn. rewrite list_lookup_insert_eq, Z.eqb_refl by done. unfold with_ctx, with_cfg, set_rx_tail. cbn.
      by rewrite list_insert_insert_eq. }
  exact H1.
Qed.

(** The two together: a context delivers the next packet. *)
Lemma reach_deliver H S cs q m taken log i f fs wire :
  reach (at_rest H S cs q wire m taken log) -> Forall arr_ok wire -> cs !! i = Some MRecv -> replies p wire = f :: fs ->
  i ∉ q -> off (S + 1) <> off H ->
  exists wire', reach (at_rest H (S + 1) cs q wire' (store m (iova + off S) f) taken (log ++ [f])) /\
    Forall arr_ok wire' /\ replies p wire' = fs.
Proof using k_two p_min cap32 range.
  intros Hr Ha Hi Hf Hq Hne. assert (i < length cs)%nat as Hlt by (by eapply lookup_lt_Some).
  destruct (reach_recv _ _ _ _ _ _ _ _ _ _ _ Hr Ha Hi Hf) as (wire' & H1 & Ha' & Hf'). exists wire'. split; [|done].
  apply (reach_sample _ _ _ _ _ _ _ _ i f) in H1; [|by apply list_lookup_insert_eq].
  rewrite list_insert_insert_eq in H1.
  apply (reach_resume _ _ _ _ _ _ _ _ i f (off H)) in H1;
    [|by apply list_lookup_insert_eq|by apply elem_of_app; right; left|done].
  rewrite list_insert_insert_eq, list_insert_id in H1 by done.
  by rewrite filter_app, filter_cons_False, filter_nil, app_nil_r, filter_none_ne in H1 by (done || tauto).
Qed.

(** A context delivers as many as the ring has room for. *)
Lemma reach_fill H cs q taken i rest : cs !! i = Some MRecv -> i ∉ q -> forall fs S m log wire,
  reach (at_rest H S cs q wire m taken log) -> Forall arr_ok wire -> replies p wire = fs ++ rest ->
  H <= S -> S + Z.of_nat (length fs) - H <= k - 1 ->
  exists m' wire', reach (at_rest H (S + Z.of_nat (length fs)) cs q wire' m' taken (log ++ fs)) /\
    Forall arr_ok wire' /\ replies p wire' = rest.
Proof using k_two p_min cap32 range.
  intros Hi Hq. induction fs as [|f fs IH]; intros S m log wire Hr Ha Hf Hs Hk.
  - exists m, wire. cbn [length Z.of_nat]. by rewrite Z.add_0_r, app_nil_r.
  - cbn [length] in *. destruct (reach_deliver H S cs q m taken log i f (fs ++ rest) wire) as (wire' & H1 & Ha' & Hf'); try done.
    { intros E. apply off_inj in E; lia. }
    destruct (IH (S + 1) _ _ _ H1 Ha' Hf') as (m' & w & H2 & H3); [lia..|]. exists m', w. split; [|done].
    rewrite <- app_assoc in H2. cbn [app] in H2. by replace (S + Z.of_nat (Datatypes.S (length fs))) with (S + 1 + Z.of_nat (length fs)) by lia.
Qed.

(** The host takes an entry when head and tail differ. *)
Lemma reach_take H S cs q wire m taken log :
  reach (at_rest H S cs q wire m taken log) -> off H <> off S ->
  reach (at_rest (H + 1) S cs q wire m (taken ++ [load m (iova + off H) p]) log).
Proof using k_two p_min cap32 range.
  intros Hr Hne. apply (mrx_reach_step _ _ EvTake (at_rest H S cs q wire m taken log)); [done|].
  unfold at_rest, mrx_exec, mrx_host_take, with_taken, with_cfg, set_rx_head. cbn.
  by rewrite (proj2 (Z.eqb_neq _ _)), next_entry.
Qed.

Lemma no_entry H S cs q wire m taken log : off H = off S -> mrx_host_take (at_rest H S cs q wire m taken log) = None.
Proof using. intros E. unfold mrx_host_take, at_rest. cbn. by rewrite E, Z.eqb_refl. Qed.
End From.

Lemma off_ne a b : a <> b -> - k < a - b < k -> off a <> off b.
Proof using k_two p_min cap32 range. intros N Hd E. apply off_inj in E; lia. Qed.

Lemma reach_boot n hm arrivals :
  mrx_reach false (mrx_init iova (k * p) p (Datatypes.S (Datatypes.S n)) hm arrivals)
    (at_rest 0 0 (MRecv :: MRecv :: replicate n MBoot) [] arrivals hm [] []).
Proof using k_two p_min cap32 range.
  assert (off 0 = 0) as E by (unfold Ring.off; by rewrite Z.mod_0_l by lia).
  pose proof (mrx_run_reach false _ [EvStart; EvCtx 0; EvCtx 1] _ (mrx_reach_init false
    (mrx_init iova (k * p) p (Datatypes.S (Datatypes.S n)) hm arrivals))) as H.
  unfold at_rest. by rewrite E.
Qed.

Lemma stored_frame m S f : Z.of_nat (length f) = p -> load (store m (iova + off S) f) (iova + off S) p = f.
Proof using k_two p_min cap32 range. intros <-. apply load_store_same. done. Qed.

(** The schedule: [f0] is delivered, [f1] waits with the head it read, [f0] is taken, [mid]
    fills the ring, [f1] resumes, and [g] overwrites the oldest unread frame. *)
Lemma overrun_schedule s0 cs arrivals m f0 f1 mid g rest :
  mrx_reach false s0 (at_rest 0 0 (MRecv :: MRecv :: cs) [] arrivals m [] []) -> Forall arr_ok arrivals ->
  replies p arrivals = f0 :: f1 :: mid ++ g :: rest -> Z.of_nat (length mid) = k - 1 ->
  exists cs' wire wire' m' m'',
    mrx_reach false s0 (at_rest 1 (k + 1) cs' [] wire m' [f0] (f0 :: mid ++ [f1])) /\
    mrx_reach false s0 (at_rest 2 (k + 2) cs' [] wire' m'' [f0; g] ((f0 :: mid ++ [f1]) ++ [g])).
Proof using k_two p_min cap32 range.
  intros H0 Ha Hf Hm. assert (Forall (fun f => Z.of_nat (length f) = p) (replies p arrivals)) as Hlen.
  { apply Forall_fmap, Forall_forall. intros a (Hin & Ha')%list_elem_of_filter. rewrite Forall_forall in Ha.
    apply (reply_length p); [by apply Ha|done|]. assert (p <= k * p) by nia. unfold is_u32 in cap32. lia. }
  rewrite Hf in Hlen. apply Forall_cons in Hlen as (L0 & (L1 & Lr)%Forall_cons).
  apply Forall_app in Lr as (_ & (Lg & _)%Forall_cons).
  destruct (reach_deliver s0 0 0 _ _ _ _ _ 0%nat f0 _ _ H0 Ha eq_refl Hf) as (w1 & H1 & Ha1 & Hf1);
    [by apply not_elem_of_nil|apply off_ne; lia|].
  destruct (reach_recv s0 _ _ _ _ _ _ _ 1%nat f1 _ _ H1 Ha1 eq_refl Hf1) as (w2 & H2 & Ha2 & Hf2). cbn in H2.
  apply (reach_sample s0 _ _ _ _ _ _ _ _ 1%nat f1) in H2; [|done]. cbn in H2.
  apply reach_take in H2; [|apply off_ne; lia]. rewrite stored_frame in H2 by done.
  destruct (reach_fill s0 1 (MRecv :: MHeadRead f1 (off 0) :: cs) [1%nat] _ 0%nat (g :: rest) eq_refl ltac:(set_solver)
    mid 1 _ _ _ H2 Ha2 Hf2)
    as (m' & w3 & H3 & Ha3 & Hf3); [lia..|].
  replace (1 + Z.of_nat (length mid)) with k in H3 by lia.
  assert (off (k + 1) = off 1) as Ek by (rewrite Z.add_comm; apply off_period; lia).
  apply (reach_resume s0 _ _ _ _ _ _ _ _ 1%nat f1 (off 0)) in H3; [|done|by left|rewrite Ek; apply off_ne; lia].
  cbn in H3. rewrite decide_False in H3 by tauto.
  destruct (reach_deliver s0 _ _ _ _ _ _ _ 0%nat g rest w3 H3 Ha3 eq_refl Hf3) as (w4 & H4 & _).
  { apply not_elem_of_nil. }
  { replace (k + 1 + 1) with (2 + k) by lia. rewrite off_period by lia. apply off_ne; lia. }
  replace (k + 1 + 1) with (k + 2) in H4 by lia. apply reach_take in H4.
  2:{ replace (k + 2) with (2 + k) by lia. rewrite off_period by lia. apply off_ne; lia. }
  rewrite <- Ek, stored_frame, Ek in H4 by done.
  eexists (MRecv :: MRecv :: cs), w3, w4, _, _. split; [exact H3|exact H4].
Qed.

(** C10 (safety): with a ring of any size, two contexts or more and any [k + 2] frames
    accepted, if waiting contexts may resume in any order, [k] entries of a ring of [k] are
    reserved beyond those the host has taken, one more than it can hold.  A state is reached
    where the host has taken the first frame only, [k] more are in the ring, and it finds the
    ring empty; and then one where a further frame has been written over the oldest of them
    and is what the host takes next: it follows the first, and the [k] are lost. *)
Theorem multi_rx_any_order_overruns n hm arrivals :
  (2 <= n)%nat -> Forall arr_ok arrivals -> k + 2 <= Z.of_nat (length (replies p arrivals)) ->
  exists s s' g,
    mrx_reach false (mrx_init iova (k * p) p n hm arrivals) s /\
    m_taken s = take 1 (m_log s) /\ Z.of_nat (length (m_log s)) - Z.of_nat (length (m_taken s)) = k /\
    mrx_host_take s = None /\
    mrx_reach false (mrx_init iova (k * p) p n hm arrivals) s' /\
    m_log s' = m_log s ++ [g] /\ m_taken s' = m_taken s ++ [g] /\
    m_log s' ≡ₚ take (Z.to_nat (k + 2)) (replies p arrivals).
Proof using k_two p_min cap32 range.
  intros Hn Ha Hl. destruct n as [|[|n]]; [lia..|]. clear Hn.
  destruct (replies p arrivals) as [|f0 [|f1 fs]] eqn:Hf; [cbn in Hl; lia..|]. cbn [length] in Hl.
  assert (exists mid g rest, fs = mid ++ g :: rest /\ Z.of_nat (length mid) = k - 1) as (mid & g & rest & -> & Hm).
  { destruct (lookup_lt_is_Some_2 fs (Z.to_nat (k - 1)) ltac:(lia)) as [g Hg].
    exists (take (Z.to_nat (k - 1)) fs), g, (drop (Datatypes.S (Z.to_nat (k - 1))) fs).
    split; [by rewrite take_drop_middle|rewrite length_take; lia]. }
  destruct (overrun_schedule _ _ _ _ _ _ _ _ _ (reach_boot n hm arrivals) Ha Hf Hm) as (cs' & w & w' & m' & m'' & H1 & H2).
  eexists _, _, g. split; [exact H1|]. cbn [m_taken m_log at_rest]. split; [done|].
  split; [cbn; rewrite length_app; cbn; lia|]. split.
  { apply no_entry. rewrite Z.add_comm, off_period by lia. done. }
  split; [exact H2|]. split; [done|]. split; [done|]. cbn [m_log at_rest].
  replace (Z.to_nat (k + 2)) with (Datatypes.S (Datatypes.S (length mid + 1))) by lia. cbn [take].
  rewrite take_app_add' by done. cbn. rewrite take_0. cbn [app]. rewrite <- app_assoc. cbn [app].
  apply Permutation_skip. symmetry. apply Permutation_middle.
Qed.
End Overrun.

(** A ring of two entries, three contexts. *)
Lemma multi_rx_any_order_overruns_witness :
  exists s s' g, m_taken s = take 1 (m_log s) /\ mrx_host_take s = None /\
    mrx_reach false (mrx_init 0x1000 (2 * 64) 64 3 (fun _ => 0) mrx_ex_arrivals) s' /\
    length (m_log s) = 3%nat /\ m_taken s' = m_taken s ++ [g].
Proof.
  destruct (multi_rx_any_order_overruns 0x1000 2 64 ltac:(lia) ltac:(lia) ltac:(unfold is_u32; lia) ltac:(lia) 3 (fun _ => 0)
    mrx_ex_arrivals ltac:(lia) mrx_ex_arrivals_ok ltac:(vm_compute; discriminate))
    as (s & s' & g & _ & Et & El & En & Hr & _ & Et' & _).
  exists s, s', g. split; [done|]. split; [done|]. split; [done|]. split; [|done].
  rewrite Et, length_take in El. lia.
Defined.
