(* ===== verification/MultiTxInv.v ===== *)
(** * Multi-context TX: invariant and theorems

    The invariant of [MultiTx] under in-order resumption, the at-most-once
    transmission it gives, and the transmission of an empty entry under arbitrary
    resumption. *)

From S2P Require Export MultiTx MultiRxInv.

Local Open Scope Z_scope.

Definition send_of (c : mtx_pc) : option (list Z) :=
  match c with TSend f => Some f | _ => None end.

Definition t_entry_of (c : mtx_pc) : option Z :=
  match c with TDma h _ | THead _ h _ | THeadRead _ h _ _ => Some h | _ => None end.

(** Frames that contexts have released from the ring and not yet transmitted. *)
Definition in_hand (l : list mtx_pc) : list (list Z) := omap send_of l.

Lemma in_hand_insert l i c c' : l !! i = Some c -> send_of c = None ->
  in_hand (<[i := c']> l) ≡ₚ option_list (send_of c') ++ in_hand l.
Proof.
  revert i. induction l as [|d l IH]; intros [|i] Hi Hc; cbn in Hi; [done|done| |].
  - injection Hi as ->. cbn. rewrite Hc. by destruct (send_of c').
  - cbn. destruct (send_of d) as [f|]; rewrite (IH _ Hi Hc); [|done].
    by rewrite Permutation_middle.
Qed.

Lemma in_hand_send l i f c' : l !! i = Some (TSend f) -> send_of c' = None ->
  f :: in_hand (<[i := c']> l) ≡ₚ in_hand l.
Proof.
  revert i. induction l as [|d l IH]; intros [|i] Hi Hc; cbn in Hi; [done|done| |].
  - injection Hi as ->. cbn. by rewrite Hc.
  - cbn. destruct (send_of d) as [g|]; [|by apply IH].
    rewrite <- (IH _ Hi Hc). apply perm_swap.
Qed.

Section Invariant.
Context (iova k p : Z).
Hypothesis k_pos : 0 < k.
Hypothesis p_pos : 0 < p.
Hypothesis cap32 : is_u32 (k * p + p).
Hypothesis range : 0 <= iova /\ iova + k * p <= 0x10000000000.

Notation slotm m i := (slot m iova k p i).

(** The condition of a context, when entries [P .. S-1] are reserved and not
    released, and the host has put [put]. *)
Definition mtx_ok (booted : bool) (P S : Z) (put : list (list Z)) (c : mtx_pc) : Prop :=
  match c with
  | TBoot => True
  | TTail | TTailRead _ | TSend _ => booted = true
  | TDma h u => booted = true /\ exists s, entry_ok k p P S s h u
  | THead f h u => booted = true /\ exists s, entry_ok k p P S s h u /\ put !! Z.to_nat s = Some f
  | THeadRead f h u v => booted = true /\ exists s q, entry_ok k p P S s h u /\
      put !! Z.to_nat s = Some f /\ v = off k p q /\ q <= P /\ s - q < k
  end.

Record tinv (s : mtx) (P S T : Z) (ts : list Z) : Prop := {
  ti_iova : tx_buffer_iova (t_cfg s) = iova;
  ti_size : buffer_size (t_cfg s) = k * p;
  ti_psz : packet_size (t_cfg s) = p;
  ti_boot : t_init s = true -> t_buffer_capacity s = k * p /\ t_packet_size s = p;
  ti_head : tx_head (t_cfg s) = off k p P;
  ti_tail : tx_tail (t_cfg s) = off k p T;
  ti_shadow : t_shadow_head s = off k p S;
  ti_ord : 0 <= P <= S /\ S <= T /\ T - P <= k - 1;
  ti_put : Z.of_nat (length (t_put s)) = T;
  ti_full : forall i, P <= i < T -> t_put s !! Z.to_nat i = Some (slotm (t_host s) i);
  ti_sent : t_sent s ++ in_hand (t_ctxs s) ≡ₚ take (Z.to_nat P) (t_put s);
  ti_ctx : forall i c, t_ctxs s !! i = Some c -> mtx_ok (t_init s) P S (t_put s) c;
  ti_uniq : forall i j c c' t, t_ctxs s !! i = Some c -> t_ctxs s !! j = Some c' ->
    t_entry_of c = Some t -> t_entry_of c' = Some t -> i = j;
  ti_served : Forall2 (fun i t => t_ctxs s !! i = Some (TTailRead (off k p t))) (t_served s) ts;
  ti_nodup : NoDup (t_served s);
  ti_sorted : StronglySorted Z.le ts;
  ti_limits : Forall (fun t => S <= t <= T) ts
}.

Lemma mtx_next i : ring_next (k * p) p (off k p i) = off k p (i + 1).
Proof. apply ring_next_off; [done|done|]. unfold is_u32 in *. nia. Qed.

Lemma mtx_addr i : u64 (iova + off k p i) = iova + off k p i.
Proof. pose proof (off_range k p k_pos p_pos i). apply u64_id. unfold is_u64. lia. Qed.

Lemma tinv_init n hm : tinv (mtx_init iova (k * p) p n hm) 0 0 0 [].
Proof.
  assert (off k p 0 = 0) as E by (unfold off; rewrite Z.mod_0_l; lia).
  split; cbn; rewrite ?E; try done; try lia.
  - induction n; [done|]. done.
  - intros i c [-> _]%lookup_replicate. done.
  - intros i j c c' t [-> _]%lookup_replicate. done.
  - constructor.
  - constructor.
Qed.

Lemma mtx_ok_mono b b' P P' S S' put put' c :
  mtx_ok b P S put c -> (b = true -> b' = true) -> P <= P' -> S <= S' ->
  (forall s t u, t_entry_of c = Some t -> entry_ok k p P S s t u -> P' <= s) ->
  (forall i f, put !! i = Some f -> put' !! i = Some f) ->
  mtx_ok b' P' S' put' c.
Proof.
  unfold entry_ok. intros Hok Hb HP HS HP' Hput. destruct c; cbn in *; auto.
  - destruct Hok as (Hb1 & s & Hs & -> & ->). split; [auto|]. exists s.
    pose proof (HP' s _ _ eq_refl (conj Hs (conj eq_refl eq_refl))). split; [lia|done].
  - destruct Hok as (Hb1 & s & (Hs & -> & ->) & Hl). split; [auto|]. exists s.
    pose proof (HP' s _ _ eq_refl (conj Hs (conj eq_refl eq_refl))).
    split; [split; [lia|done]|by apply Hput].
  - destruct Hok as (Hb1 & s & q & (Hs & -> & ->) & Hl & Hv & Hq & Hsq). split; [auto|].
    exists s, q. pose proof (HP' s _ _ eq_refl (conj Hs (conj eq_refl eq_refl))).
    split; [split; [lia|done]|]. split; [by apply Hput|]. split; [done|]. lia.
Qed.

Lemma t_entry_range b P S put c t : mtx_ok b P S put c -> t_entry_of c = Some t ->
  exists e, P <= e < S /\ t = off k p e.
Proof.
  unfold entry_ok. destruct c; cbn; intros Hok E; try done; injection E as <-.
  - destruct Hok as (_ & e & ? & -> & _). eauto.
  - destruct Hok as (_ & e & (? & -> & _) & _). eauto.
  - destruct Hok as (_ & e & q & (? & -> & _) & _). eauto.
Qed.

(** The samples of the served contexts are not affected by another context. *)
Lemma t_served_insert (l : list mtx_pc) (q : list nat) ts i c : i ∉ q ->
  Forall2 (fun j t => l !! j = Some (TTailRead (off k p t))) q ts ->
  Forall2 (fun j t => <[i := c]> l !! j = Some (TTailRead (off k p t))) q ts.
Proof.
  intros Hn HF. induction HF as [|j t q ts Hf _ IH]; constructor.
  - rewrite list_lookup_insert_ne; set_solver.
  - apply IH. set_solver.
Qed.

Lemma t_not_served s P S T ts i c : tinv s P S T ts -> t_ctxs s !! i = Some c ->
  (forall t, c <> TTailRead t) -> i ∉ t_served s.
Proof.
  intros [] Hi Hc. clear -ti_served0 Hi Hc. induction ti_served0 as [|j t q ts Hf _ IH]; [set_solver|].
  apply not_elem_of_cons. split; [|done]. intros ->. rewrite Hi in Hf. injection Hf as ->.
  by eapply Hc.
Qed.

(** A step that moves context [i] without a new entry, sample or transmission. *)
Lemma tinv_ctx s P S T ts i c c' : tinv s P S T ts -> t_ctxs s !! i = Some c ->
  mtx_ok (t_init s) P S (t_put s) c' ->
  (t_entry_of c' = None \/ t_entry_of c' = t_entry_of c) ->
  send_of c = None -> send_of c' = None -> i ∉ t_served s ->
  tinv (t_with_ctx s i c') P S T ts.
Proof.
  intros [] Hi Hc He Hs Hs' Hn. split; cbn; try done.
  - by rewrite in_hand_insert, Hs' by done.
  - intros j d [(-> & -> & _)|[_ Hj]]%list_lookup_insert_Some; [done|eauto].
  - intros j1 j2 d1 d2 t H1 H2 E1 E2.
    apply list_lookup_insert_Some in H1 as [(-> & -> & _)|[N1 H1]];
    apply list_lookup_insert_Some in H2 as [(<- & -> & _)|[N2 H2]]; try done.
    + destruct He as [He|He]; rewrite He in E1; [done|]. eauto.
    + destruct He as [He|He]; rewrite He in E2; [done|]. eauto.
    + eauto.
  - by apply t_served_insert.
Qed.

Lemma tinv_sample s P S T ts i : tinv s P S T ts -> t_ctxs s !! i = Some TTail ->
  tinv (t_with_served (t_with_ctx s i (TTailRead (tx_tail (t_cfg s)))) (t_served s ++ [i]))
    P S T (ts ++ [T]).
Proof.
  intros I Hi. pose proof (t_not_served _ _ _ _ _ _ _ I Hi ltac:(done)) as Hn.
  pose proof (ti_ctx _ _ _ _ _ I _ _ Hi) as Hok. cbn in Hok.
  pose proof (tinv_ctx _ _ _ _ _ _ _ (TTailRead (tx_tail (t_cfg s))) I Hi Hok
    (or_introl eq_refl) eq_refl eq_refl Hn) as [].
  destruct I. split; cbn in *; try done.
  - apply Forall2_app; [done|]. constructor; [|constructor].
    rewrite ti_tail1. apply list_lookup_insert_eq. by eapply lookup_lt_Some.
  - apply NoDup_app. split; [done|]. split; [set_solver|apply NoDup_singleton].
  - clear -ti_sorted1 ti_limits1. induction ti_sorted1 as [|t ts Hs IH Hf]; cbn.
    + repeat constructor.
    + apply Forall_cons in ti_limits1 as [Hh Hl]. constructor; [by apply IH|].
      apply Forall_app. split; [done|]. constructor; [lia|constructor].
  - apply Forall_app. split; [done|]. constructor; [lia|constructor].
Qed.

(** The oldest served context resumes and reserves the entry at the shadow head. *)
Lemma tinv_pop s P S T t ts i q : tinv s P S T (t :: ts) -> t_served s = i :: q ->
  tinv (t_with_served s q) P S T ts /\ t_ctxs s !! i = Some (TTailRead (off k p t)) /\
  filter (fun j => j <> i) (t_served s) = q /\ i ∉ q /\ S <= t <= T /\
  Forall (fun t' => t <= t') ts.
Proof.
  intros [] Hq. rewrite Hq in *. apply Forall2_cons in ti_served0 as [Hf HF].
  pose proof ti_nodup0 as [Hn Hd]%NoDup_cons. apply Forall_cons in ti_limits0 as [Hl HL].
  apply StronglySorted_inv in ti_sorted0 as [Hs Hle].
  split; [by split|]. split; [done|]. split; [by apply difference_head|done].
Qed.

Lemma tinv_reserve s P S T ts i t : tinv s P S T ts ->
  t_ctxs s !! i = Some (TTailRead (off k p t)) -> i ∉ t_served s ->
  S < t -> t <= T -> Forall (fun t' => t <= t') ts ->
  tinv (t_with_ctx (t_with_shadow s (off k p (S + 1))) i (TDma (off k p S) (off k p (S + 1))))
    P (S + 1) T ts.
Proof.
  intros [] Hi Hn HS HT Hle. pose proof (ti_ctx0 _ _ Hi) as Hb. cbn in Hb.
  split; cbn; try done; try lia.
  - by rewrite in_hand_insert by done.
  - intros j c [(-> & <- & _)|[Nj Hj]]%list_lookup_insert_Some.
    + cbn. split; [done|]. exists S. split; [lia|done].
    + eapply mtx_ok_mono; [by eapply ti_ctx0|done|lia|lia| |done].
      intros s' t' u _ [? _]. lia.
  - assert (forall j c, t_ctxs s !! j = Some c -> t_entry_of c <> Some (off k p S)) as Hfresh.
    { intros j c Hj E. destruct (t_entry_range _ _ _ _ _ _ (ti_ctx0 _ _ Hj) E) as (e & He & Ee).
      apply off_inj in Ee; lia. }
    intros j1 j2 d1 d2 t1 H1 H2 E1 E2.
    apply list_lookup_insert_Some in H1 as [(-> & <- & _)|[N1 H1]];
    apply list_lookup_insert_Some in H2 as [(-> & <- & _)|[N2 H2]]; try done.
    + cbn in E1. injection E1 as <-. by destruct (Hfresh _ _ H2).
    + cbn in E2. injection E2 as <-. by destruct (Hfresh _ _ H1).
    + eauto.
  - by apply t_served_insert.
  - rewrite Forall_forall in ti_limits0, Hle |- *. intros t' Ht'.
    pose proof (ti_limits0 _ Ht'). pose proof (Hle _ Ht'). cbn in *. lia.
Qed.

(** A context whose read of the released head equals its entry releases it. *)
Lemma tinv_release s P S T ts i f h u : tinv s P S T ts ->
  t_ctxs s !! i = Some (THeadRead f h u h) ->
  tinv (t_with_ctx (t_with_cfg s (set_tx_head (t_cfg s) u)) i (TSend f)) (P + 1) S T ts.
Proof.
  intros I Hi. pose proof (t_not_served _ _ _ _ _ _ _ I Hi ltac:(done)) as Hn. destruct I.
  pose proof (ti_ctx0 _ _ Hi) as (Hb & e & q & (He & -> & ->) & Hl & Hq & Hq1 & Hq2).
  assert (e = q) as <- by (apply (off_inj k p k_pos p_pos); [lia|done]).
  assert (e = P) as -> by lia.
  split; cbn; try done; try lia.
  - intros j Hj. apply ti_full0. lia.
  - rewrite in_hand_insert by done. cbn.
    replace (Z.to_nat (P + 1)) with (Datatypes.S (Z.to_nat P)) by lia.
    rewrite (take_S_r _ _ _ Hl), <- ti_sent0. solve_Permutation.
  - intros j c [(-> & <- & _)|[Nj Hj]]%list_lookup_insert_Some; [done|].
    eapply mtx_ok_mono; [by eapply ti_ctx0|done|lia|lia| |done].
    intros s' t u Et (Hs' & -> & _). destruct (decide (s' = P)) as [->|]; [|lia].
    by destruct Nj; eapply ti_uniq0; eauto.
  - intros j1 j2 d1 d2 t H1 H2 E1 E2.
    apply list_lookup_insert_Some in H1 as [(-> & <- & _)|[N1 H1]];
    apply list_lookup_insert_Some in H2 as [(-> & <- & _)|[N2 H2]]; try done.
    by eapply (ti_uniq0 j1 j2).
  - by apply t_served_insert.
Qed.

Lemma tinv_send s P S T ts i f : tinv s P S T ts -> t_ctxs s !! i = Some (TSend f) ->
  tinv (t_with_ctx (t_with_sent s f) i TTail) P S T ts.
Proof.
  intros I Hi. pose proof (t_not_served _ _ _ _ _ _ _ I Hi ltac:(done)) as Hn. destruct I.
  pose proof (ti_ctx0 _ _ Hi) as Hb. cbn in Hb.
  split; cbn; try done.
  - rewrite <- ti_sent0, <- app_assoc. by rewrite <- (in_hand_send _ i f TTail Hi).
  - intros j c [(-> & <- & _)|[Nj Hj]]%list_lookup_insert_Some; [done|eauto].
  - intros j1 j2 d1 d2 t H1 H2 E1 E2.
    apply list_lookup_insert_Some in H1 as [(-> & <- & _)|[N1 H1]];
    apply list_lookup_insert_Some in H2 as [(-> & <- & _)|[N2 H2]]; try done.
    by eapply (ti_uniq0 j1 j2).
  - by apply t_served_insert.
Qed.

(** The host fills the entry at the tail when the ring is not full. *)
Lemma tinv_put s s' P S T ts f : tinv s P S T ts -> mtx_host_put f s = Some s' ->
  tinv s' P S (T + 1) ts.
Proof.
  intros [] Hs. unfold mtx_host_put in Hs. rewrite ti_psz0, ti_size0, ti_tail0, ti_head0, ti_iova0 in Hs.
  destruct (Z.eqb_spec (Z.of_nat (length f)) p) as [Hf|]; [cbn [negb] in Hs|done].
  rewrite ring_mod_off in Hs by done.
  destruct (Z.eqb_spec (off k p (T + 1)) (off k p P)) as [|N]; [done|].
  rewrite mtx_next in Hs. injection Hs as <-.
  assert (T - P < k - 1) as HT.
  { destruct (decide (T - P = k - 1)); [|lia]. destruct N.
    rewrite <- (off_period k p k_pos P). f_equal. lia. }
  split; cbn; try done; try lia.
  - rewrite length_app. cbn. lia.
  - intros j Hj. destruct (decide (j = T)) as [->|].
    + rewrite lookup_app_r by lia.
      replace (Z.to_nat T - length (t_put s))%nat with 0%nat by lia. cbn.
      by rewrite slot_store_same.
    + rewrite lookup_app_l by lia. rewrite slot_store_other by (done || lia).
      apply ti_full0. lia.
  - rewrite take_app_le by lia. done.
  - intros i c Hi. eapply mtx_ok_mono; [by eapply ti_ctx0|done|lia|lia| |].
    + intros s' t u _ [? _]. lia.
    + intros i' f' Hl. by apply lookup_app_l_Some.
  - eapply Forall_impl; [done|]. cbn. lia.
Qed.

Lemma tinv_start s P S T ts : tinv s P S T ts -> tinv (mtx_host_start s) P S T ts.
Proof. intros []. by split. Qed.

Lemma tinv_boot s P S T ts : tinv s P S T ts -> tinv (t_with_boot s (k * p) p) P S T ts.
Proof.
  intros []. split; cbn; try done.
  intros j c Hj. eapply mtx_ok_mono; [by eapply ti_ctx0|done|done|done| |done].
  intros s' t u _ [? _]. lia.
Qed.

(** A context that resumes oldest-first. *)
Lemma tinv_resume s s' P S T ts i tl : tinv s P S T ts ->
  t_ctxs s !! i = Some (TTailRead tl) -> mtx_ctx_step true i s = Some s' ->
  exists S' ts', tinv s' P S' T ts'.
Proof.
  intros I Hi Hs. unfold mtx_ctx_step in Hs. rewrite Hi in Hs.
  cbn [may_resume] in Hs. case_bool_decide as Hq; [|done].
  destruct (t_served s) as [|j q] eqn:Eq; [done|]. injection Hq as ->.
  pose proof (ti_served _ _ _ _ _ I) as HF. rewrite Eq in HF.
  apply Forall2_cons_inv_l in HF as (t1 & ts1 & Hf1 & _ & ->).
  rewrite Hi in Hf1. injection Hf1 as ->.
  destruct (tinv_pop _ _ _ _ _ _ _ _ I Eq) as (I' & _ & Hd & Hn & Ht & Hle).
  rewrite Eq in Hd. rewrite Hd in Hs. cbn in Hs.
  pose proof (ti_ctx _ _ _ _ _ I _ _ Hi) as Hb. cbn in Hb.
  destruct (ti_boot _ _ _ _ _ I Hb) as [Ec Ep].
  rewrite Ec, Ep, (ti_shadow _ _ _ _ _ I), mtx_next in Hs.
  pose proof (ti_ord _ _ _ _ _ I).
  destruct (Z.eqb_spec (off k p S) (off k p t1)) as [E|N]; injection Hs as <-.
  - exists S, ts1. eapply (tinv_ctx _ _ _ _ _ i _ TTail); try done. by left.
  - exists (S + 1), ts1. eapply tinv_reserve; try done; [|lia].
    destruct (decide (S = t1)) as [->|]; [done|lia].
Qed.

Lemma tinv_ctx_step s s' P S T ts i : tinv s P S T ts -> mtx_ctx_step true i s = Some s' ->
  exists P' S' ts', tinv s' P' S' T ts'.
Proof.
  intros I Hs0. pose proof Hs0 as Hs. unfold mtx_ctx_step in Hs.
  destruct (t_ctxs s !! i) as [c|] eqn:Hi; [|done].
  pose proof (ti_ctx _ _ _ _ _ I _ _ Hi) as Hok.
  destruct c as [| |tl|h u|f h u|f h u v|f]; cbn in Hok.
  - pose proof (t_not_served _ _ _ _ _ _ _ I Hi ltac:(done)) as Hn. exists P, S, ts.
    destruct (decide (i = 0%nat)).
    + destruct (start_signal (t_cfg s) =? 0); [done|]. injection Hs as <-.
      rewrite (ti_size _ _ _ _ _ I), (ti_psz _ _ _ _ _ I).
      eapply (tinv_ctx (t_with_boot s (k * p) p)); try done; [by apply tinv_boot|by left].
    + destruct (t_init s) eqn:E; [|done]. injection Hs as <-.
      eapply tinv_ctx; try done. by left.
  - injection Hs as <-. eauto using tinv_sample.
  - destruct (tinv_resume _ _ _ _ _ _ _ _ I Hi Hs0) as (S' & ts' & I'). eauto.
  - pose proof (t_not_served _ _ _ _ _ _ _ I Hi ltac:(done)) as Hn.
    injection Hs as <-. exists P, S, ts. eapply tinv_ctx; try done; [|by right].
    destruct Hok as (Hb & e & He & -> & ->). destruct (ti_boot _ _ _ _ _ I Hb) as [_ Ep].
    cbn. split; [done|]. exists e. split; [done|].
    rewrite (ti_iova _ _ _ _ _ I), mtx_addr, Ep.
    apply (ti_full _ _ _ _ _ I). pose proof (ti_ord _ _ _ _ _ I). lia.
  - pose proof (t_not_served _ _ _ _ _ _ _ I Hi ltac:(done)) as Hn.
    injection Hs as <-. exists P, S, ts. eapply tinv_ctx; try done; [|by right].
    destruct Hok as (Hb & e & He & Hl). cbn. split; [done|]. exists e, P.
    rewrite (ti_head _ _ _ _ _ I). pose proof (ti_ord _ _ _ _ _ I).
    destruct He as [? ?]. do 3 (split; [done|]). lia.
  - pose proof (t_not_served _ _ _ _ _ _ _ I Hi ltac:(done)) as Hn.
    destruct (Z.eqb_spec v h) as [->|N]; injection Hs as <-.
    + eauto using tinv_release.
    + exists P, S, ts. eapply tinv_ctx; try done; [|by right].
      destruct Hok as (Hb & e & q & He & Hl & _). cbn. eauto.
  - injection Hs as <-. eauto using tinv_send.
Qed.

Lemma mtx_reach_inv n hm s : mtx_reach true (mtx_init iova (k * p) p n hm) s ->
  exists P S T ts, tinv s P S T ts.
Proof.
  induction 1 as [|e s s' _ (P & S & T & ts & I) Hs].
  - eexists _, _, _, _. apply tinv_init.
  - destruct e as [|i|f]; cbn in Hs.
    + injection Hs as <-. exists P, S, T, ts. by apply tinv_start.
    + destruct (tinv_ctx_step _ _ _ _ _ _ _ I Hs) as (P' & S' & ts' & I'). by exists P', S', T, ts'.
    + exists P, S, (T + 1), ts. by eapply tinv_put.
Qed.
End Invariant.

(** C11 (safety): with any number of contexts, in any interleaving in which contexts
    resume in the order their reads of [cfg.tx_tail] were served, the frames
    transmitted are, up to order and with multiplicity, among the first frames the
    host put in the ring: nothing is transmitted twice, altered, or invented, and
    at most [k - 1] frames are waiting. *)
Theorem multi_tx_in_order_transmits iova k p n hm s :
  0 < k -> 0 < p -> is_u32 (k * p + p) -> 0 <= iova -> iova + k * p <= 0x10000000000 ->
  mtx_reach true (mtx_init iova (k * p) p n hm) s ->
  exists released, released `prefix_of` t_put s /\
    t_sent s ++ in_hand (t_ctxs s) ≡ₚ released /\
    Z.of_nat (length (t_put s)) - Z.of_nat (length released) <= k - 1.
Proof.
  intros Hk Hp H32 Hi Hr Hreach.
  destruct (mtx_reach_inv iova k p Hk Hp H32 (conj Hi Hr) _ _ _ Hreach) as (P & S & T & ts & []).
  exists (take (Z.to_nat P) (t_put s)). split; [eexists; symmetry; apply take_drop|].
  split; [done|]. rewrite length_take. lia.
Qed.

Lemma multi_tx_in_order_transmits_witness :
  exists released, released `prefix_of` t_put (mtx_ex true) /\
    t_sent (mtx_ex true) ++ in_hand (t_ctxs (mtx_ex true)) ≡ₚ released /\
    Z.of_nat (length (t_put (mtx_ex true))) - Z.of_nat (length released) <= 3.
Proof.
  refine (multi_tx_in_order_transmits 0x2000 4 64 3 (fun _ => 0) (mtx_ex true)
    _ _ _ _ _ (mtx_ex_reach true)); unfold is_u32; lia.
Defined.

(** When waiting contexts may resume in any order, a context holding a
    stale tail passes the test for an empty ring.  There is a reachable state in
    which a frame the host never put in the ring has been transmitted. *)
Lemma multi_tx_any_order_invents :
  exists s f, mtx_reach false mtx_ex0 s /\ f ∈ t_sent s /\ f ∉ t_put s.
Proof.
  exists (mtx_ex false), (replicate 64 0). split; [apply mtx_ex_reach|].
  split; [apply list_elem_of_lookup; exists 2%nat; by vm_compute|].
  assert (t_put (mtx_ex false) = [mtx_ex_frame 1; mtx_ex_frame 2]) as -> by (by vm_compute).
  unfold mtx_ex_frame. cbn. intros [E|[E|[]%elem_of_nil]%elem_of_cons]%elem_of_cons; discriminate E.
Qed.
