(* ===== verification/Bits.v ===== *)
(** * Bit fields of machine words

    Reading and replacing a field of a word as the driver's shift-and-mask code
    does it, with the laws of get and set, and the arithmetic reading of packed
    identifiers. *)

From S2P Require Export Prelude.

Local Open Scope Z_scope.

Create Rewrite HintDb bits.
#[export] Hint Rewrite Z.land_spec Z.lor_spec Z.lxor_spec Z.bits_0 : bits.
#[export] Hint Rewrite Z.shiftl_spec Z.shiftr_spec Z.lnot_spec using lia : bits.

(** Equality of words bit by bit. *)
Ltac bits_ext i :=
  apply Z.bits_inj'; intros i ?; autorewrite with bits.

(** Splits on every comparison of bit positions in the goal. *)
Ltac bits_cases :=
  repeat match goal with
  | |- context [?a <? ?b] => destruct (Z.ltb_spec a b); try lia
  | |- context [?a <=? ?b] => destruct (Z.leb_spec a b); try lia
  | |- context [?a =? ?b] => destruct (Z.eqb_spec a b); try lia
  end.

Lemma testbit_ones_pos w i : 0 <= w -> 0 <= i -> Z.testbit (Z.ones w) i = (i <? w).
Proof.
  intros. destruct (Z.ltb_spec i w).
  - by apply Z.ones_spec_low.
  - by apply Z.ones_spec_high.
Qed.

Lemma testbit_small x w i : 0 <= x < 2 ^ w -> w <= i -> 0 <= w -> Z.testbit x i = false.
Proof.
  intros Hx Hi Hw. destruct (Z.eq_dec x 0) as [->|]; [apply Z.bits_0|].
  apply Z.bits_above_log2; [lia|]. apply Z.log2_lt_pow2; [lia|].
  apply Z.lt_le_trans with (2 ^ w); [lia|]. apply Z.pow_le_mono_r; lia.
Qed.

(** ** Fields *)

(** The [w]-bit field of [x] at bit [lo]. *)
Definition get_field (x lo w : Z) : Z := Z.land (Z.shiftr x lo) (Z.ones w).

(** The mask of a [w]-bit field at bit [lo]. *)
Definition field_mask (lo w : Z) : Z := Z.shiftl (Z.ones w) lo.

(** [x] with its [w]-bit field at [lo] replaced by [v]. *)
Definition set_field (x lo w v : Z) : Z :=
  Z.lor (Z.land x (Z.lnot (field_mask lo w))) (Z.land (Z.shiftl v lo) (field_mask lo w)).

Lemma testbit_field_mask lo w i : 0 <= lo -> 0 <= w -> 0 <= i ->
  Z.testbit (field_mask lo w) i = (lo <=? i) && (i <? lo + w).
Proof.
  intros. unfold field_mask. rewrite Z.shiftl_spec by lia.
  destruct (Z.leb_spec lo i).
  - rewrite testbit_ones_pos by lia. bits_cases; done.
  - by rewrite Z.testbit_neg_r by lia.
Qed.

Lemma testbit_set_field x lo w v i : 0 <= lo -> 0 <= w -> 0 <= i ->
  Z.testbit (set_field x lo w v) i =
  if (lo <=? i) && (i <? lo + w) then Z.testbit v (i - lo) else Z.testbit x i.
Proof.
  intros. unfold set_field. autorewrite with bits. rewrite testbit_field_mask by lia.
  destruct ((lo <=? i) && (i <? lo + w)) eqn:E; cbn;
    rewrite ?andb_true_r, ?andb_false_r, ?orb_false_r; done.
Qed.

Lemma testbit_get_field x lo w i : 0 <= lo -> 0 <= w -> 0 <= i ->
  Z.testbit (get_field x lo w) i = (i <? w) && Z.testbit x (i + lo).
Proof.
  intros. unfold get_field. autorewrite with bits. rewrite testbit_ones_pos by lia.
  apply andb_comm.
Qed.

Lemma get_set_same x lo w v : 0 <= lo -> 0 <= v < 2 ^ w -> 0 <= w ->
  get_field (set_field x lo w v) lo w = v.
Proof.
  intros. bits_ext i. rewrite testbit_get_field, testbit_set_field by lia.
  destruct (Z.ltb_spec i w); cbn.
  - rewrite (proj2 (Z.leb_le lo (i + lo))), (proj2 (Z.ltb_lt (i + lo) (lo + w))) by lia.
    cbn. f_equal. lia.
  - symmetry. by apply (testbit_small v w).
Qed.

Lemma get_set_other x lo w v lo' w' : 0 <= lo -> 0 <= w -> 0 <= lo' -> 0 <= w' ->
  lo' + w' <= lo \/ lo + w <= lo' ->
  get_field (set_field x lo w v) lo' w' = get_field x lo' w'.
Proof.
  intros. bits_ext i. rewrite !testbit_get_field, testbit_set_field by lia.
  bits_cases; cbn; done.
Qed.

Lemma set_set_same x lo w v v' : 0 <= lo -> 0 <= w ->
  set_field (set_field x lo w v) lo w v' = set_field x lo w v'.
Proof.
  intros. bits_ext i. rewrite !testbit_set_field by lia.
  by destruct ((lo <=? i) && (i <? lo + w)).
Qed.

(** A field inside another one. *)
Lemma get_set_inside x lo w v lo' w' : 0 <= lo -> lo <= lo' -> 0 <= w' -> lo' + w' <= lo + w ->
  get_field (set_field x lo w v) lo' w' = get_field v (lo' - lo) w'.
Proof.
  intros. bits_ext i. rewrite !testbit_get_field, testbit_set_field by lia.
  bits_cases; cbn; try done. f_equal. lia.
Qed.

Lemma get_field_range x lo w : 0 <= w -> 0 <= get_field x lo w < 2 ^ w.
Proof. intros. unfold get_field. rewrite Z.land_ones by lia. apply Z.mod_pos_bound. lia. Qed.

Lemma get_field_div x lo w : 0 <= lo -> 0 <= w -> get_field x lo w = (x / 2 ^ lo) mod 2 ^ w.
Proof. intros. unfold get_field. by rewrite Z.land_ones, Z.shiftr_div_pow2 by lia. Qed.

Lemma set_field_zero x lo w : Z.land x (Z.lnot (field_mask lo w)) = set_field x lo w 0.
Proof. unfold set_field. by rewrite Z.shiftl_0_l, Z.land_0_l, Z.lor_0_r. Qed.

(** Setting a field keeps a word in range. *)
Lemma set_field_range x lo w v n : 0 <= lo -> 0 <= w -> lo + w <= n -> 0 <= x < 2 ^ n ->
  0 <= set_field x lo w v < 2 ^ n.
Proof.
  intros Hlo Hw Hn Hx.
  assert (0 <= set_field x lo w v) as Hp.
  { unfold set_field. apply Z.lor_nonneg. split; [apply Z.land_nonneg; lia|].
    apply Z.land_nonneg. right. unfold field_mask. apply Z.shiftl_nonneg.
    rewrite Z.ones_equiv. pose proof (Z.pow_pos_nonneg 2 w). lia. }
  split; [done|]. destruct (Z.eq_dec (set_field x lo w v) 0) as [->|N]; [lia|].
  apply Z.log2_lt_pow2; [lia|]. apply Z.lt_nge. intros Hl.
  assert (Z.testbit (set_field x lo w v) (Z.log2 (set_field x lo w v)) = true) as Ht
    by (apply Z.bit_log2; lia).
  rewrite testbit_set_field in Ht by lia.
  rewrite (proj2 (Z.ltb_ge _ (lo + w))) in Ht by lia. rewrite andb_false_r in Ht.
  rewrite (testbit_small x n) in Ht by lia. done.
Qed.

(** ** Packed words, arithmetically *)

Lemma lor_shiftl_add a b n : 0 <= n -> 0 <= b < 2 ^ n -> Z.lor (Z.shiftl a n) b = a * 2 ^ n + b.
Proof.
  intros Hn Hb. rewrite <- Z.shiftl_mul_pow2 by done.
  rewrite Z.add_nocarry_lxor.
  - rewrite Z.lxor_lor; [done|]. bits_ext i. destruct (Z.ltb_spec i n).
    + rewrite Z.testbit_neg_r by lia. done.
    + rewrite (testbit_small b n) by lia. apply andb_false_r.
  - bits_ext i. destruct (Z.ltb_spec i n).
    + rewrite Z.testbit_neg_r by lia. done.
    + rewrite (testbit_small b n) by lia. apply andb_false_r.
Qed.

Lemma land_ones_mod x n : 0 <= n -> Z.land x (Z.ones n) = x mod 2 ^ n.
Proof. apply Z.land_ones. Qed.

(** ** Words made of fields *)

Lemma get_field_lor a b lo w : 0 <= lo -> 0 <= w ->
  get_field (Z.lor a b) lo w = Z.lor (get_field a lo w) (get_field b lo w).
Proof. intros. unfold get_field. by rewrite Z.shiftr_lor, Z.land_lor_distr_l. Qed.

Lemma get_field_place x n k lo w : 0 <= n -> 0 <= k -> 0 <= lo -> 0 <= w ->
  get_field (Z.shiftl (Z.land x (Z.ones n)) k) lo w =
  if decide (lo = k /\ n = w) then x mod 2 ^ n
  else if decide (lo + w <= k \/ k + n <= lo) then 0
  else get_field (Z.shiftl (Z.land x (Z.ones n)) k) lo w.
Proof.
  intros. case_decide as D1; [|case_decide as D2; [|done]].
  - destruct D1 as [-> ->]. unfold get_field. rewrite Z.shiftr_shiftl_l, Z.sub_diag, Z.shiftl_0_r by lia.
    rewrite !Z.land_ones by lia. apply Z.mod_mod. pose proof (Z.pow_pos_nonneg 2 w). lia.
  - bits_ext i. rewrite testbit_get_field by lia. destruct (Z.ltb_spec i w); [|done].
    destruct D2 as [D2|D2].
    + rewrite Z.shiftl_spec, Z.testbit_neg_r by lia. done.
    + rewrite Z.shiftl_spec, Z.land_spec, testbit_ones_pos by lia.
      rewrite (proj2 (Z.ltb_ge _ _)) by lia. apply andb_false_r.
Qed.

Lemma get_field_above x n lo w : 0 <= n <= lo -> 0 <= w -> 0 <= x < 2 ^ n -> get_field x lo w = 0.
Proof.
  intros. bits_ext i. rewrite testbit_get_field by lia. destruct (Z.ltb_spec i w); [|done].
  rewrite (testbit_small x n) by lia. done.
Qed.

Lemma get_field_small x w : 0 <= x < 2 ^ w -> get_field x 0 w = x.
Proof.
  intros. destruct (Z_lt_le_dec w 0); [rewrite Z.pow_neg_r in *; lia|].
  rewrite get_field_div, Z.div_1_r by lia. apply Z.mod_small. lia.
Qed.

(** Reads every field of a word built from constants' fields. *)
Ltac fields :=
  rewrite ?get_field_lor by lia;
  repeat (rewrite get_field_place by lia;
    first [rewrite decide_True by lia | rewrite decide_False by lia; rewrite decide_True by lia]);
  rewrite ?Z.lor_0_r, ?Z.lor_0_l.

(** The bits of a 64-bit word from [n] up. *)
Lemma land_high_mask x n : is_u64 x -> 0 <= n ->
  Z.land x (u64 (Z.lnot (Z.shiftl 1 n - 1))) = x / 2 ^ n * 2 ^ n.
Proof.
  intros Hx Hn. unfold u64. change 0x10000000000000000 with (2 ^ 64).
  rewrite <- Z.land_ones, (Z.land_comm (Z.lnot _)), Z.land_assoc by lia.
  rewrite Z.land_ones, (Z.mod_small x) by (try exact Hx; lia).
  change (Z.shiftl 1 n - 1) with (Z.shiftl 1 n + -1).
  replace (Z.shiftl 1 n + -1) with (Z.ones n) by (unfold Z.ones; lia).
  change (Z.land x (Z.lnot (Z.ones n))) with (Z.land x (Z.lnot (Z.ones n))).
  rewrite <- Z.ldiff_land, Z.ldiff_ones_r, Z.shiftr_div_pow2, Z.shiftl_mul_pow2 by lia. done.
Qed.
