(* ===== verification/CppId.v ===== *)
(** * CPP and interface identifiers ([nfp-common/nfp_resid.h], [nfp_cpp.h])

    The packed 32-bit CPP identifiers (target, token, action, island), 16-bit
    interface identifiers, micro-engine identifiers and the model checks, with
    their round trips. *)

From S2P Require Export Bits.

Local Open Scope Z_scope.

(** CPP targets. *)
Definition NFP6000_CPPTGT_NBI : Z := 1.
Definition NFP6000_CPPTGT_VQDR : Z := 2.
Definition NFP6000_CPPTGT_ILA : Z := 6.
Definition NFP6000_CPPTGT_MU : Z := 7.
Definition NFP6000_CPPTGT_PCIE : Z := 9.
Definition NFP6000_CPPTGT_ARM : Z := 10.
Definition NFP6000_CPPTGT_CRYPTO : Z := 12.
Definition NFP6000_CPPTGT_CTXPB : Z := 14.
Definition NFP6000_CPPTGT_CLS : Z := 15.

Definition NFP_CPP_ACTION_RW : Z := 32.
Definition NFP_CPP_TARGET_ID_MASK : Z := 0x1f.

Definition NFP_CPP_ID (target action token : Z) : Z :=
  Z.lor (Z.lor (Z.shiftl (Z.land target 0x7f) 24) (Z.shiftl (Z.land token 0xff) 16))
    (Z.shiftl (Z.land action 0xff) 8).

Definition NFP_CPP_ISLAND_ID (target action token island : Z) : Z :=
  Z.lor (Z.lor (Z.lor (Z.shiftl (Z.land target 0x7f) 24) (Z.shiftl (Z.land token 0xff) 16))
    (Z.shiftl (Z.land action 0xff) 8)) (Z.shiftl (Z.land island 0xff) 0).

Definition NFP_CPP_ID_TARGET_of (id : Z) : Z := Z.land (Z.shiftr id 24) NFP_CPP_TARGET_ID_MASK.
Definition NFP_CPP_ID_TOKEN_of (id : Z) : Z := Z.land (Z.shiftr id 16) 0xff.
Definition NFP_CPP_ID_ACTION_of (id : Z) : Z := Z.land (Z.shiftr id 8) 0xff.
Definition NFP_CPP_ID_ISLAND_of (id : Z) : Z := Z.land id 0xff.

(** Micro-engine identifiers; the micro-engine number of a valid one is [0 .. 11]. *)
Definition NFP6000_MEID (a b : Z) : Z :=
  if (Z.land a 0x3F =? a) && ((b >=? 0) && (b <? 12))
  then Z.lor (Z.shiftl a 4) (b + 4) else -1.

Definition NFP6000_MEID_IS_VALID (meid : Z) : bool :=
  (Z.shiftr meid 4 <? 64) && (Z.shiftr meid 4 >=? 0) && (Z.land meid 0xF >=? 4).

Definition NFP6000_MEID_ISLAND_of (meid : Z) : Z := Z.land (Z.shiftr meid 4) 0x3F.
Definition NFP6000_MEID_MENUM_of (meid : Z) : Z := Z.land meid 0xF - 4.
Definition NFP6000_MEID_MEGRP_of (meid : Z) : Z := Z.shiftr (NFP6000_MEID_MENUM_of meid) 1.

(** Models. *)
Definition NFP_CPP_MODEL_INVALID : Z := 0xffffffff.
Definition NFP_CPP_MODEL_CHIP_of (model : Z) : Z := Z.land (Z.shiftr model 16) 0xffff.
Definition NFP_CPP_MODEL_IS_6000 (model : Z) : bool :=
  (NFP_CPP_MODEL_CHIP_of model >=? 0x4000) && (NFP_CPP_MODEL_CHIP_of model <? 0x7000).

(** Interfaces. *)
Definition NFP_CPP_INTERFACE_TYPE_INVALID : Z := 0x0.
Definition NFP_CPP_INTERFACE_TYPE_PCI : Z := 0x1.
Definition NFP_CPP_INTERFACE_TYPE_ARM : Z := 0x2.
Definition NFP_CPP_INTERFACE_TYPE_RPC : Z := 0x3.
Definition NFP_CPP_INTERFACE_TYPE_ILA : Z := 0x4.

Definition NFP_CPP_INTERFACE (type unit channel : Z) : Z :=
  Z.lor (Z.lor (Z.shiftl (Z.land type 0xf) 12) (Z.shiftl (Z.land unit 0xf) 8))
    (Z.shiftl (Z.land channel 0xff) 0).
Definition NFP_CPP_INTERFACE_TYPE_of (interface : Z) : Z := Z.land (Z.shiftr interface 12) 0xf.
Definition NFP_CPP_INTERFACE_UNIT_of (interface : Z) : Z := Z.land (Z.shiftr interface 8) 0xf.
Definition NFP_CPP_INTERFACE_CHANNEL_of (interface : Z) : Z := Z.land (Z.shiftr interface 0) 0xff.

(** XPB addresses ([nfp6000/nfp_xpb.h]). *)
Definition NFP_XPB_OVERLAY (island : Z) : Z := Z.shiftl (Z.land island 0x3f) 24.
Definition NFP_XPB_ISLAND (island : Z) : Z := NFP_XPB_OVERLAY island + 0x60000.
Definition NFP_XPB_ISLAND_of (offset : Z) : Z := Z.land (Z.shiftr offset 24) 0x3F.
Definition NFP_XPB_DEVICE (island slave device : Z) : Z :=
  Z.lor (Z.lor (NFP_XPB_OVERLAY island) (Z.shiftl (Z.land slave 3) 22))
    (Z.shiftl (Z.land device 0x3f) 16).

(** ** Arithmetic reading *)

Lemma land_mask x n m : 0 <= n -> m = Z.ones n -> Z.land x m = x mod 2 ^ n.
Proof. intros ? ->. by apply Z.land_ones. Qed.

(** Rewrites masks and shifts by constants into remainders and quotients. *)
Ltac masks :=
  repeat match goal with
  | |- context [Z.land ?x ?m] =>
      let n := eval vm_compute in (Z.log2 m + 1) in
      rewrite (land_mask x n m) by first [reflexivity | lia];
      let p := eval vm_compute in (2 ^ n) in change (2 ^ n) with p
  end;
  repeat match goal with
  | |- context [Z.shiftr ?x ?n] =>
      rewrite (Z.shiftr_div_pow2 x n) by lia;
      let p := eval vm_compute in (2 ^ n) in change (2 ^ n) with p
  end.

Lemma NFP_CPP_ISLAND_ID_arith target action token island :
  NFP_CPP_ISLAND_ID target action token island
  = (target mod 0x80) * 0x1000000 + (token mod 0x100) * 0x10000
    + (action mod 0x100) * 0x100 + island mod 0x100.
Proof.
  unfold NFP_CPP_ISLAND_ID. masks. rewrite Z.shiftl_0_r.
  rewrite <- !Z.lor_assoc.
  rewrite (lor_shiftl_add (action mod 256) (island mod 256) 8) by (change (2 ^ 8) with 256; lia).
  rewrite (lor_shiftl_add _ _ 16) by (change (2 ^ 8) with 256; change (2 ^ 16) with 0x10000; lia).
  change (2 ^ 8) with 256. change (2 ^ 16) with 0x10000.
  rewrite lor_shiftl_add by (change (2 ^ 24) with 0x1000000; lia).
  change (2 ^ 24) with 0x1000000. lia.
Qed.

Lemma NFP_CPP_ID_island target action token :
  NFP_CPP_ID target action token = NFP_CPP_ISLAND_ID target action token 0.
Proof. unfold NFP_CPP_ID, NFP_CPP_ISLAND_ID. by rewrite Z.land_0_l, Z.shiftl_0_l, Z.lor_0_r. Qed.

Lemma NFP_CPP_INTERFACE_arith type unit channel :
  NFP_CPP_INTERFACE type unit channel
  = (type mod 0x10) * 0x1000 + (unit mod 0x10) * 0x100 + channel mod 0x100.
Proof.
  unfold NFP_CPP_INTERFACE. masks. rewrite Z.shiftl_0_r. rewrite <- !Z.lor_assoc.
  rewrite (lor_shiftl_add _ (channel mod 256) 8) by (change (2 ^ 8) with 256; lia).
  change (2 ^ 8) with 256.
  rewrite lor_shiftl_add by (change (2 ^ 12) with 4096; lia). change (2 ^ 12) with 4096. lia.
Qed.

(** A CPP identifier is a 32-bit word from which the four
    components are recovered, each reduced to the width of its field; the target
    is recovered only modulo 32, although seven bits of it are stored. *)
Lemma cpp_id_roundtrip target action token island :
  let id := NFP_CPP_ISLAND_ID target action token island in
  is_u32 id /\ NFP_CPP_ID_TARGET_of id = target mod 32 /\ NFP_CPP_ID_ACTION_of id = action mod 256 /\
  NFP_CPP_ID_TOKEN_of id = token mod 256 /\ NFP_CPP_ID_ISLAND_of id = island mod 256 /\
  NFP_CPP_ID_ISLAND_of (NFP_CPP_ID target action token) = 0.
Proof.
  cbv zeta. rewrite NFP_CPP_ID_island, !NFP_CPP_ISLAND_ID_arith.
  unfold NFP_CPP_ID_TARGET_of, NFP_CPP_ID_ACTION_of, NFP_CPP_ID_TOKEN_of, NFP_CPP_ID_ISLAND_of,
    NFP_CPP_TARGET_ID_MASK, is_u32. masks. repeat split; lia.
Qed.

(** An interface identifier is a 16-bit word from which type, unit
    and channel are recovered; a micro-engine identifier made from an island below
    64 and a micro-engine number below 12 is valid and gives both back, and any
    other pair gives -1. *)
Lemma interface_meid_roundtrip type unit channel a b :
  let id := NFP_CPP_INTERFACE type unit channel in
  is_u16 id /\ NFP_CPP_INTERFACE_TYPE_of id = type mod 16 /\
  NFP_CPP_INTERFACE_UNIT_of id = unit mod 16 /\ NFP_CPP_INTERFACE_CHANNEL_of id = channel mod 256 /\
  (if decide (0 <= a < 64 /\ 0 <= b < 12) then
     NFP6000_MEID_IS_VALID (NFP6000_MEID a b) = true /\
     NFP6000_MEID_ISLAND_of (NFP6000_MEID a b) = a /\ NFP6000_MEID_MENUM_of (NFP6000_MEID a b) = b
   else NFP6000_MEID a b = -1).
Proof.
  cbv zeta. rewrite NFP_CPP_INTERFACE_arith.
  unfold NFP_CPP_INTERFACE_TYPE_of, NFP_CPP_INTERFACE_UNIT_of, NFP_CPP_INTERFACE_CHANNEL_of, is_u16.
  do 4 (split; [masks; lia|]).
  unfold NFP6000_MEID. masks.
  case_decide as D.
  - rewrite (proj2 (Z.eqb_eq _ _)), (proj2 (Z.geb_le _ _)), (proj2 (Z.ltb_lt _ _)) by lia. cbn [andb].
    rewrite lor_shiftl_add by (change (2 ^ 4) with 16; lia). change (2 ^ 4) with 16.
    unfold NFP6000_MEID_IS_VALID, NFP6000_MEID_ISLAND_of, NFP6000_MEID_MENUM_of. masks.
    rewrite !andb_true_iff, !Z.geb_le, Z.ltb_lt. lia.
  - destruct (Z.eqb_spec (a mod 64) a), (Z.geb_spec b 0), (Z.ltb_spec b 12); cbn; try done; lia.
Qed.
