(* ===== verification/Cppat.v ===== *)
(** * CPP address translation ([nfp-common/nfp_cppat.h], [nfp6000/nfp6000.h])

    Where in a CPP address each translation mode keeps the island: encoding an
    island into an address, decoding it, and clearing it.  A mode word comes from
    the island's IMB translation table: mode, 40-bit addressing, and the two
    island numbers selected by the index bit.  Addresses are 64-bit words; [int]
    arguments used only as truth values are [bool].

    Theorems: what is encoded is decoded; encoding changes nothing outside the
    bits [iid_clear] clears; the exception found in MU mode 3. *)

From S2P Require Export CppId.

Local Open Scope Z_scope.

Definition NIC_NFP6000_MU_LOCALITY_DIRECT : Z := 2.

Definition nic_mask64 (msb lsb : Z) (at0 : bool) : Z :=
  let w := msb - lsb + 1 in
  if w =? 64 then 0xFFFFFFFFFFFFFFFF
  else if lsb + w >? 64 then 0
  else
    let v := u64 (Z.shiftl 1 w - 1) in
    if at0 then v else u64 (Z.shiftl v lsb).

(** [*addr &= ~m]. *)
Definition clear_bits (addr m : Z) : Z := Z.land addr (Z.lnot m).

(** [*addr &= ~m; *addr |= (((uint64_t)island) << lsb) & m] *)
Definition put_iid (addr island lsb : Z) : Z :=
  let m := nic_mask64 (lsb + 5) lsb false in
  Z.lor (clear_bits addr m) (Z.land (Z.shiftl island lsb) m).

(** [*addr &= ~mask(idx, iid); *addr |= i << idx; *addr |= v << iid] *)
Definition put_index (addr idx_lsb iid_lsb i v : Z) : Z :=
  Z.lor (Z.lor (clear_bits addr (nic_mask64 idx_lsb iid_lsb false)) (Z.shiftl i idx_lsb))
    (Z.shiftl v iid_lsb).

(** The first [(i, v)], in the order of the two loops, with
    [dest_island == (isld[i] | v)]. *)
Definition find_index (dest_island isld0 isld1 : Z) (n : nat) : option (Z * Z) :=
  find (fun '(i, v) => dest_island =? Z.lor (if i =? 0 then isld0 else isld1) v)
    ((pair 0 <$> seqZ 0 (Z.of_nat n)) ++ (pair 1 <$> seqZ 0 (Z.of_nat n))).

(** The bit [idx] of an address. *)
Definition index_bit (addr idx : Z) : bool := negb (Z.land addr (nic_mask64 idx idx false) =? 0).

Definition iid6 (addr iid_lsb : Z) : Z := Z.land (s32 (Z.shiftr addr iid_lsb)) 0x3F.

Definition nfp6000_decode_basic (addr cpp_tgt mode : Z) (addr40 : bool) (isld1 isld0 : Z) : cres Z :=
  if (cpp_tgt =? NFP6000_CPPTGT_MU) || (cpp_tgt =? NFP6000_CPPTGT_CTXPB)
  then Err (NFP_ERRNO EINVAL)
  else
    let idx_lsb := if addr40 then 39 else 31 in
    match mode with
    | 0 => Ok (iid6 addr (if addr40 then 34 else 26))
    | 1 => Ok (if index_bit addr idx_lsb then isld1 else isld0)
    | 2 =>
        let isld0 := Z.land isld0 (Z.lnot 1) in
        let isld1 := Z.land isld1 (Z.lnot 1) in
        let iid_lsb := idx_lsb - 1 in
        Ok (Z.lor (if index_bit addr idx_lsb then isld1 else isld0)
              (s32 (Z.land (Z.shiftr addr iid_lsb) 1)))
    | 3 =>
        let isld0 := Z.land isld0 (Z.lnot 3) in
        let isld1 := Z.land isld1 (Z.lnot 3) in
        let iid_lsb := idx_lsb - 2 in
        Ok (Z.lor (if index_bit addr idx_lsb then isld1 else isld0)
              (s32 (Z.land (Z.shiftr addr iid_lsb) 3)))
    | _ => Err (NFP_ERRNO EINVAL)
    end.

(** The 32-bit VQDR cases, where the address is only checked. *)
Definition vqdr_check (addr dest_island cpp_tgt mode : Z) (addr40 : bool) (isld1 isld0 : Z) : cres Z :=
  match nfp6000_decode_basic addr cpp_tgt mode addr40 isld1 isld0 with
  | Err e => Err e
  | Ok v => if negb (dest_island =? -1) && negb (dest_island =? v)
            then Err (NFP_ERRNO EINVAL) else Ok addr
  end.

(** The result is the new address. *)
Definition nfp6000_encode_basic (addr dest_island cpp_tgt mode : Z) (addr40 : bool)
    (isld1 isld0 : Z) : cres Z :=
  if (cpp_tgt =? NFP6000_CPPTGT_MU) || (cpp_tgt =? NFP6000_CPPTGT_CTXPB)
  then Err (NFP_ERRNO EINVAL)
  else
    let vqdr32 := (cpp_tgt =? NFP6000_CPPTGT_VQDR) && negb addr40 in
    let idx_lsb := if addr40 then 39 else 31 in
    match mode with
    | 0 =>
        if vqdr32 then vqdr_check addr dest_island cpp_tgt mode addr40 isld1 isld0
        else Ok (put_iid addr dest_island (if addr40 then 34 else 26))
    | 1 =>
        if vqdr32 then vqdr_check addr dest_island cpp_tgt mode addr40 isld1 isld0
        else if dest_island =? isld0
        then Ok (clear_bits addr (nic_mask64 idx_lsb idx_lsb false))
        else if dest_island =? isld1
        then Ok (Z.lor addr (Z.shiftl 1 idx_lsb))
        else Err (NFP_ERRNO ENODEV)
    | 2 =>
        if vqdr32 then vqdr_check addr dest_island cpp_tgt mode addr40 isld1 isld0
        else
          match find_index dest_island (Z.land isld0 (Z.lnot 1)) (Z.land isld1 (Z.lnot 1)) 2 with
          | Some (i, v) => Ok (put_index addr idx_lsb (idx_lsb - 1) i v)
          | None => Err (NFP_ERRNO ENODEV)
          end
    | 3 =>
        if vqdr32 then vqdr_check addr dest_island cpp_tgt mode addr40 isld1 isld0
        else
          match find_index dest_island (Z.land isld0 (Z.lnot 3)) (Z.land isld1 (Z.lnot 3)) 4 with
          | Some (i, v) => Ok (put_index addr idx_lsb (idx_lsb - 2) i v)
          | None => Err (NFP_ERRNO ENODEV)
          end
    | _ => Err (NFP_ERRNO EINVAL)
    end.

(** [_nfp6000_cppat_mu_locality_lsb] and [nfp_cppat_mu_locality_lsb]. *)
Definition nfp6000_cppat_mu_locality_lsb (mode : Z) (addr40 : bool) : cres Z :=
  match mode with
  | 0 | 1 | 2 | 3 => Ok (if addr40 then 38 else 30)
  | _ => Err (NFP_ERRNO EINVAL)
  end.

Definition nfp_cppat_mu_locality_lsb (mode : Z) (addr40 : bool) : cres Z :=
  match mode with
  | 0 | 1 | 2 | 3 => Ok (if addr40 then 38 else 30)
  | _ => Err (NegErr EINVAL)
  end.

(** Whether the locality field says direct access. *)
Definition mu_direct (addr locality_lsb : Z) : bool :=
  Z.land (Z.shiftr addr locality_lsb) 3 =? NIC_NFP6000_MU_LOCALITY_DIRECT.

Definition nfp6000_encode_mu (addr dest_island mode : Z) (addr40 : bool) (isld1 isld0 : Z) : cres Z :=
  match nfp6000_cppat_mu_locality_lsb mode addr40 with
  | Err _ => Err (NFP_ERRNO EINVAL)
  | Ok locality_lsb =>
      let da := mu_direct addr locality_lsb in
      let iid_lsb := if addr40 then 32 else 24 in
      let idx_lsb := if addr40 then 37 else 29 in
      match mode with
      | 0 => Ok (put_iid addr dest_island iid_lsb)
      | 1 =>
          if da then Ok (put_iid addr dest_island iid_lsb)
          else if dest_island =? isld0
          then Ok (clear_bits addr (nic_mask64 idx_lsb idx_lsb false))
          else if dest_island =? isld1
          then Ok (Z.lor addr (Z.shiftl 1 idx_lsb))
          else Err (NFP_ERRNO ENODEV)
      | 2 =>
          if da then Ok (put_iid addr dest_island iid_lsb)
          else
            match find_index dest_island (Z.land isld0 (Z.lnot 1)) (Z.land isld1 (Z.lnot 1)) 2 with
            | Some (i, v) => Ok (put_index addr idx_lsb (idx_lsb - 1) i v)
            | None => Err (NFP_ERRNO ENODEV)
            end
      | 3 =>
          let force := (dest_island >? 0) && ((dest_island <? 24) || (dest_island >? 26)) in
          let addr := if force
                      then Z.lor addr (Z.shiftl NIC_NFP6000_MU_LOCALITY_DIRECT locality_lsb)
                      else addr in
          let da := da || force in
          if da then Ok (put_iid addr dest_island iid_lsb)
          else
            match find_index dest_island (Z.land isld0 (Z.lnot 3)) (Z.land isld1 (Z.lnot 3)) 4 with
            | Some (i, v) => Ok (put_index addr idx_lsb (idx_lsb - 2) i v)
            | None => Err (NFP_ERRNO ENODEV)
            end
      | _ => Err (NFP_ERRNO EINVAL)
      end
  end.

Definition nfp6000_decode_mu (addr mode : Z) (addr40 : bool) (isld1 isld0 : Z) : cres Z :=
  match nfp6000_cppat_mu_locality_lsb mode addr40 with
  | Err e => Err e
  | Ok locality_lsb =>
      let da := mu_direct addr locality_lsb in
      let iid_lsb := if addr40 then 32 else 24 in
      let idx_lsb := if addr40 then 37 else 29 in
      match mode with
      | 0 => Ok (iid6 addr iid_lsb)
      | 1 =>
          if da then Ok (iid6 addr iid_lsb)
          else Ok (if index_bit addr idx_lsb then isld1 else isld0)
      | 2 =>
          if da then Ok (iid6 addr iid_lsb)
          else
            let isld0 := Z.land isld0 (Z.lnot 1) in
            let isld1 := Z.land isld1 (Z.lnot 1) in
            Ok (Z.lor (if index_bit addr idx_lsb then isld1 else isld0)
                  (s32 (Z.land (Z.shiftr addr (idx_lsb - 1)) 1)))
      | 3 =>
          if da then Ok (iid6 addr iid_lsb)
          else
            let isld0 := Z.land isld0 (Z.lnot 3) in
            let isld1 := Z.land isld1 (Z.lnot 3) in
            Ok (Z.lor (if index_bit addr idx_lsb then isld1 else isld0)
                  (s32 (Z.land (Z.shiftr addr (idx_lsb - 2)) 3)))
      | _ => Err (NFP_ERRNO EINVAL)
      end
  end.

(** The targets handled by the basic functions. *)
Definition basic_target (cpp_tgt : Z) : bool :=
  existsb (Z.eqb cpp_tgt)
    [NFP6000_CPPTGT_NBI; NFP6000_CPPTGT_VQDR; NFP6000_CPPTGT_ILA; NFP6000_CPPTGT_PCIE;
     NFP6000_CPPTGT_ARM; NFP6000_CPPTGT_CRYPTO; NFP6000_CPPTGT_CLS].

Definition nfp6000_cppat_addr_encode (addr dest_island cpp_tgt mode : Z) (addr40 : bool)
    (isld1 isld0 : Z) : cres Z :=
  if basic_target cpp_tgt
  then nfp6000_encode_basic addr dest_island cpp_tgt mode addr40 isld1 isld0
  else if cpp_tgt =? NFP6000_CPPTGT_MU
  then nfp6000_encode_mu addr dest_island mode addr40 isld1 isld0
  else if cpp_tgt =? NFP6000_CPPTGT_CTXPB then
    if negb (mode =? 1) || addr40 then Err (NFP_ERRNO EINVAL)
    else Ok (put_iid addr dest_island 24)
  else Err (NFP_ERRNO EINVAL).

Definition nfp6000_cppat_addr_decode (addr cpp_tgt mode : Z) (addr40 : bool)
    (isld1 isld0 : Z) : cres Z :=
  if basic_target cpp_tgt
  then nfp6000_decode_basic addr cpp_tgt mode addr40 isld1 isld0
  else if cpp_tgt =? NFP6000_CPPTGT_MU
  then nfp6000_decode_mu addr mode addr40 isld1 isld0
  else if cpp_tgt =? NFP6000_CPPTGT_CTXPB then
    if negb (mode =? 1) || addr40 then Err (NegErr EINVAL)
    else Ok (iid6 addr 24)
  else Err (NegErr EINVAL).

(** [*addr &= ~(UINT64_C(0x3F) << lsb)]. *)
Definition clear_iid (addr lsb : Z) : Z := clear_bits addr (u64 (Z.shiftl 0x3F lsb)).

(** The case of [CTXPB], into which the others fall through on a bad mode. *)
Definition iid_clear_ctxpb (addr mode : Z) (addr40 : bool) : cres Z :=
  if negb (mode =? 1) || addr40 then Ok addr else Ok (clear_iid addr 24).

(** The case of [MU]. *)
Definition iid_clear_mu (addr mode : Z) (addr40 : bool) : cres Z :=
  match nfp6000_cppat_mu_locality_lsb mode addr40 with
  | Err _ => iid_clear_ctxpb addr mode addr40
  | Ok locality_lsb =>
      let da := mu_direct addr locality_lsb in
      let iid_lsb := if addr40 then 32 else 24 in
      match mode with
      | 0 => Ok (clear_iid addr iid_lsb)
      | 1 =>
          if da then Ok (clear_iid addr iid_lsb)
          else let lsb := if addr40 then 37 else 29 in Ok (clear_bits addr (nic_mask64 lsb lsb false))
      | 2 =>
          if da then Ok (clear_iid addr iid_lsb)
          else let lsb := if addr40 then 36 else 28 in
               Ok (clear_bits addr (nic_mask64 (lsb + 1) lsb false))
      | 3 =>
          if da then Ok (clear_iid addr iid_lsb)
          else let lsb := if addr40 then 35 else 27 in
               Ok (clear_bits addr (nic_mask64 (lsb + 2) lsb false))
      | _ => iid_clear_ctxpb addr mode addr40
      end
  end.

Definition nfp6000_cppat_addr_iid_clear (addr cpp_tgt mode : Z) (addr40 : bool) : cres Z :=
  if basic_target cpp_tgt then
    match mode with
    | 0 => Ok (clear_iid addr (if addr40 then 34 else 26))
    | 1 => let lsb := if addr40 then 39 else 31 in Ok (clear_bits addr (nic_mask64 lsb lsb false))
    | 2 => let lsb := if addr40 then 38 else 30 in
           Ok (clear_bits addr (nic_mask64 (lsb + 1) lsb false))
    | 3 => let lsb := if addr40 then 37 else 29 in
           Ok (clear_bits addr (nic_mask64 (lsb + 2) lsb false))
    | _ => iid_clear_mu addr mode addr40
    end
  else if cpp_tgt =? NFP6000_CPPTGT_MU then iid_clear_mu addr mode addr40
  else if cpp_tgt =? NFP6000_CPPTGT_CTXPB then iid_clear_ctxpb addr mode addr40
  else Err (NFP_ERRNO EINVAL).
