(* ===== verification/CppatThms.v ===== *)
(** * CPP address translation: theorems

    The operations of [Cppat] as replacements of bit fields, and the theorems. *)

From S2P Require Export Cppat.

Local Open Scope Z_scope.

(** ** The operations as fields *)

Lemma nic_mask64_field msb lsb : 0 <= lsb <= msb -> msb < 64 -> msb - lsb + 1 < 64 ->
  nic_mask64 msb lsb false = field_mask lsb (msb - lsb + 1).
Proof.
  intros. unfold nic_mask64. set (w := msb - lsb + 1) in *.
  destruct (Z.eqb_spec w 64); [lia|]. destruct (Z.gtb_spec (lsb + w) 64); [lia|].
  assert (1 <= 2 ^ w < 2 ^ 64) as Hw.
  { split; [pose proof (Z.pow_pos_nonneg 2 w); lia|apply Z.pow_lt_mono_r; lia]. }
  change (2 ^ 64) with 0x10000000000000000 in Hw.
  unfold field_mask. rewrite Z.ones_equiv, Z.shiftl_1_l.
  rewrite (u64_id (2 ^ w - 1)) by (unfold is_u64; lia). unfold Z.pred.
  apply u64_id. unfold is_u64. rewrite Z.shiftl_mul_pow2 by lia.
  assert (2 ^ w * 2 ^ lsb <= 0x10000000000000000) as Hp.
  { rewrite <- Z.pow_add_r by lia. change 0x10000000000000000 with (2 ^ 64).
    apply Z.pow_le_mono_r; lia. }
  pose proof (Z.pow_pos_nonneg 2 lsb ltac:(lia) ltac:(lia)). nia.
Qed.

Lemma put_iid_field addr island lsb : 0 <= lsb -> lsb <= 58 ->
  put_iid addr island lsb = set_field addr lsb 6 island.
Proof.
  intros. unfold put_iid, set_field, clear_bits. rewrite nic_mask64_field by lia.
  by replace (lsb + 5 - lsb + 1) with 6 by lia.
Qed.

Lemma clear_field addr msb lsb : 0 <= lsb <= msb -> msb < 64 -> msb - lsb + 1 < 64 ->
  clear_bits addr (nic_mask64 msb lsb false) = set_field addr lsb (msb - lsb + 1) 0.
Proof. intros. unfold clear_bits. by rewrite nic_mask64_field, set_field_zero. Qed.

Lemma set_index_field addr idx : 0 <= idx ->
  Z.lor addr (Z.shiftl 1 idx) = set_field addr idx 1 1.
Proof.
  intros. bits_ext i. rewrite testbit_set_field by lia.
  destruct (Z.eq_dec i idx) as [->|].
  - rewrite Z.sub_diag. bits_cases; cbn. apply orb_true_r.
  - destruct (Z.leb_spec idx i) as [L|L]; cbn [andb].
    + rewrite (proj2 (Z.ltb_ge i (idx + 1))) by lia.
      rewrite (testbit_small 1 1) by (change (2 ^ 1) with 2; lia). apply orb_false_r.
    + rewrite (Z.testbit_neg_r 1) by lia. apply orb_false_r.
Qed.

Lemma put_index_field addr iid n i v : 0 <= iid -> 0 < n -> iid + n < 63 ->
  i = 0 \/ i = 1 -> 0 <= v < 2 ^ n ->
  put_index addr (iid + n) iid i v = set_field addr iid (n + 1) (i * 2 ^ n + v).
Proof.
  intros Hiid Hn Hm Hi Hv. unfold put_index. rewrite clear_field by lia.
  replace (iid + n - iid + 1) with (n + 1) by lia.
  rewrite <- lor_shiftl_add by lia. bits_ext j.
  rewrite !testbit_set_field by lia.
  destruct (Z.leb_spec iid j) as [L|L]; cbn [andb].
  - rewrite Z.lor_spec, Z.shiftl_spec by lia. replace (j - iid - n) with (j - (iid + n)) by lia.
    destruct (Z.ltb_spec j (iid + (n + 1))) as [M|M].
    + by rewrite Z.bits_0.
    + rewrite (testbit_small i 1 (j - (iid + n))) by (change (2 ^ 1) with 2; lia).
      rewrite (testbit_small v n) by lia. by rewrite !orb_false_r.
  - rewrite (Z.testbit_neg_r i), (Z.testbit_neg_r v) by lia. by rewrite !orb_false_r.
Qed.

Lemma index_bit_testbit addr idx : 0 <= idx < 63 -> index_bit addr idx = Z.testbit addr idx.
Proof.
  intros. unfold index_bit. rewrite nic_mask64_field by lia.
  replace (idx - idx + 1) with 1 by lia.
  destruct (Z.testbit addr idx) eqn:E.
  - apply negb_true_iff, Z.eqb_neq. intros E2.
    apply (f_equal (fun x => Z.testbit x idx)) in E2.
    rewrite Z.land_spec, testbit_field_mask, E, Z.bits_0 in E2 by lia.
    rewrite (proj2 (Z.leb_le idx idx)), (proj2 (Z.ltb_lt idx (idx + 1))) in E2 by lia. done.
  - apply negb_false_iff, Z.eqb_eq. bits_ext i. rewrite testbit_field_mask by lia.
    destruct (Z.eq_dec i idx) as [->|]; [by rewrite E|].
    replace ((idx <=? i) && (i <? idx + 1)) with false; [apply andb_false_r|].
    bits_cases; done.
Qed.

Lemma land_s32 x n : 0 <= n <= 32 -> Z.land (s32 x) (Z.ones n) = Z.land x (Z.ones n).
Proof.
  intros Hn. rewrite !Z.land_ones by lia.
  assert (s32 x = x + (- (2 ^ (32 - n) * ((x + 0x80000000) / 0x100000000))) * 2 ^ n) as ->.
  { replace (- (2 ^ (32 - n) * ((x + 0x80000000) / 0x100000000)) * 2 ^ n)
      with (- ((2 ^ (32 - n) * 2 ^ n) * ((x + 0x80000000) / 0x100000000))) by lia.
    rewrite <- Z.pow_add_r by lia. replace (32 - n + n) with 32 by lia.
    change (2 ^ 32) with 0x100000000. unfold s32. lia. }
  apply Z.mod_add, Z.pow_nonzero; lia.
Qed.

Lemma iid6_field addr lsb : iid6 addr lsb = get_field addr lsb 6.
Proof. unfold iid6, get_field. change 0x3F with (Z.ones 6). by apply land_s32. Qed.

Lemma low_bits_field addr lsb n m : m = Z.ones n -> 0 <= n < 31 ->
  s32 (Z.land (Z.shiftr addr lsb) m) = get_field addr lsb n.
Proof.
  intros -> Hn. pose proof (get_field_range addr lsb n ltac:(lia)).
  apply s32_id. fold (get_field addr lsb n).
  assert (2 ^ n < 2 ^ 31) by (apply Z.pow_lt_mono_r; lia).
  change (2 ^ 31) with 0x80000000 in *. lia.
Qed.

Lemma mu_direct_field addr l : mu_direct addr l = (get_field addr l 2 =? 2).
Proof. done. Qed.

Lemma find_index_some dest isld0 isld1 n i v : find_index dest isld0 isld1 n = Some (i, v) ->
  (i = 0 \/ i = 1) /\ 0 <= v < Z.of_nat n /\ dest = Z.lor (if i =? 0 then isld0 else isld1) v.
Proof.
  unfold find_index. intros H. apply find_some in H as [Hin He].
  apply Z.eqb_eq in He. split; [|split; [|done]];
    apply list_elem_of_In, elem_of_app in Hin as [Hin|Hin];
    apply list_elem_of_fmap in Hin as (x & E & Hx); injection E as -> ->; auto;
    apply elem_of_seqZ in Hx; lia.
Qed.

(** ** Round trips *)

(** An index and low island bits put at [iid] are read back. *)
Lemma decode_index addr idx n (N : nat) m dest l0 l1 i v :
  0 < n < 31 -> n <= idx < 63 -> Z.of_nat N = 2 ^ n -> m = Z.ones n ->
  find_index dest l0 l1 N = Some (i, v) ->
  let a := put_index addr idx (idx - n) i v in
  Z.lor (if index_bit a idx then l1 else l0) (s32 (Z.land (Z.shiftr a (idx - n)) m)) = dest.
Proof.
  intros Hn Hm HN Em Hf. apply find_index_some in Hf as (Hi & Hv & ->). rewrite HN in Hv.
  cbv zeta. remember (idx - n) as iid eqn:Ei. assert (idx = iid + n) as -> by lia. clear Ei.
  rewrite put_index_field by (done || lia).
  rewrite index_bit_testbit, testbit_set_field by lia.
  rewrite (proj2 (Z.leb_le _ _)), (proj2 (Z.ltb_lt _ _)) by lia. cbn [andb].
  replace (iid + n - iid) with n by lia.
  rewrite (low_bits_field _ _ n) by (done || lia).
  rewrite get_set_inside by lia. rewrite Z.sub_diag, get_field_div by lia.
  change (2 ^ 0) with 1. rewrite Z.div_1_r, Z.add_comm, Z.mod_add, Z.mod_small by lia.
  replace (Z.testbit (v + i * 2 ^ n) n) with (i =? 1).
  - by destruct Hi as [->| ->].
  - rewrite Z.add_comm, <- lor_shiftl_add by lia. autorewrite with bits.
    rewrite (testbit_small v n) by lia. rewrite Z.sub_diag.
    by destruct Hi as [->| ->].
Qed.

Lemma decode_iid addr lsb island : 0 <= lsb <= 58 -> 0 <= island < 64 ->
  iid6 (put_iid addr island lsb) lsb = island.
Proof. intros. rewrite iid6_field, put_iid_field by lia. apply get_set_same; change (2 ^ 6) with 64; lia. Qed.

Lemma decode_bit addr idx (l0 l1 : Z) b : 0 <= idx < 63 ->
  (if index_bit (set_field addr idx 1 (if b : bool then 1 else 0)) idx then l1 else l0)
  = if b then l1 else l0.
Proof.
  intros. rewrite index_bit_testbit, testbit_set_field by lia.
  rewrite (proj2 (Z.leb_le _ _)), (proj2 (Z.ltb_lt _ _)), Z.sub_diag by lia. by destruct b.
Qed.

Lemma clear_index addr idx : 0 <= idx < 63 ->
  clear_bits addr (nic_mask64 idx idx false) = set_field addr idx 1 0.
Proof. intros. rewrite clear_field by lia. by replace (idx - idx + 1) with 1 by lia. Qed.

(** Either island number selected by the index bit. *)
Lemma decode_select addr idx dest isld0 isld1 addr' : 0 <= idx < 63 ->
  (if dest =? isld0 then Ok (clear_bits addr (nic_mask64 idx idx false))
   else if dest =? isld1 then Ok (Z.lor addr (Z.shiftl 1 idx))
   else Err (NFP_ERRNO ENODEV)) = Ok addr' ->
  (if index_bit addr' idx then isld1 else isld0) = dest.
Proof.
  intros Hi H. rewrite clear_index, set_index_field in H by lia.
  destruct (Z.eqb_spec dest isld0) as [->|]; [|destruct (Z.eqb_spec dest isld1) as [->|]; [|done]];
    injection H as <-.
  - apply (decode_bit addr idx isld0 isld1 false). lia.
  - apply (decode_bit addr idx isld0 isld1 true). lia.
Qed.

Lemma vqdr_check_ok addr dest tgt mode addr40 isld1 isld0 addr' : dest <> -1 ->
  vqdr_check addr dest tgt mode addr40 isld1 isld0 = Ok addr' ->
  addr' = addr /\ nfp6000_decode_basic addr tgt mode addr40 isld1 isld0 = Ok dest.
Proof.
  intros Hd. unfold vqdr_check. destruct (nfp6000_decode_basic _ _ _ _ _ _) as [v|]; [|done].
  destruct (Z.eqb_spec dest (-1)); [done|]. destruct (Z.eqb_spec dest v) as [->|]; cbn; [|done].
  intros H. injection H as <-. done.
Qed.

(** The modes. *)
Lemma mode_cases (mode : Z) :
  (mode = 0 \/ mode = 1 \/ mode = 2 \/ mode = 3) \/
  (forall A (a b c d e : A), match mode with 0 => a | 1 => b | 2 => c | 3 => d | _ => e end = e).
Proof. destruct mode as [|[[?|?|]|[?|?|]|]|?]; auto. Qed.

Lemma encode_decode_basic addr dest tgt mode addr40 isld1 isld0 addr' :
  0 <= dest < 64 ->
  nfp6000_encode_basic addr dest tgt mode addr40 isld1 isld0 = Ok addr' ->
  nfp6000_decode_basic addr' tgt mode addr40 isld1 isld0 = Ok dest.
Proof.
  intros Hd. unfold nfp6000_encode_basic.
  destruct (_ || _) eqn:Et; [done|].
  destruct (mode_cases mode) as [Hm|Hm]; [|by rewrite Hm].
  destruct ((tgt =? NFP6000_CPPTGT_VQDR) && negb addr40) eqn:Ev.
  { intros H. assert (vqdr_check addr dest tgt mode addr40 isld1 isld0 = Ok addr') as Hc
      by (destruct Hm as [->|[->|[->| ->]]]; exact H).
    by apply vqdr_check_ok in Hc as [-> ?]; [|lia]. }
  unfold nfp6000_decode_basic. rewrite Et.
  destruct Hm as [->|[->|[->| ->]]]; intros H.
  - injection H as <-. by rewrite decode_iid by (destruct addr40; lia).
  - apply decode_select in H as ->; [done|destruct addr40; lia].
  - destruct (find_index dest _ _ 2) as [[i v]|] eqn:Ef; [|done]. injection H as <-. f_equal.
    destruct addr40; by eapply (decode_index addr _ 1 2 1).
  - destruct (find_index dest _ _ 4) as [[i v]|] eqn:Ef; [|done]. injection H as <-. f_equal.
    destruct addr40; by eapply (decode_index addr _ 2 4 3).
Qed.

(** The MU locality field is above every island and index field. *)
Lemma mu_direct_set addr lo w v l : 0 <= lo -> 0 <= w -> lo + w <= l ->
  mu_direct (set_field addr lo w v) l = mu_direct addr l.
Proof. intros. rewrite !mu_direct_field. by rewrite get_set_other by lia. Qed.

Lemma mu_direct_put_iid addr island lsb l : 0 <= lsb -> lsb + 6 <= l -> l <= 58 ->
  mu_direct (put_iid addr island lsb) l = mu_direct addr l.
Proof. intros. rewrite put_iid_field by lia. apply mu_direct_set; lia. Qed.

Lemma mu_direct_put_index addr idx n i v l : 0 < n -> n <= idx -> idx < l -> idx < 63 ->
  i = 0 \/ i = 1 -> 0 <= v < 2 ^ n ->
  mu_direct (put_index addr idx (idx - n) i v) l = mu_direct addr l.
Proof.
  intros. remember (idx - n) as iid eqn:Ei. assert (idx = iid + n) as -> by lia.
  rewrite put_index_field by (done || lia). apply mu_direct_set; lia.
Qed.

(** Forcing the direct locality succeeds when the field's low bit is clear. *)
Lemma mu_direct_forced addr l : 0 <= l -> 
  mu_direct (Z.lor addr (Z.shiftl NIC_NFP6000_MU_LOCALITY_DIRECT l)) l = negb (Z.testbit addr l).
Proof.
  intros Hl. rewrite mu_direct_field. unfold NIC_NFP6000_MU_LOCALITY_DIRECT.
  assert (get_field (Z.lor addr (Z.shiftl 2 l)) l 2 = 2 + Z.b2z (Z.testbit addr l)) as ->.
  { bits_ext i. rewrite testbit_get_field by lia. autorewrite with bits.
    replace (i + l - l) with i by lia.
    destruct (Z.ltb_spec i 2); cbn [andb].
    - assert (i = 0 \/ i = 1) as [->| ->] by lia.
      + rewrite Z.add_0_l. destruct (Z.testbit addr l); done.
      + destruct (Z.testbit addr l); rewrite orb_true_r; done.
    - symmetry. apply (testbit_small _ 2); [|lia..]. destruct (Z.testbit addr l); cbn; lia. }
  by destruct (Z.testbit addr l).
Qed.

Lemma mu_select_direct addr dest isld0 isld1 addr' idx l : 0 <= idx < l -> l <= 58 ->
  (if dest =? isld0 then Ok (clear_bits addr (nic_mask64 idx idx false))
   else if dest =? isld1 then Ok (Z.lor addr (Z.shiftl 1 idx))
   else Err (NFP_ERRNO ENODEV)) = Ok addr' ->
  mu_direct addr' l = mu_direct addr l.
Proof.
  intros Hi Hl H. rewrite clear_index, set_index_field in H by lia.
  destruct (dest =? isld0); [|destruct (dest =? isld1); [|done]]; injection H as <-;
    apply mu_direct_set; lia.
Qed.

(** What an address must satisfy for MU mode 3 to be able to force direct access. *)
Definition mu_forceable (addr mode : Z) (addr40 : bool) : Prop :=
  mode = 3 -> Z.testbit addr (if addr40 then 38 else 30) = false.

Lemma encode_decode_mu addr dest mode addr40 isld1 isld0 addr' :
  0 <= dest < 64 -> mu_forceable addr mode addr40 ->
  nfp6000_encode_mu addr dest mode addr40 isld1 isld0 = Ok addr' ->
  nfp6000_decode_mu addr' mode addr40 isld1 isld0 = Ok dest.
Proof.
  intros Hd Hf H. unfold nfp6000_encode_mu in H. unfold nfp6000_decode_mu.
  destruct (nfp6000_cppat_mu_locality_lsb mode addr40) as [l|] eqn:El; [|done].
  destruct (mode_cases mode) as [Hm|Hm]; [|by rewrite Hm in H].
  assert (l = if addr40 then 38 else 30) as ->
    by (destruct Hm as [->|[->|[->| ->]]]; by injection El).
  set (l := if addr40 then 38 else 30) in *.
  assert (30 <= l <= 38 /\ (if addr40 then 32 else 24) + 6 = l /\
    (if addr40 then 37 else 29) + 1 = l) as (Hl & Hiid & Hidx) by (destruct addr40; unfold l; lia).
  set (iid := if addr40 then 32 else 24) in *. set (idx := if addr40 then 37 else 29) in *.
  assert (forall a, mu_direct (put_iid a dest iid) l = mu_direct a l) as Dput
    by (intros; apply mu_direct_put_iid; lia).
  assert (iid6 (put_iid addr dest iid) iid = dest) as Eiid by (apply decode_iid; lia).
  destruct Hm as [->|[->|[->| ->]]].
  - injection H as <-. by rewrite Eiid.
  - destruct (mu_direct addr l) eqn:Eda.
    + injection H as <-. by rewrite Dput, Eda, Eiid.
    + pose proof (mu_select_direct _ _ _ _ _ idx l ltac:(lia) ltac:(lia) H) as ->. rewrite Eda.
      apply decode_select in H as ->; [done|lia].
  - destruct (mu_direct addr l) eqn:Eda.
    + injection H as <-. by rewrite Dput, Eda, Eiid.
    + destruct (find_index dest _ _ 2) as [[i v]|] eqn:Ef; [|done]. injection H as <-.
      destruct (find_index_some _ _ _ _ _ _ Ef) as (Hi & Hv & _).
      rewrite (mu_direct_put_index addr idx 1) by (done || lia). rewrite Eda. f_equal.
      eapply (decode_index addr idx 1 2 1); (done || lia).
  - destruct ((dest >? 0) && ((dest <? 24) || (dest >? 26))) eqn:Efo.
    + rewrite orb_true_r in H. injection H as <-.
      assert (Z.testbit addr l = false) as Hb by (apply Hf; done).
      rewrite Dput, mu_direct_forced, Hb by lia. cbn [negb].
      by rewrite decode_iid by lia.
    + rewrite orb_false_r in H. destruct (mu_direct addr l) eqn:Eda.
      * injection H as <-. by rewrite Dput, Eda, Eiid.
      * destruct (find_index dest _ _ 4) as [[i v]|] eqn:Ef; [|done]. injection H as <-.
        destruct (find_index_some _ _ _ _ _ _ Ef) as (Hi & Hv & _).
        rewrite (mu_direct_put_index addr idx 2) by (done || lia). rewrite Eda. f_equal.
        eapply (decode_index addr idx 2 4 3); (done || lia).
Qed.

Lemma cppat_decode_encoded addr dest tgt mode addr40 isld1 isld0 addr' :
  0 <= dest < 64 ->
  (tgt = NFP6000_CPPTGT_MU -> mu_forceable addr mode addr40) ->
  nfp6000_cppat_addr_encode addr dest tgt mode addr40 isld1 isld0 = Ok addr' ->
  nfp6000_cppat_addr_decode addr' tgt mode addr40 isld1 isld0 = Ok dest.
Proof.
  intros Hd Hf. unfold nfp6000_cppat_addr_encode, nfp6000_cppat_addr_decode.
  destruct (basic_target tgt); [by apply encode_decode_basic|].
  destruct (Z.eqb_spec tgt NFP6000_CPPTGT_MU) as [E|].
  { apply encode_decode_mu; auto. }
  destruct (tgt =? NFP6000_CPPTGT_CTXPB); [|done].
  destruct (negb (mode =? 1) || addr40); [done|].
  intros H. injection H as <-. by rewrite decode_iid by lia.
Qed.

(** C25 (roundtrip): for every target, mode and addressing width, an address into
    which an island was encoded decodes to that island.  (In MU mode 3, where an
    island outside the external memories forces direct access, the low locality
    bit must be clear.) *)
Theorem cppat_encode_decode addr dest tgt mode addr40 isld1 isld0 addr' :
  0 <= dest < 64 ->
  (tgt = NFP6000_CPPTGT_MU -> mu_forceable addr mode addr40) ->
  nfp6000_cppat_addr_encode addr dest tgt mode addr40 isld1 isld0 = Ok addr' ->
  nfp6000_cppat_addr_decode addr' tgt mode addr40 isld1 isld0 = Ok dest.
Proof. apply cppat_decode_encoded. Qed.

(** An island's cluster local scratch, as the PCIe driver addresses it. *)
Lemma cppat_encode_decode_witness :
  nfp6000_cppat_addr_decode (0x1234 + 32 * 0x400000000) NFP6000_CPPTGT_CLS 0 true 1 4 = Ok 32.
Proof.
  apply (cppat_encode_decode 0x1234 32); [lia|discriminate|by vm_compute].
Defined.

(** In MU mode 3 the code that means to force direct access ORs
    the locality field with 2, which leaves 3 when its low bit is set: an address
    with locality 1 is encoded for island 4, reports success, and decodes to a
    different island. *)
Lemma mu_mode3_locality_not_forced :
  exists addr addr', nfp6000_encode_mu addr 4 3 true 28 24 = Ok addr' /\
    mu_direct addr' 38 = false /\ nfp6000_decode_mu addr' 3 true 28 24 = Ok 24.
Proof. exists 0x4000000000, 0xc400000000. vm_compute. done. Qed.

(** ** Encoding touches only the island's bits *)

Lemma clear_iid_field addr lsb : 0 <= lsb <= 58 -> clear_iid addr lsb = set_field addr lsb 6 0.
Proof.
  intros. rewrite <- set_field_zero. unfold clear_iid, clear_bits.
  replace 6 with (lsb + 5 - lsb + 1) by lia. rewrite <- nic_mask64_field by lia.
  unfold nic_mask64. replace (lsb + 5 - lsb + 1) with 6 by lia.
  destruct (Z.gtb_spec (lsb + 6) 64); [lia|]. done.
Qed.

Lemma clear_put_iid addr island lsb : 0 <= lsb <= 58 ->
  clear_iid (put_iid addr island lsb) lsb = clear_iid addr lsb.
Proof. intros. rewrite !clear_iid_field, put_iid_field by lia. apply set_set_same; lia. Qed.

Lemma clear_put_index addr idx n i v lsb : 0 < n < 31 -> n <= idx < 63 -> lsb = idx - n ->
  i = 0 \/ i = 1 -> 0 <= v < 2 ^ n ->
  clear_bits (put_index addr idx (idx - n) i v) (nic_mask64 (lsb + n) lsb false)
  = clear_bits addr (nic_mask64 (lsb + n) lsb false).
Proof.
  intros ? ? -> ? ?. rewrite !clear_field by lia.
  remember (idx - n) as iid eqn:Ei. assert (idx = iid + n) as -> by lia.
  rewrite put_index_field by (done || lia).
  replace (iid + n - iid + 1) with (n + 1) by lia. apply set_set_same; lia.
Qed.

Lemma clear_select addr dest isld0 isld1 addr' idx : 0 <= idx < 63 ->
  (if dest =? isld0 then Ok (clear_bits addr (nic_mask64 idx idx false))
   else if dest =? isld1 then Ok (Z.lor addr (Z.shiftl 1 idx))
   else Err (NFP_ERRNO ENODEV)) = Ok addr' ->
  clear_bits addr' (nic_mask64 idx idx false) = clear_bits addr (nic_mask64 idx idx false).
Proof.
  intros Hi H. rewrite clear_index, set_index_field in H by lia. rewrite !clear_index by lia.
  destruct (dest =? isld0); [|destruct (dest =? isld1); [|done]]; injection H as <-;
    apply set_set_same; lia.
Qed.

Lemma encode_keeps_basic addr dest tgt mode addr40 isld1 isld0 addr' :
  0 <= dest -> basic_target tgt = true ->
  nfp6000_encode_basic addr dest tgt mode addr40 isld1 isld0 = Ok addr' ->
  nfp6000_cppat_addr_iid_clear addr' tgt mode addr40
  = nfp6000_cppat_addr_iid_clear addr tgt mode addr40.
Proof.
  intros Hd Eb. unfold nfp6000_encode_basic, nfp6000_cppat_addr_iid_clear. rewrite Eb.
  destruct (_ || _) eqn:Et; [done|].
  destruct (mode_cases mode) as [Hm|Hm]; [|by rewrite Hm].
  destruct ((tgt =? NFP6000_CPPTGT_VQDR) && negb addr40) eqn:Ev.
  { intros H. assert (vqdr_check addr dest tgt mode addr40 isld1 isld0 = Ok addr') as Hc
      by (destruct Hm as [->|[->|[->| ->]]]; exact H).
    by apply vqdr_check_ok in Hc as [-> ?]; [|lia]. }
  destruct Hm as [->|[->|[->| ->]]]; intros H.
  - injection H as <-. by rewrite clear_put_iid by (destruct addr40; lia).
  - cbv zeta. f_equal. eapply clear_select; [destruct addr40; lia|exact H].
  - destruct (find_index dest _ _ 2) as [[i v]|] eqn:Ef; [|done]. injection H as <-.
    destruct (find_index_some _ _ _ _ _ _ Ef) as (Hi & Hv & _). cbv zeta. f_equal.
    destruct addr40; apply (clear_put_index addr _ 1); (done || lia).
  - destruct (find_index dest _ _ 4) as [[i v]|] eqn:Ef; [|done]. injection H as <-.
    destruct (find_index_some _ _ _ _ _ _ Ef) as (Hi & Hv & _). cbv zeta. f_equal.
    destruct addr40; apply (clear_put_index addr _ 2); (done || lia).
Qed.

(** MU mode 3 does not have to force direct access. *)
Definition mu_unforced (dest mode : Z) : Prop := mode = 3 -> dest <= 0 \/ 24 <= dest <= 26.

Lemma encode_keeps_mu addr dest mode addr40 isld1 isld0 addr' :
  mu_unforced dest mode ->
  nfp6000_encode_mu addr dest mode addr40 isld1 isld0 = Ok addr' ->
  iid_clear_mu addr' mode addr40 = iid_clear_mu addr mode addr40.
Proof.
  intros Hu H. unfold nfp6000_encode_mu in H. unfold iid_clear_mu.
  destruct (nfp6000_cppat_mu_locality_lsb mode addr40) as [l|] eqn:El; [|done].
  destruct (mode_cases mode) as [Hm|Hm]; [|by rewrite Hm in H].
  assert (l = if addr40 then 38 else 30) as ->
    by (destruct Hm as [->|[->|[->| ->]]]; by injection El).
  set (l := if addr40 then 38 else 30) in *.
  assert (30 <= l <= 38 /\ (if addr40 then 32 else 24) + 6 = l /\
    (if addr40 then 37 else 29) + 1 = l) as (Hl & Hiid & Hidx) by (destruct addr40; unfold l; lia).
  set (iid := if addr40 then 32 else 24) in *. set (idx := if addr40 then 37 else 29) in *.
  assert ((if addr40 then 36 else 28) = idx - 1 /\ (if addr40 then 35 else 27) = idx - 2) as [-> ->]
    by (destruct addr40; done).
  assert (mu_direct (put_iid addr dest iid) l = mu_direct addr l) as Dput
    by (intros; apply mu_direct_put_iid; lia).
  assert (clear_iid (put_iid addr dest iid) iid = clear_iid addr iid) as Ecl
    by (apply clear_put_iid; lia).
  destruct Hm as [->|[->|[->| ->]]].
  - injection H as <-. by rewrite Ecl.
  - destruct (mu_direct addr l) eqn:Eda.
    + injection H as <-. by rewrite Dput, Ecl.
    + pose proof (mu_select_direct _ _ _ _ _ idx l ltac:(lia) ltac:(lia) H) as ->. rewrite Eda.
      cbv zeta. f_equal. eapply clear_select; [lia|exact H].
  - destruct (mu_direct addr l) eqn:Eda.
    + injection H as <-. by rewrite Dput, Ecl.
    + destruct (find_index dest _ _ 2) as [[i v]|] eqn:Ef; [|done]. injection H as <-.
      destruct (find_index_some _ _ _ _ _ _ Ef) as (Hi & Hv & _).
      rewrite (mu_direct_put_index addr idx 1) by (done || lia). rewrite Eda.
      cbv zeta. f_equal. apply (clear_put_index addr idx 1); (done || lia).
  - replace ((dest >? 0) && ((dest <? 24) || (dest >? 26))) with false in H.
    2: { destruct (Hu eq_refl); destruct (Z.gtb_spec dest 0), (Z.ltb_spec dest 24),
           (Z.gtb_spec dest 26); try done; lia. }
    rewrite orb_false_r in H. destruct (mu_direct addr l) eqn:Eda.
    + injection H as <-. by rewrite Dput, Ecl.
    + destruct (find_index dest _ _ 4) as [[i v]|] eqn:Ef; [|done]. injection H as <-.
      destruct (find_index_some _ _ _ _ _ _ Ef) as (Hi & Hv & _).
      rewrite (mu_direct_put_index addr idx 2) by (done || lia). rewrite Eda.
      cbv zeta. f_equal. apply (clear_put_index addr idx 2); (done || lia).
Qed.

(** Encoding an island changes only the bits that carry islands:
    clearing the island from the address before and after gives the same address,
    except where MU mode 3 forces the locality. *)
Lemma cppat_encode_keeps_offset addr dest tgt mode addr40 isld1 isld0 addr' :
  0 <= dest < 64 -> (tgt = NFP6000_CPPTGT_MU -> mu_unforced dest mode) ->
  nfp6000_cppat_addr_encode addr dest tgt mode addr40 isld1 isld0 = Ok addr' ->
  nfp6000_cppat_addr_iid_clear addr' tgt mode addr40
  = nfp6000_cppat_addr_iid_clear addr tgt mode addr40.
Proof.
  intros Hd Hu. unfold nfp6000_cppat_addr_encode.
  destruct (basic_target tgt) eqn:Eb; [by apply encode_keeps_basic; [lia|]|].
  unfold nfp6000_cppat_addr_iid_clear. rewrite Eb.
  destruct (Z.eqb_spec tgt NFP6000_CPPTGT_MU) as [E|].
  { apply encode_keeps_mu; auto. }
  destruct (tgt =? NFP6000_CPPTGT_CTXPB); [|done].
  unfold iid_clear_ctxpb. destruct (negb (mode =? 1) || addr40); [done|].
  intros H. injection H as <-. by rewrite clear_put_iid by lia.
Qed.

Lemma cppat_encode_keeps_offset_witness :
  nfp6000_cppat_addr_iid_clear (0x1234 + 32 * 0x400000000) NFP6000_CPPTGT_CLS 0 true
  = nfp6000_cppat_addr_iid_clear 0x1234 NFP6000_CPPTGT_CLS 0 true.
Proof.
  apply (cppat_encode_keeps_offset 0x1234 32 _ _ _ 1 4); [lia|discriminate|by vm_compute].
Defined.
