(* ===== verification/Target.v ===== *)
(** * CPP target access widths and translation ([nfp_target.h])

    For each CPP target, which actions can be done with reads or writes of 32- or
    64-bit words: a table from (action, token) to the widths of the pull (write)
    and push (read) sides; and the translation of an island identifier and address
    into the target identifier and address put on the bus.

    Theorems: every width is 4 or 8 bytes; an identifier usable both ways has one
    width; a translated access carries no island in its identifier and decodes to
    the island asked for. *)

From S2P Require Export CppatThms.

Local Open Scope Z_scope.

Definition P32 : Z := 1.
Definition P64 : Z := 2.

Definition PUSHPULL (pull push : Z) : Z := Z.lor (Z.shiftl pull 4) (Z.shiftl push 0).

Definition pushpull_width (pp : Z) : cres Z :=
  let pp := Z.land pp 0xf in
  if pp =? 0 then Err (NFP_ERRNO EINVAL) else Ok (Z.shiftl 2 pp).

Definition PUSH_WIDTH (pp : Z) : cres Z := pushpull_width (Z.shiftr pp 0).
Definition PULL_WIDTH (pp : Z) : cres Z := pushpull_width (Z.shiftr pp 4).

(** [switch (cpp_id & NFP_CPP_ID(0, ~0, ~0))] over the cases [NFP_CPP_ID(0, a, t)]. *)
Fixpoint switch_id (cpp_id : Z) (cases : list ((Z * Z) * Z)) (dflt : cres Z) : cres Z :=
  match cases with
  | [] => dflt
  | ((a, t), pp) :: cases =>
      if Z.land cpp_id (NFP_CPP_ID 0 (-1) (-1)) =? NFP_CPP_ID 0 a t then Ok pp
      else switch_id cpp_id cases dflt
  end.

(** The read, write and read/write actions. *)
Definition rw_cases (pp : Z) : list ((Z * Z) * Z) :=
  [((0, 0), PUSHPULL 0 pp); ((1, 0), PUSHPULL pp 0); ((NFP_CPP_ACTION_RW, 0), PUSHPULL pp pp)].

(** [island && (island < lo || island > hi)] *)
Definition bad_island (cpp_id lo hi : Z) : bool :=
  let island := NFP_CPP_ID_ISLAND_of cpp_id in
  negb (island =? 0) && ((island <? lo) || (island >? hi)).

Definition target_rw (cpp_id pp start len : Z) : cres Z :=
  if bad_island cpp_id start (start + len) then Err (NFP_ERRNO EINVAL)
  else switch_id cpp_id (rw_cases pp) (Err (NFP_ERRNO EINVAL)).

Definition nfp6000_nbi_dma (cpp_id : Z) : cres Z :=
  switch_id cpp_id (rw_cases P64) (Err (NFP_ERRNO EINVAL)).
Definition nfp6000_nbi_stats (cpp_id : Z) : cres Z :=
  switch_id cpp_id (rw_cases P64) (Err (NFP_ERRNO EINVAL)).
Definition nfp6000_nbi_tm (cpp_id : Z) : cres Z :=
  switch_id cpp_id (rw_cases P64) (Err (NFP_ERRNO EINVAL)).
Definition nfp6000_nbi_ppc (cpp_id : Z) : cres Z :=
  switch_id cpp_id (rw_cases P64) (Err (NFP_ERRNO EINVAL)).

Definition nfp6000_nbi (cpp_id address : Z) : cres Z :=
  let rel_addr := Z.land address 0x3fFFFF in
  if bad_island cpp_id 8 9 then Err (NFP_ERRNO EINVAL)
  else if rel_addr <? Z.shiftl 1 20 then nfp6000_nbi_dma cpp_id
  else if rel_addr <? Z.shiftl 2 20 then nfp6000_nbi_stats cpp_id
  else if rel_addr <? Z.shiftl 3 20 then nfp6000_nbi_tm cpp_id
  else nfp6000_nbi_ppc cpp_id.

Definition mu_common_cases : list ((Z * Z) * Z) :=
  [((NFP_CPP_ACTION_RW, 0), PUSHPULL P64 P64);
   ((NFP_CPP_ACTION_RW, 1), PUSHPULL P64 P64);
   ((NFP_CPP_ACTION_RW, 2), PUSHPULL P64 P64);
   ((NFP_CPP_ACTION_RW, 3), PUSHPULL P64 P64); ((0, 0), PUSHPULL 0 P64);
   ((0, 1), PUSHPULL 0 P64); ((0, 2), PUSHPULL 0 P64); ((0, 3), PUSHPULL 0 P64);
   ((1, 0), PUSHPULL P64 0); ((1, 1), PUSHPULL P64 0); ((1, 2), PUSHPULL P64 0);
   ((1, 3), PUSHPULL P64 0); ((3, 0), PUSHPULL 0 P32); ((3, 2), PUSHPULL P32 0);
   ((4, 0), PUSHPULL P32 0); ((4, 2), PUSHPULL 0 0); ((4, 3), PUSHPULL 0 P32);
   ((5, 0), PUSHPULL P32 0); ((5, 3), PUSHPULL 0 P32); ((6, 0), PUSHPULL P32 0);
   ((6, 3), PUSHPULL 0 P32); ((7, 0), PUSHPULL P32 0); ((7, 3), PUSHPULL 0 P32);
   ((8, 0), PUSHPULL P32 0); ((8, 3), PUSHPULL 0 P32); ((9, 0), PUSHPULL P32 0);
   ((9, 3), PUSHPULL 0 P32); ((10, 0), PUSHPULL P32 0); ((10, 3), PUSHPULL 0 P32);
   ((13, 0), PUSHPULL 0 P32); ((13, 1), PUSHPULL 0 P32); ((13, 2), PUSHPULL P32 0);
   ((15, 0), PUSHPULL P32 0); ((15, 3), PUSHPULL 0 P32); ((28, 0), PUSHPULL 0 P32);
   ((28, 1), PUSHPULL 0 P32); ((28, 2), PUSHPULL 0 P32); ((28, 3), PUSHPULL 0 P32);
   ((31, 0), PUSHPULL P32 0); ((31, 1), PUSHPULL P32 0); ((31, 2), PUSHPULL P32 0);
   ((31, 3), PUSHPULL P32 0)].

Definition nfp6000_mu_common (cpp_id : Z) : cres Z :=
  switch_id cpp_id mu_common_cases (Err (NFP_ERRNO EINVAL)).

Definition nfp6000_mu_ctm (cpp_id : Z) : cres Z :=
  switch_id cpp_id
  [((16, 1), PUSHPULL 0 P32)]
  (nfp6000_mu_common cpp_id).

Definition mu_emu_cases : list ((Z * Z) * Z) :=
  [((18, 0), PUSHPULL 0 P32); ((18, 1), PUSHPULL 0 P32); ((18, 2), PUSHPULL P32 0);
   ((18, 3), PUSHPULL P32 0); ((20, 2), PUSHPULL P32 0); ((21, 0), PUSHPULL 0 P32);
   ((21, 1), PUSHPULL 0 P32); ((21, 2), PUSHPULL 0 P32); ((22, 0), PUSHPULL 0 P32);
   ((22, 1), PUSHPULL 0 P32); ((22, 2), PUSHPULL 0 P32)].

Definition nfp6000_mu_emu (cpp_id : Z) : cres Z :=
  switch_id cpp_id mu_emu_cases (nfp6000_mu_common cpp_id).

Definition nfp6000_mu_imu (cpp_id : Z) : cres Z := nfp6000_mu_common cpp_id.

Definition between (lo x hi : Z) : bool := (x >=? lo) && (x <=? hi).

Definition nfp6000_mu (cpp_id address : Z) : cres Z :=
  let island := NFP_CPP_ID_ISLAND_of cpp_id in
  if island =? 0 then
    if address <? 0x2000000000 then nfp6000_mu_ctm cpp_id
    else if address <? 0x8000000000 then nfp6000_mu_emu cpp_id
    else if address <? 0x9800000000 then nfp6000_mu_ctm cpp_id
    else if address <? 0x9C00000000 then nfp6000_mu_emu cpp_id
    else if address <? 0xA000000000 then nfp6000_mu_imu cpp_id
    else nfp6000_mu_ctm cpp_id
  else if between 24 island 27 then nfp6000_mu_emu cpp_id
  else if between 28 island 31 then nfp6000_mu_imu cpp_id
  else if (island =? 1) || between 4 island 7 || between 12 island 13
       || between 32 island 47 || between 48 island 51
  then nfp6000_mu_ctm cpp_id
  else Err (NFP_ERRNO EINVAL).

Definition nfp6000_ila (cpp_id : Z) : cres Z :=
  if bad_island cpp_id 48 51 then Err (NFP_ERRNO EINVAL)
  else switch_id cpp_id
  [((0, 1), PUSHPULL 0 P32); ((2, 0), PUSHPULL 0 P32); ((3, 0), PUSHPULL P32 0)]
  (target_rw cpp_id P32 48 4).

Definition nfp6000_pci (cpp_id : Z) : cres Z :=
  if bad_island cpp_id 4 7 then Err (NFP_ERRNO EINVAL)
  else switch_id cpp_id
  [((2, 0), PUSHPULL 0 P32); ((3, 0), PUSHPULL P32 0)]
  (target_rw cpp_id P32 4 4).

Definition nfp6000_crypto (cpp_id : Z) : cres Z :=
  if bad_island cpp_id 12 15 then Err (NFP_ERRNO EINVAL)
  else switch_id cpp_id
  [((2, 0), PUSHPULL P64 0)]
  (target_rw cpp_id P64 12 4).

Definition cap_xpb_cases : list ((Z * Z) * Z) :=
  [((0, 1), PUSHPULL 0 P32); ((0, 2), PUSHPULL P32 0); ((1, 1), PUSHPULL P32 0);
   ((1, 2), PUSHPULL P32 0); ((2, 0), PUSHPULL 0 P32); ((2, 1), PUSHPULL 0 P32);
   ((2, 2), PUSHPULL 0 P32); ((2, 3), PUSHPULL 0 P32); ((3, 0), PUSHPULL P32 0);
   ((3, 1), PUSHPULL P32 0); ((3, 2), PUSHPULL P32 0); ((3, 3), PUSHPULL P32 0);
   ((NFP_CPP_ACTION_RW, 1), PUSHPULL P32 P32)].

Definition nfp6000_cap_xpb (cpp_id : Z) : cres Z :=
  if bad_island cpp_id 1 63 then Err (NFP_ERRNO EINVAL)
  else switch_id cpp_id cap_xpb_cases (target_rw cpp_id P32 1 63).

Definition cls_cases : list ((Z * Z) * Z) :=
  [((0, 3), PUSHPULL P32 0); ((2, 0), PUSHPULL P32 0); ((2, 1), PUSHPULL P32 0);
   ((4, 0), PUSHPULL P32 0); ((4, 1), PUSHPULL P32 0); ((6, 0), PUSHPULL P32 0);
   ((6, 1), PUSHPULL P32 0); ((6, 2), PUSHPULL P32 0); ((8, 2), PUSHPULL P32 0);
   ((8, 3), PUSHPULL P32 0); ((9, 0), PUSHPULL 0 P32); ((9, 1), PUSHPULL 0 P32);
   ((9, 2), PUSHPULL 0 P32); ((9, 3), PUSHPULL 0 P32); ((10, 0), PUSHPULL P32 0);
   ((10, 2), PUSHPULL P32 0); ((14, 0), PUSHPULL P32 0); ((15, 1), PUSHPULL 0 P32);
   ((17, 2), PUSHPULL P32 0); ((24, 0), PUSHPULL 0 P32); ((24, 1), PUSHPULL P32 0);
   ((25, 0), PUSHPULL 0 P32); ((25, 1), PUSHPULL P32 0)].

Definition nfp6000_cls (cpp_id : Z) : cres Z :=
  if bad_island cpp_id 1 63 then Err (NFP_ERRNO EINVAL)
  else switch_id cpp_id cls_cases (target_rw cpp_id P32 0 64).

Definition nfp6000_target_pushpull (cpp_id address : Z) : cres Z :=
  match NFP_CPP_ID_TARGET_of cpp_id with
  | 1 => nfp6000_nbi cpp_id address
  | 2 => target_rw cpp_id P32 24 4
  | 6 => nfp6000_ila cpp_id
  | 7 => nfp6000_mu cpp_id address
  | 9 => nfp6000_pci cpp_id
  | 10 => if address <? 0x10000 then target_rw cpp_id P64 1 1 else target_rw cpp_id P32 1 1
  | 12 => nfp6000_crypto cpp_id
  | 14 => nfp6000_cap_xpb cpp_id
  | 15 => nfp6000_cls cpp_id
  | 0 => target_rw cpp_id P32 4 4
  | _ => Err (NFP_ERRNO EINVAL)
  end.

Definition nfp_target_pushpull_width (pp : cres Z) (write_not_read : bool) : cres Z :=
  match pp with
  | Err e => Err e
  | Ok pp => if write_not_read then PULL_WIDTH pp else PUSH_WIDTH pp
  end.

Definition nfp6000_target_action_width (cpp_id address : Z) (write_not_read : bool) : cres Z :=
  nfp_target_pushpull_width (nfp6000_target_pushpull cpp_id address) write_not_read.

Definition nfp_target_action_width (model cpp_id address : Z) (write_not_read : bool) : cres Z :=
  if NFP_CPP_MODEL_IS_6000 model
  then nfp6000_target_action_width cpp_id address write_not_read
  else Err (NFP_ERRNO EINVAL).

(** [imb_table] is [None] for a null pointer; the result is the identifier and
    address on the bus. *)
Definition nfp_target_cpp (cpp_island_id cpp_island_address : Z) (imb_table : option (Z -> Z))
    : cres (Z * Z) :=
  let island := NFP_CPP_ID_ISLAND_of cpp_island_id in
  let target := NFP_CPP_ID_TARGET_of cpp_island_id in
  if (target <? 0) || (target >=? 16) then Err (NFP_ERRNO EINVAL)
  else if island =? 0 then Ok (cpp_island_id, cpp_island_address)
  else
    match imb_table with
    | None => Err (NFP_ERRNO EINVAL)
    | Some imb_table =>
        let imb := imb_table target in
        match nfp6000_cppat_addr_encode cpp_island_address island target
                (Z.land (Z.shiftr imb 13) 7) (negb (Z.land (Z.shiftr imb 12) 1 =? 0))
                (Z.land (Z.shiftr imb 6) 0x3f) (Z.land (Z.shiftr imb 0) 0x3f) with
        | Err e => Err e
        | Ok a => Ok (NFP_CPP_ID target (NFP_CPP_ID_ACTION_of cpp_island_id)
                        (NFP_CPP_ID_TOKEN_of cpp_island_id), a)
        end
    end.

(** ** Theorems *)

(** The push/pull words of the tables. *)
Definition pp_words : list Z :=
  [PUSHPULL 0 P32; PUSHPULL 0 P64; PUSHPULL P32 0; PUSHPULL P64 0;
   PUSHPULL P32 P32; PUSHPULL P64 P64; PUSHPULL 0 0].

Definition pp_ok (r : cres Z) : Prop := match r with Ok pp => pp ∈ pp_words | Err _ => True end.

Lemma switch_id_ok id cases dflt :
  forallb (fun c => bool_decide (c.2 ∈ pp_words)) cases = true -> pp_ok dflt ->
  pp_ok (switch_id id cases dflt).
Proof.
  intros H Hd. induction cases as [|[[a t] pp] cases IH]; [done|]. cbn in H |- *.
  apply andb_true_iff in H as [Hp H]. apply bool_decide_eq_true in Hp.
  destruct (_ =? _); [done|by apply IH].
Qed.

Create HintDb target.
#[export] Hint Extern 1 (pp_ok (switch_id _ _ _)) => (apply switch_id_ok; [reflexivity|]) : target.
#[export] Hint Extern 1 (pp_ok (Err _)) => exact I : target.

Lemma target_rw_ok id pp start ln : pp = P32 \/ pp = P64 -> pp_ok (target_rw id pp start ln).
Proof.
  unfold target_rw. intros [->| ->]; destruct (bad_island _ _ _); auto with target.
Qed.
#[export] Hint Extern 1 (pp_ok (target_rw _ _ _ _)) => (apply target_rw_ok; auto) : target.

Lemma mu_common_ok id : pp_ok (nfp6000_mu_common id).
Proof. unfold nfp6000_mu_common. auto with target. Qed.
#[export] Hint Extern 1 (pp_ok (nfp6000_mu_common _)) => (apply mu_common_ok) : target.

Lemma mu_ctm_ok id : pp_ok (nfp6000_mu_ctm id).
Proof. unfold nfp6000_mu_ctm. auto with target. Qed.
Lemma mu_emu_ok id : pp_ok (nfp6000_mu_emu id).
Proof. unfold nfp6000_mu_emu. auto with target. Qed.
Lemma mu_imu_ok id : pp_ok (nfp6000_mu_imu id).
Proof. unfold nfp6000_mu_imu. auto with target. Qed.
#[export] Hint Extern 1 (pp_ok (nfp6000_mu_ctm _)) => (apply mu_ctm_ok) : target.
#[export] Hint Extern 1 (pp_ok (nfp6000_mu_emu _)) => (apply mu_emu_ok) : target.
#[export] Hint Extern 1 (pp_ok (nfp6000_mu_imu _)) => (apply mu_imu_ok) : target.

Ltac target_cases :=
  cbv zeta; repeat match goal with |- context [if ?b then _ else _] => destruct b end;
  auto with target.

Lemma mu_ok id a : pp_ok (nfp6000_mu id a).
Proof. unfold nfp6000_mu. target_cases. Qed.

Lemma nbi_ok id a : pp_ok (nfp6000_nbi id a).
Proof.
  unfold nfp6000_nbi, nfp6000_nbi_dma, nfp6000_nbi_stats, nfp6000_nbi_tm, nfp6000_nbi_ppc.
  target_cases.
Qed.
#[export] Hint Extern 1 (pp_ok (nfp6000_mu _ _)) => (apply mu_ok) : target.
#[export] Hint Extern 1 (pp_ok (nfp6000_nbi _ _)) => (apply nbi_ok) : target.

Lemma target_pushpull_ok id a : pp_ok (nfp6000_target_pushpull id a).
Proof.
  assert (pp_ok (nfp6000_ila id) /\ pp_ok (nfp6000_pci id) /\ pp_ok (nfp6000_crypto id) /\
    pp_ok (nfp6000_cap_xpb id) /\ pp_ok (nfp6000_cls id)) as (? & ? & ? & ? & ?).
  { unfold nfp6000_ila, nfp6000_pci, nfp6000_crypto, nfp6000_cap_xpb, nfp6000_cls.
    repeat split; destruct (bad_island _ _ _); auto 6 with target. }
  unfold nfp6000_target_pushpull.
  repeat case_match; auto with target.
Qed.

(** The read and write widths of each word: [None] where the access is refused. *)
Lemma pp_word_widths pp : pp ∈ pp_words ->
  (forall w, PULL_WIDTH pp = Ok w -> w = 4 \/ w = 8) /\
  (forall w, PUSH_WIDTH pp = Ok w -> w = 4 \/ w = 8) /\
  (forall r w, PUSH_WIDTH pp = Ok r -> PULL_WIDTH pp = Ok w -> r = w).
Proof.
  unfold pp_words. intros H. repeat (apply elem_of_cons in H as [->|H]); [..|by apply elem_of_nil in H].
  all: repeat split; vm_compute; intros; simplify_eq; auto.
Qed.

(** C27 (type): whatever the model, identifier, address and direction, an access
    that is accepted has a width of 4 or 8 bytes; and when both reading and
    writing are accepted at an identifier and address, the two widths agree, so
    the check for differing widths when an area is set up never fires. *)
Theorem target_action_widths model cpp_id address :
  (forall wr w, nfp_target_action_width model cpp_id address wr = Ok w -> w = 4 \/ w = 8) /\
  (forall r w, nfp_target_action_width model cpp_id address false = Ok r ->
    nfp_target_action_width model cpp_id address true = Ok w -> r = w).
Proof.
  unfold nfp_target_action_width, nfp6000_target_action_width, nfp_target_pushpull_width.
  destruct (NFP_CPP_MODEL_IS_6000 model); [|done].
  pose proof (target_pushpull_ok cpp_id address) as Hok.
  destruct (nfp6000_target_pushpull cpp_id address) as [pp|]; [|done].
  destruct (pp_word_widths pp Hok) as (H1 & H2 & H3).
  split; [intros [] w; auto|apply H3].
Qed.

(** The translation parameters in an IMB word. *)
Definition imb_mode (imb : Z) : Z := Z.land (Z.shiftr imb 13) 7.
Definition imb_addr40 (imb : Z) : bool := negb (Z.land (Z.shiftr imb 12) 1 =? 0).
Definition imb_isld1 (imb : Z) : Z := Z.land (Z.shiftr imb 6) 0x3f.
Definition imb_isld0 (imb : Z) : Z := Z.land (Z.shiftr imb 0) 0x3f.

(** C26 (refinement): a translated access names no island in its identifier, keeps
    target, action and token, and its address decodes, under the translation
    table of its target, to the island of the original identifier; an identifier
    without an island is passed through. *)
Theorem target_cpp_reaches_island id address tbl id' address' :
  is_u32 id -> NFP_CPP_ID_ISLAND_of id < 64 ->
  let target := NFP_CPP_ID_TARGET_of id in
  let imb := tbl target in
  (target = NFP6000_CPPTGT_MU -> mu_forceable address (imb_mode imb) (imb_addr40 imb)) ->
  nfp_target_cpp id address (Some tbl) = Ok (id', address') ->
  NFP_CPP_ID_ISLAND_of id' = 0 /\ NFP_CPP_ID_TARGET_of id' = target /\
  NFP_CPP_ID_ACTION_of id' = NFP_CPP_ID_ACTION_of id /\
  NFP_CPP_ID_TOKEN_of id' = NFP_CPP_ID_TOKEN_of id /\
  (NFP_CPP_ID_ISLAND_of id = 0 -> id' = id /\ address' = address) /\
  (NFP_CPP_ID_ISLAND_of id <> 0 ->
   nfp6000_cppat_addr_decode address' target (imb_mode imb) (imb_addr40 imb)
     (imb_isld1 imb) (imb_isld0 imb) = Ok (NFP_CPP_ID_ISLAND_of id)).
Proof.
  cbv zeta. intros Hid Hisl Hmu. unfold nfp_target_cpp. cbv zeta.
  destruct (_ || _) eqn:Et; [done|].
  assert (0 <= NFP_CPP_ID_ISLAND_of id) as H0 by (apply Z.land_nonneg; lia).
  destruct (Z.eqb_spec (NFP_CPP_ID_ISLAND_of id) 0) as [E|N].
  { intros H. injection H as <- <-. by repeat split. }
  destruct (nfp6000_cppat_addr_encode _ _ _ _ _ _ _) as [a|] eqn:Ee; [|done].
  intros H. injection H as <- <-.
  destruct (cpp_id_roundtrip (NFP_CPP_ID_TARGET_of id) (NFP_CPP_ID_ACTION_of id)
    (NFP_CPP_ID_TOKEN_of id) 0) as (_ & Ht & Ha & Hk & _ & Hi).
  rewrite <- NFP_CPP_ID_island in Ht, Ha, Hk.
  apply orb_false_iff in Et as [Et1 Et2]. apply Z.ltb_ge in Et1. rewrite Z.geb_leb in Et2.
  apply Z.leb_gt in Et2.
  split; [done|]. split; [rewrite Ht; apply Z.mod_small; lia|].
  split; [rewrite Ha; unfold NFP_CPP_ID_ACTION_of; masks; by rewrite Z.mod_mod by lia|].
  split; [rewrite Hk; unfold NFP_CPP_ID_TOKEN_of; masks; by rewrite Z.mod_mod by lia|].
  split; [done|]. intros _. eapply cppat_decode_encoded; [lia|exact Hmu|exact Ee].
Qed.

(** Cluster-scratch island 32, reached through a mode 0, 40-bit table entry. *)
Lemma target_cpp_reaches_island_witness :
  let tbl (t : Z) := Z.lor (Z.shiftl 1 12) (Z.lor (Z.shiftl 33 6) 32) in
  let id := NFP_CPP_ISLAND_ID 15 NFP_CPP_ACTION_RW 0 32 in
  exists id' address', nfp_target_cpp id 0x1000 (Some tbl) = Ok (id', address') /\
    NFP_CPP_ID_ISLAND_of id' = 0 /\ NFP_CPP_ID_TARGET_of id' = NFP_CPP_ID_TARGET_of id.
Proof.
  cbv zeta. eexists _, _. split; [vm_compute; reflexivity|].
  match goal with |- NFP_CPP_ID_ISLAND_of ?i = 0 /\ _ =>
    edestruct (target_cpp_reaches_island (NFP_CPP_ISLAND_ID 15 NFP_CPP_ACTION_RW 0 32) 0x1000
      (fun _ => Z.lor (Z.shiftl 1 12) (Z.lor (Z.shiftl 33 6) 32)) i) as (H1 & H2 & _)
  end; [..|split; [exact H1|exact H2]].
  - split; vm_compute; congruence.
  - vm_compute; reflexivity.
  - vm_compute; congruence.
  - vm_compute; reflexivity.
Defined.
