(* ===== verification/CppCore.v ===== *)
(** * The CPP core ([nfp_cppcore.c], [nfp_cpp.h])

    Areas of the CPP bus and the accesses made through them, over a transport:
    the class [nfp_cpp_operations] is the structure of function pointers of the
    same name, its state type [S] the transport's private data and [P] the private
    part of an area.  Every call takes and returns the handle.  An area is passed
    by value and returned where the call changes it.  Buffers are lists of bytes,
    so the value a read returns is the length of its list. *)

From S2P Require Export Target Bytes.
From stdpp Require Export strings.

Local Open Scope Z_scope.

(** The transport's operations; an operation the core tests for null is an option. *)
Class nfp_cpp_operations (S P : Type) := {
  op_area_init : Z -> Z -> Z -> S -> cres P * S;
  op_area_cleanup : option (P -> S -> S);
  op_area_acquire : option (P -> S -> cres unit * P * S);
  op_area_release : option (P -> S -> P * S);
  op_area_iomem : option (P -> option Z);
  op_area_mapped : option (P -> option Z);
  op_area_read : P -> Z -> Z -> S -> cres (list Z) * S;
  op_area_write : P -> list Z -> Z -> Z -> S -> cres Z * S }.

Record nfp_cpp (S : Type) := mkCpp {
  cpp_model : Z;
  cpp_interface : Z;
  cpp_serial : list Z;
  cpp_priv : S;
  imb_cat_table : list Z;
  driver_lock_needed : bool }.
Arguments mkCpp {S}.
Arguments cpp_model {S}.
Arguments cpp_interface {S}.
Arguments cpp_serial {S}.
Arguments cpp_priv {S}.
Arguments imb_cat_table {S}.
Arguments driver_lock_needed {S}.

Record nfp_cpp_area (P : Type) := mkArea {
  area_name : string;
  area_offset : Z;
  area_size : Z;
  area_priv : P }.
Arguments mkArea {P}.
Arguments area_name {P}.
Arguments area_offset {P}.
Arguments area_size {P}.
Arguments area_priv {P}.

(** A failure reported as [-1] with [errno] left as the failing call set it. *)
Definition Err1 {A} : cres A := Err (NegErr 1).

(** [nfp_xpb_to_cpp] for a handle's model and interface. *)
Definition xpb_to_cpp (model interface xpb_addr : Z) : Z * Z :=
  if negb (NFP_CPP_MODEL_IS_6000 model) then (0, xpb_addr)
  else
    let xpb := NFP_CPP_ID 14 NFP_CPP_ACTION_RW 0 in
    let island := Z.land (Z.shiftr xpb_addr 24) 0x3f in
    if island =? 0 then (xpb, xpb_addr)
    else if island =? 1 then
      let xpb_addr := Z.land xpb_addr (Z.lnot 0x7f000000) in
      if xpb_addr <? 0x60000 then (xpb, Z.lor xpb_addr (Z.shiftl 1 30))
      else if negb (NFP_CPP_INTERFACE_TYPE_of interface
                      =? NFP_CPP_INTERFACE_TYPE_ARM)
      then (xpb, Z.lor xpb_addr (Z.shiftl 1 24))
      else (xpb, xpb_addr)
    else (xpb, Z.lor xpb_addr (Z.shiftl 1 30)).

Section Core.
Context {S P : Type} `{Op : nfp_cpp_operations S P}.

Definition nfp_cpp_priv_set (priv : S) (cpp : nfp_cpp S) : nfp_cpp S :=
  mkCpp (cpp_model cpp) (cpp_interface cpp) (cpp_serial cpp) priv (imb_cat_table cpp)
    (driver_lock_needed cpp).

Definition nfp_cpp_model_set (model : Z) (cpp : nfp_cpp S) : nfp_cpp S :=
  mkCpp model (cpp_interface cpp) (cpp_serial cpp) (cpp_priv cpp) (imb_cat_table cpp)
    (driver_lock_needed cpp).

Definition nfp_cpp_interface_set (interface : Z) (cpp : nfp_cpp S) : nfp_cpp S :=
  mkCpp (cpp_model cpp) interface (cpp_serial cpp) (cpp_priv cpp) (imb_cat_table cpp)
    (driver_lock_needed cpp).

Definition nfp_cpp_serial_set (serial : list Z) (cpp : nfp_cpp S) : nfp_cpp S :=
  mkCpp (cpp_model cpp) (cpp_interface cpp) serial (cpp_priv cpp) (imb_cat_table cpp)
    (driver_lock_needed cpp).

Definition imb_table_set (tgt : nat) (v : Z) (cpp : nfp_cpp S) : nfp_cpp S :=
  mkCpp (cpp_model cpp) (cpp_interface cpp) (cpp_serial cpp) (cpp_priv cpp)
    (<[tgt := v]> (imb_cat_table cpp)) (driver_lock_needed cpp).

(** [uint16_t nfp_cpp_interface]: the field is 32 bits wide, the result 16. *)
Definition nfp_cpp_interface (cpp : nfp_cpp S) : Z := u16 (cpp_interface cpp).

Definition imb_lookup (cpp : nfp_cpp S) (target : Z) : Z :=
  nth (Z.to_nat target) (imb_cat_table cpp) 0.

Definition nfp_cpp_area_alloc_with_name (cpp : nfp_cpp S) (dest : Z) (name : option string)
    (address size : Z) : option (nfp_cpp_area P) * nfp_cpp S :=
  if u64 (address + size) >? 0x10000000000 then (None, cpp)
  else
    match nfp_target_cpp dest address (Some (imb_lookup cpp)) with
    | Err _ => (None, cpp)
    | Ok (dest, address) =>
        let name := default EmptyString name in
        match op_area_init dest address size (cpp_priv cpp) with
        | (Err _, s) => (None, nfp_cpp_priv_set s cpp)
        | (Ok p, s) => (Some (mkArea name address size p), nfp_cpp_priv_set s cpp)
        end
    end.

Definition nfp_cpp_area_alloc (cpp : nfp_cpp S) (dest address size : Z)
    : option (nfp_cpp_area P) * nfp_cpp S :=
  nfp_cpp_area_alloc_with_name cpp dest None address size.

Definition area_priv_set (p : P) (area : nfp_cpp_area P) : nfp_cpp_area P :=
  mkArea (area_name area) (area_offset area) (area_size area) p.

Definition nfp_cpp_area_acquire (area : nfp_cpp_area P) (cpp : nfp_cpp S)
    : cres unit * nfp_cpp_area P * nfp_cpp S :=
  match op_area_acquire with
  | None => (Ok tt, area, cpp)
  | Some acquire =>
      match acquire (area_priv area) (cpp_priv cpp) with
      | (Err _, p, s) => (Err1, area_priv_set p area, nfp_cpp_priv_set s cpp)
      | (Ok _, p, s) => (Ok tt, area_priv_set p area, nfp_cpp_priv_set s cpp)
      end
  end.

Definition nfp_cpp_area_release (area : nfp_cpp_area P) (cpp : nfp_cpp S)
    : nfp_cpp_area P * nfp_cpp S :=
  match op_area_release with
  | None => (area, cpp)
  | Some release =>
      let '(p, s) := release (area_priv area) (cpp_priv cpp) in
      (area_priv_set p area, nfp_cpp_priv_set s cpp)
  end.

Definition nfp_cpp_area_free (area : nfp_cpp_area P) (cpp : nfp_cpp S) : nfp_cpp S :=
  match op_area_cleanup with
  | None => cpp
  | Some cleanup => nfp_cpp_priv_set (cleanup (area_priv area) (cpp_priv cpp)) cpp
  end.

Definition nfp_cpp_area_release_free (area : nfp_cpp_area P) (cpp : nfp_cpp S) : nfp_cpp S :=
  let '(area, cpp) := nfp_cpp_area_release area cpp in nfp_cpp_area_free area cpp.

Definition nfp_cpp_area_alloc_acquire (cpp : nfp_cpp S) (destination address size : Z)
    : option (nfp_cpp_area P) * nfp_cpp S :=
  match nfp_cpp_area_alloc cpp destination address size with
  | (None, cpp) => (None, cpp)
  | (Some area, cpp) =>
      match nfp_cpp_area_acquire area cpp with
      | (Err _, area, cpp) => (None, nfp_cpp_area_free area cpp)
      | (Ok _, area, cpp) => (Some area, cpp)
      end
  end.

Definition nfp_cpp_area_iomem (area : nfp_cpp_area P) : option Z :=
  match op_area_iomem with None => None | Some iomem => iomem (area_priv area) end.

Definition nfp_cpp_area_mapped (area : nfp_cpp_area P) : option Z :=
  match op_area_mapped with None => None | Some mapped => mapped (area_priv area) end.

(** The transport takes the length as [unsigned int]. *)
Definition nfp_cpp_area_read (area : nfp_cpp_area P) (offset length : Z) (cpp : nfp_cpp S)
    : cres (list Z) * nfp_cpp S :=
  if u64 (offset + length) >? area_size area then (Err (NFP_ERRNO EFAULT), cpp)
  else
    let '(r, s) := op_area_read (area_priv area) offset (u32 length) (cpp_priv cpp) in
    (r, nfp_cpp_priv_set s cpp).

Definition nfp_cpp_area_write (area : nfp_cpp_area P) (offset : Z) (data : list Z)
    (length : Z) (cpp : nfp_cpp S) : cres Z * nfp_cpp S :=
  if u64 (offset + length) >? area_size area then (Err (NFP_ERRNO EFAULT), cpp)
  else
    let '(r, s) := op_area_write (area_priv area) data offset (u32 length) (cpp_priv cpp) in
    (r, nfp_cpp_priv_set s cpp).

Definition nfp_cpp_area_check_range (area : nfp_cpp_area P) (offset length : Z) : cres unit :=
  if u64 (offset + length) >? area_size area then Err (NFP_ERRNO EFAULT) else Ok tt.

(** [(sz == sizeof( *value)) ? 0 : -1], on a little-endian host. *)
Definition word_result (w : nat) (r : cres (list Z)) : cres Z :=
  match r with
  | Ok bs => if Nat.eqb (length bs) w then Ok (le_combine bs) else Err1
  | Err _ => Err1
  end.

Definition size_result (w : Z) (r : cres Z) : cres unit :=
  match r with Ok n => if n =? w then Ok tt else Err1 | Err _ => Err1 end.

Definition nfp_cpp_area_readl (area : nfp_cpp_area P) (offset : Z) (cpp : nfp_cpp S)
    : cres Z * nfp_cpp S :=
  let '(r, cpp) := nfp_cpp_area_read area offset 4 cpp in (word_result 4 r, cpp).

Definition nfp_cpp_area_writel (area : nfp_cpp_area P) (offset value : Z) (cpp : nfp_cpp S)
    : cres unit * nfp_cpp S :=
  let '(r, cpp) := nfp_cpp_area_write area offset (le_split 4 value) 4 cpp in
  (size_result 4 r, cpp).

Definition nfp_cpp_area_readq (area : nfp_cpp_area P) (offset : Z) (cpp : nfp_cpp S)
    : cres Z * nfp_cpp S :=
  let '(r, cpp) := nfp_cpp_area_read area offset 8 cpp in (word_result 8 r, cpp).

Definition nfp_cpp_area_writeq (area : nfp_cpp_area P) (offset value : Z) (cpp : nfp_cpp S)
    : cres unit * nfp_cpp S :=
  let '(r, cpp) := nfp_cpp_area_write area offset (le_split 8 value) 8 cpp in
  (size_result 8 r, cpp).

Definition nfp_cpp_read (cpp : nfp_cpp S) (destination address length : Z)
    : cres (list Z) * nfp_cpp S :=
  match nfp_cpp_area_alloc_acquire cpp destination address length with
  | (None, cpp) => (Err1, cpp)
  | (Some area, cpp) =>
      let '(err, cpp) := nfp_cpp_area_read area 0 length cpp in
      (err, nfp_cpp_area_release_free area cpp)
  end.

Definition nfp_cpp_write (cpp : nfp_cpp S) (destination address : Z) (data : list Z)
    (length : Z) : cres Z * nfp_cpp S :=
  match nfp_cpp_area_alloc_acquire cpp destination address length with
  | (None, cpp) => (Err1, cpp)
  | (Some area, cpp) =>
      let '(err, cpp) := nfp_cpp_area_write area 0 data length cpp in
      (err, nfp_cpp_area_release_free area cpp)
  end.

Definition nfp_cpp_readl (cpp : nfp_cpp S) (cpp_id address : Z) : cres Z * nfp_cpp S :=
  let '(r, cpp) := nfp_cpp_read cpp cpp_id address 4 in (word_result 4 r, cpp).

Definition nfp_cpp_writel (cpp : nfp_cpp S) (cpp_id address value : Z)
    : cres unit * nfp_cpp S :=
  let '(r, cpp) := nfp_cpp_write cpp cpp_id address (le_split 4 value) 4 in
  (size_result 4 r, cpp).

Definition nfp_cpp_readq (cpp : nfp_cpp S) (cpp_id address : Z) : cres Z * nfp_cpp S :=
  let '(r, cpp) := nfp_cpp_read cpp cpp_id address 8 in (word_result 8 r, cpp).

Definition nfp_cpp_writeq (cpp : nfp_cpp S) (cpp_id address value : Z)
    : cres unit * nfp_cpp S :=
  let '(r, cpp) := nfp_cpp_write cpp cpp_id address (le_split 8 value) 8 in
  (size_result 8 r, cpp).

(** The CPP identifier of the XPB bus and the fixed-up address. *)
Definition nfp_xpb_to_cpp (cpp : nfp_cpp S) (xpb_addr : Z) : Z * Z :=
  xpb_to_cpp (cpp_model cpp) (nfp_cpp_interface cpp) xpb_addr.

Definition nfp_xpb_writel (cpp : nfp_cpp S) (xpb_addr value : Z) : cres unit * nfp_cpp S :=
  let '(cpp_dest, xpb_addr) := nfp_xpb_to_cpp cpp xpb_addr in
  nfp_cpp_writel cpp cpp_dest xpb_addr value.

Definition nfp_xpb_readl (cpp : nfp_cpp S) (xpb_addr : Z) : cres Z * nfp_cpp S :=
  let '(cpp_dest, xpb_addr) := nfp_xpb_to_cpp cpp xpb_addr in
  nfp_cpp_readl cpp cpp_dest xpb_addr.

Definition nfp_xpb_writelm (cpp : nfp_cpp S) (xpb_tgt mask value : Z)
    : cres unit * nfp_cpp S :=
  match nfp_xpb_readl cpp xpb_tgt with
  | (Err e, cpp) => (Err e, cpp)
  | (Ok tmp, cpp) =>
      let tmp := Z.land tmp (Z.lxor 0xffffffff mask) in
      let tmp := Z.lor tmp (Z.land mask value) in
      nfp_xpb_writel cpp xpb_tgt tmp
  end.

(** The polling loop; [continue] in a [do] loop goes to the loop's test. The
    result is the [timeout_us] left at the exit and whether a read failed. *)
Fixpoint waitlm_loop (fuel : nat) (cpp : nfp_cpp S) (xpb_tgt mask value timeout_us : Z)
    : option (cres Z * nfp_cpp S) :=
  match fuel with
  | O => None
  | Datatypes.S fuel =>
      match nfp_xpb_readl cpp xpb_tgt with
      | (Err e, cpp) => Some (Err e, cpp)
      | (Ok tmp, cpp) =>
          if Z.land tmp mask =? Z.land value mask then
            Some (Ok (if timeout_us <? 0 then 0 else timeout_us), cpp)
          else
            let timeout_us := if timeout_us <? 0 then timeout_us else timeout_us - 100 in
            if timeout_us >=? 0 then waitlm_loop fuel cpp xpb_tgt mask value timeout_us
            else Some (Ok timeout_us, cpp)
      end
  end.

(** Turns left to the loop: one per 100 microseconds and the last one. *)
Definition waitlm_fuel (timeout_us : Z) : nat := Z.to_nat (timeout_us / 100) + 2.

Definition nfp_xpb_waitlm (cpp : nfp_cpp S) (xpb_tgt mask value timeout_us : Z)
    : option (cres Z * nfp_cpp S) :=
  match waitlm_loop (waitlm_fuel timeout_us) cpp xpb_tgt mask value timeout_us with
  | None => None
  | Some (Err e, cpp) => Some (Err e, cpp)
  | Some (Ok timeout_us, cpp) =>
      if timeout_us <? 0 then Some (Err (NFP_ERRNO ETIMEDOUT), cpp)
      else Some (Ok timeout_us, cpp)
  end.

(** A write of [n] bytes inside a fill. *)
Definition fill_write (area : nfp_cpp_area P) (offset : Z) (data : list Z) (n : Z)
    (cpp : nfp_cpp S) : cres unit * nfp_cpp S :=
  match nfp_cpp_area_write area offset data n cpp with
  | (Err e, cpp) => (Err e, cpp)
  | (Ok m, cpp) => if m =? n then (Ok tt, cpp) else (Err (NFP_ERRNO ENOSPC), cpp)
  end.

(** [for (i = 0; i + 4 < length; i += 8)] *)
Fixpoint fill_loop (fuel : nat) (area : nfp_cpp_area P) (offset value64 length i : Z)
    (cpp : nfp_cpp S) : cres Z * nfp_cpp S :=
  match fuel with
  | O => (Ok i, cpp)
  | Datatypes.S fuel =>
      if i + 4 <? length then
        match fill_write area (u64 (offset + i)) (le_split 8 value64) 8 cpp with
        | (Err e, cpp) => (Err e, cpp)
        | (Ok _, cpp) => fill_loop fuel area offset value64 length (i + 8) cpp
        end
      else (Ok i, cpp)
  end.

(** The rest of a fill, from an 8-byte aligned address. *)
Definition fill_aligned (area : nfp_cpp_area P) (offset value length : Z) (cpp : nfp_cpp S)
    : cres Z * nfp_cpp S :=
  let value64 := Z.lor (Z.shiftl value 32) value in
  match fill_loop (Z.to_nat length) area offset value64 length 0 cpp with
  | (Err e, cpp) => (Err e, cpp)
  | (Ok i, cpp) =>
      if i + 4 <=? length then
        match fill_write area (u64 (offset + i)) (le_split 4 value) 4 cpp with
        | (Err e, cpp) => (Err e, cpp)
        | (Ok _, cpp) => (Ok (i + 4), cpp)
        end
      else (Ok i, cpp)
  end.

Definition nfp_cpp_area_fill (area : nfp_cpp_area P) (offset value length : Z)
    (cpp : nfp_cpp S) : cres Z * nfp_cpp S :=
  if u64 (offset + length) >? area_size area then (Err (NFP_ERRNO EINVAL), cpp)
  else if negb (Z.land (area_offset area + offset) 3 =? 0) then (Err (NFP_ERRNO EINVAL), cpp)
  else if (Z.land (area_offset area + offset) 7 =? 4) && (length >=? 4) then
    match fill_write area offset (le_split 4 value) 4 cpp with
    | (Err e, cpp) => (Err e, cpp)
    | (Ok _, cpp) => fill_aligned area (offset + 4) value (length - 4) cpp
    end
  else fill_aligned area offset value length cpp.

Definition NFP6000_ARM_GCSR_SOFTMODEL0 : Z := 0x00400144.
Definition NFP_PL_DEVICE_ID : Z := 4.
Definition NFP_PL_DEVICE_ID_MASK : Z := 0xff.

Definition nfp_cpp_model_autodetect (cpp : nfp_cpp S) : Z * nfp_cpp S :=
  let arm_id := NFP_CPP_ID NFP6000_CPPTGT_ARM 0 0 in
  match nfp_cpp_readl cpp arm_id NFP6000_ARM_GCSR_SOFTMODEL0 with
  | (Err _, cpp) => (0, cpp)
  | (Ok model, cpp) =>
      if NFP_CPP_MODEL_IS_6000 model then
        let cpp := nfp_cpp_model_set model cpp in
        let model := Z.land model (Z.lxor 0xffffffff 0xff) in
        match nfp_xpb_readl cpp (NFP_XPB_DEVICE 1 1 16 + NFP_PL_DEVICE_ID) with
        | (Err _, cpp) => (0, cpp)
        | (Ok tmp, cpp) =>
            (Z.lor model (u32 (Z.land NFP_PL_DEVICE_ID_MASK tmp - 0x10)), cpp)
        end
      else (model, cpp)
  end.

(** [nfp_cpp_model] of a handle that is not null. *)
Definition nfp_cpp_model (cpp : nfp_cpp S) : Z * nfp_cpp S :=
  if cpp_model cpp =? 0 then
    let '(m, cpp) := nfp_cpp_model_autodetect cpp in (m, nfp_cpp_model_set m cpp)
  else (cpp_model cpp, cpp).

(** Reads the translation table of island 0, entry [tgt] up to 15. *)
Fixpoint imb_loop (n tgt : nat) (cpp : nfp_cpp S) : cres unit * nfp_cpp S :=
  match n with
  | O => (Ok tt, cpp)
  | Datatypes.S n =>
      match nfp_xpb_readl cpp (0x000a0000 + Z.of_nat tgt * 4) with
      | (Err e, cpp) => (Err e, cpp)
      | (Ok v, cpp) => imb_loop n (Datatypes.S tgt) (imb_table_set tgt v cpp)
      end
  end.

(** [init] is what the transport's [init] does to the zeroed handle. *)
Definition nfp_cpp_alloc (init : bool -> cres (nfp_cpp S)) (driver_lock_needed : bool)
    : option (nfp_cpp S) :=
  match init driver_lock_needed with
  | Err _ => None
  | Ok cpp =>
      let '(model, cpp) := nfp_cpp_model cpp in
      if NFP_CPP_MODEL_IS_6000 model then
        match imb_loop 16 0 cpp with
        | (Err _, _) => None
        | (Ok _, cpp) => Some cpp
        end
      else Some cpp
  end.

Definition nfp_cpp_map_area (cpp : nfp_cpp S) (domain target addr size : Z)
    : option (Z * nfp_cpp_area P) * nfp_cpp S :=
  let dest := NFP_CPP_ISLAND_ID target NFP_CPP_ACTION_RW 0 domain in
  match nfp_cpp_area_alloc_acquire cpp dest addr size with
  | (None, cpp) => (None, cpp)
  | (Some area, cpp) =>
      match nfp_cpp_area_iomem area with
      | None => (None, nfp_cpp_area_release_free area cpp)
      | Some res => (Some (res, area), cpp)
      end
  end.
End Core.
