(* ===== verification/CppCoreThms.v ===== *)
(** * Properties of the CPP core

    Over any transport: how long [nfp_xpb_waitlm] polls and what it returns, what
    [nfp_cpp_area_fill] writes and the count it reports, where
    [nfp_xpb_to_cpp] sends an access, and what the range check accepts. *)

From S2P Require Export CppCore Mem.

Local Open Scope Z_scope.

Section CoreThms.
Context {S P : Type} `{Op : nfp_cpp_operations S P}.

(** ** Polling *)

(** [n] polls of the register that fail to match lead from one handle to another. *)
Inductive unmatched (xpb_tgt mask value : Z) : nat -> nfp_cpp S -> nfp_cpp S -> Prop :=
| unmatched_0 cpp : unmatched xpb_tgt mask value 0 cpp cpp
| unmatched_S n cpp v cpp1 cpp2 :
    nfp_xpb_readl cpp xpb_tgt = (Ok v, cpp1) ->
    Z.land v mask <> Z.land value mask ->
    unmatched xpb_tgt mask value n cpp1 cpp2 ->
    unmatched xpb_tgt mask value (Datatypes.S n) cpp cpp2.

(** The outcomes of polling [cpp] with [timeout_us] left. *)
Definition wait_spec (xpb_tgt mask value timeout_us : Z) (cpp : nfp_cpp S)
    (r : cres Z) (cpp' : nfp_cpp S) : Prop :=
  exists n cpp0, unmatched xpb_tgt mask value n cpp cpp0 /\
  match r with
  | Ok t =>
      (if t <? 0 then cpp' = cpp0 /\ Z.of_nat n = Z.max 0 (timeout_us / 100) + 1
       else (exists v, nfp_xpb_readl cpp0 xpb_tgt = (Ok v, cpp') /\
               Z.land v mask = Z.land value mask) /\
            t = Z.max 0 (timeout_us - 100 * Z.of_nat n))
  | Err e => nfp_xpb_readl cpp0 xpb_tgt = (Err e, cpp')
  end.

Lemma waitlm_loop_spec fuel cpp xpb_tgt mask value timeout_us :
  (Z.to_nat (timeout_us / 100) + 1 < fuel)%nat ->
  exists r cpp', waitlm_loop fuel cpp xpb_tgt mask value timeout_us = Some (r, cpp') /\
    wait_spec xpb_tgt mask value timeout_us cpp r cpp'.
Proof.
  revert cpp timeout_us. induction fuel as [|fuel IH]; intros cpp t Hf; [lia|]. cbn.
  destruct (nfp_xpb_readl cpp xpb_tgt) as [[v|e] cpp1] eqn:Er.
  2: { eexists _, _. split; [done|]. exists 0%nat, cpp. by split; [constructor|]. }
  destruct (Z.eqb_spec (Z.land v mask) (Z.land value mask)) as [Em|Nm].
  { eexists _, _. split; [done|]. exists 0%nat, cpp. split; [constructor|].
    destruct (Z.ltb_spec t 0); cbn [Z.ltb Z.compare].
    - split; [by eauto|lia].
    - rewrite (proj2 (Z.ltb_ge _ _)) by lia. split; [by eauto|lia]. }
  destruct (Z.ltb_spec t 0) as [Ht|Ht].
  { rewrite Z.geb_leb, (proj2 (Z.leb_gt _ _)) by lia. eexists _, _. split; [done|].
    exists 1%nat, cpp1. split; [by repeat econstructor|].
    rewrite (proj2 (Z.ltb_lt _ _)) by lia. split; [done|lia]. }
  rewrite Z.geb_leb. destruct (Z.leb_spec 0 (t - 100)).
  - destruct (IH cpp1 (t - 100)) as (r & cpp' & -> & n & cpp0 & Hu & Hr); [lia|].
    eexists _, _. split; [done|]. exists (Datatypes.S n), cpp0.
    split; [by econstructor|]. destruct r as [t'|]; [|done].
    destruct (t' <? 0); destruct Hr as [H1 H2]; (split; [exact H1|lia]).
  - eexists _, _. split; [done|]. exists 1%nat, cpp1. split; [by repeat econstructor|].
    rewrite (proj2 (Z.ltb_lt _ _)) by lia. split; [done|lia].
Qed.

(** C28 (termination): [nfp_xpb_waitlm] always returns. It reports success only
    when the last of [n + 1] reads matched, [n] earlier ones having failed to, and
    returns the time left, which is never negative; a failing read's error is
    returned; otherwise it fails with [ETIMEDOUT] after one unmatched read and one more
    for each whole 100 microseconds of the timeout.  The comment says that
    a timeout of -1 waits for ever: the code does not, and with a negative timeout gives
    up after one unmatched read. *)
Theorem waitlm_terminates (cpp : nfp_cpp S) xpb_tgt mask value timeout_us :
  exists r cpp' n cpp0,
    nfp_xpb_waitlm cpp xpb_tgt mask value timeout_us = Some (r, cpp') /\
    unmatched xpb_tgt mask value n cpp cpp0 /\
    match r with
    | Ok t => (exists v, nfp_xpb_readl cpp0 xpb_tgt = (Ok v, cpp') /\
                 Z.land v mask = Z.land value mask) /\
              t = Z.max 0 (timeout_us - 100 * Z.of_nat n) /\ 0 <= t
    | Err e => nfp_xpb_readl cpp0 xpb_tgt = (Err e, cpp') \/
               (e = NFP_ERRNO ETIMEDOUT /\ cpp' = cpp0 /\
                Z.of_nat n = if timeout_us <? 0 then 1 else timeout_us / 100 + 1)
    end.
Proof.
  destruct (waitlm_loop_spec (waitlm_fuel timeout_us) cpp xpb_tgt mask value timeout_us)
    as (r & cpp' & E & n & cpp0 & Hu & Hr); [unfold waitlm_fuel; lia|].
  unfold nfp_xpb_waitlm. rewrite E. destruct r as [t|e].
  - destruct (Z.ltb_spec t 0).
    + destruct Hr as [-> Hn]. eexists _, _, n, cpp0. split; [done|]. split; [done|]. right. split; [done|]. split; [done|].
      destruct (Z.ltb_spec timeout_us 0); lia.
    + destruct Hr as [Hr Ht]. eexists _, _, n, cpp0. split; [done|]. auto.
  - eexists _, _, n, cpp0. split; [done|]. auto.
Qed.

(** A negative timeout, documented as waiting for ever, gives up with
    [ETIMEDOUT] after a single read that does not match. *)
Lemma waitlm_forever_polls_once (cpp : nfp_cpp S) xpb_tgt mask value timeout_us v cpp' :
  timeout_us < 0 -> nfp_xpb_readl cpp xpb_tgt = (Ok v, cpp') ->
  Z.land v mask <> Z.land value mask ->
  nfp_xpb_waitlm cpp xpb_tgt mask value timeout_us = Some (Err (NFP_ERRNO ETIMEDOUT), cpp').
Proof.
  intros Ht Er Nm. unfold nfp_xpb_waitlm, waitlm_fuel.
  replace (Z.to_nat (timeout_us / 100) + 2)%nat with 2%nat by lia. cbn [waitlm_loop].
  rewrite Er, (proj2 (Z.eqb_neq _ _) Nm), (proj2 (Z.ltb_lt _ _) Ht).
  rewrite Z.geb_leb, (proj2 (Z.leb_gt _ _)) by lia. by rewrite (proj2 (Z.ltb_lt _ _) Ht).
Qed.

(** ** Ranges *)

(** A read through an area is refused with [EFAULT] exactly when the
    64-bit sum of offset and length exceeds the size; when the sum does not wrap
    this is the range leaving the area, and when it wraps the access reaches the
    transport although it starts beyond the area. *)
Lemma area_read_range (area : nfp_cpp_area P) offset length (cpp : nfp_cpp S) :
  is_u64 offset -> is_u64 length -> is_u64 (area_size area) ->
  let r := nfp_cpp_area_read area offset length cpp in
  (offset + length < 2 ^ 64 -> area_size area < offset + length ->
     r = (Err (NFP_ERRNO EFAULT), cpp)) /\
  (offset + length <= area_size area \/ (2 ^ 64 <= offset + length <= 2 ^ 64 + area_size area) ->
     r.1 = (op_area_read (area_priv area) offset (u32 length) (cpp_priv cpp)).1).
Proof.
  unfold is_u64. intros Ho Hl Hs. cbv zeta. unfold nfp_cpp_area_read.
  change (2 ^ 64) with 0x10000000000000000.
  split; [intros H1 H2|intros H]; rewrite Z.gtb_ltb.
  - by rewrite (proj2 (Z.ltb_lt _ _)) by words.
  - rewrite (proj2 (Z.ltb_ge _ _)) by words. by destruct (op_area_read _ _ _ _).
Qed.

(** ** XPB routing *)

Lemma testbit_bit k i : 0 <= k -> 0 <= i -> Z.testbit (Z.shiftl 1 k) i = (i =? k).
Proof using.
  intros. rewrite Z.shiftl_spec by done. destruct (Z.eqb_spec i k) as [->|].
  - by rewrite Z.sub_diag.
  - destruct (Z.ltb_spec i k); [by rewrite Z.testbit_neg_r by lia|].
    rewrite (testbit_small 1 1); lia.
Qed.

Lemma field_lor_bit x k lo w : 0 <= k -> 0 <= lo -> 0 <= w -> k < lo \/ lo + w <= k ->
  get_field (Z.lor x (Z.shiftl 1 k)) lo w = get_field x lo w.
Proof using.
  intros. bits_ext i. rewrite !testbit_get_field by lia. rewrite Z.lor_spec, testbit_bit by lia. destruct (Z.ltb_spec i w); [|done].
  rewrite (proj2 (Z.eqb_neq _ _)) by lia. by rewrite orb_false_r.
Qed.

Lemma lor_bit_idem x k : Z.lor (Z.lor x (Z.shiftl 1 k)) (Z.shiftl 1 k) = Z.lor x (Z.shiftl 1 k).
Proof using. by rewrite <- Z.lor_assoc, Z.lor_diag. Qed.

(** The overlay cleared, and set to island 1 again. *)
Lemma clear_overlay x lo w : 0 <= lo -> 0 <= w -> lo + w <= 24 ->
  get_field (Z.land x (Z.lnot 0x7f000000)) lo w = get_field x lo w /\
  get_field (Z.land x (Z.lnot 0x7f000000)) 24 6 = 0.
Proof using.
  intros. change (Z.land x (Z.lnot 0x7f000000)) with (Z.land x (Z.lnot (field_mask 24 7))).
  rewrite set_field_zero. split.
  - apply get_set_other; lia.
  - rewrite get_set_inside by lia. done.
Qed.

Lemma clear_overlay_again x : 
  Z.land (Z.lor (Z.land x (Z.lnot 0x7f000000)) (Z.shiftl 1 24)) (Z.lnot 0x7f000000)
  = Z.land x (Z.lnot 0x7f000000).
Proof using.
  rewrite Z.land_lor_distr_l. change (Z.land (Z.shiftl 1 24) (Z.lnot 0x7f000000)) with 0.
  by rewrite Z.lor_0_r, <- Z.land_assoc, Z.land_diag.
Qed.

(** On this family an XPB access goes to the XPB target with the
    read/write action and names no island in its identifier; the 24-bit offset is
    kept; accesses to other islands carry the global bit; and fixing an address up
    a second time changes nothing. *)
Lemma xpb_routing (cpp : nfp_cpp S) xpb_addr :
  NFP_CPP_MODEL_IS_6000 (cpp_model cpp) = true ->
  let (id, a) := nfp_xpb_to_cpp cpp xpb_addr in
  id = NFP_CPP_ID NFP6000_CPPTGT_CTXPB NFP_CPP_ACTION_RW 0 /\
  get_field a 0 24 = get_field xpb_addr 0 24 /\
  (2 <= NFP_XPB_ISLAND_of xpb_addr -> Z.testbit a 30 = true /\
     NFP_XPB_ISLAND_of a = NFP_XPB_ISLAND_of xpb_addr) /\
  nfp_xpb_to_cpp cpp a = (id, a).
Proof using.
  intros Hm. unfold nfp_xpb_to_cpp, xpb_to_cpp. rewrite Hm. cbn [negb].
  assert (forall x, NFP_XPB_ISLAND_of x = get_field x 24 6) as Hisl by done.
  assert (forall x, Z.land (Z.shiftr x 24) 0x3f = get_field x 24 6) as Hisl' by done.
  rewrite !Hisl, !Hisl'. pose proof (get_field_range xpb_addr 24 6 ltac:(lia)).
  destruct (clear_overlay xpb_addr 0 24) as [Hc0 Hc6]; [lia..|].
  destruct (Z.eqb_spec (get_field xpb_addr 24 6) 0) as [E0|N0].
  { rewrite Hisl', E0. cbn. split_and!; try done; lia. }
  destruct (Z.eqb_spec (get_field xpb_addr 24 6) 1) as [E1|N1].
  - rewrite E1. destruct (Z.ltb_spec (Z.land xpb_addr (Z.lnot 0x7f000000)) 0x60000) as [L|L];
      [|destruct (negb _) eqn:Earm]; rewrite Hisl', ?field_lor_bit by lia.
    + rewrite Hc6. split_and!; try done; lia.
    + assert (get_field (Z.lor (Z.land xpb_addr (Z.lnot 0x7f000000)) (Z.shiftl 1 24)) 24 6 = 1) as ->.
      { bits_ext i. rewrite testbit_get_field by lia. rewrite Z.lor_spec, testbit_bit by lia. pose proof (f_equal (fun z => Z.testbit z i) Hc6) as Hb.
        cbv beta in Hb. rewrite testbit_get_field in Hb by lia. revert Hb. rewrite Z.bits_0.
        destruct (Z.ltb_spec i 6); cbn.
        - intros ->. cbn. destruct (Z.eqb_spec (i + 24) 24); [by replace i with 0 by lia|].
          symmetry. apply (testbit_small 1 1); lia.
        - intros _. symmetry. apply (testbit_small 1 1); lia. }
      cbn [Z.eqb Pos.eqb]. rewrite clear_overlay_again, (proj2 (Z.ltb_ge _ _)) by lia.
      split_and!; try done; lia.
    + rewrite Hc6. split_and!; try done; lia.
  - rewrite Hisl', !field_lor_bit by lia. rewrite (proj2 (Z.eqb_neq _ _) N0), (proj2 (Z.eqb_neq _ _) N1).
    rewrite lor_bit_idem. split_and!; try done.
    intros _. rewrite Hisl, field_lor_bit, Z.lor_spec by lia. split; [apply orb_true_r|done].
Qed.

(** ** Filling *)

(** A transport whose area is a window on a memory of bytes. *)
Class AreaMem (p : P) (view : S -> mem) : Prop := {
  area_write_view data off len s :
    Z.of_nat (length data) = len -> 0 <= off -> 0 < len ->
    exists s', op_area_write p data off len s = (Ok len, s') /\
      forall x, view s' x = store (view s) off data x }.

(** [len] bytes of memory at [o] hold the little-endian word [value] repeated. *)
Definition filled (m : mem) (o len value : Z) : Prop :=
  forall x, o <= x < o + len -> m x = nth (Z.to_nat ((x - o) mod 4)) (le_split 4 value) 0.

Definition unchanged (m m' : mem) (o len : Z) : Prop :=
  forall x, x < o \/ o + len <= x -> m' x = m x.

Lemma filled_app m o a b value : 0 <= a -> a mod 4 = 0 -> filled m o a value ->
  filled m (o + a) b value -> filled m o (a + b) value.
Proof.
  intros H0 Ha H1 H2 x Hx. destruct (Z_lt_le_dec x (o + a)); [apply H1; lia|].
  rewrite H2 by lia. do 2 f_equal. lia.
Qed.

Lemma filled_frame m m' o a o' b value : filled m o a value -> unchanged m m' o' b ->
  o + a <= o' -> filled m' o a value.
Proof. intros Hf Hu Ho x Hx. rewrite Hu by lia. by apply Hf. Qed.

Lemma unchanged_trans m1 m2 m3 o1 l1 o2 l2 o l : unchanged m1 m2 o1 l1 -> unchanged m2 m3 o2 l2 ->
  o <= o1 -> o1 + l1 <= o + l -> o <= o2 -> o2 + l2 <= o + l -> unchanged m1 m3 o l.
Proof. intros H1 H2 ???? x Hx. rewrite H2, H1 by lia. done. Qed.

Lemma filled_store m o value : filled (store m o (le_split 4 value)) o 4 value.
Proof.
  intros x Hx. rewrite Z.mod_small by lia.
  replace x with (o + Z.of_nat (Z.to_nat (x - o))) at 1 by lia.
  apply store_in. rewrite nth_lookup.
  destruct (lookup_lt_is_Some_2 (le_split 4 value) (Z.to_nat (x - o))) as [b Hb].
  { rewrite le_split_length. lia. }
  by rewrite Hb.
Qed.

(** The two halves of the 64-bit pattern. *)
Lemma le_split_pattern value : is_u32 value ->
  le_split 8 (Z.lor (Z.shiftl value 32) value) = le_split 4 value ++ le_split 4 value.
Proof.
  intros Hv. rewrite lor_shiftl_add by (unfold is_u32 in Hv; lia).
  change (2 ^ 32) with 0x100000000. unfold is_u32 in Hv. cbn [le_split app]. rewrite !Z.div_div by lia. cbn [Z.mul Pos.mul].
  repeat (apply (f_equal2 (@cons Z)); [lia|]). done.
Qed.

Context (area : nfp_cpp_area P) (view : S -> mem) {Mem : AreaMem (area_priv area) view}.

Lemma fill_write_spec offset data n (cpp : nfp_cpp S) :
  Z.of_nat (length data) = n -> 0 < n < 0x100000000 -> 0 <= offset -> offset + n <= area_size area ->
  is_u64 (area_size area) ->
  exists cpp', fill_write area offset data n cpp = (Ok tt, cpp') /\
    forall x, view (cpp_priv cpp') x = store (view (cpp_priv cpp)) offset data x.
Proof using Mem.
  intros Hd Hn Ho Hs H64. unfold fill_write, nfp_cpp_area_write.
  rewrite Z.gtb_ltb, (proj2 (Z.ltb_ge _ _)) by words.
  rewrite (u32_id n) by words.
  destruct (area_write_view data offset n (cpp_priv cpp)) as (s' & -> & Hv);
    [done|lia|lia|].
  rewrite Z.eqb_refl. eexists. by split.
Qed.

Lemma fill_loop_spec fuel offset value length i (cpp : nfp_cpp S) :
  is_u32 value -> 0 <= i -> length - i < Z.of_nat fuel * 8 + 5 -> length mod 4 = 0 -> i mod 8 = 0 ->
  i <= length -> 0 <= offset -> offset + length <= area_size area -> is_u64 (area_size area) ->
  exists i' cpp',
    fill_loop fuel area offset (Z.lor (Z.shiftl value 32) value) length i cpp = (Ok i', cpp') /\
    i <= i' <= length /\ length - i' <= 4 /\ i' mod 8 = 0 /\
    filled (view (cpp_priv cpp')) (offset + i) (i' - i) value /\
    unchanged (view (cpp_priv cpp)) (view (cpp_priv cpp')) (offset + i) (i' - i).
Proof using Mem.
  intros Hv. revert i cpp. induction fuel as [|fuel IH]; intros i cpp Hi Hf Hl4 Hi8 Hil Ho Hs H64; cbn [fill_loop].
  { eexists _, _. split; [done|]. split_and!; try lia; [intros x Hx; lia|by intros x Hx]. }
  destruct (Z.ltb_spec (i + 4) length).
  2: { eexists _, _. split; [done|]. split_and!; try lia; [intros x Hx; lia|by intros x Hx]. }
  rewrite (u64_id (offset + i)) by (unfold is_u64 in *; lia).
  destruct (fill_write_spec (offset + i) (le_split 8 (Z.lor (Z.shiftl value 32) value)) 8 cpp)
    as (cpp1 & -> & H1); [by rewrite le_split_length|lia..|done|].
  destruct (IH (i + 8) cpp1) as (i' & cpp2 & E2 & Hr & Hd & H8 & Hfl & Hu); [lia..|done|].
  eexists _, _. split; [exact E2|]. split_and!; try lia.
  - replace (i' - i) with (8 + (i' - (i + 8))) by lia.
    rewrite Z.add_assoc in Hfl.
    apply filled_app; [lia|done| |done].
    eapply filled_frame; [|exact Hu|lia].
    intros x Hx. rewrite H1, le_split_pattern, store_app by done.
    rewrite le_split_length. change (Z.of_nat 4) with 4.
    revert x Hx. apply (filled_app _ _ 4 4); [lia|done| |apply filled_store].
    intros x Hx. rewrite store_out by lia. by apply filled_store.
  - apply (unchanged_trans _ (view (cpp_priv cpp1)) _ (offset + i) 8 (offset + (i + 8)) (i' - (i + 8)));
      [|exact Hu|lia..].
    intros x Hx. rewrite H1, store_out; [done|]. rewrite le_split_length. lia.
Qed.

Lemma fill_aligned_spec offset value length (cpp : nfp_cpp S) :
  is_u32 value -> 0 <= length -> length mod 4 = 0 -> 0 <= offset ->
  offset + length <= area_size area -> is_u64 (area_size area) ->
  exists cpp', fill_aligned area offset value length cpp = (Ok length, cpp') /\
    filled (view (cpp_priv cpp')) offset length value /\
    unchanged (view (cpp_priv cpp)) (view (cpp_priv cpp')) offset length.
Proof using Mem.
  intros Hv Hl Hl4 Ho Hs H64. unfold fill_aligned. cbv zeta.
  destruct (fill_loop_spec (Z.to_nat length) offset value length 0 cpp)
    as (i & cpp1 & -> & Hi & Hd & H8 & Hfl & Hu); [done|lia..|done|].
  rewrite Z.add_0_r, Z.sub_0_r in Hfl, Hu.
  destruct (Z.leb_spec (i + 4) length).
  - rewrite (u64_id (offset + i)) by (unfold is_u64 in *; lia).
    destruct (fill_write_spec (offset + i) (le_split 4 value) 4 cpp1)
      as (cpp2 & -> & H2); [by rewrite le_split_length|lia..|done|].
    replace length with (i + 4) by lia. eexists. split; [done|].
    assert (unchanged (view (cpp_priv cpp1)) (view (cpp_priv cpp2)) (offset + i) 4) as Hu2.
    { intros x Hx. rewrite H2, store_out; [done|]. rewrite le_split_length. lia. }
    split.
    + apply filled_app; [lia|lia|by eapply filled_frame; [|exact Hu2|lia]|].
      intros x Hx. rewrite H2. by apply filled_store.
    + by eapply unchanged_trans; [exact Hu|exact Hu2|lia..].
  - replace length with i by lia. by eexists.
Qed.

(** Filling a range that lies in the area and is 4-byte aligned
    writes the little-endian word throughout the range and nothing outside it;
    but when the address is 4 past a multiple of 8 the count returned is 4 less
    than the bytes written. *)
Lemma area_fill_fills offset value length (cpp : nfp_cpp S) :
  is_u32 value -> 0 <= length -> length mod 4 = 0 -> 0 <= offset ->
  offset + length <= area_size area -> is_u64 (area_size area) ->
  (area_offset area + offset) mod 4 = 0 ->
  exists cpp',
    nfp_cpp_area_fill area offset value length cpp
      = (Ok (if (area_offset area + offset) mod 8 =? 4 then Z.max 0 (length - 4) else length), cpp') /\
    filled (view (cpp_priv cpp')) offset length value /\
    unchanged (view (cpp_priv cpp)) (view (cpp_priv cpp')) offset length.
Proof using Mem.
  intros Hv Hl Hl4 Ho Hs H64 Ha. unfold nfp_cpp_area_fill.
  rewrite Z.gtb_ltb, (proj2 (Z.ltb_ge _ _)) by words. masks.
  rewrite Ha. cbn [Z.eqb negb]. rewrite Z.geb_leb.
  destruct (Z.eqb_spec ((area_offset area + offset) mod 8) 4) as [E4|N4]; cbn [andb].
  2: by apply fill_aligned_spec.
  destruct (Z.leb_spec 4 length).
  2: { replace length with 0 by lia. by apply fill_aligned_spec; [|lia..|done]. }
  destruct (fill_write_spec offset (le_split 4 value) 4 cpp)
    as (cpp1 & -> & H1); [by rewrite le_split_length|lia..|done|].
  assert (unchanged (view (cpp_priv cpp)) (view (cpp_priv cpp1)) offset 4) as Hu1.
  { intros x Hx. rewrite H1, store_out; [done|]. rewrite le_split_length. lia. }
  destruct (fill_aligned_spec (offset + 4) value (length - 4) cpp1) as (cpp2 & -> & Hf & Hu);
    [done|lia..|done|].
  rewrite Z.max_r by lia. eexists. split; [done|]. split.
  - replace length with (4 + (length - 4)) by lia. apply filled_app; [lia|done| |done].
    eapply filled_frame; [|exact Hu|lia]. intros x Hx. rewrite H1. by apply filled_store.
  - by eapply unchanged_trans; [exact Hu1|exact Hu|lia..].
Qed.
End CoreThms.

(** A transport onto a plain memory. *)
#[export] Instance ram_transport : nfp_cpp_operations mem unit := {
  op_area_init _ _ _ m := (Ok tt, m);
  op_area_cleanup := None;
  op_area_acquire := None;
  op_area_release := None;
  op_area_iomem := None;
  op_area_mapped := None;
  op_area_read _ o n m := (Ok (load m o n), m);
  op_area_write _ bs o n m := (Ok n, store m o bs) }.

#[export] Instance ram_mem p : AreaMem p (fun m : mem => m).
Proof. split. intros. by eexists. Qed.

Definition ram_cpp : nfp_cpp mem := mkCpp 0 0 [] (fun _ => 0) (repeat 0 16) false.

Lemma waitlm_forever_polls_once_witness :
  nfp_xpb_waitlm ram_cpp 8 1 1 (-1) = Some (Err (NFP_ERRNO ETIMEDOUT), ram_cpp).
Proof.
  apply (waitlm_forever_polls_once ram_cpp 8 1 1 (-1) 0); [lia|by vm_compute|by vm_compute].
Defined.

(** A read of 16 bytes starting 8 bytes below 2^64 reaches the transport of a
    16-byte area. *)
Lemma area_read_range_witness :
  (nfp_cpp_area_read (mkArea EmptyString 0 16 tt) (2 ^ 64 - 8) 16 ram_cpp).1
  = Ok (load (fun _ => 0) (2 ^ 64 - 8) 16).
Proof.
  refine (proj2 (area_read_range (mkArea EmptyString 0 16 tt) (2 ^ 64 - 8) 16 ram_cpp _ _ _) _);
    [split; by vm_compute|split; by vm_compute|split; by vm_compute|].
  right. split; by vm_compute.
Defined.

(** Eight bytes at offset 4 are written, four are reported. *)
Lemma area_fill_fills_witness : exists cpp',
  nfp_cpp_area_fill (mkArea EmptyString 0x1000 16 tt) 4 0xdeadbeef 8 ram_cpp = (Ok 4, cpp') /\
  filled (cpp_priv cpp') 4 8 0xdeadbeef.
Proof.
  destruct (area_fill_fills (mkArea EmptyString 0x1000 16 tt) (fun m => m) 4 0xdeadbeef 8 ram_cpp)
    as (cpp' & H1 & H2 & _); [split; by vm_compute|lia|done|lia|by vm_compute|split; by vm_compute|done|].
  exists cpp'. split; [exact H1|exact H2].
Defined.

Lemma xpb_routing_witness :
  nfp_xpb_to_cpp (nfp_cpp_model_set 0x60000010 ram_cpp) 0x20060004
    = (NFP_CPP_ID 14 32 0, 0x60060004) /\
  Z.testbit 0x60060004 30 = true.
Proof.
  pose proof (xpb_routing (nfp_cpp_model_set 0x60000010 ram_cpp) 0x20060004 eq_refl) as H.
  destruct (nfp_xpb_to_cpp _ _) as [id a] eqn:E. vm_compute in E. injection E as <- <-.
  split; [reflexivity|]. apply H. by vm_compute.
Defined.
