(* ===== verification/CppPcie.v ===== *)
(** * The PCIe BAR transport ([nfp_cpp_pcie_ops.c])

    The expansion BARs of the device multiplex a process's mapping of PCI BAR 0
    onto the CPP bus.  [pcie_user] is [struct nfp_pcie_user] together with the
    mapped device: pointers are addresses with 0 for null, the eight windows of the
    mapping start at [cfg], and the configuration words of the BARs are memory at
    [cfg + 0x30000].  What an access to a window does is the device's behaviour, a
    parameter ([PcieDevice]), as are configuration space and the process locks.

    The instance [nfp6000_pcie_ops] makes it a transport of the CPP core. *)

From S2P Require Export CppCore.

Local Open Scope Z_scope.

Definition NFP_PCIE_BAR (pf : Z) : Z := 0x30000 + Z.land pf 7 * 0xc0.

Definition NFP_PCIE_BAR_PCIE2CPP_ACTION_BASEADDRESS (x : Z) : Z := Z.shiftl (Z.land x 0x1f) 16.
Definition NFP_PCIE_BAR_PCIE2CPP_LENGTHSELECT (x : Z) : Z := Z.shiftl (Z.land x 0x3) 27.
Definition NFP_PCIE_BAR_PCIE2CPP_MAPTYPE (x : Z) : Z := Z.shiftl (Z.land x 0x7) 29.
Definition NFP_PCIE_BAR_PCIE2CPP_MAPTYPE_OF (x : Z) : Z := Z.land (Z.shiftr x 29) 0x7.
Definition NFP_PCIE_BAR_PCIE2CPP_TARGET_BASEADDRESS (x : Z) : Z := Z.shiftl (Z.land x 0xf) 23.
Definition NFP_PCIE_BAR_PCIE2CPP_TOKEN_BASEADDRESS (x : Z) : Z := Z.shiftl (Z.land x 0x3) 21.
Definition MAPTYPE_FIXED : Z := 0.
Definition MAPTYPE_BULK : Z := 1.
Definition MAPTYPE_GENERAL : Z := 3.

Definition NFP_PCIE_CFG_BAR_PCIETOCPPEXPBAR (bar slot : Z) : Z :=
  NFP_PCIE_BAR 0 + (bar * 8 + slot) * 4.

Record nfp_bar := mkBar {
  barcfg : Z;
  bar_base : Z;
  bar_mask : Z;
  bitsize : Z;
  bar_index : Z;
  bar_lock : bool;
  bar_csr : Z;
  bar_iomem : Z }.

Record pcie_user (D : Type) := mkUser {
  bar : list nfp_bar;
  barsz : Z;
  cfg : Z;
  proc_primary : bool;
  csr_mem : Z -> Z;
  p_dev : D }.
Arguments mkUser {D}.
Arguments bar {D}.
Arguments barsz {D}.
Arguments cfg {D}.
Arguments proc_primary {D}.
Arguments csr_mem {D}.
Arguments p_dev {D}.

Record area_width := mkWidth { w_read : Z; w_write : Z; w_bar : Z }.

Record nfp6000_area_priv := mkPriv {
  p_bar : option nat;
  p_bar_offset : Z;
  p_target : Z;
  p_action : Z;
  p_token : Z;
  p_offset : Z;
  p_width : area_width;
  p_size : Z;
  p_iomem : Z }.

(** The device: an access of [w] bytes at offset [o] of a window whose BAR holds
    the configuration word [c]. *)
Class PcieDevice (D : Type) := {
  p2c_read : Z -> Z -> Z -> nat -> D -> Z * D;
  p2c_write : Z -> Z -> Z -> nat -> Z -> D -> D }.

(** ** BARs *)

(** [width] to the length selection of a configuration word. *)
Definition lengthselect (width : Z) : option Z :=
  match width with
  | 8 => Some (NFP_PCIE_BAR_PCIE2CPP_LENGTHSELECT 1)
  | 4 => Some (NFP_PCIE_BAR_PCIE2CPP_LENGTHSELECT 0)
  | 0 => Some (NFP_PCIE_BAR_PCIE2CPP_LENGTHSELECT 3)
  | _ => None
  end.

(** The type, target, action and token fields, and the number of address bits the
    base field leaves out. *)
Definition compute_fields (tgt act tok : Z) : Z * Z :=
  if negb (act =? NFP_CPP_ACTION_RW) && negb (act =? 0) then
    (Z.lor (Z.lor (Z.lor (NFP_PCIE_BAR_PCIE2CPP_MAPTYPE MAPTYPE_FIXED)
       (NFP_PCIE_BAR_PCIE2CPP_TARGET_BASEADDRESS tgt))
       (NFP_PCIE_BAR_PCIE2CPP_ACTION_BASEADDRESS act))
       (NFP_PCIE_BAR_PCIE2CPP_TOKEN_BASEADDRESS tok), 40 - 16)
  else
    (Z.lor (Z.lor (NFP_PCIE_BAR_PCIE2CPP_MAPTYPE MAPTYPE_BULK)
       (NFP_PCIE_BAR_PCIE2CPP_TARGET_BASEADDRESS tgt))
       (NFP_PCIE_BAR_PCIE2CPP_TOKEN_BASEADDRESS tok), 40 - 21).

Definition nfp_compute_bar (b : nfp_bar) (tgt act tok offset size width : Z) : cres (Z * Z) :=
  if tgt >=? 16 then Err (NegErr EINVAL)
  else
    match lengthselect width with
    | None => Err (NegErr EINVAL)
    | Some newcfg =>
        let mask := u64 (Z.lnot (Z.shiftl 1 (bitsize b) - 1)) in
        let '(fields, bits) := compute_fields tgt act tok in
        let newcfg := Z.lor newcfg fields in
        if negb (Z.land offset mask =? Z.land (u64 (offset + size - 1)) mask)
        then Err (NegErr EINVAL)
        else
          let offset := Z.land offset mask in
          if bitsize b <? bits then Err (NegErr EINVAL)
          else Ok (Z.lor newcfg (u32 (Z.shiftr offset bits)), offset)
    end.

Section Pcie.
Context {D : Type} `{Dev : PcieDevice D}.

Definition set_bar (i : nat) (b : nfp_bar) (u : pcie_user D) : pcie_user D :=
  mkUser (<[i := b]> (bar u)) (barsz u) (cfg u) (proc_primary u) (csr_mem u) (p_dev u).

Definition set_dev (d : D) (u : pcie_user D) : pcie_user D :=
  mkUser (bar u) (barsz u) (cfg u) (proc_primary u) (csr_mem u) d.

(** A 32-bit store to the configuration word at [a]. *)
Definition csr_write (a v : Z) (u : pcie_user D) : pcie_user D :=
  mkUser (bar u) (barsz u) (cfg u) (proc_primary u)
    (fun x => if x =? a then v else csr_mem u x) (p_dev u).

Definition bar_set_lock (l : bool) (b : nfp_bar) : nfp_bar :=
  mkBar (barcfg b) (bar_base b) (bar_mask b) (bitsize b) (bar_index b) l (bar_csr b) (bar_iomem b).
Definition bar_set_base (x : Z) (b : nfp_bar) : nfp_bar :=
  mkBar (barcfg b) x (bar_mask b) (bitsize b) (bar_index b) (bar_lock b) (bar_csr b) (bar_iomem b).
Definition bar_set_cfg (c csr : Z) (b : nfp_bar) : nfp_bar :=
  mkBar c (bar_base b) (bar_mask b) (bitsize b) (bar_index b) (bar_lock b) csr (bar_iomem b).
Definition bar_unmap (b : nfp_bar) : nfp_bar :=
  mkBar (barcfg b) (bar_base b) (bar_mask b) (bitsize b) (bar_index b) false (bar_csr b) 0.

Definition csr_addr (u : pcie_user D) (index : Z) : Z :=
  cfg u + NFP_PCIE_CFG_BAR_PCIETOCPPEXPBAR (Z.shiftr index 3) (Z.land index 7).

(** [i] is the position of the BAR in the array. *)
Definition nfp_bar_write (i : nat) (b : nfp_bar) (newcfg : Z) (u : pcie_user D)
    : cres unit * pcie_user D :=
  if cfg u =? 0 then (Err (NegErr ENOMEM), u)
  else
    let csr := csr_addr u (bar_index b) in
    (Ok tt, set_bar i (bar_set_cfg newcfg csr b) (csr_write csr newcfg u)).

Definition nfp_reconfigure_bar (i : nat) (b : nfp_bar) (tgt act tok offset size width : Z)
    (u : pcie_user D) : cres unit * pcie_user D :=
  match nfp_compute_bar b tgt act tok offset size width with
  | Err e => (Err e, u)
  | Ok (newcfg, newbase) =>
      let b := bar_set_base newbase b in nfp_bar_write i b newcfg (set_bar i b u)
  end.

(** [for (x = start; x > end; x--)]: the indices a process may use. *)
Definition bar_range (primary : bool) : list Z := if primary then [4; 3; 2] else [7; 6; 5].

(** [x << n] of an [int]: what overflows is cut off, as GCC defines it. *)
Definition int_shl (x n : Z) : Z := s32 (Z.shiftl x n).

Definition enable_bar (u : pcie_user D) (x : Z) : nfp_bar :=
  let bs := barsz u - 3 in
  mkBar 0 0 (u64 (s32 (int_shl 1 bs - 1))) bs x false (csr_addr u x) (cfg u + int_shl x bs).

Definition nfp_enable_bars (u : pcie_user D) : pcie_user D :=
  foldl (fun u x => set_bar (Z.to_nat (x - 1)) (enable_bar u x) u) u (bar_range (proc_primary u)).

Fixpoint alloc_bar_loop (xs : list Z) (u : pcie_user D) : option (nat * nfp_bar) * pcie_user D :=
  match xs with
  | [] => (None, u)
  | x :: xs =>
      let i := Z.to_nat (x - 1) in
      match bar u !! i with
      | Some b =>
          if bar_lock b then alloc_bar_loop xs u
          else let b := bar_set_lock true b in (Some (i, b), set_bar i b u)
      | None => alloc_bar_loop xs u
      end
  end.

Definition nfp_alloc_bar (u : pcie_user D) : option (nat * nfp_bar) * pcie_user D :=
  alloc_bar_loop (bar_range (proc_primary u)) u.

Definition nfp_disable_bars (u : pcie_user D) : pcie_user D :=
  foldl (fun u x =>
    let i := Z.to_nat (x - 1) in
    match bar u !! i with
    | Some b => if bar_iomem b =? 0 then u else set_bar i (bar_unmap b) u
    | None => u
    end) u (bar_range (proc_primary u)).

(** ** Areas *)

(** A width as the C code keeps it: -1 where there is none. *)
Definition width_val (w : cres Z) : Z := match w with Ok w => w | Err e => cerr_ret e end.

Definition nfp6000_area_init (dest address size : Z) (u : pcie_user D)
    : cres nfp6000_area_priv * pcie_user D :=
  let target := NFP_CPP_ID_TARGET_of dest in
  let action := NFP_CPP_ID_ACTION_of dest in
  let token := NFP_CPP_ID_TOKEN_of dest in
  match nfp6000_target_pushpull (NFP_CPP_ID target action token) address with
  | Err e => (Err e, u)
  | Ok pp =>
      let r := width_val (PUSH_WIDTH pp) in
      let w := width_val (PULL_WIDTH pp) in
      if (r >? 0) && (w >? 0) && negb (r =? w) then (Err (NegErr EINVAL), u)
      else
        let width := mkWidth r w (if r >? 0 then r else w) in
        match nfp_alloc_bar u with
        | (None, u) => (Err (NegErr ENOMEM), u)
        | (Some (i, b), u) =>
            match nfp_reconfigure_bar i b target action token address size (w_bar width) u with
            | (Err e, u) => (Err e, u)
            | (Ok _, u) => (Ok (mkPriv (Some i) 0 target action token address width size 0), u)
            end
        end
  end.

(** The offset in the window of an area that uses BAR [b]. *)
Definition area_bar_offset (b : nfp_bar) (p : nfp6000_area_priv) : Z :=
  if NFP_PCIE_BAR_PCIE2CPP_MAPTYPE_OF (barcfg b) =? MAPTYPE_GENERAL then
    u32 (Z.land (p_offset p) (Z.shiftl 1 (bitsize b - 4) - 1)
         + Z.shiftl (p_target p) (bitsize b - 2) + Z.shiftl (p_token p) (bitsize b - 4))
  else u32 (Z.land (p_offset p) (bar_mask b)).

(** The BAR of an area; no call of the core uses an area without one. *)
Definition area_bar (p : nfp6000_area_priv) (u : pcie_user D) : option (nat * nfp_bar) :=
  match p_bar p with
  | None => None
  | Some i => match bar u !! i with None => None | Some b => Some (i, b) end
  end.

Definition nfp6000_area_acquire (p : nfp6000_area_priv) (u : pcie_user D)
    : cres unit * nfp6000_area_priv * pcie_user D :=
  match area_bar p u with
  | None => (Err (NegErr EFAULT), p, u)
  | Some (_, b) =>
      let o := area_bar_offset b p in
      if bar_iomem b =? 0 then
        (Err (NegErr ENOMEM),
         mkPriv (p_bar p) o (p_target p) (p_action p) (p_token p) (p_offset p) (p_width p) (p_size p)
           (p_iomem p), u)
      else
        (Ok tt,
         mkPriv (p_bar p) o (p_target p) (p_action p) (p_token p) (p_offset p) (p_width p) (p_size p)
           (bar_iomem b + o), u)
  end.

Definition nfp6000_area_mapped (p : nfp6000_area_priv) : option Z :=
  if p_iomem p =? 0 then None else Some (p_iomem p).

Definition nfp6000_area_iomem (p : nfp6000_area_priv) : option Z :=
  if p_iomem p =? 0 then None else Some (p_iomem p).

Definition nfp6000_area_release (p : nfp6000_area_priv) (u : pcie_user D)
    : nfp6000_area_priv * pcie_user D :=
  let p' := mkPriv None (p_bar_offset p) (p_target p) (p_action p) (p_token p) (p_offset p)
    (p_width p) (p_size p) 0 in
  match area_bar p u with
  | None => (p', u)
  | Some (i, b) => (p', set_bar i (bar_set_lock false b) u)
  end.

(** An access to the mapping: the window and the offset in it. *)
Definition window_of (u : pcie_user D) (a : Z) : Z := (a - cfg u) / 2 ^ (barsz u - 3).
Definition window_off (u : pcie_user D) (a : Z) : Z := (a - cfg u) mod 2 ^ (barsz u - 3).
Definition window_cfg (u : pcie_user D) (a : Z) : Z := csr_mem u (csr_addr u (window_of u a)).

Definition mm_read (a : Z) (w : nat) (u : pcie_user D) : Z * pcie_user D :=
  let '(v, d) := p2c_read (window_cfg u a) (barsz u - 3) (window_off u a) w (p_dev u) in
  (v, set_dev d u).

Definition mm_write (a : Z) (w : nat) (v : Z) (u : pcie_user D) : pcie_user D :=
  set_dev (p2c_write (window_cfg u a) (barsz u - 3) (window_off u a) w v (p_dev u)) u.

(** [for (n = 0; n < length; n += w) *wrptr++ = *rdptr++] *)
Fixpoint read_loop (n : nat) (a : Z) (w : nat) (u : pcie_user D) : list Z * pcie_user D :=
  match n with
  | O => ([], u)
  | S n =>
      let '(v, u) := mm_read a w u in
      let '(bs, u) := read_loop n (a + Z.of_nat w) w u in
      (le_split w v ++ bs, u)
  end.

Fixpoint write_loop (n : nat) (a : Z) (w : nat) (bs : list Z) (u : pcie_user D) : pcie_user D :=
  match n with
  | O => u
  | S n => write_loop n (a + Z.of_nat w) w (drop w bs) (mm_write a w (le_combine (take w bs)) u)
  end.

(** The checks of a read or write of width [width]; the size of one access. *)
Definition area_access_check (p : nfp6000_area_priv) (width offset length : Z) : cres nat :=
  if u64 (offset + length) >? p_size p then Err (NegErr EFAULT)
  else if width <=? 0 then Err (NegErr EINVAL)
  else if negb (Z.land (p_offset p + offset) (width - 1) =? 0) then Err (NegErr EINVAL)
  else
    let is_64 := (width =? 8) &&
      negb ((p_target p =? Z.land NFP_CPP_TARGET_ID_MASK NFP6000_CPPTGT_MU)
            && (p_action p =? NFP_CPP_ACTION_RW)) in
    let w : Z := if is_64 then 8 else 4 in
    if negb (offset mod w =? 0) || negb (length mod w =? 0) then Err (NegErr EINVAL)
    else match p_bar p with None => Err (NegErr EFAULT) | Some _ => Ok (Z.to_nat w) end.

Definition nfp6000_area_read (p : nfp6000_area_priv) (offset length : Z) (u : pcie_user D)
    : cres (list Z) * pcie_user D :=
  match area_access_check p (w_read (p_width p)) offset length with
  | Err e => (Err e, u)
  | Ok w =>
      let '(bs, u) := read_loop (Z.to_nat (length / Z.of_nat w)) (p_iomem p + offset) w u in
      (Ok bs, u)
  end.

Definition nfp6000_area_write (p : nfp6000_area_priv) (data : list Z) (offset length : Z)
    (u : pcie_user D) : cres Z * pcie_user D :=
  match area_access_check p (w_write (p_width p)) offset length with
  | Err e => (Err e, u)
  | Ok w =>
      (Ok length,
       write_loop (Z.to_nat (length / Z.of_nat w)) (p_iomem p + offset) w data u)
  end.

#[export] Instance nfp6000_pcie_ops : nfp_cpp_operations (pcie_user D) nfp6000_area_priv := {
  op_area_init := nfp6000_area_init;
  op_area_cleanup := None;
  op_area_acquire := Some nfp6000_area_acquire;
  op_area_release := Some nfp6000_area_release;
  op_area_iomem := Some nfp6000_area_iomem;
  op_area_mapped := Some nfp6000_area_mapped;
  op_area_read := nfp6000_area_read;
  op_area_write := nfp6000_area_write }.

(** ** Configuration space and set-up *)

(** [read_config len pos]: [None] where [rte_pci_read_config] fails. *)
Context (read_config : Z -> Z -> option Z).

Definition PCI_CFG_SPACE_SIZE : Z := 256.
Definition PCI_CFG_SPACE_EXP_SIZE : Z := 4096.
Definition PCI_EXT_CAP_ID (header : Z) : Z := Z.land header 0xffff.
Definition PCI_EXT_CAP_NEXT (header : Z) : Z := Z.land (Z.shiftr header 20) 0xffc.
Definition PCI_EXT_CAP_ID_DSN : Z := 3.

(** [while (ttl-- > 0)] *)
Fixpoint ext_cap_loop (ttl : nat) (cap header pos : Z) : Z :=
  match ttl with
  | O => 0
  | S ttl =>
      if PCI_EXT_CAP_ID header =? cap then pos
      else
        let pos := PCI_EXT_CAP_NEXT header in
        if pos <? PCI_CFG_SPACE_SIZE then 0
        else
          match read_config 4 pos with
          | None => -1
          | Some header => ext_cap_loop ttl cap header pos
          end
  end.

Definition ext_cap_ttl : nat := Z.to_nat ((PCI_CFG_SPACE_EXP_SIZE - PCI_CFG_SPACE_SIZE) / 8).

Definition nfp_pci_find_next_ext_capability (cap : Z) : Z :=
  match read_config 4 PCI_CFG_SPACE_SIZE with
  | None => -1
  | Some header => if header =? 0 then 0 else ext_cap_loop ext_cap_ttl cap header PCI_CFG_SPACE_SIZE
  end.

Definition nfp6000_set_interface (cpp : nfp_cpp (pcie_user D)) : cres (nfp_cpp (pcie_user D)) :=
  let pos := nfp_pci_find_next_ext_capability PCI_EXT_CAP_ID_DSN in
  if pos =? 0 then Err1
  else
    match read_config 4 (pos + 4) with
    | None => Err1
    | Some reg => Ok (nfp_cpp_interface_set (Z.land reg 0xffff) cpp)
    end.

(** A 16-bit word as its high and low byte. *)
Definition serial_pair (tmp : Z) : list Z := [Z.land (Z.shiftr tmp 8) 0xff; Z.land tmp 0xff].

Definition nfp6000_set_serial (cpp : nfp_cpp (pcie_user D)) : cres (nfp_cpp (pcie_user D)) :=
  let pos := nfp_pci_find_next_ext_capability PCI_EXT_CAP_ID_DSN in
  if pos <=? 0 then Err1
  else
    match read_config 2 (pos + 6), read_config 2 (pos + 8), read_config 2 (pos + 10) with
    | Some t6, Some t8, Some t10 =>
        Ok (nfp_cpp_serial_set (serial_pair t10 ++ serial_pair t8 ++ serial_pair t6) cpp)
    | _, _, _ => Err1
    end.

(** [while (tmp >>= 1) i++] *)
Fixpoint barsz_loop (fuel : nat) (tmp i : Z) : Z :=
  match fuel with
  | O => i
  | S fuel =>
      let tmp := Z.shiftr tmp 1 in
      if tmp =? 0 then i else barsz_loop fuel tmp (i + 1)
  end.

Definition nfp6000_set_barsz (len : Z) : Z := barsz_loop 64 len 0.

(** [lock] is the result of the process lock, [len] and [addr] resource 0. *)
Definition nfp6000_init (primary : bool) (lock : cres unit) (len addr : Z) (csrs : Z -> Z) (d : D)
    (driver_lock_needed : bool) : cres (nfp_cpp (pcie_user D)) :=
  let locked := if primary then if driver_lock_needed then lock else Ok tt else lock in
  match locked with
  | Err _ => Err1
  | Ok _ =>
      let desc := mkUser (repeat (mkBar 0 0 0 0 0 false 0 0) 7) (nfp6000_set_barsz len) addr
        primary csrs d in
      let cpp := mkCpp 0 0 [] desc (repeat 0 16) driver_lock_needed in
      let cpp := nfp_cpp_model_set 0 cpp in
      match nfp6000_set_interface cpp with
      | Err e => Err1
      | Ok cpp =>
          match nfp6000_set_serial cpp with
          | Err e => Err1
          | Ok cpp => Ok (nfp_cpp_priv_set (nfp_enable_bars desc) cpp)
          end
      end
  end.

Definition nfp_cpp_from_device_name (primary : bool) (lock : cres unit) (len addr : Z)
    (csrs : Z -> Z) (d : D) (driver_lock_needed : bool) : option (nfp_cpp (pcie_user D)) :=
  nfp_cpp_alloc (nfp6000_init primary lock len addr csrs d) driver_lock_needed.
End Pcie.
