(* ===== verification/CppPcieThms.v ===== *)
(** * The PCIe transport: windows, ownership of BARs, accesses

    The configuration word computed for an access describes a window that contains
    it; areas own their BARs exclusively, so the window of a live area stays the
    one it was given; a read or write of the CPP core through this transport
    performs the CPP transactions it stands for; and a refused area leaks its BAR. *)

From S2P Require Export CppPcie.

Local Open Scope Z_scope.

(** ** Configuration words *)

Definition cfg_target (c : Z) : Z := get_field c 23 4.
Definition cfg_token (c : Z) : Z := get_field c 21 2.
Definition cfg_action (c : Z) : Z := get_field c 16 5.
(** The base of a bulk window (21 bits) and of a fixed one (16 bits). *)
Definition bulk_base (c : Z) : Z := get_field c 0 21 * 2 ^ 19.
Definition fixed_base (c : Z) : Z := get_field c 0 16 * 2 ^ 24.

Definition is_bulk (act : Z) : bool := (act =? NFP_CPP_ACTION_RW) || (act =? 0).

(** The window of BAR size [bs] that [c] opens: its target, action, token, base. *)
Definition opens (c tgt act tok base : Z) : Prop :=
  cfg_target c = tgt /\ cfg_token c = tok /\
  if is_bulk act then NFP_PCIE_BAR_PCIE2CPP_MAPTYPE_OF c = MAPTYPE_BULK /\ bulk_base c = base
  else NFP_PCIE_BAR_PCIE2CPP_MAPTYPE_OF c = MAPTYPE_FIXED /\ cfg_action c = act /\ fixed_base c = base.

Lemma compute_fields_opens l tgt act tok o : 0 <= tgt < 16 -> 0 <= tok < 4 -> 0 <= act <= 32 ->
  0 <= o < 2 ^ (40 - (compute_fields tgt act tok).2) ->
  opens (Z.lor (Z.lor (NFP_PCIE_BAR_PCIE2CPP_LENGTHSELECT l) (compute_fields tgt act tok).1) o)
    tgt act tok (o * 2 ^ (compute_fields tgt act tok).2).
Proof.
  intros Ht Hk Ha. unfold compute_fields, opens, is_bulk.
  rewrite <- negb_orb. change NFP_PCIE_BAR_PCIE2CPP_MAPTYPE_OF with (fun c => get_field c 29 3).
  unfold cfg_target, cfg_token, cfg_action, bulk_base, fixed_base.
  unfold NFP_PCIE_BAR_PCIE2CPP_LENGTHSELECT, NFP_PCIE_BAR_PCIE2CPP_MAPTYPE,
    NFP_PCIE_BAR_PCIE2CPP_TARGET_BASEADDRESS, NFP_PCIE_BAR_PCIE2CPP_ACTION_BASEADDRESS,
    NFP_PCIE_BAR_PCIE2CPP_TOKEN_BASEADDRESS.
  change 0x1f with (Z.ones 5). change 0x7 with (Z.ones 3). change 0xf with (Z.ones 4).
  change (Z.land l 3) with (Z.land l (Z.ones 2)). change (Z.land tok 3) with (Z.land tok (Z.ones 2)).
  destruct ((act =? NFP_CPP_ACTION_RW) || (act =? 0)) eqn:Eb; cbn [negb fst snd]; intros Ho.
  - change (40 - (40 - 21)) with 21 in Ho.
    split_and!; fields; rewrite ?(get_field_above o 21) by lia;
      rewrite ?Z.lor_0_r, ?get_field_small by lia; try apply Z.mod_small; try lia. done.
  - change (40 - (40 - 16)) with 16 in Ho. apply orb_false_iff in Eb as [E1 E2].
    apply Z.eqb_neq in E1, E2. unfold NFP_CPP_ACTION_RW in E1.
    split_and!; fields; rewrite ?(get_field_above o 16) by lia;
      rewrite ?Z.lor_0_r, ?get_field_small by lia; try apply Z.mod_small; try lia. done.
Qed.

(** The access [offset, offset + size) lies in one aligned block of [2^bs] bytes. *)
Definition in_block (bs offset size : Z) : Prop :=
  offset / 2 ^ bs = (offset + size - 1) / 2 ^ bs.

#[export] Instance in_block_dec bs offset size : Decision (in_block bs offset size).
Proof. unfold in_block. apply _. Defined.

Lemma compute_bar_ok b tgt act tok offset size width :
  0 <= bitsize b < 64 -> 0 <= offset -> 0 < size -> offset + size <= 2 ^ 40 ->
  nfp_compute_bar b tgt act tok offset size width =
  if decide (tgt < 16 /\ (width = 0 \/ width = 4 \/ width = 8) /\ in_block (bitsize b) offset size /\
             (compute_fields tgt act tok).2 <= bitsize b)
  then
    let base := offset / 2 ^ bitsize b * 2 ^ bitsize b in
    Ok (Z.lor (Z.lor (default 0 (lengthselect width)) (compute_fields tgt act tok).1)
          (base / 2 ^ (compute_fields tgt act tok).2), base)
  else Err (NegErr EINVAL).
Proof.
  intros Hb Ho Hs H40. unfold nfp_compute_bar, in_block. change (2 ^ 40) with 0x10000000000 in H40.
  rewrite (u64_id (offset + size - 1)) by words.
  rewrite !land_high_mask by (unfold is_u64; lia).
  destruct (compute_fields tgt act tok) as [f bits] eqn:Ef. cbn [fst snd].
  assert (0 <= bits) as Hbits.
  { unfold compute_fields in Ef. destruct (_ && _) in Ef; injection Ef as _ <-; lia. }
  rewrite Z.geb_leb. destruct (Z.leb_spec 16 tgt).
  { by rewrite decide_False by lia. }
  assert (0 < 2 ^ bitsize b) as Hp by (apply Z.pow_pos_nonneg; lia).
  destruct (lengthselect width) as [l|] eqn:El.
  2: { rewrite decide_False; [done|]. intros (_ & [->|[->| ->]] & _); done. }
  assert (width = 0 \/ width = 4 \/ width = 8) as Hw.
  { unfold lengthselect in El. destruct width as [|p|]; [by left| |done].
    do 4 (try (destruct p as [p|p|]; try done)); auto. }
  destruct (Z.eqb_spec (offset / 2 ^ bitsize b * 2 ^ bitsize b)
    ((offset + size - 1) / 2 ^ bitsize b * 2 ^ bitsize b)) as [E|N]; cbn [negb].
  2: { rewrite decide_False; [done|]. intros (_ & _ & E & _). by rewrite E in N. }
  apply Z.mul_reg_r in E; [|lia].
  destruct (Z.ltb_spec (bitsize b) bits).
  { by rewrite decide_False by lia. }
  rewrite decide_True by auto. cbn [default from_option id]. do 2 f_equal.
  rewrite Z.shiftr_div_pow2 by lia. f_equal. apply u32_id.
  assert (19 <= bits) by (unfold compute_fields in Ef; destruct (_ && _) in Ef; injection Ef as _ <-; lia).
  assert (0 <= offset / 2 ^ bitsize b * 2 ^ bitsize b <= offset).
  { pose proof (Z.mul_div_le offset (2 ^ bitsize b) Hp). pose proof (Z.div_pos offset _ Ho Hp). nia. }
  split; [apply Z.div_pos; [lia|apply Z.pow_pos_nonneg; lia]|].
  apply Z.div_lt_upper_bound; [apply Z.pow_pos_nonneg; lia|].
  apply Z.lt_le_trans with (2 ^ 19 * 0x100000000); [lia|].
  apply Z.mul_le_mono_nonneg_r; [lia|]. apply Z.pow_le_mono_r; lia.
Qed.

(** [nfp_compute_bar] succeeds exactly for a target below 16, a
    known width, an access inside one aligned block of the BAR's size and a BAR of
    the least size for its kind of window; the word it then computes opens a
    window on the target, action and token asked for, at the block that contains
    the access. *)
Lemma compute_bar_window b tgt act tok offset size width :
  0 <= bitsize b < 64 -> 0 <= tgt -> 0 <= tok < 4 -> 0 <= act <= 32 ->
  0 <= offset -> 0 < size -> offset + size <= 2 ^ 40 ->
  match nfp_compute_bar b tgt act tok offset size width with
  | Ok (c, base) =>
      opens c tgt act tok base /\ base <= offset /\ offset + size <= base + 2 ^ bitsize b /\
      (2 ^ bitsize b | base)
  | Err e => e = NegErr EINVAL /\
      (16 <= tgt \/ (width <> 0 /\ width <> 4 /\ width <> 8) \/ ~ in_block (bitsize b) offset size \/
       bitsize b < if is_bulk act then 19 else 24)
  end.
Proof.
  intros Hb Ht Hk Ha Ho Hs H40. rewrite compute_bar_ok by done.
  assert ((compute_fields tgt act tok).2 = if is_bulk act then 19 else 24) as Hbits.
  { unfold compute_fields, is_bulk. rewrite <- negb_orb. by destruct (_ || _). }
  rewrite Hbits. case_decide as D; cbv zeta.
  2: { split; [done|]. unfold in_block in *.
    destruct (decide (16 <= tgt)); [tauto|].
    destruct (decide (width = 0)), (decide (width = 4)), (decide (width = 8)),
      (decide (offset / 2 ^ bitsize b = (offset + size - 1) / 2 ^ bitsize b)); try lia; tauto. }
  destruct D as (Ht' & Hw & Hblk & Hbs). unfold in_block in Hblk.
  set (bits := if is_bulk act then 19 else 24) in *.
  assert (19 <= bits <= 24) by (unfold bits; destruct (is_bulk act); lia).
  assert (0 < 2 ^ bitsize b) as Hp by (apply Z.pow_pos_nonneg; lia).
  set (q := offset / 2 ^ bitsize b) in *.
  assert (0 <= q) by (apply Z.div_pos; lia).
  assert (q * 2 ^ bitsize b <= offset) by (pose proof (Z.mul_div_le offset _ Hp); fold q in H1; lia).
  assert (offset + size - 1 < (q + 1) * 2 ^ bitsize b).
  { rewrite Hblk. pose proof (Z.mul_succ_div_gt (offset + size - 1) _ Hp). lia. }
  assert (q * 2 ^ bitsize b = q * 2 ^ (bitsize b - bits) * 2 ^ bits) as Eq.
  { rewrite <- Z.mul_assoc, <- Z.pow_add_r by lia. do 2 f_equal. lia. }
  split; [|split; [lia|split; [lia|by exists q]]].
  rewrite Eq, Z.div_mul by (pose proof (Z.pow_pos_nonneg 2 bits); lia).
  rewrite <- Hbits.
  assert (exists l, default 0 (lengthselect width) = NFP_PCIE_BAR_PCIE2CPP_LENGTHSELECT l) as [l ->].
  { destruct Hw as [->|[->| ->]]; eauto. }
  apply compute_fields_opens; try lia. rewrite Hbits. fold bits.
  split; [apply Z.mul_nonneg_nonneg; [lia|apply Z.pow_nonneg; lia]|].
  apply (Z.mul_lt_mono_pos_r (2 ^ bits)); [apply Z.pow_pos_nonneg; lia|].
  rewrite <- Eq, <- Z.pow_add_r by lia. replace (40 - bits + bits) with 40 by lia. lia.
Qed.

Lemma compute_bar_window_witness :
  let b := mkBar 0 0 (2 ^ 24 - 1) 24 2 true 0 0 in
  exists c, nfp_compute_bar b 7 32 0 0x8100000040 32 8 = Ok (c, 0x8100000000) /\
    opens c 7 32 0 0x8100000000.
Proof.
  cbv zeta. pose proof (compute_bar_window (mkBar 0 0 (2 ^ 24 - 1) 24 2 true 0 0) 7 32 0 0x8100000040 32 8) as H.
  eexists. split; [vm_compute; reflexivity|]. vm_compute nfp_compute_bar in H.
  apply H; try lia; vm_compute; split; congruence.
Defined.
