(* ===== verification/CppPcieInv.v ===== *)
(** * Ownership of the BARs and the accesses made through them

    [wf] is what [nfp_enable_bars] sets up, for sizes whose windows an [int] can place.
    A live area ([owns]) has a locked BAR
    whose configuration word in the device opens the window of the area; the
    invariant of any interleaving of area operations is that live areas have
    different BARs.  With the device's law ([PcieLaws]) an access through an area
    is the CPP transaction at the area's address. *)

From S2P Require Export CppPcieThms.

Local Open Scope Z_scope.

(** The CPP bus of the device: a transaction of [w] bytes at (target, action,
    token, address); [NFP_CPP_ACTION_RW] stands for the plain read and write. *)
Class CppDevice (D : Type) := {
  dev_read : Z -> Z -> Z -> Z -> nat -> D -> Z * D;
  dev_write : Z -> Z -> Z -> Z -> nat -> Z -> D -> D }.

Definition bus_act (act : Z) : Z := if is_bulk act then NFP_CPP_ACTION_RW else act.

(** The documented behaviour of an expansion BAR. *)
Class PcieLaws (D : Type) `{PcieDevice D} `{CppDevice D} : Prop := {
  window_read c bs o w tgt act tok base (d : D) :
    opens c tgt act tok base -> (2 ^ bs | base) -> 0 <= o < 2 ^ bs ->
    p2c_read c bs o w d = dev_read tgt (bus_act act) tok (base + o) w d;
  window_write c bs o w v tgt act tok base (d : D) :
    opens c tgt act tok base -> (2 ^ bs | base) -> 0 <= o < 2 ^ bs ->
    p2c_write c bs o w v d = dev_write tgt (bus_act act) tok (base + o) w v d }.

Section Inv.
Context {D : Type} `{Dev : PcieDevice D}.
Implicit Type u : pcie_user D.

Definition bar_ok u (b : nfp_bar) (x : Z) : Prop :=
  bar_index b = x /\ bitsize b = barsz u - 3 /\ bar_mask b = 2 ^ (barsz u - 3) - 1 /\
  bar_iomem b = cfg u + x * 2 ^ (barsz u - 3).

Definition wf u : Prop :=
  22 <= barsz u <= 31 /\ 0 < cfg u /\
  forall x, x ∈ bar_range (proc_primary u) -> exists b, bar u !! Z.to_nat (x - 1) = Some b /\ bar_ok u b x.

Definition locks u : list bool := bar_lock <$> bar u.

(** A BAR the process may use is unlocked. *)
Definition free_bar u : Prop :=
  exists x b, x ∈ bar_range (proc_primary u) /\ bar u !! Z.to_nat (x - 1) = Some b /\ bar_lock b = false.

(** What no area operation changes. *)
Definition same_frame u u' : Prop :=
  barsz u' = barsz u /\ cfg u' = cfg u /\ proc_primary u' = proc_primary u /\
  length (bar u') = length (bar u).

Lemma bar_range_bounds p x : x ∈ bar_range p -> 2 <= x <= 7.
Proof using.
  destruct p; cbn; rewrite !elem_of_cons, elem_of_nil; intros [?|[?|[?|[]]]]; lia.
Qed.

Definition enabled u (x : Z) : Prop :=
  exists b, bar u !! Z.to_nat (x - 1) = Some b /\ bar_ok u b x /\ bar_lock b = false.

Lemma set_bar_frame u i b : same_frame u (set_bar i b u).
Proof using. repeat split. apply length_insert. Qed.

Lemma frame_trans u1 u2 u3 : same_frame u1 u2 -> same_frame u2 u3 -> same_frame u1 u3.
Proof using. unfold same_frame. intros (?&?&?&?) (?&?&?&?). repeat split; congruence. Qed.

Lemma int_shl_small x n : 0 <= x <= 7 -> 0 <= n <= 28 -> int_shl x n = x * 2 ^ n.
Proof using.
  intros Hx Hn. unfold int_shl. rewrite Z.shiftl_mul_pow2 by lia. apply s32_id.
  assert (0 < 2 ^ n <= 2 ^ 28) by (split; [apply Z.pow_pos_nonneg; lia|apply Z.pow_le_mono_r; lia]). nia.
Qed.

Lemma enable_bar_ok u x : 22 <= barsz u <= 31 -> 0 <= x <= 7 -> bar_ok u (enable_bar u x) x.
Proof using.
  intros Hs Hx. unfold bar_ok, enable_bar. cbn. rewrite !int_shl_small by lia.
  assert (0 < 2 ^ (barsz u - 3) <= 2 ^ 28) by (split; [apply Z.pow_pos_nonneg; lia|apply Z.pow_le_mono_r; lia]).
  rewrite s32_id, u64_id by (unfold is_u64; lia). split_and!; lia.
Qed.

(** The loop of [nfp_enable_bars]. *)
Lemma enable_loop xs u : (forall x, x ∈ xs -> 1 <= x <= 7) -> length (bar u) = 7%nat ->
  22 <= barsz u <= 31 ->
  let u' := foldl (fun u x => set_bar (Z.to_nat (x - 1)) (enable_bar u x) u) u xs in
  same_frame u u' /\
  forall x, 1 <= x <= 7 -> x ∈ xs \/ enabled u x -> enabled u' x.
Proof using.
  revert u. induction xs as [|y xs IH]; intros u Hx Hl Hs; cbn.
  { split; [by repeat split|]. intros x _ [Hn|H]; [by apply elem_of_nil in Hn|done]. }
  destruct (IH (set_bar (Z.to_nat (y - 1)) (enable_bar u y) u)) as [Hf Hall].
  { intros x Hi. apply Hx. by right. } { cbn. by rewrite length_insert. } { done. }
  split; [eapply frame_trans; [apply set_bar_frame|exact Hf]|].
  intros x Hx7 Hi. apply Hall; [done|]. rewrite elem_of_cons in Hi.
  assert (1 <= y <= 7) by (apply Hx; by left).
  destruct (decide (x = y)) as [->|N].
  - right. exists (enable_bar u y). cbn. rewrite list_lookup_insert_eq by lia.
    split; [done|]. split; [exact (enable_bar_ok u y Hs ltac:(lia))|done].
  - destruct Hi as [[->|?]|(b & ? & ?)]; [done|by left|right].
    exists b. cbn. rewrite list_lookup_insert_ne by lia. done.
Qed.

Lemma enable_wf u : 22 <= barsz u <= 31 -> 0 < cfg u -> length (bar u) = 7%nat ->
  wf (nfp_enable_bars u) /\ same_frame u (nfp_enable_bars u) /\ free_bar (nfp_enable_bars u).
Proof using.
  intros Hs Hc Hl.
  destruct (enable_loop (bar_range (proc_primary u)) u) as [Hf Hall];
    [intros x Hx; apply bar_range_bounds in Hx; lia|done|lia|].
  fold (nfp_enable_bars u) in Hf, Hall. pose proof Hf as (E1 & E2 & E3 & _).
  assert (forall x, x ∈ bar_range (proc_primary u) -> enabled (nfp_enable_bars u) x) as Hen.
  { intros x Hx. pose proof (bar_range_bounds _ _ Hx). apply Hall; [lia|by left]. }
  split; [|split; [done|]].
  - unfold wf. rewrite E1, E2, E3. split; [done|]. split; [done|].
    intros x Hx. destruct (Hen x Hx) as (b & ? & ? & _). eauto.
  - assert (exists x, x ∈ bar_range (proc_primary u)) as [x Hx]
      by (destruct (proc_primary u); eexists; by left).
    destruct (Hen x Hx) as (b & ? & ? & ?). exists x, b. by rewrite E3.
Qed.

(** Replacing a BAR by one with the same geometry. *)
Lemma set_bar_wf u i b b' : wf u -> bar u !! i = Some b ->
  bar_index b' = bar_index b -> bitsize b' = bitsize b -> bar_mask b' = bar_mask b ->
  bar_iomem b' = bar_iomem b -> wf (set_bar i b' u).
Proof using.
  intros (Hs & Hc & Hb) Hi E1 E2 E3 E4. split; [done|]. split; [done|].
  intros x Hx. destruct (Hb x Hx) as (b0 & Hb0 & Hok). unfold bar_ok in *. cbn.
  destruct (decide (Z.to_nat (x - 1) = i)) as [<-|].
  - rewrite list_lookup_insert_eq by (by eapply lookup_lt_Some). simplify_eq.
    exists b'. by rewrite E1, E2, E3, E4.
  - rewrite list_lookup_insert_ne by done. eauto.
Qed.

(** ** Allocation *)

Lemma alloc_loop_spec xs u : (forall x, x ∈ xs -> is_Some (bar u !! Z.to_nat (x - 1))) ->
  match alloc_bar_loop xs u with
  | (Some (i, b), u') =>
      exists x b0, x ∈ xs /\ i = Z.to_nat (x - 1) /\ bar u !! i = Some b0 /\ bar_lock b0 = false /\
        b = bar_set_lock true b0 /\ u' = set_bar i b u
  | (None, u') => u' = u /\ forall x b, x ∈ xs -> bar u !! Z.to_nat (x - 1) = Some b -> bar_lock b = true
  end.
Proof using.
  induction xs as [|x xs IH]; intros Hs; cbn.
  { split; [done|]. intros x b Hx. by apply elem_of_nil in Hx. }
  destruct (Hs x) as [b Hb]; [by left|]. rewrite Hb.
  assert (forall y, y ∈ xs -> is_Some (bar u !! Z.to_nat (y - 1))) as Hs' by (intros y Hy; apply Hs; by right).
  specialize (IH Hs'). destruct (bar_lock b) eqn:El.
  - destruct (alloc_bar_loop xs u) as [[[i b']|] u'].
    + destruct IH as (y & b0 & Hy & ?). exists y, b0. split; [by right|done].
    + destruct IH as [-> Hall]. split; [done|]. intros y b' Hy Hb'.
      apply elem_of_cons in Hy as [->|Hy]; [by simplify_eq|by eapply Hall].
  - exists x, b. split; [by left|done].
Qed.

Lemma alloc_spec u : wf u ->
  match nfp_alloc_bar u with
  | (Some (i, b), u') =>
      exists x b0, x ∈ bar_range (proc_primary u) /\ i = Z.to_nat (x - 1) /\ bar u !! i = Some b0 /\
        bar_lock b0 = false /\ bar_ok u b0 x /\ b = bar_set_lock true b0 /\ u' = set_bar i b u
  | (None, u') => u' = u /\ ~ free_bar u
  end.
Proof using.
  intros (Hs & Hc & Hb). unfold nfp_alloc_bar.
  pose proof (alloc_loop_spec (bar_range (proc_primary u)) u) as H.
  destruct (alloc_bar_loop _ _) as [[[i b]|] u'].
  - destruct H as (x & b0 & Hx & -> & Hb0 & Hl & Heq & Hu'). { intros x Hx. destruct (Hb x Hx) as (? & -> & _). eauto. }
    destruct (Hb x Hx) as (b1 & Hb1 & Hok). rewrite Hb0 in Hb1. injection Hb1 as <-. exists x, b0. auto 10.
  - destruct H as [-> Hall]. { intros x Hx. destruct (Hb x Hx) as (? & -> & _). eauto. }
    split; [done|]. intros (x & b & Hx & Hb' & Hl). by rewrite (Hall x b Hx Hb') in Hl.
Qed.

(** ** Live areas *)

(** Area [p] has its BAR: locked, mapped, and opening in the device the window of
    the area's target, action and token at the block that contains the area. *)
Definition owns u (p : nfp6000_area_priv) : Prop :=
  exists x b base, x ∈ bar_range (proc_primary u) /\
    p_bar p = Some (Z.to_nat (x - 1)) /\ bar u !! Z.to_nat (x - 1) = Some b /\
    bar_lock b = true /\ bar_ok u b x /\ barcfg b = csr_mem u (csr_addr u x) /\
    opens (csr_mem u (csr_addr u x)) (p_target p) (p_action p) (p_token p) base /\
    (2 ^ (barsz u - 3) | base) /\ base <= p_offset p /\
    p_offset p + p_size p <= base + 2 ^ (barsz u - 3) /\
    0 <= p_offset p < 2 ^ 40 /\ 0 < p_size p.

(** And its window is mapped where the area starts. *)
Definition mapped u (p : nfp6000_area_priv) : Prop :=
  owns u p /\ exists x, p_bar p = Some (Z.to_nat (x - 1)) /\ x ∈ bar_range (proc_primary u) /\
    p_iomem p = cfg u + x * 2 ^ (barsz u - 3) + p_offset p mod 2 ^ (barsz u - 3).

(** A destination and range as the core passes them on. *)
Definition dest_ok (dest address size : Z) : Prop :=
  0 <= NFP_CPP_ID_TARGET_of dest /\ 0 <= NFP_CPP_ID_TOKEN_of dest < 4 /\
  0 <= NFP_CPP_ID_ACTION_of dest <= 32 /\
  0 <= address /\ 0 < size /\ address + size <= 2 ^ 40.

Lemma csr_addr_arith u x : 0 <= x < 8 -> csr_addr u x = cfg u + 0x30000 + x * 4.
Proof using.
  intros. unfold csr_addr, NFP_PCIE_CFG_BAR_PCIETOCPPEXPBAR, NFP_PCIE_BAR. masks.
  change (0 mod 8) with 0. lia.
Qed.

(** What a successful [nfp6000_area_init] leaves behind. *)
Lemma area_init_owns dest address size u p u' : wf u -> dest_ok dest address size ->
  nfp6000_area_init dest address size u = (Ok p, u') ->
  exists x b0 b, x ∈ bar_range (proc_primary u) /\
    bar u !! Z.to_nat (x - 1) = Some b0 /\ bar_lock b0 = false /\
    bar u' = <[Z.to_nat (x - 1) := b]> (bar u) /\ bar_lock b = true /\
    (forall a, a <> csr_addr u x -> csr_mem u' a = csr_mem u a) /\
    wf u' /\ same_frame u u' /\ p_dev u' = p_dev u /\
    p_bar p = Some (Z.to_nat (x - 1)) /\ owns u' p /\
    p_target p = NFP_CPP_ID_TARGET_of dest /\ p_action p = NFP_CPP_ID_ACTION_of dest /\
    p_token p = NFP_CPP_ID_TOKEN_of dest /\ p_offset p = address /\ p_size p = size.
Proof using.
  intros Hwf (Ht & Hk & Ha & Hadr & Hsz & H40). unfold nfp6000_area_init. cbv zeta.
  destruct (nfp6000_target_pushpull _ _) as [pp|]; [|done].
  destruct (_ && _); [done|]. pose proof (alloc_spec u Hwf) as Hal.
  destruct (nfp_alloc_bar u) as [[[i b]|] u1]; [|done].
  destruct Hal as (x & b0 & Hx & -> & Hb0 & Hl & Hok & -> & ->).
  pose proof Hwf as (Hs & Hc & _). destruct Hok as (Hi & Hbs & Hm & Hio).
  unfold nfp_reconfigure_bar.
  pose proof (compute_bar_window (bar_set_lock true b0) (NFP_CPP_ID_TARGET_of dest)
    (NFP_CPP_ID_ACTION_of dest) (NFP_CPP_ID_TOKEN_of dest) address size
    (w_bar (mkWidth (width_val (PUSH_WIDTH pp)) (width_val (PULL_WIDTH pp))
      (if width_val (PUSH_WIDTH pp) >? 0 then width_val (PUSH_WIDTH pp)
       else width_val (PULL_WIDTH pp))))) as Hcb.
  cbn [bitsize bar_set_lock w_bar] in Hcb.
  destruct (nfp_compute_bar _ _ _ _ _ _ _) as [[c base]|]; [|done].
  destruct Hcb as (Hop & Hb1 & Hb2 & Hdv); [lia..|].
  unfold nfp_bar_write. cbn [cfg set_bar bar_index bar_set_base bar_set_lock].
  rewrite (proj2 (Z.eqb_neq _ _)) by lia. intros H. injection H as <- <-.
  pose proof (bar_range_bounds _ _ Hx) as Hx7.
  assert (Z.to_nat (x - 1) < length (bar u))%nat by (by eapply lookup_lt_Some).
  eexists x, b0, _. split; [done|]. split; [done|]. split; [done|].
  split. { cbn. by rewrite !list_insert_insert_eq. }
  split; [done|].
  split. { intros a Hna. cbn. rewrite Hi. unfold csr_addr in *. cbn.
    by rewrite (proj2 (Z.eqb_neq _ _)). }
  assert (wf (set_bar (Z.to_nat (x - 1)) (bar_set_cfg c (csr_addr u x) (bar_set_base base (bar_set_lock true b0))) u)) as Hw.
  { by eapply set_bar_wf. }
  split. { destruct Hw as (Hw1 & Hw2 & Hw3). split; [done|]. split; [done|].
    intros y Hy. destruct (Hw3 y Hy) as (b & Hb & Hbo). exists b. split; [|exact Hbo].
    cbn in Hb |- *. rewrite !list_insert_insert_eq, Hi. exact Hb. }
  split. { unfold same_frame. cbn. by rewrite !length_insert. }
  split; [done|]. split; [done|]. split; [|done].
  eexists x, _, base. cbn [p_bar p_target p_action p_token p_offset p_size].
  split; [done|]. split; [done|].
  split. { cbn. rewrite list_lookup_insert_eq; [reflexivity|by rewrite !length_insert]. }
  split; [done|]. split; [done|].
  assert (forall u1, csr_addr u1 x = cfg u1 + 0x30000 + x * 4) as Hca by (intros; apply csr_addr_arith; lia).
  assert (forall A (X Y : A), (if csr_addr u x =? csr_addr u x then X else Y) = X) as Hif
    by (intros; by rewrite Z.eqb_refl).
  split. { cbn. rewrite Hi. symmetry. apply Hif. }
  rewrite Hbs in Hb2, Hdv. split; [|split; [exact Hdv|]].
  - cbn. rewrite Hi. unfold csr_addr. cbn. by rewrite Z.eqb_refl.
  - cbn [barsz csr_write set_bar]. lia.
Qed.
End Inv.
