(* ===== verification/CppPcieAccess.v ===== *)
(** * Accesses of the CPP core through the PCIe transport

    The step relation of a process's area operations and its invariant; the words
    read and written through an area as CPP transactions; and [nfp_cpp_read],
    [nfp_cpp_write] end to end. *)

From S2P Require Export CppPcieInv.

Local Open Scope Z_scope.

Section Access.
Context {D : Type} `{Dev : PcieDevice D}.
Implicit Type u : pcie_user D.

(** ** Steps *)

Lemma owns_frame u u' p : same_frame u u' ->
  (forall x, p_bar p = Some (Z.to_nat (x - 1)) -> x ∈ bar_range (proc_primary u) ->
     bar u' !! Z.to_nat (x - 1) = bar u !! Z.to_nat (x - 1) /\
     csr_mem u' (csr_addr u x) = csr_mem u (csr_addr u x)) ->
  owns u p -> owns u' p.
Proof using.
  intros (E1 & E2 & E3 & _) Hb (x & b & base & Hx & Hp & Hlk & H).
  destruct (Hb x Hp Hx) as [Eb Ec]. exists x, b, base. unfold bar_ok in *.
  assert (csr_addr u' x = csr_addr u x) as -> by (unfold csr_addr; by rewrite E2).
  rewrite E1, E2, E3, Ec, Eb. naive_solver.
Qed.

Lemma owns_set_dev d u p : owns (set_dev d u) p <-> owns u p.
Proof using. split; apply owns_frame; repeat split. Qed.

(** [owns] does not depend on where the window was mapped. *)
Lemma owns_iomem u p p' : p_bar p' = p_bar p -> p_target p' = p_target p ->
  p_action p' = p_action p -> p_token p' = p_token p -> p_offset p' = p_offset p ->
  p_size p' = p_size p -> owns u p -> owns u p'.
Proof using. intros E1 E2 E3 E4 E5 E6. unfold owns. by rewrite E1, E2, E3, E4, E5, E6. Qed.

(** [nfp6000_area_acquire] on an area that has its BAR maps its window. *)
Lemma area_acquire_mapped u p : wf u -> owns u p ->
  exists p', nfp6000_area_acquire p u = (Ok tt, p', u) /\ mapped u p' /\ p_bar p' = p_bar p /\
    p_width p' = p_width p /\ p_size p' = p_size p /\ p_offset p' = p_offset p /\
    p_target p' = p_target p /\ p_action p' = p_action p /\ p_token p' = p_token p.
Proof using.
  intros (Hs & Hc & _) Hown. pose proof Hown as (x & b & base & Hx & Hp & Hb & _ & Hok & Hcfg & Hop & Hdv & Hb1 & Hb2 & Hoff & Hsz).
  pose proof (bar_range_bounds _ _ Hx) as Hx7.
  destruct Hok as (Hi & Hbs & Hm & Hio).
  unfold nfp6000_area_acquire, area_bar. rewrite Hp, Hb.
  rewrite (proj2 (Z.eqb_neq (bar_iomem b) 0)).
  2: { rewrite Hio. pose proof (Z.pow_pos_nonneg 2 (barsz u - 3)). nia. }
  eexists. split; [reflexivity|]. cbn [p_bar p_width p_size p_offset p_target p_action p_token].
  split; [|by split_and!]. split.
  { by apply (owns_iomem u p). }
  exists x. split; [done|]. split; [done|]. cbn [p_iomem p_offset]. rewrite Hio. f_equal.
  unfold area_bar_offset. rewrite Hcfg.
  assert (NFP_PCIE_BAR_PCIE2CPP_MAPTYPE_OF (csr_mem u (csr_addr u x)) =? MAPTYPE_GENERAL = false) as ->.
  { destruct Hop as (_ & _ & Hty). destruct (is_bulk _); destruct Hty as [-> _]; done. }
  replace (bar_mask b) with (Z.ones (barsz u - 3)) by (rewrite Hm, Z.ones_equiv; lia).
  rewrite Z.land_ones by lia. apply u32_id.
  pose proof (Z.mod_pos_bound (p_offset p) (2 ^ (barsz u - 3)) ltac:(apply Z.pow_pos_nonneg; lia)).
  split; [lia|]. apply Z.lt_le_trans with (2 ^ (barsz u - 3)); [lia|].
  change 0x100000000 with (2 ^ 32). apply Z.pow_le_mono_r; lia.
Qed.

(** The operations of a process on its areas, [live] being the areas it holds. *)
Inductive area_step : pcie_user D * list nfp6000_area_priv ->
                      pcie_user D * list nfp6000_area_priv -> Prop :=
| step_init u live dest address size p u' :
    dest_ok dest address size ->
    nfp6000_area_init dest address size u = (Ok p, u') ->
    area_step (u, live) (u', p :: live)
| step_acquire u l1 p l2 p' :
    nfp6000_area_acquire p u = (Ok tt, p', u) ->
    area_step (u, l1 ++ p :: l2) (u, l1 ++ p' :: l2)
| step_access u live d :
    area_step (u, live) (set_dev d u, live)
| step_release u l1 p l2 p' u' :
    nfp6000_area_release p u = (p', u') ->
    area_step (u, l1 ++ p :: l2) (u', l1 ++ l2).

Definition area_inv (s : pcie_user D * list nfp6000_area_priv) : Prop :=
  wf s.1 /\ Forall (owns s.1) s.2 /\ NoDup (p_bar <$> s.2).

Lemma csr_addr_inj u x y : 0 <= x < 8 -> 0 <= y < 8 -> csr_addr u x = csr_addr u y -> x = y.
Proof using. intros. rewrite !csr_addr_arith in * by lia. lia. Qed.

Lemma init_inv u live dest address size p u' : dest_ok dest address size ->
  nfp6000_area_init dest address size u = (Ok p, u') ->
  area_inv (u, live) -> area_inv (u', p :: live).
Proof using.
  unfold area_inv. cbn [fst snd]. intros Hd Hi (Hw & Hl & Hn).
  destruct (area_init_owns _ _ _ _ _ _ Hw Hd Hi)
    as (x & b0 & b & Hx & Hb0 & Hlk0 & Hbar & _ & Hcsr & Hw' & Hf & _ & Hp & Hown & _).
  pose proof (bar_range_bounds _ _ Hx).
  assert (forall q, owns u q -> p_bar q <> p_bar p) as Hne.
  { intros q (y & c & ? & _ & Hq & Hc & Hlkc & _) E. rewrite Hq, Hp in E. injection E as E.
    rewrite E, Hb0 in Hc. congruence. }
  rewrite Forall_forall in Hl. split; [done|]. split.
  - apply Forall_cons. split; [done|]. apply Forall_forall. intros q Hq.
    pose proof (Hl q Hq) as Hqo. apply (owns_frame u); [done| |done].
    intros y Hy Hyr. pose proof (bar_range_bounds _ _ Hyr). pose proof (Hne q Hqo) as Hqn.
    assert (Z.to_nat (x - 1) <> Z.to_nat (y - 1)) by (rewrite Hy, Hp in Hqn; congruence).
    split; [by rewrite Hbar, list_lookup_insert_ne|]. apply Hcsr.
    intros E. apply csr_addr_inj in E; lia.
  - cbn. apply NoDup_cons. split; [|done]. intros Hin.
    apply list_elem_of_fmap in Hin as (q & Hq & Hqin). by apply (Hne q); [apply Hl|].
Qed.

Lemma release_inv u l1 p l2 p' u' : nfp6000_area_release p u = (p', u') ->
  area_inv (u, l1 ++ p :: l2) -> area_inv (u', l1 ++ l2).
Proof using.
  unfold area_inv. cbn [fst snd]. intros Hr (Hw & Hl & Hn). rewrite Forall_app, Forall_cons in Hl.
  destruct Hl as (Hl1 & Hp & Hl2). rewrite fmap_app, fmap_cons in Hn.
  apply NoDup_app in Hn as (Hn1 & Hn12 & Hn2). apply NoDup_cons in Hn2 as [Hnp Hn2].
  pose proof Hp as (x & b & base & Hx & Hpb & Hb & _).
  unfold nfp6000_area_release, area_bar in Hr. rewrite Hpb, Hb in Hr. injection Hr as _ <-.
  assert (wf (set_bar (Z.to_nat (x - 1)) (bar_set_lock false b) u)) as Hw' by by eapply set_bar_wf.
  split; [exact Hw'|]. split.
  - assert (forall q, q ∈ l1 ++ l2 -> owns u q /\ p_bar q <> p_bar p) as Hq.
    { rewrite Forall_forall in Hl1, Hl2. intros q Hin. apply elem_of_app in Hin as [Hin|Hin].
      - split; [by apply Hl1|]. intros E. apply (Hn12 (p_bar q)).
        + apply list_elem_of_fmap. eauto.
        + rewrite E. by left.
      - split; [by apply Hl2|]. intros E. apply Hnp. rewrite <- E. apply list_elem_of_fmap. eauto. }
    apply Forall_forall. intros q Hin. destruct (Hq q Hin) as [Hqo Hqn].
    apply (owns_frame u); [apply set_bar_frame| |done].
    intros y Hy _. split; [|done]. cbn. rewrite list_lookup_insert_ne; [done|].
    rewrite Hy, Hpb in Hqn. congruence.
  - rewrite fmap_app. apply NoDup_app. split; [done|]. split; [|done].
    intros y Hy Hy2. apply (Hn12 y Hy). by right.
Qed.

Lemma acquire_inv u l1 p l2 p' : nfp6000_area_acquire p u = (Ok tt, p', u) ->
  area_inv (u, l1 ++ p :: l2) -> area_inv (u, l1 ++ p' :: l2).
Proof using.
  unfold area_inv. cbn [fst snd]. intros Ha (Hw & Hl & Hn). rewrite Forall_app, Forall_cons in Hl.
  destruct Hl as (Hl1 & Hp & Hl2).
  destruct (area_acquire_mapped u p Hw Hp) as (q & Hq & (Hqo & _) & Hqb & _).
  rewrite Ha in Hq. injection Hq as <-. split; [done|]. split.
  - rewrite Forall_app, Forall_cons. done.
  - rewrite fmap_app, fmap_cons in *. by rewrite Hqb.
Qed.

Lemma area_step_inv s s' : area_step s s' -> area_inv s -> area_inv s'.
Proof using.
  destruct 1.
  - by eapply init_inv.
  - by eapply acquire_inv.
  - intros (Hw & Hl & Hn). split; [exact Hw|]. split; [|done]. cbn in *.
    eapply Forall_impl; [exact Hl|]. intros p. by apply owns_set_dev.
  - by eapply release_inv.
Qed.

(** C15 (invariant): from the BARs as set up, whatever areas a process then opens,
    maps, uses and releases in whatever order, no two areas it holds share a BAR,
    and the BAR of each is locked and still holds, in the device, a window onto the
    target, action and token of that area that contains its whole range: opening
    one area never redirects another.  The mapping is smaller than 4 GB: for a larger one
    the [int] that places a BAR's window overflows ([enable_bar_overflows]). *)
Theorem live_areas_own_their_bars u u' live :
  22 <= barsz u <= 31 -> 0 < cfg u -> length (bar u) = 7%nat ->
  rtc area_step (nfp_enable_bars u, []) (u', live) ->
  NoDup (p_bar <$> live) /\ Forall (owns u') live.
Proof using.
  intros Hs Hc Hl Hr. destruct (enable_wf u Hs Hc Hl) as [Hw _].
  assert (forall s, rtc area_step (nfp_enable_bars u, []) s -> area_inv s) as Hinv.
  { intros s Hs'. eapply rtc_ind_r; [|by intros; eapply area_step_inv|exact Hs'].
    split; [done|]. split; [done|]. constructor. }
  destruct (Hinv _ Hr) as (_ & H1 & H2). auto.
Qed.

(** ** Accesses *)

Context `{Cpp : CppDevice D} {Laws : PcieLaws D}.

(** Consecutive transactions of [w] bytes. *)
Fixpoint bus_read_words (n : nat) (tgt act tok a : Z) (w : nat) (d : D) : list Z * D :=
  match n with
  | O => ([], d)
  | S n =>
      let '(v, d) := dev_read tgt act tok a w d in
      let '(bs, d) := bus_read_words n tgt act tok (a + Z.of_nat w) w d in
      (le_split w v ++ bs, d)
  end.

Fixpoint bus_write_words (n : nat) (tgt act tok a : Z) (w : nat) (bs : list Z) (d : D) : D :=
  match n with
  | O => d
  | S n => bus_write_words n tgt act tok (a + Z.of_nat w) w (drop w bs)
             (dev_write tgt act tok a w (le_combine (take w bs)) d)
  end.

(** The window and offset of an address in the area. *)
Lemma mapped_window u p o : wf u -> mapped u p -> 0 <= o < p_size p ->
  exists base, opens (window_cfg u (p_iomem p + o)) (p_target p) (p_action p) (p_token p) base /\
    (2 ^ (barsz u - 3) | base) /\ base + window_off u (p_iomem p + o) = p_offset p + o /\
    0 <= window_off u (p_iomem p + o) < 2 ^ (barsz u - 3).
Proof using.
  intros (Hs & _ & _) ((x & b & base & Hx & Hp & _ & _ & _ & _ & Hop & Hdv & Hb1 & Hb2 & _) &
    (y & Hpy & Hy & Hio)) Ho.
  pose proof (bar_range_bounds _ _ Hx). pose proof (bar_range_bounds _ _ Hy).
  assert (y = x) as -> by (rewrite Hp in Hpy; injection Hpy; lia).
  set (n := 2 ^ (barsz u - 3)) in *. assert (0 < n) by (apply Z.pow_pos_nonneg; lia).
  destruct Hdv as [k ->].
  assert (p_offset p mod n = p_offset p - k * n) as Hmod.
  { replace (p_offset p) with (p_offset p - k * n + k * n) at 1 by lia.
    rewrite Z.mod_add by lia. apply Z.mod_small. lia. }
  assert (p_iomem p + o - cfg u = p_offset p + o - k * n + x * n) as Ea by (rewrite Hio, Hmod; lia).
  exists (k * n). unfold window_cfg, window_of, window_off. fold n. rewrite Ea.
  rewrite Z.div_add, Z.mod_add, (Z.div_small (_ - _)), (Z.mod_small (_ - _)) by lia.
  rewrite Z.add_0_l. split; [exact Hop|]. split; [by exists k|]. lia.
Qed.

Lemma mapped_read u p o w : wf u -> mapped u p -> 0 <= o < p_size p ->
  mm_read (p_iomem p + o) w u =
  let '(v, d) := dev_read (p_target p) (bus_act (p_action p)) (p_token p) (p_offset p + o) w (p_dev u) in
  (v, set_dev d u).
Proof using Laws.
  intros Hw Hm Ho. destruct (mapped_window u p o Hw Hm Ho) as (base & Hop & Hdv & <- & Hwo).
  unfold mm_read. by rewrite (window_read _ _ _ _ (p_target p) (p_action p) (p_token p) base).
Qed.

Lemma mapped_write u p o w v : wf u -> mapped u p -> 0 <= o < p_size p ->
  mm_write (p_iomem p + o) w v u =
  set_dev (dev_write (p_target p) (bus_act (p_action p)) (p_token p) (p_offset p + o) w v (p_dev u)) u.
Proof using Laws.
  intros Hw Hm Ho. destruct (mapped_window u p o Hw Hm Ho) as (base & Hop & Hdv & <- & Hwo).
  unfold mm_write. by rewrite (window_write _ _ _ _ _ (p_target p) (p_action p) (p_token p) base).
Qed.

Lemma mapped_set_dev d u p : mapped u p -> mapped (set_dev d u) p.
Proof using. intros [H1 H2]. split; [by apply owns_set_dev|exact H2]. Qed.

Lemma read_loop_words n u p o w : wf u -> mapped u p -> 0 <= o -> (0 < w)%nat ->
  o + Z.of_nat n * Z.of_nat w <= p_size p ->
  read_loop n (p_iomem p + o) w u =
  let '(bs, d) := bus_read_words n (p_target p) (bus_act (p_action p)) (p_token p) (p_offset p + o) w (p_dev u) in
  (bs, set_dev d u).
Proof using Laws.
  intros Hw Hm Ho Hw0 Hn. revert u o Hw Hm Ho Hn. induction n as [|n IH]; intros u o Hw Hm Ho Hn; cbn [read_loop bus_read_words].
  { by destruct u. }
  rewrite mapped_read by (try done; lia).
  destruct (dev_read _ _ _ _ _ _) as [v d]. rewrite <- !Z.add_assoc.
  rewrite (IH (set_dev d u) (o + Z.of_nat w)); [|done|by apply mapped_set_dev|lia..].
  cbn [p_dev set_dev]. by destruct (bus_read_words _ _ _ _ _ _ _).
Qed.

Lemma write_loop_words n u p o w bs : wf u -> mapped u p -> 0 <= o -> (0 < w)%nat ->
  o + Z.of_nat n * Z.of_nat w <= p_size p ->
  write_loop n (p_iomem p + o) w bs u =
  set_dev (bus_write_words n (p_target p) (bus_act (p_action p)) (p_token p) (p_offset p + o) w bs (p_dev u)) u.
Proof using Laws.
  intros Hw Hm Ho Hw0 Hn. revert u o bs Hw Hm Ho Hn.
  induction n as [|n IH]; intros u o bs Hw Hm Ho Hn; cbn [write_loop bus_write_words].
  { by destruct u. }
  rewrite mapped_write by (try done; lia). rewrite <- !Z.add_assoc.
  rewrite (IH _ (o + Z.of_nat w)); [done|done|by apply mapped_set_dev|lia..].
Qed.

Lemma bus_read_words_length n tgt act tok a w (d : D) :
  length (bus_read_words n tgt act tok a w d).1 = (n * w)%nat.
Proof using.
  revert a d. induction n as [|n IH]; intros a d; cbn; [done|].
  destruct (dev_read _ _ _ _ _ _) as [v d']. pose proof (IH (a + Z.of_nat w) d') as H.
  destruct (bus_read_words _ _ _ _ _ _ _). cbn in *. rewrite length_app, le_split_length, H. lia.
Qed.

(** ** The core's reads and writes *)

Implicit Type cpp : nfp_cpp (pcie_user D).

(** The identifier the transport gives the target tables. *)
Definition plain_id (id : Z) : Z :=
  NFP_CPP_ID (NFP_CPP_ID_TARGET_of id) (NFP_CPP_ID_ACTION_of id) (NFP_CPP_ID_TOKEN_of id).

(** A range of the CPP bus that one BAR can open: [id] and [a] as translated, [pp]
    the target's widths there. *)
Definition one_window u (id a len pp : Z) : Prop :=
  dest_ok id a len /\ NFP_CPP_ID_TARGET_of id < 16 /\
  nfp6000_target_pushpull (plain_id id) a = Ok pp /\
  (0 < width_val (PUSH_WIDTH pp) \/ 0 < width_val (PULL_WIDTH pp)) /\
  in_block (barsz u - 3) a len /\
  (if is_bulk (NFP_CPP_ID_ACTION_of id) then 19 else 24) <= barsz u - 3.

Lemma pp_width_vals pp : pp ∈ pp_words ->
  let r := width_val (PUSH_WIDTH pp) in let w := width_val (PULL_WIDTH pp) in
  (r = -1 \/ r = 4 \/ r = 8) /\ (w = -1 \/ w = 4 \/ w = 8) /\ (0 < r -> 0 < w -> r = w).
Proof using.
  unfold pp_words. intros H.
  repeat (apply elem_of_cons in H as [->|H]); [..|by apply elem_of_nil in H].
  all: vm_compute; repeat split; intros; auto; done.
Qed.

Lemma area_init_complete u id a len pp : wf u -> free_bar u -> one_window u id a len pp ->
  exists p u', nfp6000_area_init id a len u = (Ok p, u') /\
    w_read (p_width p) = width_val (PUSH_WIDTH pp) /\ w_write (p_width p) = width_val (PULL_WIDTH pp).
Proof using.
  intros Hwf Hfree (Hd & Ht & Hpp & Hw & Hblk & Hbits). unfold nfp6000_area_init. cbv zeta.
  fold (plain_id id). rewrite Hpp.
  assert (pp ∈ pp_words) as Hppw by (pose proof (target_pushpull_ok (plain_id id) a) as H; by rewrite Hpp in H).
  destruct (pp_width_vals pp Hppw) as (Hr & Hww & Hrw).
  set (r := width_val (PUSH_WIDTH pp)) in *. set (w := width_val (PULL_WIDTH pp)) in *.
  assert ((r >? 0) && (w >? 0) && negb (r =? w) = false) as ->.
  { destruct (r >? 0) eqn:E1, (w >? 0) eqn:E2; cbn; try done.
    apply Z.gtb_lt in E1, E2. rewrite Hrw by done. by rewrite Z.eqb_refl. }
  pose proof (alloc_spec u Hwf) as Hal.
  destruct (nfp_alloc_bar u) as [[[i b]|] u1]; [|by destruct Hal].
  destruct Hal as (x & b0 & Hx & -> & Hb0 & Hl & (Hi & Hbs & _) & -> & ->).
  destruct Hwf as (Hs & Hc & _). destruct Hd as (Hd1 & Hd2 & Hd3 & Hd4 & Hd5 & Hd6).
  unfold nfp_reconfigure_bar. rewrite compute_bar_ok by (cbn; lia).
  cbn [bitsize bar_set_lock]. rewrite Hbs.
  assert ((compute_fields (NFP_CPP_ID_TARGET_of id) (NFP_CPP_ID_ACTION_of id) (NFP_CPP_ID_TOKEN_of id)).2
          = if is_bulk (NFP_CPP_ID_ACTION_of id) then 19 else 24) as ->.
  { unfold compute_fields, is_bulk. rewrite <- negb_orb. by destruct (_ || _). }
  rewrite decide_True.
  2: { split; [done|]. split; [|done]. cbn [w_bar].
       destruct (Z.gtb_spec r 0); [lia|]. lia. }
  cbv zeta. unfold nfp_bar_write. cbn [cfg set_bar].
  rewrite (proj2 (Z.eqb_neq (cfg u) 0)) by lia. eexists _, _. split; [reflexivity|done].
Qed.

Lemma set_dev_priv d u : p_dev (set_dev d u) = d.
Proof using. done. Qed.

(** An area opened for one access: what it maps, and that releasing it restores the
    locks whatever happened to the device in between. *)
Lemma open_session cpp dest address len id a pp :
  wf (cpp_priv cpp) -> free_bar (cpp_priv cpp) ->
  nfp_target_cpp dest address (Some (imb_lookup cpp)) = Ok (id, a) ->
  0 <= address -> address + len <= 2 ^ 40 ->
  one_window (cpp_priv cpp) id a len pp ->
  exists area u1,
    nfp_cpp_area_alloc_acquire cpp dest address len = (Some area, nfp_cpp_priv_set u1 cpp) /\
    area_size area = len /\ wf u1 /\ mapped u1 (area_priv area) /\ p_dev u1 = p_dev (cpp_priv cpp) /\
    w_read (p_width (area_priv area)) = width_val (PUSH_WIDTH pp) /\
    w_write (p_width (area_priv area)) = width_val (PULL_WIDTH pp) /\
    p_offset (area_priv area) = a /\ p_size (area_priv area) = len /\
    p_target (area_priv area) = NFP_CPP_ID_TARGET_of id /\
    p_action (area_priv area) = NFP_CPP_ID_ACTION_of id /\
    p_token (area_priv area) = NFP_CPP_ID_TOKEN_of id /\
    is_Some (p_bar (area_priv area)) /\
    forall d, exists u2,
      nfp_cpp_area_release_free area (nfp_cpp_priv_set (set_dev d u1) cpp) = nfp_cpp_priv_set u2 cpp /\
      p_dev u2 = d /\ locks u2 = locks (cpp_priv cpp) /\ wf u2 /\ same_frame (cpp_priv cpp) u2.
Proof using.
  intros Hw Hfree Htc Ha0 Ha40 How. set (u := cpp_priv cpp) in *.
  destruct (area_init_complete u id a len pp Hw Hfree How) as (p & u1 & Hi & Hwr & Hww).
  pose proof How as (Hd & _). pose proof Hd as (_ & _ & _ & _ & Hlen & _).
  destruct (area_init_owns _ _ _ _ _ _ Hw Hd Hi)
    as (x & b0 & b & Hx & Hb0 & Hlk0 & Hbar & Hlk & _ & Hw1 & Hf1 & Hdev & Hpb & Hown & Ht & Hact & Htok & Hoff & Hsz).
  destruct (area_acquire_mapped u1 p Hw1 Hown) as (q & Hq & Hmap & Eb & Ew & Es & Eo & Et & Eact & Etok).
  exists (mkArea EmptyString a len q), u1.
  split.
  { unfold nfp_cpp_area_alloc_acquire, nfp_cpp_area_alloc, nfp_cpp_area_alloc_with_name.
    rewrite Z.gtb_ltb, (proj2 (Z.ltb_ge _ _)) by words. rewrite Htc.
    cbn [op_area_init nfp6000_pcie_ops]. fold u. rewrite Hi. cbn [default].
    unfold nfp_cpp_area_acquire. cbn [op_area_acquire nfp6000_pcie_ops area_priv cpp_priv nfp_cpp_priv_set].
    by rewrite Hq. }
  cbn [area_size area_priv].
  split; [done|]. split; [done|]. split; [done|]. split; [done|].
  rewrite Ew, Eo, Es, Et, Eact, Etok, Eb, Hpb. do 8 (split; [done|]).
  intros d. unfold nfp_cpp_area_release_free, nfp_cpp_area_release, nfp_cpp_area_free.
  cbn [op_area_release op_area_cleanup nfp6000_pcie_ops area_priv cpp_priv nfp_cpp_priv_set].
  unfold nfp6000_area_release, area_bar. rewrite Eb, Hpb. cbn [bar set_dev].
  assert (Z.to_nat (x - 1) < length (bar u))%nat by (by eapply lookup_lt_Some).
  rewrite Hbar, list_lookup_insert_eq by done.
  eexists. split; [reflexivity|]. split; [done|]. split; [|split].
  - unfold locks. cbn [bar set_bar set_dev]. rewrite Hbar, list_insert_insert_eq, list_fmap_insert.
    cbn [bar_lock bar_set_lock]. apply list_insert_id. rewrite list_lookup_fmap, Hb0. cbn. by rewrite Hlk0.
  - eapply (set_bar_wf (set_dev d u1) _ b); [exact Hw1| |done..].
    cbn. by rewrite Hbar, list_lookup_insert_eq.
  - eapply frame_trans; [exact Hf1|]. unfold same_frame. cbn. by rewrite length_insert.
Qed.

(** The bytes of one transaction of an access to an area of width [width]. *)
Definition bus_width (id width : Z) : nat :=
  if (width =? 8) && negb ((NFP_CPP_ID_TARGET_of id =? NFP6000_CPPTGT_MU)
                           && (NFP_CPP_ID_ACTION_of id =? NFP_CPP_ACTION_RW))
  then 8%nat else 4%nat.

Lemma bus_width_pos id width : (0 < bus_width id width)%nat.
Proof using. unfold bus_width. destruct (_ && _); lia. Qed.

Lemma access_check_ok p id width len : is_Some (p_bar p) -> p_size p = len -> 0 <= len < 2 ^ 32 ->
  width = 4 \/ width = 8 -> p_offset p mod width = 0 ->
  p_target p = NFP_CPP_ID_TARGET_of id -> p_action p = NFP_CPP_ID_ACTION_of id ->
  len mod Z.of_nat (bus_width id width) = 0 ->
  area_access_check p width 0 len = Ok (bus_width id width).
Proof using.
  intros [i Hb] Hs Hl Hw Hal Ht Ha Hm. unfold area_access_check. rewrite Hs, Hb, Ht, Ha.
  rewrite Z.add_0_l, u64_id, Z.gtb_ltb, Z.ltb_irrefl by words.
  rewrite (proj2 (Z.leb_gt width 0)), Z.add_0_r by lia.
  assert (Z.land (p_offset p) (width - 1) = p_offset p mod width) as ->.
  { destruct Hw as [-> | ->]; [by apply (land_mask _ 2)|by apply (land_mask _ 3)]. }
  rewrite Hal. cbn [negb Z.eqb].
  change (Z.land NFP_CPP_TARGET_ID_MASK NFP6000_CPPTGT_MU) with NFP6000_CPPTGT_MU.
  unfold bus_width in *. destruct (_ && _).
  - change (Z.of_nat 8) with 8 in Hm. by rewrite Hm.
  - change (Z.of_nat 4) with 4 in Hm. by rewrite Hm.
Qed.

(** C13 (refinement): [nfp_cpp_read] of a range that one BAR can open, aligned to the
    target's read width, while a BAR is free, returns exactly the bytes of the
    consecutive CPP transactions on the translated target, action, token and
    address, of 8 bytes on 64-bit targets and 4 bytes elsewhere and in plain
    accesses to memory units; nothing but these transactions reaches the device,
    and every BAR is left as free or taken as it was. *)
Theorem cpp_read_transactions cpp dest address len id a pp :
  wf (cpp_priv cpp) -> free_bar (cpp_priv cpp) ->
  nfp_target_cpp dest address (Some (imb_lookup cpp)) = Ok (id, a) ->
  0 <= address -> address + len <= 2 ^ 40 -> len < 2 ^ 32 ->
  one_window (cpp_priv cpp) id a len pp ->
  let width := width_val (PUSH_WIDTH pp) in
  let w := bus_width id width in
  0 < width -> a mod width = 0 -> len mod Z.of_nat w = 0 ->
  exists u2,
    let '(bs, d) := bus_read_words (Z.to_nat (len / Z.of_nat w)) (NFP_CPP_ID_TARGET_of id)
      (bus_act (NFP_CPP_ID_ACTION_of id)) (NFP_CPP_ID_TOKEN_of id) a w (p_dev (cpp_priv cpp)) in
    nfp_cpp_read cpp dest address len = (Ok bs, nfp_cpp_priv_set u2 cpp) /\
    p_dev u2 = d /\ locks u2 = locks (cpp_priv cpp) /\ wf u2 /\ same_frame (cpp_priv cpp) u2.
Proof using Laws.
  intros Hwf Hfree Htc Ha0 Ha40 Hl32 How width w Hwp Hal Hlw.
  destruct (open_session cpp dest address len id a pp)
    as (area & u1 & Hopen & Hsz & Hw1 & Hm & Hdev & Hr & _ & Hoff & Hps & Ht & Hact & Htok & Hb & Hclose); [done..|].
  pose proof How as ((_ & _ & _ & _ & Hlen & _) & _ & Hpp & _).
  assert (width = 4 \/ width = 8) as Hw48.
  { pose proof (target_pushpull_ok (plain_id id) a) as H. rewrite Hpp in H.
    destruct (pp_width_vals pp H) as ([H1|H1] & _); unfold width in *; [lia|exact H1]. }
  pose proof (access_check_ok (area_priv area) id width len Hb Hps) as Hchk.
  unfold nfp_cpp_read. rewrite Hopen. unfold nfp_cpp_area_read.
  rewrite Hsz, Z.add_0_l, u64_id, Z.gtb_ltb, Z.ltb_irrefl by words.
  cbn [op_area_read nfp6000_pcie_ops cpp_priv nfp_cpp_priv_set]. unfold nfp6000_area_read.
  rewrite Hr. fold width. rewrite u32_id by words. rewrite Hchk by (try done; rewrite ?Hoff; lia || done).
  pose proof (bus_width_pos id width) as Hwpos. fold w in Hwpos |- *.
  rewrite read_loop_words; [|done|done|lia|done|].
  2: { rewrite Hps. assert (0 <= len / Z.of_nat w) by (apply Z.div_pos; lia).
       rewrite Z2Nat.id by done. pose proof (Z.mul_div_le len (Z.of_nat w)). lia. }
  rewrite Ht, Hact, Htok, Hoff, Z.add_0_r, Hdev.
  destruct (bus_read_words _ _ _ _ _ _ _) as [bs d].
  destruct (Hclose d) as (u2 & Hrf & Hu2). exists u2. split; [|exact Hu2]. cbn in Hrf |- *. by rewrite <- Hrf.
Qed.

(** C14 (refinement): under the same conditions for the target's write width,
    [nfp_cpp_write] reports the whole length and performs exactly the consecutive
    CPP write transactions with the buffer's bytes, leaving the BARs as they
    were. *)
Theorem cpp_write_transactions cpp dest address data id a pp :
  let len := Z.of_nat (length data) in
  wf (cpp_priv cpp) -> free_bar (cpp_priv cpp) ->
  nfp_target_cpp dest address (Some (imb_lookup cpp)) = Ok (id, a) ->
  0 <= address -> address + len <= 2 ^ 40 -> len < 2 ^ 32 ->
  one_window (cpp_priv cpp) id a len pp ->
  let width := width_val (PULL_WIDTH pp) in
  let w := bus_width id width in
  0 < width -> a mod width = 0 -> len mod Z.of_nat w = 0 ->
  exists u2,
    nfp_cpp_write cpp dest address data len = (Ok len, nfp_cpp_priv_set u2 cpp) /\
    p_dev u2 = bus_write_words (Z.to_nat (len / Z.of_nat w)) (NFP_CPP_ID_TARGET_of id)
      (bus_act (NFP_CPP_ID_ACTION_of id)) (NFP_CPP_ID_TOKEN_of id) a w data (p_dev (cpp_priv cpp)) /\
    locks u2 = locks (cpp_priv cpp) /\ wf u2 /\ same_frame (cpp_priv cpp) u2.
Proof using Laws.
  intros len Hwf Hfree Htc Ha0 Ha40 Hl32 How width w Hwp Hal Hlw.
  destruct (open_session cpp dest address len id a pp)
    as (area & u1 & Hopen & Hsz & Hw1 & Hm & Hdev & _ & Hr & Hoff & Hps & Ht & Hact & Htok & Hb & Hclose); [done..|].
  pose proof How as ((_ & _ & _ & _ & Hlen & _) & _ & Hpp & _).
  assert (width = 4 \/ width = 8) as Hw48.
  { pose proof (target_pushpull_ok (plain_id id) a) as H. rewrite Hpp in H.
    destruct (pp_width_vals pp H) as (_ & [H1|H1] & _); unfold width in *; [lia|exact H1]. }
  pose proof (access_check_ok (area_priv area) id width len Hb Hps) as Hchk.
  unfold nfp_cpp_write. rewrite Hopen. unfold nfp_cpp_area_write.
  rewrite Hsz, Z.add_0_l, u64_id, Z.gtb_ltb, Z.ltb_irrefl by words.
  cbn [op_area_write nfp6000_pcie_ops cpp_priv nfp_cpp_priv_set]. unfold nfp6000_area_write.
  rewrite Hr. fold width. rewrite u32_id by words. rewrite Hchk by (try done; rewrite ?Hoff; lia || done).
  pose proof (bus_width_pos id width) as Hwpos. fold w in Hwpos |- *.
  rewrite write_loop_words; [|done|done|lia|done|].
  2: { rewrite Hps. assert (0 <= len / Z.of_nat w) by (apply Z.div_pos; lia).
       rewrite Z2Nat.id by done. pose proof (Z.mul_div_le len (Z.of_nat w)). lia. }
  rewrite Ht, Hact, Htok, Hoff, Z.add_0_r, Hdev.
  match goal with |- context [set_dev ?d _] => destruct (Hclose d) as (u2 & Hrf & Hu2) end.
  exists u2. split; [|exact Hu2]. cbn in Hrf |- *. by rewrite <- Hrf.
Qed.

(** ** Refused areas *)

Lemma cpp_priv_set_same cpp : nfp_cpp_priv_set (cpp_priv cpp) cpp = cpp.
Proof using. by destruct cpp. Qed.

Lemma no_bar_no_area cpp dest address len : wf (cpp_priv cpp) -> ~ free_bar (cpp_priv cpp) ->
  nfp_cpp_area_alloc_acquire cpp dest address len = (None, cpp).
Proof using.
  intros Hw Hn. unfold nfp_cpp_area_alloc_acquire, nfp_cpp_area_alloc, nfp_cpp_area_alloc_with_name.
  destruct (_ >? _); [done|]. destruct (nfp_target_cpp _ _ _) as [[id a]|]; [|done].
  cbn [op_area_init nfp6000_pcie_ops].
  assert (exists e, nfp6000_area_init id a len (cpp_priv cpp) = (Err e, cpp_priv cpp)) as [e ->].
  { unfold nfp6000_area_init. cbv zeta. destruct (nfp6000_target_pushpull _ _) as [pp|]; [|eauto].
    destruct (_ && _); [eauto|]. pose proof (alloc_spec _ Hw) as Hal.
    destruct (nfp_alloc_bar (cpp_priv cpp)) as [[[i b]|] u1].
    - destruct Hal as (x & b0 & Hx & -> & Hb0 & Hl & _). destruct Hn. by exists x, b0.
    - destruct Hal as [-> _]. eauto. }
  by rewrite cpp_priv_set_same.
Qed.

(** C16 (error): a read of a range that crosses the boundary of a BAR's window fails,
    and the BAR taken for it is never given back: the only change is that one lock
    that was free is now held. Once no BAR is free, every read and write, however
    well formed, fails and changes nothing. *)
Theorem refused_areas_leak_bars cpp :
  wf (cpp_priv cpp) ->
  (forall dest address len id a pp, free_bar (cpp_priv cpp) ->
     nfp_target_cpp dest address (Some (imb_lookup cpp)) = Ok (id, a) ->
     0 <= address -> address + len <= 2 ^ 40 -> dest_ok id a len ->
     nfp6000_target_pushpull (plain_id id) a = Ok pp ->
     ~ in_block (barsz (cpp_priv cpp) - 3) a len ->
     exists i u2, nfp_cpp_read cpp dest address len = (Err1, nfp_cpp_priv_set u2 cpp) /\
       locks (cpp_priv cpp) !! i = Some false /\ locks u2 = <[i := true]> (locks (cpp_priv cpp)) /\
       p_dev u2 = p_dev (cpp_priv cpp)) /\
  (~ free_bar (cpp_priv cpp) -> forall dest address len data,
     nfp_cpp_read cpp dest address len = (Err1, cpp) /\
     nfp_cpp_write cpp dest address data len = (Err1, cpp)).
Proof using.
  intros Hw. split.
  - intros dest address len id a pp Hfree Htc Ha0 Ha40 Hd Hpp Hblk.
    unfold nfp_cpp_read, nfp_cpp_area_alloc_acquire, nfp_cpp_area_alloc, nfp_cpp_area_alloc_with_name.
    pose proof Hd as (Hd1 & Hd2 & Hd3 & Hd4 & Hd5 & Hd6).
    rewrite Z.gtb_ltb, (proj2 (Z.ltb_ge _ _)) by words. rewrite Htc.
    cbn [op_area_init nfp6000_pcie_ops]. unfold nfp6000_area_init. cbv zeta.
    fold (plain_id id). rewrite Hpp.
    assert (pp ∈ pp_words) as Hppw by (pose proof (target_pushpull_ok (plain_id id) a) as H; by rewrite Hpp in H).
    destruct (pp_width_vals pp Hppw) as (_ & _ & Hrw).
    set (r := width_val (PUSH_WIDTH pp)) in *. set (w := width_val (PULL_WIDTH pp)) in *.
    assert ((r >? 0) && (w >? 0) && negb (r =? w) = false) as ->.
    { destruct (r >? 0) eqn:E1, (w >? 0) eqn:E2; cbn; try done.
      apply Z.gtb_lt in E1, E2. rewrite Hrw by done. by rewrite Z.eqb_refl. }
    pose proof (alloc_spec _ Hw) as Hal.
    destruct (nfp_alloc_bar (cpp_priv cpp)) as [[[i b]|] u1]; [|by destruct Hal].
    destruct Hal as (x & b0 & Hx & -> & Hb0 & Hl & (Hi & Hbs & _) & -> & ->).
    destruct Hw as (Hs & Hc & _).
    unfold nfp_reconfigure_bar. rewrite compute_bar_ok by (cbn; lia).
    cbn [bitsize bar_set_lock]. rewrite Hbs, decide_False by tauto.
    exists (Z.to_nat (x - 1)), (set_bar (Z.to_nat (x - 1)) (bar_set_lock true b0) (cpp_priv cpp)).
    split; [done|]. unfold locks. rewrite list_lookup_fmap, Hb0. cbn. rewrite Hl.
    split; [done|]. by rewrite list_fmap_insert.
  - intros Hn dest address len data. unfold nfp_cpp_read, nfp_cpp_write.
    by rewrite no_bar_no_area.
Qed.
End Access.

(** ** A device *)

(** Each target is a memory; every access is a plain one. *)
Definition sim_mem := Z -> mem.

Definition sim_read (tgt act tok a : Z) (w : nat) (d : sim_mem) : Z * sim_mem :=
  (le_combine (load (d tgt) a (Z.of_nat w)), d).
Definition sim_write (tgt act tok a : Z) (w : nat) (v : Z) (d : sim_mem) : sim_mem :=
  fun t => if t =? tgt then store (d t) a (le_split w v) else d t.

#[export] Instance sim_cpp : CppDevice sim_mem := { dev_read := sim_read; dev_write := sim_write }.

Definition sim_base (c : Z) : Z :=
  if NFP_PCIE_BAR_PCIE2CPP_MAPTYPE_OF c =? MAPTYPE_BULK then bulk_base c else fixed_base c.

#[export] Instance sim_pcie : PcieDevice sim_mem := {
  p2c_read c bs o w d := sim_read (cfg_target c) 0 0 (sim_base c + o) w d;
  p2c_write c bs o w v d := sim_write (cfg_target c) 0 0 (sim_base c + o) w v d }.

#[export] Instance sim_laws : PcieLaws sim_mem.
Proof.
  assert (forall c tgt act tok base, opens c tgt act tok base -> cfg_target c = tgt /\ sim_base c = base) as H.
  { intros c tgt act tok base (Ht & _ & Hop). split; [done|]. unfold sim_base.
    destruct (is_bulk act); [destruct Hop as [-> Hb]|destruct Hop as (-> & _ & Hb)]; done. }
  split; intros; cbn; by destruct (H _ _ _ _ _ H0) as [<- <-].
Qed.

(** A primary process's mapping of 64 MB, set up, with a memory unit holding 7s. *)
Definition ex_user : pcie_user sim_mem :=
  nfp_enable_bars (mkUser (repeat (mkBar 0 0 0 0 0 false 0 0) 7) 26 0x7f0000000000 true
    (fun _ => 0) (fun _ _ => 7)).
(** A mapping of 4 GB: the last window is placed before the mapping. *)
Example enable_bar_overflows :
  let u : pcie_user sim_mem := mkUser [] 32 0x7f0000000000 true (fun _ => 0) (fun _ _ => 7) in
  bar_iomem (enable_bar u 4) = cfg u - 2 ^ 31.
Proof. reflexivity. Qed.

Definition ex_cpp : nfp_cpp (pcie_user sim_mem) :=
  mkCpp 0x60000010 0 [] ex_user (repeat 0 16) false.

Lemma ex_user_wf : wf ex_user /\ free_bar ex_user.
Proof. edestruct (enable_wf (D := sim_mem)) as (? & _ & ?); [..|split; eassumption]; done. Qed.

Definition ex_id : Z := NFP_CPP_ID 7 32 0.

Lemma ex_window len : 0 < len < 0x1000 -> one_window ex_user ex_id 0x8100000000 len 0x22.
Proof.
  intros Hl. unfold one_window, dest_ok, in_block. change (barsz ex_user - 3) with 23.
  change (NFP_CPP_ID_TARGET_of ex_id) with 7. change (NFP_CPP_ID_TOKEN_of ex_id) with 0.
  change (NFP_CPP_ID_ACTION_of ex_id) with 32. change (2 ^ 40) with 0x10000000000.
  change (2 ^ 23) with 0x800000. split_and!; try lia; try (left; done); done.
Qed.

Lemma live_areas_own_their_bars_witness :
  let u0 := mkUser (repeat (mkBar 0 0 0 0 0 false 0 0) 7) 26 0x7f0000000000 true
    (fun _ => 0) (fun _ _ => 7) : pcie_user sim_mem in
  exists u' p q, rtc area_step (nfp_enable_bars u0, []) (u', [q; p]) /\
    NoDup (p_bar <$> [q; p]) /\ Forall (owns u') [q; p].
Proof.
  cbv zeta.
  destruct (nfp6000_area_init ex_id 0x8100000000 64 ex_user) as [[p|] u1] eqn:E1;
    [|exfalso; vm_compute in E1; congruence].
  destruct (nfp6000_area_init ex_id 0x8200000000 64 u1) as [[q|] u2] eqn:E2;
    [|exfalso; vm_compute in E1; injection E1 as <- <-; vm_compute in E2; congruence].
  exists u2, p, q.
  assert (forall a, a = 0x8100000000 \/ a = 0x8200000000 -> dest_ok ex_id a 64) as Hd.
  { intros a Ha. unfold dest_ok. change (NFP_CPP_ID_TARGET_of ex_id) with 7.
    change (NFP_CPP_ID_TOKEN_of ex_id) with 0. change (NFP_CPP_ID_ACTION_of ex_id) with 32.
    change (2 ^ 40) with 0x10000000000. lia. }
  assert (rtc area_step (ex_user, []) (u2, [q; p])) as Hr.
  { eapply rtc_l; [eapply step_init; [apply Hd; by left|exact E1]|].
    eapply rtc_l; [eapply step_init; [apply Hd; by right|exact E2]|]. apply rtc_refl. }
  split; [exact Hr|].
  refine (live_areas_own_their_bars _ u2 [q; p] _ _ _ Hr); [split; by vm_compute|by vm_compute|reflexivity].
Defined.

Lemma cpp_read_transactions_witness : exists u2,
  nfp_cpp_read ex_cpp ex_id 0x8100000000 8 = (Ok [7; 7; 7; 7; 7; 7; 7; 7], nfp_cpp_priv_set u2 ex_cpp) /\
  locks u2 = locks ex_user.
Proof.
  destruct ex_user_wf as [Hw Hf].
  destruct (cpp_read_transactions ex_cpp ex_id 0x8100000000 8 ex_id 0x8100000000 0x22) as (u2 & H);
    [exact Hw|exact Hf|vm_compute; reflexivity|lia|vm_compute; congruence|lia|
     apply ex_window; lia|by vm_compute|by vm_compute|by vm_compute|].
  exists u2. revert H. vm_compute bus_read_words. intros (H1 & _ & H2 & _). split; [exact H1|exact H2].
Defined.

Lemma cpp_write_transactions_witness : exists u2,
  nfp_cpp_write ex_cpp ex_id 0x8100000000 [1; 2; 3; 4] 4 = (Ok 4, nfp_cpp_priv_set u2 ex_cpp) /\
  load (p_dev u2 7) 0x8100000000 4 = [1; 2; 3; 4] /\ locks u2 = locks ex_user.
Proof.
  destruct ex_user_wf as [Hw Hf].
  destruct (cpp_write_transactions ex_cpp ex_id 0x8100000000 [1; 2; 3; 4] ex_id 0x8100000000 0x22)
    as (u2 & H1 & H2 & H3 & _);
    [exact Hw|exact Hf|vm_compute; reflexivity|lia|vm_compute; congruence|cbn; lia|
     apply ex_window; cbn; lia|by vm_compute|by vm_compute|by vm_compute|].
  exists u2. split; [exact H1|]. split; [rewrite H2; by vm_compute|exact H3].
Defined.

(** Three 16-byte reads across a window boundary and no access works any more. *)
Lemma refused_areas_leak_bars_witness :
  let read cpp a n := (nfp_cpp_read cpp ex_id a n).2 in
  let cpp3 := read (read (read ex_cpp 0x81007ffff8 16) 0x81007ffff8 16) 0x81007ffff8 16 in
  locks (cpp_priv (read ex_cpp 0x81007ffff8 16)) = [false; false; false; true; false; false; false] /\
  nfp_cpp_read cpp3 ex_id 0x8100000000 8 = (Err1, cpp3).
Proof.
  cbv zeta. split.
  - destruct ex_user_wf as [Hw Hf].
    destruct (proj1 (refused_areas_leak_bars ex_cpp Hw) ex_id 0x81007ffff8 16 ex_id 0x81007ffff8 0x22)
      as (i & u2 & H1 & H2 & H3 & _); [exact Hf|vm_compute; reflexivity|lia|vm_compute; congruence| |
      vm_compute; reflexivity|vm_compute; congruence|].
    { unfold dest_ok. change (2 ^ 40) with 0x10000000000. split_and!; vm_compute; congruence. }
    vm_compute. reflexivity.
  - vm_compute. reflexivity.
Defined.
