(* ===== verification/CppBus.v ===== *)
(** * Programs over the CPP bus

    The clients of the CPP core (mutexes, resources, firmware tables, the service
    processor) only read and write the bus.  They are programs in a free monad over
    those calls, so that one definition has a sequential meaning over any
    implementation of the interface [CppBus] (the CPP core is one) and a concurrent
    one, a call at a time. *)

From S2P Require Export CppCore.

Local Open Scope Z_scope.

Inductive cprog (A : Type) : Type :=
| CRet (a : A)
| CReadl (cpp_id address : Z) (k : cres Z -> cprog A)
| CWritel (cpp_id address value : Z) (k : cres unit -> cprog A)
| CReadq (cpp_id address : Z) (k : cres Z -> cprog A)
| CWriteq (cpp_id address value : Z) (k : cres unit -> cprog A)
| CRead (cpp_id address length : Z) (k : cres (list Z) -> cprog A)
| CWrite (cpp_id address : Z) (data : list Z) (length : Z) (k : cres Z -> cprog A).
Arguments CRet {A}.
Arguments CReadl {A}.
Arguments CWritel {A}.
Arguments CReadq {A}.
Arguments CWriteq {A}.
Arguments CRead {A}.
Arguments CWrite {A}.

Fixpoint cbind {A B} (m : cprog A) (f : A -> cprog B) : cprog B :=
  match m with
  | CRet a => f a
  | CReadl i a k => CReadl i a (fun r => cbind (k r) f)
  | CWritel i a v k => CWritel i a v (fun r => cbind (k r) f)
  | CReadq i a k => CReadq i a (fun r => cbind (k r) f)
  | CWriteq i a v k => CWriteq i a v (fun r => cbind (k r) f)
  | CRead i a n k => CRead i a n (fun r => cbind (k r) f)
  | CWrite i a d n k => CWrite i a d n (fun r => cbind (k r) f)
  end.

Declare Scope cprog_scope.
Notation "'let*' x ':=' m 'in' f" := (cbind m (fun x => f))
  (at level 60, x pattern, right associativity) : cprog_scope.

(** The calls as programs. *)
Definition readl (cpp_id address : Z) : cprog (cres Z) := CReadl cpp_id address CRet.
Definition writel (cpp_id address value : Z) : cprog (cres unit) := CWritel cpp_id address value CRet.
Definition readq (cpp_id address : Z) : cprog (cres Z) := CReadq cpp_id address CRet.
Definition writeq (cpp_id address value : Z) : cprog (cres unit) := CWriteq cpp_id address value CRet.
Definition read_bytes (cpp_id address length : Z) : cprog (cres (list Z)) :=
  CRead cpp_id address length CRet.
Definition write_bytes (cpp_id address : Z) (data : list Z) (length : Z) : cprog (cres Z) :=
  CWrite cpp_id address data length CRet.

(** What the core promises its clients. *)
Class CppBus (S : Type) := {
  bus_readl : Z -> Z -> S -> cres Z * S;
  bus_writel : Z -> Z -> Z -> S -> cres unit * S;
  bus_readq : Z -> Z -> S -> cres Z * S;
  bus_writeq : Z -> Z -> Z -> S -> cres unit * S;
  bus_read : Z -> Z -> Z -> S -> cres (list Z) * S;
  bus_write : Z -> Z -> list Z -> Z -> S -> cres Z * S }.

#[export] Instance core_bus {S P} `{nfp_cpp_operations S P} : CppBus (nfp_cpp S) := {
  bus_readl id a cpp := nfp_cpp_readl cpp id a;
  bus_writel id a v cpp := nfp_cpp_writel cpp id a v;
  bus_readq id a cpp := nfp_cpp_readq cpp id a;
  bus_writeq id a v cpp := nfp_cpp_writeq cpp id a v;
  bus_read id a n cpp := nfp_cpp_read cpp id a n;
  bus_write id a d n cpp := nfp_cpp_write cpp id a d n }.

Section Run.
Context {S : Type} `{Bus : CppBus S}.

Fixpoint crun {A} (m : cprog A) (s : S) : A * S :=
  match m with
  | CRet a => (a, s)
  | CReadl i a k => let '(r, s) := bus_readl i a s in crun (k r) s
  | CWritel i a v k => let '(r, s) := bus_writel i a v s in crun (k r) s
  | CReadq i a k => let '(r, s) := bus_readq i a s in crun (k r) s
  | CWriteq i a v k => let '(r, s) := bus_writeq i a v s in crun (k r) s
  | CRead i a n k => let '(r, s) := bus_read i a n s in crun (k r) s
  | CWrite i a d n k => let '(r, s) := bus_write i a d n s in crun (k r) s
  end.

Lemma crun_bind {A B} (m : cprog A) (f : A -> cprog B) s :
  crun (cbind m f) s = let '(a, s) := crun m s in crun (f a) s.
Proof using.
  revert s. induction m as [a|i a k IH|i a v k IH|i a k IH|i a v k IH|i a n k IH|i a d n k IH];
    intros s; cbn; [done|..].
  - destruct (bus_readl _ _ _). apply IH.
  - destruct (bus_writel _ _ _ _). apply IH.
  - destruct (bus_readq _ _ _). apply IH.
  - destruct (bus_writeq _ _ _ _). apply IH.
  - destruct (bus_read _ _ _ _). apply IH.
  - destruct (bus_write _ _ _ _ _). apply IH.
Qed.
End Run.

(** ** A memory-unit bus

    The atomic engine of the memory units at 32-bit words, as the clients rely on
    it: actions 3 and 4 read and write, action 5 with token 3 reads and sets the
    low four bits. *)

Definition MU_READ : Z := NFP_CPP_ID NFP6000_CPPTGT_MU 3 0.
Definition MU_WRITE : Z := NFP_CPP_ID NFP6000_CPPTGT_MU 4 0.
Definition MU_TEST_SET : Z := NFP_CPP_ID NFP6000_CPPTGT_MU 5 3.

(** [mu_word s a] is the word at address [a]. *)
Class MuBus (S : Type) `{CppBus S} := {
  mu_word : S -> Z -> Z;
  mu_set : Z -> Z -> S -> S;
  mu_read_law s a : bus_readl MU_READ a s = (Ok (mu_word s a), s);
  mu_write_law s a v : is_u32 v -> bus_writel MU_WRITE a v s = (Ok tt, mu_set a v s);
  mu_test_set_law s a :
    bus_readl MU_TEST_SET a s = (Ok (mu_word s a), mu_set a (Z.lor (mu_word s a) 0xf) s);
  mu_set_same s a v : mu_word (mu_set a v s) a = v;
  mu_set_other s a b v : a <> b -> mu_word (mu_set a v s) b = mu_word s b }.

(** The words of a memory unit alone. *)
Definition words32 := Z -> Z.
Definition word_set (a v : Z) (s : words32) : words32 := fun x => if x =? a then v else s x.

#[export] Instance words_bus : CppBus words32 := {
  bus_readl id a s := (Ok (s a), if id =? MU_TEST_SET then word_set a (Z.lor (s a) 0xf) s else s);
  bus_writel id a v s := (Ok tt, word_set a v s);
  bus_readq id a s := (Ok (s a + 2 ^ 32 * s (a + 4)), s);
  bus_writeq id a v s := (Ok tt, word_set (a + 4) (v / 2 ^ 32) (word_set a (v mod 2 ^ 32) s));
  bus_read id a n s := (Ok (mjoin ((fun i => le_split 4 (s (a + 4 * Z.of_nat i))) <$> seq 0 (Z.to_nat (n / 4)))), s);
  bus_write id a d n s :=
    (Ok n, fun x => if (a <=? x) && (x <? a + n) && ((x - a) mod 4 =? 0)
                    then le_combine (slice (Z.to_nat (x - a)) 4 d) else s x) }.

#[export] Instance words_mu : MuBus words32.
Proof.
  refine {| mu_word s a := s a; mu_set := word_set |}.
  - done.
  - done.
  - done.
  - intros. unfold word_set. by rewrite Z.eqb_refl.
  - intros s a b v N. unfold word_set. by rewrite (proj2 (Z.eqb_neq b a)).
Defined.
