(* ===== verification/Mutex.v ===== *)
(** * CPP mutexes ([nfp_mutex.c])

    The lock operations as programs over the bus, and the cache of handles as a
    doubly-linked list in a heap: [mutex_heap] maps handle addresses (0 is null) to
    [struct nfp_cpp_mutex], [mutex_cache] is the head in the CPP handle.  The model
    and interface of the CPP handle are arguments. *)

From S2P Require Export CppBus.

Local Open Scope Z_scope.
Local Open Scope cprog_scope.

Definition MUTEX_LOCKED (interface : Z) : Z := Z.lor (u32 (Z.shiftl interface 16)) 0x000f.
Definition MUTEX_UNLOCK (interface : Z) : Z := Z.lor 0 0x0000.
Definition MUTEX_IS_LOCKED (value : Z) : bool := Z.land value 0xffff =? 0x000f.
Definition MUTEX_IS_UNLOCKED (value : Z) : bool := Z.land value 0xffff =? 0x0000.
Definition MUTEX_INTERFACE (value : Z) : Z := Z.land (Z.shiftr value 16) 0xffff.
Definition MUTEX_DEPTH_MAX : Z := 0xffff.

Record nfp_cpp_mutex := mkMutex {
  m_target : Z;
  m_depth : Z;
  m_address : Z;
  m_key : Z;
  m_usage : Z;
  m_prev : Z;
  m_next : Z }.

Definition m_set_depth (d : Z) (m : nfp_cpp_mutex) : nfp_cpp_mutex :=
  mkMutex (m_target m) d (m_address m) (m_key m) (m_usage m) (m_prev m) (m_next m).
Definition m_set_usage (n : Z) (m : nfp_cpp_mutex) : nfp_cpp_mutex :=
  mkMutex (m_target m) (m_depth m) (m_address m) (m_key m) n (m_prev m) (m_next m).
Definition m_set_prev (p : Z) (m : nfp_cpp_mutex) : nfp_cpp_mutex :=
  mkMutex (m_target m) (m_depth m) (m_address m) (m_key m) (m_usage m) p (m_next m).
Definition m_set_next (p : Z) (m : nfp_cpp_mutex) : nfp_cpp_mutex :=
  mkMutex (m_target m) (m_depth m) (m_address m) (m_key m) (m_usage m) (m_prev m) p.

Definition _nfp_cpp_mutex_validate (model target address : Z) : cres unit :=
  if negb (Z.land address 7 =? 0) then Err (NFP_ERRNO EINVAL)
  else if NFP_CPP_MODEL_IS_6000 model then
    if negb (target =? NFP6000_CPPTGT_MU) then Err (NFP_ERRNO EINVAL) else Ok tt
  else Err (NFP_ERRNO EINVAL).

Definition nfp_cpp_mutex_init (model interface target address key : Z) : cprog (cres unit) :=
  let muw := NFP_CPP_ID target 4 0 in
  match _nfp_cpp_mutex_validate model target address with
  | Err e => CRet (Err e)
  | Ok _ =>
      let* r := writel muw (u64 (address + 4)) key in
      match r with
      | Err e => CRet (Err e)
      | Ok _ => writel muw (u64 (address + 0)) (MUTEX_LOCKED interface)
      end
  end.

(** ** Handles *)

Record mutex_store := mkStore {
  mutex_heap : gmap Z nfp_cpp_mutex;
  mutex_cache : Z }.

(** [for (mutex = cpp->mutex_cache; mutex; mutex = mutex->next)]; 0 when no handle
    matches. *)
Fixpoint cache_find (fuel : nat) (h : gmap Z nfp_cpp_mutex) (p target address : Z) : Z :=
  match fuel with
  | O => 0
  | S fuel =>
      if p =? 0 then 0
      else
        match h !! p with
        | None => 0
        | Some m =>
            if (m_target m =? target) && (m_address m =? address) then p
            else cache_find fuel h (m_next m) target address
        end
  end.

Definition heap_upd (f : nfp_cpp_mutex -> nfp_cpp_mutex) (p : Z) (h : gmap Z nfp_cpp_mutex) :
    gmap Z nfp_cpp_mutex := alter f p h.

(** Adds the new handle at [ptr] to the cache. *)
Definition cache_add (ptr : Z) (m : nfp_cpp_mutex) (st : mutex_store) : mutex_store :=
  let cache := mutex_cache st in
  if negb (cache =? 0) then
    mkStore (<[ptr := m_set_next cache m]> (heap_upd (m_set_prev ptr) cache (mutex_heap st))) ptr
  else mkStore (<[ptr := m]> (mutex_heap st)) ptr.

(** [ptr] is what [calloc] returns; the result is the handle, 0 for null. *)
Definition nfp_cpp_mutex_alloc (model target address key ptr : Z) (st : mutex_store)
    : cprog (Z * mutex_store) :=
  let mur := NFP_CPP_ID target 3 0 in
  let p := cache_find (S (size (mutex_heap st))) (mutex_heap st) (mutex_cache st) target address in
  if negb (p =? 0) then
    match mutex_heap st !! p with
    | None => CRet (0, st)
    | Some m =>
        if m_key m =? key then
          CRet (p, mkStore (heap_upd (m_set_usage (u32 (m_usage m + 1))) p (mutex_heap st)) (mutex_cache st))
        else CRet (0, st)
    end
  else
    match _nfp_cpp_mutex_validate model target address with
    | Err _ => CRet (0, st)
    | Ok _ =>
        let* r := readl mur (u64 (address + 4)) in
        match r with
        | Err _ => CRet (0, st)
        | Ok tmp =>
            if negb (tmp =? key) then CRet (0, st)
            else if ptr =? 0 then CRet (0, st)
            else CRet (ptr, cache_add ptr (mkMutex (u8 target) 0 address key 1 0 0) st)
        end
    end.

Definition nfp_cpp_mutex_free (p : Z) (st : mutex_store) : mutex_store :=
  match mutex_heap st !! p with
  | None => st
  | Some m =>
      let usage := u32 (m_usage m - 1) in
      let h := heap_upd (m_set_usage usage) p (mutex_heap st) in
      if usage >? 0 then mkStore h (mutex_cache st)
      else
        let h := if negb (m_next m =? 0) then heap_upd (m_set_prev (m_prev m)) (m_next m) h else h in
        let h := if negb (m_prev m =? 0) then heap_upd (m_set_next (m_next m)) (m_prev m) h else h in
        let cache := if p =? mutex_cache st then m_next m else mutex_cache st in
        mkStore (delete p h) cache
  end.

(** The owner as an [int], before its conversion to [uint16_t]. *)
Definition mutex_owner (m : nfp_cpp_mutex) : cprog Z :=
  let mur := NFP_CPP_ID (m_target m) 3 0 in
  let* r := readl mur (m_address m) in
  match r with
  | Err e => CRet (cerr_ret e)
  | Ok value =>
      let* r := readl mur (u64 (m_address m + 4)) in
      match r with
      | Err e => CRet (cerr_ret e)
      | Ok key =>
          if negb (key =? m_key m) then CRet (-1)
          else if negb (MUTEX_IS_LOCKED value) then CRet 0
          else CRet (MUTEX_INTERFACE value)
      end
  end.

Definition nfp_cpp_mutex_owner (m : nfp_cpp_mutex) : cprog Z :=
  let* r := mutex_owner m in CRet (u16 r).

(** ** Locking

    Each returns its result and the handle with its depth; the parts after each
    access to the bus are named. *)

Definition trylock_own (m : nfp_cpp_mutex) (r : cres unit) : cprog (cres unit * nfp_cpp_mutex) :=
  match r with
  | Err e => CRet (Err e, m)
  | Ok _ => CRet (Ok tt, m_set_depth 1 m)
  end.

Definition trylock_tas (interface : Z) (m : nfp_cpp_mutex) (r : cres Z)
    : cprog (cres unit * nfp_cpp_mutex) :=
  let value := MUTEX_LOCKED interface in
  match r with
  | Err e => CRet (Err e, m)
  | Ok tmp =>
      if MUTEX_IS_UNLOCKED tmp then
        CWritel (NFP_CPP_ID (m_target m) 4 0) (m_address m) value (trylock_own m)
      else if tmp =? value then CRet (Ok tt, m_set_depth 1 m)
      else CRet (Err (NFP_ERRNO (if MUTEX_IS_LOCKED tmp then EBUSY else EINVAL)), m)
  end.

Definition trylock_key (interface : Z) (m : nfp_cpp_mutex) (r : cres Z)
    : cprog (cres unit * nfp_cpp_mutex) :=
  match r with
  | Err e => CRet (Err e, m)
  | Ok key =>
      if negb (key =? m_key m) then CRet (Err (NFP_ERRNO EPERM), m)
      else CReadl (NFP_CPP_ID (m_target m) 5 3) (m_address m) (trylock_tas interface m)
  end.

Definition nfp_cpp_mutex_trylock (interface : Z) (m : nfp_cpp_mutex)
    : cprog (cres unit * nfp_cpp_mutex) :=
  if m_depth m >? 0 then
    if m_depth m =? MUTEX_DEPTH_MAX then CRet (Err (NFP_ERRNO E2BIG), m)
    else CRet (Ok tt, m_set_depth (u16 (m_depth m + 1)) m)
  else
    CReadl (NFP_CPP_ID (m_target m) 3 0) (u64 (m_address m + 4)) (trylock_key interface m).

Definition unlock_done (m : nfp_cpp_mutex) (r : cres unit) : cprog (cres unit * nfp_cpp_mutex) :=
  match r with
  | Err e => CRet (Err e, m)
  | Ok _ => CRet (Ok tt, m_set_depth 0 m)
  end.

Definition unlock_key (interface : Z) (m : nfp_cpp_mutex) (value : Z) (r : cres Z)
    : cprog (cres unit * nfp_cpp_mutex) :=
  match r with
  | Err e => CRet (Err e, m)
  | Ok key =>
      if negb (key =? m_key m) then CRet (Err (NFP_ERRNO EPERM), m)
      else if negb (value =? MUTEX_LOCKED interface) then CRet (Err (NFP_ERRNO EACCES), m)
      else CWritel (NFP_CPP_ID (m_target m) 4 0) (m_address m) (MUTEX_UNLOCK interface) (unlock_done m)
  end.

Definition unlock_value (interface : Z) (m : nfp_cpp_mutex) (r : cres Z)
    : cprog (cres unit * nfp_cpp_mutex) :=
  match r with
  | Err e => CRet (Err e, m)
  | Ok value =>
      CReadl (NFP_CPP_ID (m_target m) 3 0) (u64 (m_address m + 4)) (unlock_key interface m value)
  end.

Definition nfp_cpp_mutex_unlock (interface : Z) (m : nfp_cpp_mutex)
    : cprog (cres unit * nfp_cpp_mutex) :=
  if m_depth m >? 1 then CRet (Ok tt, m_set_depth (u16 (m_depth m - 1)) m)
  else CReadl (NFP_CPP_ID (m_target m) 3 0) (m_address m) (unlock_value interface m).

(** [errno] after a call: a failure that does not set it leaves it as it was. *)
Definition errno_after {A} (errno : Z) (r : cres A) : Z :=
  match r with Err (NFP_ERRNO e) => e | _ => errno end.

(** [while ((err = trylock()) != 0)]; [None] when it is still busy after [fuel]
    attempts. *)
Fixpoint lock_loop (fuel : nat) (errno interface : Z) (m : nfp_cpp_mutex)
    : cprog (option (cres unit) * nfp_cpp_mutex) :=
  match fuel with
  | O => CRet (None, m)
  | S fuel =>
      let* (r, m) := nfp_cpp_mutex_trylock interface m in
      match r with
      | Ok _ => CRet (Some (Ok tt), m)
      | Err e =>
          if negb (errno_after errno r =? EBUSY) then CRet (Some (Err e), m)
          else lock_loop fuel (errno_after errno r) interface m
      end
  end.

Definition nfp_cpp_mutex_lock (fuel : nat) (errno interface : Z) (m : nfp_cpp_mutex) :=
  lock_loop fuel errno interface m.
