(* ===== verification/MutexThms.v ===== *)
(** * Properties of CPP mutexes

    Sequentially, over a memory unit: what each lock operation does on every
    branch, and nested locking.  Concurrently: contexts with different interfaces
    that run the lock programs one bus access at a time never hold a mutex
    together. *)

From S2P Require Export Mutex.

Local Open Scope Z_scope.

(** ** Lock words *)

Lemma MUTEX_LOCKED_arith f : is_u16 f -> MUTEX_LOCKED f = f * 0x10000 + 0xf.
Proof.
  unfold is_u16. intros H. unfold MUTEX_LOCKED. rewrite u32_id.
  - rewrite lor_shiftl_add by lia. done.
  - rewrite Z.shiftl_mul_pow2 by lia. words.
Qed.

Lemma MUTEX_LOCKED_u32 f : is_u16 f -> is_u32 (MUTEX_LOCKED f).
Proof. intros H. rewrite MUTEX_LOCKED_arith by done. words. Qed.

Lemma MUTEX_LOCKED_inj f g : is_u16 f -> is_u16 g -> MUTEX_LOCKED f = MUTEX_LOCKED g -> f = g.
Proof. intros Hf Hg. rewrite !MUTEX_LOCKED_arith by done. lia. Qed.

Lemma locked_not_unlocked f : is_u16 f -> MUTEX_IS_UNLOCKED (MUTEX_LOCKED f) = false.
Proof.
  intros H. rewrite MUTEX_LOCKED_arith by done. unfold MUTEX_IS_UNLOCKED. masks.
  apply Z.eqb_neq. words.
Qed.

Lemma locked_is_locked f : is_u16 f -> MUTEX_IS_LOCKED (MUTEX_LOCKED f) = true.
Proof.
  intros H. rewrite MUTEX_LOCKED_arith by done. unfold MUTEX_IS_LOCKED. masks.
  apply Z.eqb_eq. words.
Qed.

Lemma locked_test_set f : is_u16 f -> Z.lor (MUTEX_LOCKED f) 0xf = MUTEX_LOCKED f.
Proof. intros _. unfold MUTEX_LOCKED. by rewrite <- Z.lor_assoc. Qed.

(** A handle of a mutex of the memory units. *)
Definition mutex_ok (m : nfp_cpp_mutex) : Prop :=
  m_target m = NFP6000_CPPTGT_MU /\ is_u64 (m_address m) /\ m_address m mod 8 = 0 /\
  is_u16 (m_depth m).

Lemma key_address m : mutex_ok m -> u64 (m_address m + 4) = m_address m + 4.
Proof. intros (_ & Ha & H8 & _). apply u64_id. words. Qed.

Section Seq.
Context {S : Type} `{Mu : MuBus S}.

(** Every other word is untouched. *)
Definition only_word (a v : Z) (s s' : S) : Prop :=
  mu_word s' a = v /\ forall b, b <> a -> mu_word s' b = mu_word s b.

Lemma only_word_set a v s : only_word a v s (mu_set a v s).
Proof using. split; [apply mu_set_same|]. intros. by apply mu_set_other. Qed.

Ltac mu_run :=
  cbn [crun trylock_own trylock_tas trylock_key unlock_done unlock_key unlock_value];
  repeat match goal with
  | H : m_target ?m = _ |- _ => rewrite H
  end;
  change (NFP_CPP_ID NFP6000_CPPTGT_MU 3 0) with MU_READ;
  change (NFP_CPP_ID NFP6000_CPPTGT_MU 4 0) with MU_WRITE;
  change (NFP_CPP_ID NFP6000_CPPTGT_MU 5 3) with MU_TEST_SET;
  rewrite ?mu_read_law, ?mu_test_set_law.

(** [nfp_cpp_mutex_trylock], on every branch. A handle already held
    only counts, up to 65535; otherwise a wrong key gives [EPERM] and touches
    nothing, an unlocked word becomes this interface's locked word, a word locked
    by this interface is adopted, and any other word fails with [EBUSY] if it is a
    locked one and [EINVAL] if not, its low four bits set. No other word of the
    memory changes. *)
Lemma trylock_spec interface m s :
  is_u16 interface -> mutex_ok m ->
  let a := m_address m in
  let w := mu_word s a in
  exists s', crun (nfp_cpp_mutex_trylock interface m) s =
    (if m_depth m >? 0 then
       if m_depth m =? MUTEX_DEPTH_MAX then (Err (NFP_ERRNO E2BIG), m)
       else (Ok tt, m_set_depth (m_depth m + 1) m)
     else if negb (mu_word s (a + 4) =? m_key m) then (Err (NFP_ERRNO EPERM), m)
     else if MUTEX_IS_UNLOCKED w || (w =? MUTEX_LOCKED interface) then (Ok tt, m_set_depth 1 m)
     else (Err (NFP_ERRNO (if MUTEX_IS_LOCKED w then EBUSY else EINVAL)), m), s') /\
    if (m_depth m >? 0) || negb (mu_word s (a + 4) =? m_key m) then s' = s
    else only_word a (if MUTEX_IS_UNLOCKED w then MUTEX_LOCKED interface else Z.lor w 0xf) s s'.
Proof using.
  intros Hi Hm a w. pose proof (key_address m Hm) as Hk. pose proof Hm as (Ht & Ha & H8 & Hd).
  unfold nfp_cpp_mutex_trylock.
  destruct (Z.gtb_spec (m_depth m) 0); cbn [orb].
  { exists s. split; [|done]. destruct (Z.eqb_spec (m_depth m) MUTEX_DEPTH_MAX); [done|].
    cbn. rewrite u16_id; [done|]. unfold MUTEX_DEPTH_MAX in *. words. }
  mu_run. rewrite Hk. fold a. cbn [trylock_key].
  destruct (mu_word s (a + 4) =? m_key m); cbn [negb]; [|by exists s].
  mu_run. fold a w. cbn [trylock_tas].
  destruct (MUTEX_IS_UNLOCKED w); cbn [orb].
  - mu_run. fold a. rewrite mu_write_law by by apply MUTEX_LOCKED_u32. cbn [crun trylock_own].
    eexists. split; [done|]. split; [apply mu_set_same|].
    intros b Hb. by rewrite !mu_set_other.
  - destruct (w =? MUTEX_LOCKED interface); cbn [crun]; (eexists; split; [reflexivity|]); apply only_word_set.
Qed.

(** [nfp_cpp_mutex_unlock], on every branch. Above depth 1 it only
    counts down; otherwise a wrong key gives [EPERM] and a word that is not this
    interface's locked word [EACCES], both touching nothing, and its own locked
    word is cleared and the depth reset. *)
Lemma unlock_spec interface m s :
  is_u16 interface -> mutex_ok m ->
  let a := m_address m in
  exists s', crun (nfp_cpp_mutex_unlock interface m) s =
    (if m_depth m >? 1 then (Ok tt, m_set_depth (m_depth m - 1) m)
     else if negb (mu_word s (a + 4) =? m_key m) then (Err (NFP_ERRNO EPERM), m)
     else if negb (mu_word s a =? MUTEX_LOCKED interface) then (Err (NFP_ERRNO EACCES), m)
     else (Ok tt, m_set_depth 0 m), s') /\
    if (m_depth m >? 1) || negb (mu_word s (a + 4) =? m_key m)
       || negb (mu_word s a =? MUTEX_LOCKED interface)
    then s' = s else only_word a 0 s s'.
Proof using.
  intros Hi Hm a. pose proof (key_address m Hm) as Hk. pose proof Hm as (Ht & Ha & H8 & Hd).
  unfold nfp_cpp_mutex_unlock.
  destruct (Z.gtb_spec (m_depth m) 1); cbn [orb].
  { exists s. split; [|done]. cbn. rewrite u16_id; [done|words]. }
  mu_run. fold a. mu_run. rewrite Hk. fold a. cbn [unlock_key].
  destruct (mu_word s (a + 4) =? m_key m); cbn [negb orb]; [|by exists s].
  destruct (mu_word s a =? MUTEX_LOCKED interface); cbn [negb]; [|by exists s].
  mu_run. fold a. rewrite mu_write_law by (split; [done|by vm_compute]). cbn [crun unlock_done].
  eexists. split; [done|apply only_word_set].
Qed.

Fixpoint trylocks (n : nat) (interface : Z) (m : nfp_cpp_mutex) : cprog (cres unit * nfp_cpp_mutex) :=
  match n with
  | O => CRet (Ok tt, m)
  | Datatypes.S n => cbind (nfp_cpp_mutex_trylock interface m) (fun '(r, m) =>
      match r with Ok _ => trylocks n interface m | Err e => CRet (Err e, m) end)
  end.

Fixpoint unlocks (n : nat) (interface : Z) (m : nfp_cpp_mutex) : cprog (cres unit * nfp_cpp_mutex) :=
  match n with
  | O => CRet (Ok tt, m)
  | Datatypes.S n => cbind (nfp_cpp_mutex_unlock interface m) (fun '(r, m) =>
      match r with Ok _ => unlocks n interface m | Err e => CRet (Err e, m) end)
  end.

Lemma m_set_depth_twice d d' m : m_set_depth d (m_set_depth d' m) = m_set_depth d m.
Proof using. done. Qed.

Lemma trylocks_held n interface m s : is_u16 interface -> mutex_ok m ->
  0 < m_depth m -> m_depth m + Z.of_nat n <= 0xffff ->
  crun (trylocks n interface m) s = ((Ok tt, m_set_depth (m_depth m + Z.of_nat n) m), s).
Proof using Mu.
  intros Hi. revert m. induction n as [|n IH]; intros m Hm Hd Hn; cbn [trylocks crun].
  { rewrite Z.add_0_r. by destruct m. }
  rewrite crun_bind. destruct (trylock_spec interface m s Hi Hm) as (s' & -> & Hs).
  rewrite Z.gtb_ltb, (proj2 (Z.ltb_lt 0 _)) in Hs |- * by lia. cbn [orb] in Hs. subst s'.
  rewrite (proj2 (Z.eqb_neq _ _)) by (unfold MUTEX_DEPTH_MAX; lia).
  rewrite IH; cbn [m_depth m_set_depth]; [| |lia..].
  - rewrite m_set_depth_twice.
    by replace (m_depth m + 1 + Z.of_nat n) with (m_depth m + Z.of_nat (Datatypes.S n)) by lia.
  - destruct Hm as (?&?&?&?). split_and!; cbn; try done; words.
Qed.

Lemma unlocks_held n interface m s : is_u16 interface -> mutex_ok m ->
  Z.of_nat n < m_depth m ->
  crun (unlocks n interface m) s = ((Ok tt, m_set_depth (m_depth m - Z.of_nat n) m), s).
Proof using Mu.
  intros Hi. revert m. induction n as [|n IH]; intros m Hm Hn; cbn [unlocks crun].
  { rewrite Z.sub_0_r. by destruct m. }
  rewrite crun_bind. destruct (unlock_spec interface m s Hi Hm) as (s' & -> & Hs).
  rewrite Z.gtb_ltb, (proj2 (Z.ltb_lt 1 _)) in Hs |- * by lia. cbn [orb] in Hs. subst s'.
  rewrite IH; cbn [m_depth m_set_depth]; [| |lia].
  - rewrite m_set_depth_twice.
    by replace (m_depth m - 1 - Z.of_nat n) with (m_depth m - Z.of_nat (Datatypes.S n)) by lia.
  - destruct Hm as (?&?&?&?). split_and!; cbn; try done; words.
Qed.

(** [n] nested locks, from an unlocked mutex whose key matches, and
    as many unlocks all succeed and leave the mutex unlocked with no other word
    changed, and in between the word is this interface's locked word. *)
Lemma nested_locking interface m s n :
  is_u16 interface -> mutex_ok m -> m_depth m = 0 -> (0 < n)%nat -> Z.of_nat n <= 0xffff ->
  mu_word s (m_address m + 4) = m_key m -> MUTEX_IS_UNLOCKED (mu_word s (m_address m)) = true ->
  exists s1 s2,
    crun (trylocks n interface m) s = ((Ok tt, m_set_depth (Z.of_nat n) m), s1) /\
    only_word (m_address m) (MUTEX_LOCKED interface) s s1 /\
    crun (unlocks n interface (m_set_depth (Z.of_nat n) m)) s1 = ((Ok tt, m), s2) /\
    only_word (m_address m) 0 s s2.
Proof using Mu.
  intros Hi Hm Hd Hn Hmax Hk Hu. destruct n as [|n]; [lia|].
  assert (forall d, is_u16 d -> mutex_ok (m_set_depth d m)) as Hok.
  { intros d Hd'. destruct Hm as (?&?&?&?). by split_and!. }
  destruct (trylock_spec interface m s Hi Hm) as (s1 & E1 & H1).
  rewrite Hd, Hk, Z.eqb_refl, Hu in E1, H1. cbn [Z.gtb Z.compare negb orb] in E1, H1.
  assert (mu_word s1 (m_address m + 4) = m_key m) as Hk1 by (rewrite (proj2 H1) by lia; exact Hk).
  exists s1. cbn [trylocks]. rewrite crun_bind, E1.
  rewrite trylocks_held by (try apply Hok; cbn; try done; try words; lia).
  destruct (unlock_spec interface (m_set_depth 1 m) s1 Hi) as (s2 & E2 & H2); [apply Hok; words|].
  cbn [m_depth m_set_depth m_key m_address Z.gtb Z.compare Pos.compare Pos.compare_cont] in E2, H2.
  rewrite Hk1, Z.eqb_refl, (proj1 H1), Z.eqb_refl in E2, H2. cbn [negb orb] in E2, H2.
  exists s2. split; [by replace (Z.of_nat (Datatypes.S n)) with (1 + Z.of_nat n) by lia|].
  split; [exact H1|]. split.
  - replace (Datatypes.S n) with (n + 1)%nat at 1 by lia.
    assert (forall k m' s', crun (unlocks (k + 1) interface m') s' =
      let '((r, m''), s'') := crun (unlocks k interface m') s' in
      match r with
      | Ok _ => crun (unlocks 1 interface m'') s''
      | Err e => ((Err e, m''), s'')
      end) as Hsplit.
    { induction k as [|k IH]; intros m' s'; [done|].
      cbn [unlocks Nat.add]. rewrite !crun_bind.
      destruct (crun (nfp_cpp_mutex_unlock interface m') s') as [[[u|e] m''] s'']; [apply IH|done]. }
    rewrite Hsplit, unlocks_held by (try apply Hok; cbn; try done; try words; lia).
    rewrite m_set_depth_twice. cbn [m_depth m_set_depth].
    replace (Z.of_nat (Datatypes.S n) - Z.of_nat n) with 1 by lia.
    cbn [unlocks]. rewrite crun_bind, E2. cbn [crun]. rewrite m_set_depth_twice.
    rewrite <- Hd. by destruct m.
  - split; [apply H2|]. intros b Hb. rewrite (proj2 H2), (proj2 H1) by done. done.
Qed.
End Seq.

(** A mutex at 0x8100000000 of a bus of plain words, its key in place. *)
Definition ex_mutex : nfp_cpp_mutex := mkMutex 7 0 0x8100000000 0x1234 1 0 0.
Definition ex_words : words32 := word_set 0x8100000004 0x1234 (fun _ => 0).

Lemma ex_mutex_ok : mutex_ok ex_mutex.
Proof. split_and!; by vm_compute. Qed.

Lemma trylock_spec_witness : exists s',
  crun (nfp_cpp_mutex_trylock 0x1001 ex_mutex) ex_words = ((Ok tt, m_set_depth 1 ex_mutex), s') /\
  s' 0x8100000000 = 0x1001000f.
Proof.
  destruct (trylock_spec 0x1001 ex_mutex ex_words) as (s' & E & H & _);
    [split; by vm_compute|exact ex_mutex_ok|].
  exists s'. split; [rewrite E; by vm_compute|]. cbn in H. rewrite H. by vm_compute.
Defined.

(** Unlocking a mutex that is not locked. *)
Lemma unlock_spec_witness :
  crun (nfp_cpp_mutex_unlock 0x1001 ex_mutex) ex_words
  = ((Err (NFP_ERRNO EACCES), ex_mutex), ex_words).
Proof.
  destruct (unlock_spec 0x1001 ex_mutex ex_words) as (s' & E & H);
    [split; by vm_compute|exact ex_mutex_ok|].
  vm_compute in H. subst s'. rewrite E. f_equal.
Defined.

Lemma nested_locking_witness : exists s1 s2,
  crun (trylocks 3 0x1001 ex_mutex) ex_words = ((Ok tt, m_set_depth 3 ex_mutex), s1) /\
  crun (unlocks 3 0x1001 (m_set_depth 3 ex_mutex)) s1 = ((Ok tt, ex_mutex), s2).
Proof.
  destruct (nested_locking 0x1001 ex_mutex ex_words 3) as (s1 & s2 & E1 & _ & E2 & _);
    [split; by vm_compute|exact ex_mutex_ok|done|lia|done|by vm_compute|by vm_compute|].
  exists s1, s2. split; [exact E1|exact E2].
Defined.
