(* ===== verification/MutexConc.v ===== *)
(** * Mutual exclusion of CPP mutexes

    Any number of contexts (processes or hosts), each with its own handle and
    interface, run [nfp_cpp_mutex_trylock] and [nfp_cpp_mutex_unlock] in any order,
    interleaved at the bus accesses, any of which may fail.  [owner] ties the lock
    word to the one context that may release it. *)

From S2P Require Export MutexThms.

Local Open Scope Z_scope.

Record mctx := mkCtx {
  c_if : Z;
  c_m : nfp_cpp_mutex;
  c_run : option (cprog (cres unit * nfp_cpp_mutex)) }.

Definition c_set_run (p : option (cprog (cres unit * nfp_cpp_mutex))) (c : mctx) : mctx :=
  mkCtx (c_if c) (c_m c) p.

Lemma iface_u16 f : 0 < f < 0x10000 -> is_u16 f.
Proof. words. Qed.

Lemma locked_not_pending f : 0 < f < 0x10000 -> MUTEX_LOCKED f <> 0xf /\ MUTEX_LOCKED f <> 0.
Proof. intros H. rewrite MUTEX_LOCKED_arith by words. lia. Qed.

Section Conc.
Variables (address key : Z).

(** One access to the lock word [w] and the key word at [address] and
    [address + 4]; a failing access has no effect. *)
Inductive lock_access {A} : cprog A -> Z -> cprog A -> Z -> Prop :=
| la_read k w : lock_access (CReadl MU_READ address k) w (k (Ok w)) w
| la_key k w : lock_access (CReadl MU_READ (address + 4) k) w (k (Ok key)) w
| la_test_set k w : lock_access (CReadl MU_TEST_SET address k) w (k (Ok w)) (Z.lor w 0xf)
| la_write v k w : lock_access (CWritel MU_WRITE address v k) w (k (Ok tt)) v
| la_read_fails id a k e w : lock_access (CReadl id a k) w (k (Err e)) w
| la_write_fails id a v k e w : lock_access (CWritel id a v k) w (k (Err e)) w.

Definition mstate : Type := Z * list mctx.

Inductive mutex_step : mstate -> mstate -> Prop :=
| ms_trylock w cs i c : cs !! i = Some c -> c_run c = None ->
    mutex_step (w, cs)
      (w, <[i := c_set_run (Some (nfp_cpp_mutex_trylock (c_if c) (c_m c))) c]> cs)
| ms_unlock w cs i c : cs !! i = Some c -> c_run c = None ->
    mutex_step (w, cs)
      (w, <[i := c_set_run (Some (nfp_cpp_mutex_unlock (c_if c) (c_m c))) c]> cs)
| ms_access w cs i c p p' w' : cs !! i = Some c -> c_run c = Some p ->
    lock_access p w p' w' ->
    mutex_step (w, cs) (w', <[i := c_set_run (Some p') c]> cs)
| ms_return w cs i c r m : cs !! i = Some c -> c_run c = Some (CRet (r, m)) ->
    mutex_step (w, cs) (w, <[i := mkCtx (c_if c) m None]> cs).

(** Inside its critical section: the handle is held and no call is under way. *)
Definition holds (c : mctx) : Prop := 0 < m_depth (c_m c) /\ c_run c = None.

(** A handle of this mutex. *)
Definition handle_ok (m : nfp_cpp_mutex) : Prop :=
  m_target m = NFP6000_CPPTGT_MU /\ m_address m = address /\ m_key m = key /\ is_u16 (m_depth m).

(** Where a call can be, for a context that owns the lock word or not. *)
Inductive run_ok (f : Z) (own : bool) : cprog (cres unit * nfp_cpp_mutex) -> Prop :=
| ro_ret r m : handle_ok m -> (0 < m_depth m -> own = true) -> run_ok f own (CRet (r, m))
| ro_try_key m : handle_ok m -> m_depth m = 0 ->
    run_ok f own (CReadl MU_READ (address + 4) (trylock_key f m))
| ro_try_tas m : handle_ok m -> m_depth m = 0 ->
    run_ok f own (CReadl MU_TEST_SET address (trylock_tas f m))
| ro_try_own m : handle_ok m -> m_depth m = 0 -> own = true ->
    run_ok f own (CWritel MU_WRITE address (MUTEX_LOCKED f) (trylock_own m))
| ro_un_value m : handle_ok m -> (0 < m_depth m -> own = true) ->
    run_ok f own (CReadl MU_READ address (unlock_value f m))
| ro_un_key m v : handle_ok m -> (0 < m_depth m -> own = true) ->
    (v = MUTEX_LOCKED f -> own = true) ->
    run_ok f own (CReadl MU_READ (address + 4) (unlock_key f m v))
| ro_un_write m : handle_ok m -> own = true ->
    run_ok f own (CWritel MU_WRITE address (MUTEX_UNLOCK f) (unlock_done m)).

Definition ctx_ok (own : bool) (c : mctx) : Prop :=
  0 < c_if c < 0x10000 /\
  match c_run c with
  | None => handle_ok (c_m c) /\ (0 < m_depth (c_m c) -> own = true)
  | Some p => run_ok (c_if c) own p
  end.

Definition word_ok (w : Z) (owner : option nat) (cs : list mctx) : Prop :=
  match owner with
  | None => w = 0
  | Some i => exists c, cs !! i = Some c /\ (w = MUTEX_LOCKED (c_if c) \/ w = 0xf)
  end.

Definition mutex_inv (s : mstate) (owner : option nat) : Prop :=
  word_ok s.1 owner s.2 /\ NoDup (c_if <$> s.2) /\
  forall i c, s.2 !! i = Some c -> ctx_ok (bool_decide (owner = Some i)) c.

(** The contexts as they start: no call under way, nothing held; the mutex is
    unlocked, or locked by the context that initialised it. *)
Definition mutex_start (s : mstate) : Prop :=
  NoDup (c_if <$> s.2) /\
  (forall c, c ∈ s.2 -> 0 < c_if c < 0x10000 /\ c_run c = None /\ handle_ok (c_m c) /\ m_depth (c_m c) = 0) /\
  (s.1 = 0 \/ exists i c, s.2 !! i = Some c /\ s.1 = MUTEX_LOCKED (c_if c)).
Hypothesis Haddr : is_u64 address /\ address mod 8 = 0.

Lemma handle_address m : handle_ok m -> u64 (m_address m + 4) = address + 4.
Proof using Haddr. intros (_ & -> & _). apply u64_id. destruct Haddr. words. Qed.

Lemma start_run f own m : handle_ok m -> (0 < m_depth m -> own = true) ->
  run_ok f own (nfp_cpp_mutex_trylock f m) /\ run_ok f own (nfp_cpp_mutex_unlock f m).
Proof using Haddr.
  intros Hm Hd. pose proof (handle_address m Hm) as Hk. pose proof Hm as (Ht & Ha & Hkey & Hdep).
  assert (forall d, is_u16 d -> handle_ok (m_set_depth d m)) as Hset by (intros; by split_and!).
  unfold nfp_cpp_mutex_trylock, nfp_cpp_mutex_unlock. rewrite Hk, Ht, Ha. split.
  - destruct (Z.gtb_spec (m_depth m) 0); [|constructor; [done|words]].
    destruct (_ =? _); constructor; try done; [apply Hset; words|auto].
  - destruct (Z.gtb_spec (m_depth m) 1); [|by constructor].
    constructor; [apply Hset; words|]. intros _. apply Hd. lia.
Qed.

(** The context that makes an access: the word and its ownership after it. *)
Lemma access_ok f own p w p' w' : 0 < f < 0x10000 ->
  run_ok f own p -> lock_access p w p' w' ->
  (own = true -> w = MUTEX_LOCKED f \/ w = 0xf) -> (own = false -> w <> MUTEX_LOCKED f) ->
  (own = false -> w = 0 \/ MUTEX_IS_UNLOCKED w = false /\ Z.lor w 0xf = w) ->
  (run_ok f own p' /\ w' = w) \/
  (own = false /\ w = 0 /\ w' = 0xf /\ run_ok f true p') \/
  (own = true /\ w' = MUTEX_LOCKED f /\ run_ok f true p') \/
  (own = true /\ w' = 0 /\ run_ok f false p').
Proof using Haddr.
  intros Hf Hr Ha Ho1 Ho2 Hw.
  assert (forall d m, is_u16 d -> handle_ok m -> handle_ok (m_set_depth d m)) as Hset.
  { intros d m ? (?&?&?&?). by split_and!. }
  assert (is_u16 0 /\ is_u16 1) as [H0 H1] by words.
  destruct (locked_not_pending f Hf) as [Hnp Hn0].
  assert (MUTEX_IS_UNLOCKED (MUTEX_LOCKED f) = false) as Hlu by (apply locked_not_unlocked; words).
  assert (Z.lor (MUTEX_LOCKED f) 0xf = MUTEX_LOCKED f) as Hlt by (apply locked_test_set; words).
  destruct Hr as [r m Hm Hd|m Hm Hd|m Hm Hd|m Hm Hd Hown|m Hm Hd|m v Hm Hd Hv|m Hm Hown];
    inversion Ha; subst; clear Ha; try (exfalso; lia);
    pose proof Hm as (Ht & Hma & Hk & _);
    cbn [trylock_key trylock_tas trylock_own unlock_value unlock_key unlock_done];
    try (left; split; [constructor; [done|intros; first [done|lia|by auto]]|done]).
  - left. split; [|done]. rewrite Hk, Z.eqb_refl, Ht, Hma. by constructor.
  - assert (run_ok f own (CRet (Err (NFP_ERRNO (if MUTEX_IS_LOCKED w then EBUSY else EINVAL)), m))) as Hret
      by (constructor; [done|lia]).
    destruct own.
    + left. destruct (Ho1 eq_refl) as [->| ->].
      * rewrite Hlu, Z.eqb_refl, Hlt. split; [|done]. constructor; [by apply Hset|done].
      * rewrite (proj2 (Z.eqb_neq 0xf _)) by lia. by split.
    + destruct (Hw eq_refl) as [->|[-> Hlw]].
      * right. left. change (MUTEX_IS_UNLOCKED 0) with true. cbv iota. rewrite Ht, Hma.
        do 3 (split; [done|]). by apply ro_try_own.
      * left. rewrite (proj2 (Z.eqb_neq w _)) by auto. by split.
  - right. right. left. split; [done|]. split; [done|]. constructor; [by apply Hset|done].
  - left. split; [|done]. rewrite Hma, Ht. rewrite u64_id by (destruct Haddr; words).
    constructor; [done|done|]. intros E. destruct own; [done|]. by destruct (Ho2 eq_refl).
  - left. split; [|done]. rewrite Hk, Z.eqb_refl, Ht, Hma. cbn [negb].
    destruct (Z.eqb_spec v (MUTEX_LOCKED f)); constructor; auto.
  - right. right. right. split; [done|]. split; [done|]. constructor; [by apply Hset|cbn; lia].
Qed.

(** One context changed, with the word and the owner. *)
Lemma inv_update w w' cs owner owner' i c c' : mutex_inv (w, cs) owner -> cs !! i = Some c ->
  c_if c' = c_if c -> ctx_ok (bool_decide (owner' = Some i)) c' ->
  word_ok w' owner' (<[i := c']> cs) ->
  (forall j, j <> i -> bool_decide (owner' = Some j) = bool_decide (owner = Some j)) ->
  mutex_inv (w', <[i := c']> cs) owner'.
Proof using.
  intros (Hw & Hn & Hc) Hi Hif Hok Hw' Hsame. split; [done|]. split.
  - cbn in *. rewrite list_fmap_insert, Hif. rewrite list_insert_id; [done|].
    by rewrite list_lookup_fmap, Hi.
  - cbn in *. intros j c0 Hj. destruct (decide (j = i)) as [->|N].
    + rewrite list_lookup_insert_eq in Hj by (by eapply lookup_lt_Some). by simplify_eq.
    + rewrite list_lookup_insert_ne in Hj by done. rewrite (Hsame j N). by apply Hc.
Qed.

Lemma word_ok_update w cs owner i c c' : word_ok w owner cs -> cs !! i = Some c ->
  c_if c' = c_if c -> word_ok w owner (<[i := c']> cs).
Proof using.
  intros Hw Hi Hif. destruct owner as [k|]; [|done]. cbn in *. destruct Hw as (ck & Hk & Hw).
  destruct (decide (k = i)) as [->|N].
  - exists c'. rewrite list_lookup_insert_eq by (by eapply lookup_lt_Some). simplify_eq.
    by rewrite Hif.
  - exists ck. by rewrite list_lookup_insert_ne.
Qed.

Lemma other_interface cs i j c cj : NoDup (c_if <$> cs) -> cs !! i = Some c -> cs !! j = Some cj ->
  i <> j -> c_if c <> c_if cj.
Proof using.
  intros Hn Hi Hj N E. apply N. apply (NoDup_lookup (c_if <$> cs) i j (c_if c)); [done| |];
    rewrite list_lookup_fmap; [by rewrite Hi|rewrite Hj; cbn; by rewrite E].
Qed.

(** What context [i] can see of the lock word. *)
Lemma word_seen w cs owner i c : mutex_inv (w, cs) owner -> cs !! i = Some c ->
  let own := bool_decide (owner = Some i) in
  (own = true -> w = MUTEX_LOCKED (c_if c) \/ w = 0xf) /\
  (own = false -> w <> MUTEX_LOCKED (c_if c)) /\
  (own = false -> w = 0 \/ MUTEX_IS_UNLOCKED w = false /\ Z.lor w 0xf = w).
Proof using.
  intros (Hw & Hn & Hc) Hi. cbn in *. pose proof (Hc i c Hi) as [Hif _].
  destruct (locked_not_pending _ Hif) as [Hnp Hn0].
  case_bool_decide as D; (split_and!; intros E; [try done..]).
  - subst owner. destruct Hw as (c0 & H0 & Hw). by simplify_eq.
  - destruct owner as [k|]; [|cbn in Hw; subst; auto].
    destruct Hw as (ck & Hk & [->| ->]); [|auto]. intros E2.
    pose proof (Hc k ck Hk) as [Hifk _].
    apply MUTEX_LOCKED_inj in E2; [|words..].
    apply (other_interface cs k i ck c) in E2; try done. congruence.
  - destruct owner as [k|]; [|by left]. right. destruct Hw as (ck & Hk & [->| ->]); [|done].
    pose proof (Hc k ck Hk) as [Hifk _].
    split; [apply locked_not_unlocked; words|apply locked_test_set; words].
Qed.

Lemma mutex_step_inv s s' owner : mutex_step s s' -> mutex_inv s owner ->
  exists owner', mutex_inv s' owner'.
Proof using Haddr.
  intros Hst Hinv. destruct Hst as [w cs i c Hi Hr|w cs i c Hi Hr|w cs i c p p' w' Hi Hr Ha|w cs i c r m Hi Hr];
    pose proof Hinv as (Hw & Hn & Hc); cbn in Hw, Hn, Hc; pose proof (Hc i c Hi) as [Hif Hok]; rewrite Hr in Hok.
  - exists owner. eapply inv_update; [done..| |by eapply word_ok_update|done].
    destruct Hok as [Hm Hd]. split; [done|]. by apply start_run.
  - exists owner. eapply inv_update; [done..| |by eapply word_ok_update|done].
    destruct Hok as [Hm Hd]. split; [done|]. by apply start_run.
  - destruct (word_seen w cs owner i c Hinv Hi) as (Ho1 & Ho2 & Ho3).
    assert (i < length cs)%nat as Hlt by (by eapply lookup_lt_Some).
    destruct (access_ok _ _ _ _ _ _ Hif Hok Ha Ho1 Ho2 Ho3)
      as [[Hok' ->]|[(Hown & -> & -> & Hok')|[(Hown & -> & Hok')|(Hown & -> & Hok')]]].
    + exists owner. eapply inv_update; [done..| |by eapply word_ok_update|done]. by split.
    + apply bool_decide_eq_false in Hown. destruct owner as [k|].
      { destruct Hw as (ck & Hk & [E|E]); [|done]. pose proof (Hc k ck Hk) as [Hifk _].
        destruct (locked_not_pending _ Hifk). congruence. }
      exists (Some i). eapply inv_update; [done|done|done| | |].
      * rewrite bool_decide_eq_true_2 by done. by split.
      * eexists. rewrite list_lookup_insert_eq by done. split; [done|by right].
      * intros j N. rewrite !bool_decide_eq_false_2 by congruence. done.
    + apply bool_decide_eq_true in Hown. subst owner.
      exists (Some i). eapply inv_update; [done|done|done| | |done].
      * rewrite bool_decide_eq_true_2 by done. by split.
      * eexists. rewrite list_lookup_insert_eq by done. split; [done|by left].
    + apply bool_decide_eq_true in Hown. subst owner.
      exists None. eapply inv_update; [done|done|done| |done|].
      * rewrite bool_decide_eq_false_2 by done. by split.
      * intros j N. rewrite !bool_decide_eq_false_2 by congruence. done.
  - exists owner. eapply inv_update; [done..| |by eapply word_ok_update|done].
    inversion Hok; subst. by split.
Qed.

Lemma start_inv s : mutex_start s -> exists owner, mutex_inv s owner.
Proof using.
  destruct s as [w cs]. intros (Hn & Hc & Hw). cbn in *.
  assert (forall own j c, cs !! j = Some c -> ctx_ok own c) as Hok.
  { intros own j c Hj. destruct (Hc c) as (H1 & H2 & H3 & H4); [by eapply list_elem_of_lookup_2|].
    split; [done|]. rewrite H2. split; [done|lia]. }
  destruct Hw as [->|(i & c & Hi & ->)].
  - exists None. split; [done|]. split; [done|]. intros. by eapply Hok.
  - exists (Some i). split; [cbn; eauto|]. split; [done|]. intros. by eapply Hok.
Qed.

(** C12 (safety): mutual exclusion. Contexts with distinct non-zero interfaces that
    try to lock and unlock one mutex, in any order, interleaved between single bus
    accesses any of which may fail, starting with the mutex unlocked or locked by
    its initialiser: at no time are two of them in their critical sections. *)
Theorem mutex_excludes s s' i j ci cj :
  mutex_start s -> rtc mutex_step s s' ->
  s'.2 !! i = Some ci -> s'.2 !! j = Some cj -> holds ci -> holds cj -> i = j.
Proof using Haddr.
  intros Hs Hr Hi Hj [Hdi Hri] [Hdj Hrj].
  assert (exists owner, mutex_inv s' owner) as [owner (Hw & Hn & Hc)].
  { revert Hr. apply (rtc_ind_r (fun s' => exists owner, mutex_inv s' owner)).
    - by apply start_inv.
    - intros y z _ Hst [o Ho]. by eapply mutex_step_inv. }
  pose proof (Hc i ci Hi) as [_ Hoki]. pose proof (Hc j cj Hj) as [_ Hokj].
  rewrite Hri in Hoki. rewrite Hrj in Hokj.
  destruct Hoki as [_ Hoi], Hokj as [_ Hoj].
  specialize (Hoi Hdi). specialize (Hoj Hdj).
  apply bool_decide_eq_true in Hoi, Hoj. congruence.
Qed.
End Conc.

(** ** Runs *)

Definition ex_addr : Z := 0x8100000000.
Definition ex_ctx (f : Z) : mctx := mkCtx f (mkMutex 7 0 ex_addr 0x1234 1 0 0) None.
Definition ex_held (f : Z) : mctx := mkCtx f (mkMutex 7 1 ex_addr 0x1234 1 0 0) None.

Lemma mstep_access a k w cs i c p p' w' s' : cs !! i = Some c -> c_run c = Some p ->
  lock_access a k p w p' w' -> rtc (mutex_step a k) (w', <[i := c_set_run (Some p') c]> cs) s' ->
  rtc (mutex_step a k) (w, cs) s'.
Proof. intros. eapply rtc_l; [by eapply ms_access|done]. Qed.

(** Context [i] of two locks the free mutex. *)
Lemma run_lock_free f g :
  is_u16 f -> rtc (mutex_step ex_addr 0x1234) (0, [ex_ctx f; ex_ctx g]) (MUTEX_LOCKED f, [ex_held f; ex_ctx g]).
Proof.
  intros Hf. eapply rtc_l; [by apply (ms_trylock _ _ _ _ 0%nat)|]. cbn [list_insert insert].
  eapply (mstep_access _ _ _ _ 0%nat); [done|done|apply la_key|]. cbn [list_insert insert].
  eapply (mstep_access _ _ _ _ 0%nat); [done|done|apply la_test_set|]. cbn [list_insert insert].
  eapply (mstep_access _ _ _ _ 0%nat); [done|done|apply la_write|]. cbn [list_insert insert].
  eapply rtc_l; [by eapply (ms_return _ _ _ _ 0%nat)|]. apply rtc_refl.
Qed.

Lemma mutex_excludes_witness :
  exists s', rtc (mutex_step ex_addr 0x1234) (0, [ex_ctx 0x1001; ex_ctx 0x1002]) s' /\
    (forall j cj, s'.2 !! j = Some cj -> holds cj -> 0%nat = j) /\ s'.2 !! 0%nat = Some (ex_held 0x1001).
Proof.
  exists (MUTEX_LOCKED 0x1001, [ex_held 0x1001; ex_ctx 0x1002]).
  assert (rtc (mutex_step ex_addr 0x1234) (0, [ex_ctx 0x1001; ex_ctx 0x1002])
    (MUTEX_LOCKED 0x1001, [ex_held 0x1001; ex_ctx 0x1002])) as Hr by (apply run_lock_free; split; by vm_compute).
  split; [exact Hr|]. split; [|reflexivity].
  intros j cj Hj Hcj.
  apply (mutex_excludes ex_addr 0x1234 ltac:(split; [split; by vm_compute|by vm_compute]) _ _ 0%nat j _ cj)
    with (2 := Hr) (3 := eq_refl); [|exact Hj|split; [by vm_compute|reflexivity]|exact Hcj].
  split; [|split].
  - cbn. repeat constructor; rewrite ?elem_of_cons, ?elem_of_nil; lia.
  - intros c Hc. cbn in Hc. rewrite !elem_of_cons, elem_of_nil in Hc.
    destruct Hc as [->|[->|[]]]; repeat split; vm_compute; try lia; done.
  - by left.
Defined.

(** The interface is the identity of the lock's owner: two contexts with
    one interface, such as two processes on one PCIe function, do get into their
    critical sections together, the second adopting the first one's lock. *)
Lemma same_interface_not_excluded f :
  is_u16 f -> exists s', rtc (mutex_step ex_addr 0x1234) (0, [ex_ctx f; ex_ctx f]) s' /\
    exists ci cj, s'.2 !! 0%nat = Some ci /\ s'.2 !! 1%nat = Some cj /\ holds ci /\ holds cj.
Proof.
  intros Hf. exists (MUTEX_LOCKED f, [ex_held f; ex_held f]). split.
  2: { exists (ex_held f), (ex_held f). by repeat split. }
  etrans; [by apply run_lock_free|].
  eapply rtc_l; [by apply (ms_trylock _ _ _ _ 1%nat)|]. cbn [list_insert insert].
  eapply (mstep_access _ _ _ _ 1%nat); [done|done|apply la_key|]. cbn [list_insert insert].
  eapply (mstep_access _ _ _ _ 1%nat); [done|done|apply la_test_set|]. cbn [list_insert insert].
  rewrite locked_test_set by done.
  eapply rtc_l; [|apply rtc_refl].
  match goal with |- mutex_step _ _ (?w, ?cs) _ => match cs with [_; ?c] =>
    refine (ms_return ex_addr 0x1234 w cs 1%nat c (Ok tt) (mkMutex 7 1 ex_addr 0x1234 1 0 0) eq_refl _)
  end end.
  cbn [c_run c_set_run trylock_tas]. rewrite locked_not_unlocked, Z.eqb_refl by done. done.
Qed.

Lemma same_interface_not_excluded_witness :
  exists s', rtc (mutex_step ex_addr 0x1234) (0, [ex_ctx 0x1001; ex_ctx 0x1001]) s' /\
    exists ci cj, s'.2 !! 0%nat = Some ci /\ s'.2 !! 1%nat = Some cj /\ holds ci /\ holds cj.
Proof. apply (same_interface_not_excluded 0x1001). split; by vm_compute. Defined.
