(* ===== verification/MutexCache.v ===== *)
(** * The cache of mutex handles

    The cache is a doubly-linked list threaded through the handles.  [cached st l]
    says that [st] holds the list of handles [l]; the operations refine the
    operations on the association list [entries st l] of handles and their
    contents. *)

From S2P Require Export MutexThms.

Local Open Scope Z_scope.

(** What a handle holds besides its links. *)
Definition mdata : Type := Z * Z * Z * Z * Z.
Definition data_of (m : nfp_cpp_mutex) : mdata :=
  (m_target m, m_depth m, m_address m, m_key m, m_usage m).

(** A segment of the list from [p], whose predecessor is [prev], to [e]. *)
Fixpoint dseg (h : gmap Z nfp_cpp_mutex) (prev p : Z) (l : list Z) (e : Z) : Prop :=
  match l with
  | [] => p = e
  | q :: l => p = q /\ q <> 0 /\
      exists m, h !! q = Some m /\ m_prev m = prev /\ dseg h q (m_next m) l e
  end.

Definition cached (st : mutex_store) (l : list Z) : Prop :=
  NoDup l /\ dseg (mutex_heap st) 0 (mutex_cache st) l 0.

Definition entries (st : mutex_store) (l : list Z) : list (Z * option mdata) :=
  (fun p => (p, data_of <$> mutex_heap st !! p)) <$> l.

(** The last pointer before the end of a segment. *)
Definition last_ptr (prev : Z) (l : list Z) : Z := default prev (last l).

Lemma last_ptr_cons prev q l : last_ptr prev (q :: l) = last_ptr q l.
Proof. unfold last_ptr. rewrite last_cons. by destruct (last l). Qed.

Lemma last_ptr_in prev l : l <> [] -> last_ptr prev l ∈ l.
Proof.
  intros Hl. unfold last_ptr. destruct (last l) as [y|] eqn:El.
  - by apply last_Some_elem_of in El.
  - by apply last_None in El.
Qed.

Lemma dseg_app h prev p l1 l2 e : dseg h prev p (l1 ++ l2) e <->
  exists mid, dseg h prev p l1 mid /\ dseg h (last_ptr prev l1) mid l2 e.
Proof.
  revert prev p. induction l1 as [|q l1 IH]; intros prev p; cbn [app dseg].
  { split; [intros H; by exists p|]. by intros (mid & -> & H). }
  split.
  - intros (-> & Hq & m & Hm & Hp & H). apply IH in H as (mid & H1 & H2).
    exists mid. rewrite last_ptr_cons. eauto 10.
  - intros (mid & (-> & Hq & m & Hm & Hp & H1) & H2). rewrite last_ptr_cons in H2.
    split; [done|]. split; [done|]. exists m. split; [done|]. split; [done|]. apply IH. eauto.
Qed.

Lemma dseg_ext h h' prev p l e : (forall q, q ∈ l -> h' !! q = h !! q) ->
  dseg h prev p l e -> dseg h' prev p l e.
Proof.
  revert prev p. induction l as [|q l IH]; intros prev p Hq; cbn; [done|].
  intros (-> & Hq0 & m & Hm & Hp & H). split; [done|]. split; [done|]. exists m.
  split; [rewrite Hq; [done|by left]|]. split; [done|]. apply IH; [|done].
  intros x Hx. apply Hq. by right.
Qed.

Lemma dseg_in h prev p l e q : dseg h prev p l e -> q ∈ l -> q <> 0 /\ is_Some (h !! q).
Proof.
  revert prev p. induction l as [|x l IH]; intros prev p; cbn; [intros _ H; by apply elem_of_nil in H|].
  intros (-> & Hx & m & Hm & _ & H) Hq. apply elem_of_cons in Hq as [->|Hq]; [by eauto|by eapply IH].
Qed.

(** Changing a field that is not a link. *)
Lemma dseg_alter_data h f q prev p l e :
  (forall m, m_prev (f m) = m_prev m /\ m_next (f m) = m_next m) ->
  dseg h prev p l e -> dseg (alter f q h) prev p l e.
Proof.
  intros Hf. revert prev p. induction l as [|x l IH]; intros prev p; cbn; [done|].
  intros (-> & Hx & m & Hm & Hp & H). split; [done|]. split; [done|].
  destruct (decide (x = q)) as [->|N].
  - exists (f m). rewrite lookup_alter_eq, Hm. destruct (Hf m) as [E1 E2].
    rewrite E1, E2. split; [done|]. split; [done|by apply IH].
  - exists m. rewrite lookup_alter_ne by done. split; [done|]. split; [done|by apply IH].
Qed.

(** A new predecessor for the head, and a new end after the last handle. *)
Lemma dseg_set_prev h prev prev' p l e : NoDup l -> dseg h prev p l e -> l <> [] ->
  dseg (alter (m_set_prev prev') p h) prev' p l e.
Proof.
  destruct l as [|q l]; [done|]. cbn. intros Hn (-> & Hq & m & Hm & Hp & H) _.
  apply NoDup_cons in Hn as [Hni Hn]. split; [done|]. split; [done|].
  exists (m_set_prev prev' m). rewrite lookup_alter_eq, Hm. split; [done|]. split; [done|].
  eapply dseg_ext; [|exact H]. intros x Hx. apply lookup_alter_ne. intros ->. done.
Qed.

Lemma dseg_set_next h prev p l e e' : NoDup l -> dseg h prev p l e -> l <> [] ->
  dseg (alter (m_set_next e') (last_ptr prev l) h) prev p l e'.
Proof.
  revert prev p. induction l as [|q l IH]; intros prev p Hn; [done|]. cbn [dseg].
  intros (-> & Hq & m & Hm & Hp & H) _. apply NoDup_cons in Hn as [Hni Hn].
  split; [done|]. split; [done|]. rewrite last_ptr_cons. destruct l as [|x l].
  - exists (m_set_next e' m). unfold last_ptr. cbn. by rewrite lookup_alter_eq, Hm.
  - exists m. rewrite lookup_alter_ne.
    + split; [done|]. split; [done|]. by apply IH.
    + intros E. apply Hni. rewrite <- E. by apply last_ptr_in.
Qed.

Definition handle_of (h : gmap Z nfp_cpp_mutex) (target address q : Z) : bool :=
  match h !! q with
  | Some m => (m_target m =? target) && (m_address m =? address)
  | None => false
  end.

(** Looking a handle up. *)
Lemma cache_find_spec h prev p l target address fuel : dseg h prev p l 0 -> (length l < fuel)%nat ->
  cache_find fuel h p target address =
  default 0 (head (filter (fun q => handle_of h target address q = true) l)).
Proof.
  revert prev p fuel. induction l as [|q l IH]; intros prev p fuel Hd Hf.
  { cbn in Hd. subst p. by destruct fuel. }
  destruct fuel as [|fuel]; [cbn in Hf; lia|]. cbn [length] in Hf.
  destruct Hd as (-> & Hq & m & Hm & Hp & H). cbn [cache_find].
  rewrite (proj2 (Z.eqb_neq q 0)), Hm by done. rewrite filter_cons.
  assert (handle_of h target address q = (m_target m =? target) && (m_address m =? address)) as E
    by (unfold handle_of; by rewrite Hm).
  rewrite <- E. destruct (handle_of h target address q) eqn:Eh.
  - by rewrite decide_True.
  - rewrite decide_False by done. eapply IH; [done|lia].
Qed.

Lemma cached_fuel st l : cached st l -> (length l < S (size (mutex_heap st)))%nat.
Proof.
  intros [Hn Hd]. apply Nat.lt_succ_r.
  rewrite <- size_dom, <- (size_list_to_set (C := gset Z) l) by done.
  apply subseteq_size. intros q Hq. apply elem_of_list_to_set in Hq.
  apply elem_of_dom. by eapply dseg_in.
Qed.

Lemma entries_ext st st' l : (forall p, p ∈ l ->
  data_of <$> mutex_heap st' !! p = data_of <$> mutex_heap st !! p) -> entries st' l = entries st l.
Proof.
  intros H. unfold entries. apply list_fmap_ext. intros i p Hp.
  rewrite H; [done|]. by eapply list_elem_of_lookup_2.
Qed.

Lemma data_alter_link (f : nfp_cpp_mutex -> nfp_cpp_mutex) q (h : gmap Z nfp_cpp_mutex) p :
  (forall m, data_of (f m) = data_of m) -> data_of <$> alter f q h !! p = data_of <$> h !! p.
Proof.
  intros Hf. destruct (decide (p = q)) as [->|N].
  - rewrite lookup_alter_eq. destruct (h !! q); cbn; [by rewrite Hf|done].
  - by rewrite lookup_alter_ne.
Qed.

(** Adding a handle. *)
Lemma cache_add_spec st l ptr m : cached st l -> ptr <> 0 -> ptr ∉ l ->
  m_prev m = 0 -> m_next m = 0 ->
  cached (cache_add ptr m st) (ptr :: l) /\
  entries (cache_add ptr m st) (ptr :: l) = (ptr, Some (data_of m)) :: entries st l.
Proof.
  intros [Hn Hd] Hp0 Hp Hmp Hmn. unfold cache_add, heap_upd.
  destruct l as [|q l].
  - cbn in Hd. rewrite Hd. cbn. split.
    + split; [by apply NoDup_singleton|]. cbn. split; [done|]. split; [done|].
      exists m. by rewrite lookup_insert_eq.
    + unfold entries. cbn. by rewrite lookup_insert_eq.
  - pose proof Hd as (Hq & Hq0 & _). rewrite (proj2 (Z.eqb_neq (mutex_cache st) 0)) by congruence.
    cbn [negb]. split.
    + split; [by apply NoDup_cons|]. cbn [mutex_heap mutex_cache].
      split; [done|]. split; [done|]. eexists. rewrite lookup_insert_eq. split; [done|]. split; [done|].
      cbn [m_next m_set_next].
      apply (dseg_ext (alter (m_set_prev ptr) (mutex_cache st) (mutex_heap st)));
        [|by apply (dseg_set_prev (mutex_heap st) 0 ptr)].
      intros x Hx. rewrite lookup_insert_ne; [done|]. intros ->. done.
    + match goal with |- entries ?st' _ = _ => assert (entries st' (q :: l) = entries st (q :: l)) as <- end.
      { apply entries_ext. intros p Hpl. cbn [mutex_heap].
        rewrite lookup_insert_ne by (intros ->; done). by apply data_alter_link. }
      cbn. by rewrite lookup_insert_eq.
Qed.

(** Freeing a handle that has other users. *)
Lemma free_used st l p m : cached st l -> p ∈ l -> mutex_heap st !! p = Some m ->
  1 < m_usage m < 0x100000000 ->
  cached (nfp_cpp_mutex_free p st) l /\
  mutex_heap (nfp_cpp_mutex_free p st) !! p = Some (m_set_usage (m_usage m - 1) m) /\
  forall q, q <> p -> mutex_heap (nfp_cpp_mutex_free p st) !! q = mutex_heap st !! q.
Proof.
  intros [Hn Hd] Hp Hm Hu. unfold nfp_cpp_mutex_free, heap_upd. rewrite Hm.
  rewrite u32_id by words. rewrite Z.gtb_ltb, (proj2 (Z.ltb_lt _ _)) by lia. cbn.
  split; [split; [done|by apply dseg_alter_data]|].
  split; [by rewrite lookup_alter_eq, Hm|]. intros q Hq. by rewrite lookup_alter_ne.
Qed.

(** Unlinking. *)
Lemma dseg_unlink h l1 l2 p c (m : nfp_cpp_mutex) :
  NoDup (l1 ++ p :: l2) -> dseg h 0 c (l1 ++ p :: l2) 0 -> h !! p = Some m ->
  let h1 := if negb (m_next m =? 0) then alter (m_set_prev (m_prev m)) (m_next m) h else h in
  let h2 := if negb (m_prev m =? 0) then alter (m_set_next (m_next m)) (m_prev m) h1 else h1 in
  dseg (delete p h2) 0 (if p =? c then m_next m else c) (l1 ++ l2) 0.
Proof.
  intros Hn Hd Hm. apply dseg_app in Hd as (mid & H1 & H2).
  destruct H2 as (-> & Hp0 & m' & Hm' & Hprev & H2). assert (m' = m) as -> by congruence.
  apply NoDup_app in Hn as (Hn1 & Hn12 & Hn2). apply NoDup_cons in Hn2 as [Hpn Hn2].
  assert (p ∉ l1) as Hpl1 by (intros Hx; apply (Hn12 p Hx); by left).
  cbv zeta.
  set (h1 := if negb (m_next m =? 0) then _ else h).
  (* the tail, with the new predecessor *)
  assert (dseg h1 (m_prev m) (m_next m) l2 0) as H2'.
  { subst h1. destruct l2 as [|q l2].
    - cbn in H2. rewrite H2. done.
    - pose proof H2 as (Hq & Hq0 & _). rewrite (proj2 (Z.eqb_neq _ 0)) by congruence. cbn [negb].
      by apply (dseg_set_prev h p). }
  assert (forall x, x ∈ p :: l1 -> h1 !! x = h !! x) as Hh1.
  { intros x Hx. subst h1. destruct (negb (m_next m =? 0)) eqn:En; [|done].
    apply lookup_alter_ne. intros <-. destruct l2 as [|q l2].
    - cbn in H2. rewrite H2 in En. done.
    - destruct H2 as (Hq & _). rewrite Hq in Hx. apply elem_of_cons in Hx as [->|Hx].
      + apply Hpn. by left.
      + apply (Hn12 q Hx). right. by left. }
  assert (dseg h1 0 c l1 p) as H1'.
  { eapply dseg_ext; [|exact H1]. intros x Hx. apply Hh1. by right. }
  set (h2 := if negb (m_prev m =? 0) then _ else h1).
  assert (forall h', dseg h' 0 (if p =? c then m_next m else c) l1 (m_next m) ->
    dseg h' (last_ptr 0 l1) (m_next m) l2 0 -> dseg h' 0 (if p =? c then m_next m else c) (l1 ++ l2) 0) as Hjoin.
  { intros h' Ha Hb. apply dseg_app. eauto. }
  assert (forall h' prev a l e, p ∉ l -> dseg h' prev a l e -> dseg (delete p h') prev a l e) as Hdel.
  { intros h' prev a l e Hl. apply dseg_ext. intros x Hx. apply lookup_delete_ne. intros ->. done. }
  apply Hjoin.
  - apply Hdel; [done|]. subst h2. destruct l1 as [|x l1].
    + cbn in H1'. subst c. rewrite Z.eqb_refl. by cbn.
    + assert (m_prev m ∈ x :: l1) as Hin by (rewrite Hprev; by apply last_ptr_in).
      destruct (dseg_in _ _ _ _ _ _ H1' Hin) as [Hpz _].
      rewrite (proj2 (Z.eqb_neq (m_prev m) 0)) by done. cbn [negb].
      assert ((p =? c) = false) as ->.
      { apply Z.eqb_neq. destruct H1' as (-> & _). intros ->. apply Hpl1. by left. }
      rewrite Hprev. by apply (dseg_set_next h1 0 c _ p).
  - apply Hdel; [done|]. subst h2. rewrite <- Hprev.
    destruct (negb (m_prev m =? 0)) eqn:Ep; [|done].
    eapply dseg_ext; [|exact H2']. intros x Hx. apply lookup_alter_ne. intros <-.
    destruct l1 as [|y l1]; [cbn in Hprev; rewrite Hprev in Ep; done|].
    apply (Hn12 (m_prev m)); [rewrite Hprev; by apply last_ptr_in|by right].
Qed.

(** Freeing a handle's last use. *)
Lemma free_last st l1 p l2 m : cached st (l1 ++ p :: l2) -> mutex_heap st !! p = Some m ->
  m_usage m = 1 ->
  cached (nfp_cpp_mutex_free p st) (l1 ++ l2) /\
  entries (nfp_cpp_mutex_free p st) (l1 ++ l2) = entries st (l1 ++ l2) /\
  mutex_heap (nfp_cpp_mutex_free p st) !! p = None.
Proof.
  intros [Hn Hd] Hm Hu. unfold nfp_cpp_mutex_free, heap_upd. rewrite Hm, Hu.
  change (u32 (1 - 1)) with 0. cbn [Z.gtb Z.compare mutex_heap mutex_cache].
  set (h0 := alter (m_set_usage 0) p (mutex_heap st)).
  assert (dseg h0 0 (mutex_cache st) (l1 ++ p :: l2) 0) as Hd0 by (by apply dseg_alter_data).
  assert (h0 !! p = Some (m_set_usage 0 m)) as Hm0 by (unfold h0; by rewrite lookup_alter_eq, Hm).
  split; [|split].
  - split; [|exact (dseg_unlink h0 l1 l2 p _ _ Hn Hd0 Hm0)].
    apply NoDup_app in Hn as (? & Hn12 & Hn2). apply NoDup_cons in Hn2 as [_ Hn2].
    apply NoDup_app. split; [done|]. split; [|done]. intros x Hx Hx2. apply (Hn12 x Hx). by right.
  - apply entries_ext. intros q Hq. cbn [mutex_heap].
    assert (q <> p) as Nqp.
    { intros ->. apply NoDup_app in Hn as (_ & Hn12 & Hn2). apply NoDup_cons in Hn2 as [Hpn _].
      apply elem_of_app in Hq as [Hq|Hq]; [|done]. apply (Hn12 p Hq). by left. }
    rewrite lookup_delete_ne by congruence.
    destruct (negb (m_prev m =? 0)), (negb (m_next m =? 0)); rewrite ?data_alter_link by done;
      unfold h0; by rewrite lookup_alter_ne.
  - apply lookup_delete_eq.
Qed.

(** ** Refinement of an association list *)

Definition acache : Type := list (Z * mdata).

Definition d_match (target address : Z) (e : Z * mdata) : bool :=
  let '(_, (t, _, a, _, _)) := e in (t =? target) && (a =? address).
Definition d_key (d : mdata) : Z := let '(_, _, _, k, _) := d in k.
Definition d_usage (d : mdata) : Z := let '(_, _, _, _, u) := d in u.
Definition d_set_usage (u : Z) (d : mdata) : mdata := let '(t, n, a, k, _) := d in (t, n, a, k, u).

Definition acache_upd (f : mdata -> mdata) (p : Z) (c : acache) : acache :=
  (fun e => (e.1, if e.1 =? p then f e.2 else e.2)) <$> c.

(** A handle for ([target], [address]): the first cached one if its key is [key];
    a new one at [ptr], in front, if the location is valid and its key word [word]
    reads [key]. *)
Definition acache_alloc (valid : bool) (word : cres Z) (target address key ptr : Z) (c : acache)
    : Z * acache :=
  match list_find (fun e => d_match target address e = true) c with
  | Some (_, (q, d)) =>
      if d_key d =? key then (q, acache_upd (fun d => d_set_usage (u32 (d_usage d + 1)) d) q c) else (0, c)
  | None =>
      match word with
      | Ok w => if valid && (w =? key) && negb (ptr =? 0)
                then (ptr, (ptr, (u8 target, 0, address, key, 1)) :: c) else (0, c)
      | Err _ => (0, c)
      end
  end.

(** A use of [p] less; the handle goes with its last use. *)
Definition acache_free (p : Z) (c : acache) : acache :=
  match list_find (fun e => e.1 = p) c with
  | Some (_, (_, d)) =>
      if 1 <? d_usage d then acache_upd (fun d => d_set_usage (d_usage d - 1) d) p c
      else filter (fun e => e.1 <> p) c
  | None => c
  end.

Definition holds (st : mutex_store) (c : acache) : Prop :=
  cached st c.*1 /\ forall p d, (p, d) ∈ c -> data_of <$> mutex_heap st !! p = Some d.

Lemma acache_upd_fst f p c : (acache_upd f p c).*1 = c.*1.
Proof. unfold acache_upd. rewrite <- list_fmap_compose. by apply list_fmap_ext. Qed.

Lemma holds_upd st st' f p c : holds st c -> cached st' c.*1 ->
  (forall q, q ∈ c.*1 -> data_of <$> mutex_heap st' !! q =
     (if q =? p then f else id) <$> (data_of <$> mutex_heap st !! q)) ->
  holds st' (acache_upd f p c).
Proof.
  intros [Hc Hd] Hc' Hf. split; [by rewrite acache_upd_fst|].
  intros q d Hq. apply list_elem_of_fmap in Hq as ([q' d'] & E & Hin). cbn in E. simplify_eq.
  rewrite Hf, (Hd _ _ Hin); [|by apply (list_elem_of_fmap_2 fst) in Hin].
  by destruct (q' =? p).
Qed.

Lemma find_handle st c target address : holds st c ->
  default 0 (head (filter (fun q => handle_of (mutex_heap st) target address q = true) c.*1)) =
  default 0 ((fun x => (x.2).1) <$> list_find (fun e => d_match target address e = true) c).
Proof.
  intros [_ Hd]. induction c as [|[q d] c IH]; [done|]. cbn [fmap list_fmap fst].
  rewrite filter_cons. cbn [list_find].
  assert (handle_of (mutex_heap st) target address q = d_match target address (q, d)) as E.
  { specialize (Hd q d (list_elem_of_here _ _)). unfold handle_of.
    destruct (mutex_heap st !! q) as [m|]; [|done]. cbn in Hd. injection Hd as <-. done. }
  rewrite E. destruct (decide (d_match target address (q, d) = true)) as [|N]; [done|].
  rewrite IH by (intros ? ? ?; apply Hd; by right).
  by destruct (list_find _ c) as [[i [? ?]]|].
Qed.

Lemma holds_lookup st c p d : holds st c -> (p, d) ∈ c ->
  p <> 0 /\ exists m, mutex_heap st !! p = Some m /\ data_of m = d.
Proof.
  intros [[_ Hs] Hd] Hin. destruct (dseg_in _ _ _ _ _ _ Hs (list_elem_of_fmap_2 fst _ _ Hin)) as [Hp _].
  split; [done|]. specialize (Hd _ _ Hin). destruct (mutex_heap st !! p) as [m|]; [|done].
  exists m. cbn in Hd. by injection Hd.
Qed.

Lemma filter_keeps {A} (P : A -> Prop) `{forall x, Decision (P x)} (l : list A) :
  (forall x, x ∈ l -> P x) -> filter P l = l.
Proof.
  intros HP. induction l as [|x l IH]; [done|].
  rewrite filter_cons, decide_True by (apply HP; left). f_equal. apply IH.
  intros y Hy. apply HP. by right.
Qed.

Definition location_valid (model target address : Z) : bool :=
  match _nfp_cpp_mutex_validate model target address with Ok _ => true | Err _ => false end.

Lemma alloc_refines {S} `{CppBus S} st c model target address key ptr (s : S) :
  holds st c -> ptr ∉ c.*1 ->
  let '((p, st'), _) := crun (nfp_cpp_mutex_alloc model target address key ptr st) s in
  let '(p', c') := acache_alloc (location_valid model target address)
    (bus_readl (NFP_CPP_ID target 3 0) (u64 (address + 4)) s).1 target address key ptr c in
  p = p' /\ holds st' c'.
Proof.
  intros Hh Hptr. unfold nfp_cpp_mutex_alloc, acache_alloc.
  destruct Hh as [Hc Hd] eqn:EHh. clear EHh.
  rewrite (cache_find_spec _ 0 _ c.*1 target address _ (proj2 Hc) (cached_fuel _ _ Hc)).
  rewrite (find_handle st c target address (conj Hc Hd)).
  destruct (list_find _ c) as [[i [q d]]|] eqn:Ef; cbn [fmap option_fmap option_map default fst snd].
  - apply list_find_Some in Ef as (Hi & _ & _). apply list_elem_of_lookup_2 in Hi.
    destruct (holds_lookup st c q d (conj Hc Hd) Hi) as (Hq & m & Hm & <-).
    cbn [from_option id]. rewrite (proj2 (Z.eqb_neq q 0)), Hm by done. cbn [negb].
    change (d_key (data_of m)) with (m_key m).
    destruct (m_key m =? key); cbn [crun]; split; [done| |done|by split].
    eapply holds_upd; [by split| |].
    + split; [apply Hc|]. cbn [mutex_heap mutex_cache]. apply dseg_alter_data; [done|apply Hc].
    + intros x Hx. cbn [mutex_heap]. unfold heap_upd. destruct (decide (x = q)) as [->|N].
      * by rewrite Z.eqb_refl, lookup_alter_eq, Hm.
      * rewrite (proj2 (Z.eqb_neq x q)), lookup_alter_ne by done. by destruct (_ !! x).
  - cbn [from_option id Z.eqb negb]. unfold location_valid.
    destruct (_nfp_cpp_mutex_validate model target address) as [[]|e]; cbn [crun].
    2:{ cbn [andb fst]. destruct (bus_readl _ _ s) as [[?|?] ?]; cbn; split; done || by split. }
    + unfold readl. cbn [cbind crun].
      destruct (bus_readl _ _ s) as [[w|e] s']; cbn [fst]; [|split; [done|by split]].
      destruct (w =? key) eqn:Ek; cbn; [|split; [done|by split]].
      destruct (ptr =? 0) eqn:Ep; cbn; [split; [done|by split]|].
      apply Z.eqb_neq in Ep. split; [done|].
      destruct (cache_add_spec st c.*1 ptr (mkMutex (u8 target) 0 address key 1 0 0) Hc Ep Hptr eq_refl eq_refl)
        as [Hc' He].
      split; [done|]. cbn [fmap list_fmap fst] in He.
      intros x dx Hx. apply elem_of_cons in Hx as [[= -> ->]|Hx].
      * unfold entries in He. cbn in He. by injection He.
      * rewrite <- (Hd x dx Hx). apply (list_elem_of_fmap_2 fst) in Hx as Hx'. cbn in Hx'.
        unfold entries in He. cbn [fmap list_fmap] in He. injection He as _ He.
        apply list_elem_of_lookup in Hx' as [j Hj].
        apply (f_equal (fun l => l !! j)) in He. rewrite !list_lookup_fmap in He.
        rewrite list_lookup_fmap in Hj. rewrite Hj in He. cbn in He. by injection He.
Qed.

(** It only reads the key word. *)
Lemma alloc_bus {S} `{CppBus S} st model target address key ptr (s : S) :
  let s' := (crun (nfp_cpp_mutex_alloc model target address key ptr st) s).2 in
  s' = s \/ s' = (bus_readl (NFP_CPP_ID target 3 0) (u64 (address + 4)) s).2.
Proof.
  unfold nfp_cpp_mutex_alloc. destruct (negb (cache_find _ _ _ _ _ =? 0)).
  { destruct (mutex_heap st !! _); [destruct (_ =? _)|]; by left. }
  destruct (_nfp_cpp_mutex_validate _ _ _); [|by left]. unfold readl. cbn [cbind crun].
  destruct (bus_readl _ _ s) as [[w|e] s']; [|by right].
  destruct (negb _); [by right|]. destruct (ptr =? 0); by right.
Qed.

Lemma free_refines st c p d : holds st c -> (p, d) ∈ c -> 1 <= d_usage d < 0x100000000 ->
  holds (nfp_cpp_mutex_free p st) (acache_free p c).
Proof.
  intros Hh Hin Hu. destruct (holds_lookup _ _ _ _ Hh Hin) as (Hp & m & Hm & <-).
  pose proof Hh as [Hc Hd]. unfold acache_free.
  destruct (list_find (fun e => e.1 = p) c) as [[i [q d]]|] eqn:Ef.
  2:{ apply list_find_None in Ef. rewrite Forall_forall in Ef. by destruct (Ef _ Hin). }
  apply list_find_Some in Ef as (Hi & Hq & _). cbn in Hq. subst q.
  assert (d = data_of m) as ->.
  { apply list_elem_of_lookup_2 in Hi. specialize (Hd _ _ Hi). rewrite Hm in Hd. by injection Hd. }
  change (d_usage (data_of m)) with (m_usage m) in *.
  destruct (Z.ltb_spec 1 (m_usage m)).
  - destruct (free_used st c.*1 p m Hc (list_elem_of_fmap_2 fst _ _ Hin) Hm) as (Hc' & He & Ho); [lia|].
    eapply holds_upd; [done|done|]. intros q Hq. destruct (Z.eqb_spec q p) as [->|N].
    + by rewrite He, Hm.
    + rewrite Ho by done. by destruct (_ !! q).
  - assert (m_usage m = 1) as Hu1 by lia.
    assert (filter (fun e => e.1 <> p) c = take i c ++ drop (S i) c) as ->.
    { transitivity (filter (fun e => e.1 <> p) (take i c ++ (p, data_of m) :: drop (S i) c));
        [by rewrite take_drop_middle|].
      rewrite filter_app, filter_cons, decide_False by (cbn; congruence).
      destruct Hc as [Hn _]. rewrite <- (take_drop_middle c i _ Hi), fmap_app, fmap_cons in Hn.
      apply NoDup_app in Hn as (_ & Hn12 & Hn2). apply NoDup_cons in Hn2 as [Hpn _]. cbn [fst] in Hn12, Hpn.
      f_equal; apply filter_keeps; intros x Hx E.
      - apply (Hn12 p); [rewrite <- E; by apply list_elem_of_fmap_2|by left].
      - apply Hpn. rewrite <- E. by apply (list_elem_of_fmap_2 fst). }
    rewrite <- (take_drop_middle c i _ Hi), fmap_app, fmap_cons in Hc. cbn [fst] in Hc.
    destruct (free_last st _ p _ m Hc Hm Hu1) as (Hc' & He & Hf).
    rewrite <- fmap_app in Hc', He. split; [done|].
    intros x dx Hx. rewrite <- (Hd x dx).
    + apply (list_elem_of_fmap_2 fst) in Hx. cbn in Hx. apply list_elem_of_lookup in Hx as [j Hj].
      apply (f_equal (fun l => l !! j)) in He. unfold entries in He.
      rewrite !list_lookup_fmap in He. rewrite list_lookup_fmap in Hj. rewrite Hj in He. cbn in He. by injection He.
    + apply elem_of_app in Hx as [Hx|Hx]; [by eapply subseteq_take|by eapply subseteq_drop].
Qed.

(** C29 (refinement): The doubly-linked cache of mutex handles implements an
    association list of handles: [nfp_cpp_mutex_alloc] returns the first handle of
    the location when its key is the one asked for (counting one more use), fails
    without touching the cache on another key, an invalid location, a failed or
    mismatching key word or a failed [calloc], and otherwise puts a new handle in
    front; [nfp_cpp_mutex_free] takes a use away and unlinks the handle with its last
    use. *)
Theorem mutex_cache_refines {S} `{CppBus S} st c : holds st c ->
  (forall model target address key ptr (s : S), ptr ∉ c.*1 ->
    let '((p, st'), _) := crun (nfp_cpp_mutex_alloc model target address key ptr st) s in
    let '(p', c') := acache_alloc (location_valid model target address)
      (bus_readl (NFP_CPP_ID target 3 0) (u64 (address + 4)) s).1 target address key ptr c in
    p = p' /\ holds st' c') /\
  (forall p d, (p, d) ∈ c -> 1 <= d_usage d < 0x100000000 ->
    holds (nfp_cpp_mutex_free p st) (acache_free p c)).
Proof.
  intros Hh. split; intros; [by apply alloc_refines|by eapply free_refines].
Qed.

(** Three handles cached; the middle one is freed. *)
Definition ex_store : mutex_store :=
  let alloc a ptr st := (crun (nfp_cpp_mutex_alloc 0x60000010 NFP6000_CPPTGT_MU a 0 ptr st)
                              ((fun _ => 0) : words32)).1.2 in
  alloc 24 3 (alloc 16 2 (alloc 8 1 (mkStore ∅ 0))).
Definition ex_cache : acache :=
  [(3, (7, 0, 24, 0, 1)); (2, (7, 0, 16, 0, 1)); (1, (7, 0, 8, 0, 1))].

Lemma mutex_cache_refines_witness :
  holds ex_store ex_cache /\ holds (nfp_cpp_mutex_free 2 ex_store) (acache_free 2 ex_cache) /\
  acache_free 2 ex_cache = [(3, (7, 0, 24, 0, 1)); (1, (7, 0, 8, 0, 1))].
Proof.
  assert (holds ex_store ex_cache) as Hh.
  { split.
    - split; [by apply (bool_decide_unpack (NoDup ex_cache.*1))|]. cbn [ex_cache fmap list_fmap fst].
      cbn [dseg]. repeat (split; [vm_compute; congruence|]).
      eexists. split; [vm_compute; reflexivity|]. cbn.
      repeat (split; [vm_compute; congruence|]).
      eexists. split; [vm_compute; reflexivity|]. cbn.
      repeat (split; [vm_compute; congruence|]).
      eexists. split; [vm_compute; reflexivity|]. cbn. done.
    - intros p d Hin. unfold ex_cache in Hin.
      repeat (apply elem_of_cons in Hin as [[= -> ->]|Hin]; [vm_compute; reflexivity|]).
      by apply elem_of_nil in Hin. }
  split; [exact Hh|]. split; [|vm_compute; reflexivity].
  refine (proj2 (mutex_cache_refines (S := words32) ex_store ex_cache Hh) 2 (7, 0, 16, 0, 1) _ _).
  - right. left.
  - vm_compute. split; congruence.
Defined.
