(* ===== verification/RteCommon.v ===== *)
(** * Words, powers of two and byte order ([user/nfpcore/rte_common.h], [rte_byteorder.h])

    The alignment macros, the bit searches and the byte swaps, and that they are what
    their names say, with the inputs on which they are not.  The compiler's
    [__builtin_ctz] and [__builtin_clz] are undefined at zero ([None]); a swap instruction
    reverses a register's bytes.  A multiple of zero ([RTE_ALIGN_MUL_CEIL] and the others)
    is undefined in C, and not looked at here. *)

From S2P Require Export Bits Bytes CLib.

Local Open Scope Z_scope.

(** ** Pointers and alignment ([typeof(val)] is unsigned, of 32 or 64 bits, [w]) *)

Definition wrap (w x : Z) : Z := x mod 2 ^ w.

Definition RTE_PTR_ADD (ptr x : Z) : Z := u64 (ptr + x).
Definition RTE_PTR_SUB (ptr x : Z) : Z := u64 (ptr - x).
Definition RTE_PTR_DIFF (ptr1 ptr2 : Z) : Z := u64 (ptr1 - ptr2).

Definition RTE_ALIGN_FLOOR (w val align : Z) : Z := Z.land val (wrap w (Z.lnot (wrap w (align - 1)))).
Definition RTE_ALIGN_CEIL (w val align : Z) : Z := RTE_ALIGN_FLOOR w (wrap w (val + wrap w (align - 1))) align.
Definition RTE_ALIGN (w val align : Z) : Z := RTE_ALIGN_CEIL w val align.
Definition RTE_PTR_ALIGN_FLOOR (ptr align : Z) : Z := RTE_ALIGN_FLOOR 64 ptr align.
Definition RTE_PTR_ALIGN_CEIL (ptr align : Z) : Z := RTE_PTR_ALIGN_FLOOR (RTE_PTR_ADD ptr (align - 1)) align.
Definition RTE_PTR_ALIGN (ptr align : Z) : Z := RTE_PTR_ALIGN_CEIL ptr align.
Definition RTE_ALIGN_MUL_CEIL (w v mul : Z) : Z := wrap w (wrap w (v + wrap w mul - 1) / wrap w mul * wrap w mul).
Definition RTE_ALIGN_MUL_FLOOR (w v mul : Z) : Z := wrap w (v / wrap w mul * wrap w mul).
Definition RTE_ALIGN_MUL_NEAR (w v mul : Z) : Z :=
  let ceil := RTE_ALIGN_MUL_CEIL w v mul in
  let floor := RTE_ALIGN_MUL_FLOOR w v mul in
  if wrap w (ceil - v) >? wrap w (v - floor) then floor else ceil.
(** [align] is an [unsigned], and so is the [align - 1] of the macros. *)
Definition rte_is_aligned (ptr align : Z) : bool := RTE_PTR_ALIGN ptr (u32 (align - 1) + 1) =? ptr.

Definition RTE_MIN (a b : Z) : Z := if a <? b then a else b.
Definition RTE_MAX (a b : Z) : Z := if a >? b then a else b.

(** ** Bits *)

Definition rte_combine32ms1b (x : Z) : Z :=
  let x := Z.lor x (Z.shiftr x 1) in
  let x := Z.lor x (Z.shiftr x 2) in
  let x := Z.lor x (Z.shiftr x 4) in
  let x := Z.lor x (Z.shiftr x 8) in
  let x := Z.lor x (Z.shiftr x 16) in
  x.

Definition rte_combine64ms1b (v : Z) : Z :=
  let v := Z.lor v (Z.shiftr v 1) in
  let v := Z.lor v (Z.shiftr v 2) in
  let v := Z.lor v (Z.shiftr v 4) in
  let v := Z.lor v (Z.shiftr v 8) in
  let v := Z.lor v (Z.shiftr v 16) in
  let v := Z.lor v (Z.shiftr v 32) in
  v.

Definition RTE_IS_POWER_OF_2 (w n : Z) : bool := negb (n =? 0) && (Z.land (wrap w (n - 1)) n =? 0).
Definition rte_is_power_of_2 (n : Z) : bool := negb (n =? 0) && (Z.land n (u32 (n - 1)) =? 0).

Definition rte_align32pow2 (x : Z) : Z :=
  let x := u32 (x - 1) in
  let x := rte_combine32ms1b x in
  u32 (x + 1).

Definition rte_align32prevpow2 (x : Z) : Z :=
  let x := rte_combine32ms1b x in
  u32 (x - Z.shiftr x 1).

Definition rte_align64pow2 (v : Z) : Z :=
  let v := u64 (v - 1) in
  let v := rte_combine64ms1b v in
  u64 (v + 1).

Definition rte_align64prevpow2 (v : Z) : Z :=
  let v := rte_combine64ms1b v in
  u64 (v - Z.shiftr v 1).

(** [__builtin_ctz] and [__builtin_clz] of a word of [w] bits. *)
Fixpoint ctz_pos (p : positive) : Z := match p with xO p => 1 + ctz_pos p | _ => 0 end.
Definition ctz (x : Z) : option Z := match x with Zpos p => Some (ctz_pos p) | _ => None end.
Definition clz (w x : Z) : option Z := if x =? 0 then None else Some (w - 1 - Z.log2 x).

Definition rte_bsf32 (v : Z) : option Z := ctz v.
Definition rte_bsf64 (v : Z) : option Z := ctz v.

(** The result and [*pos], if it is set; [None]: undefined. *)
Definition rte_bsf32_safe (v : Z) : option (Z * option Z) :=
  if v =? 0 then Some (0, None) else match rte_bsf32 (u32 v) with Some pos => Some (1, Some pos) | None => None end.
Definition rte_bsf64_safe (v : Z) : option (Z * option Z) :=
  if v =? 0 then Some (0, None) else match rte_bsf64 v with Some pos => Some (1, Some pos) | None => None end.

Definition rte_log2_u32 (v : Z) : option Z := if v =? 0 then Some 0 else rte_bsf32 (rte_align32pow2 v).
Definition rte_log2_u64 (v : Z) : option Z := if v =? 0 then Some 0 else rte_bsf64 (rte_align64pow2 v).

Definition rte_fls_u32 (x : Z) : Z := if x =? 0 then 0 else 32 - default 0 (clz 32 x).
Definition rte_fls_u64 (x : Z) : Z := if x =? 0 then 0 else 64 - default 0 (clz 64 x).

Definition RTE_LEN2MASK (w ln : Z) : Z := wrap w (Z.shiftr (2 ^ 64 - 1) (64 - ln)).

(** ** Sizes as text *)

(** The factor of a suffix. *)
Definition size_suffix (c : Z) : Z :=
  if (c =? 71) || (c =? 103) then 1024 * 1024 * 1024
  else if (c =? 77) || (c =? 109) then 1024 * 1024
  else if (c =? 75) || (c =? 107) then 1024
  else 1.

Definition rte_str_to_size (str : list Z) : Z :=
  let str := skip_space str in
  match str with
  | 45 :: _ => 0
  | _ =>
      let '(size, endptr, overflow) := strtoul str 0 in
      if overflow then 0
      else
        let endptr := match endptr with 32 :: rest => rest | _ => endptr end in
        u64 (size * size_suffix (hd 0 endptr))
  end.

(** ** Byte order (the macros' masks keep what their casts keep) *)

Definition RTE_STATIC_BSWAP16 (v : Z) : Z :=
  Z.lor (Z.shiftl (Z.land v 0x00ff) 8) (Z.shiftr (Z.land v 0xff00) 8).

Definition RTE_STATIC_BSWAP32 (v : Z) : Z :=
  Z.lor (Z.lor (Z.lor (Z.shiftl (Z.land v 0x000000ff) 24)
                      (Z.shiftl (Z.land v 0x0000ff00) 8))
                      (Z.shiftr (Z.land v 0x00ff0000) 8))
                      (Z.shiftr (Z.land v 0xff000000) 24).

Definition RTE_STATIC_BSWAP64 (v : Z) : Z :=
  Z.lor (Z.lor (Z.lor (Z.lor (Z.lor (Z.lor (Z.lor
    (Z.shiftl (Z.land v 0x00000000000000ff) 56)
    (Z.shiftl (Z.land v 0x000000000000ff00) 40))
    (Z.shiftl (Z.land v 0x0000000000ff0000) 24))
    (Z.shiftl (Z.land v 0x00000000ff000000) 8))
    (Z.shiftr (Z.land v 0x000000ff00000000) 8))
    (Z.shiftr (Z.land v 0x0000ff0000000000) 24))
    (Z.shiftr (Z.land v 0x00ff000000000000) 40))
    (Z.shiftr (Z.land v 0xff00000000000000) 56).

Definition rte_constant_bswap16 (x : Z) : Z := u16 (RTE_STATIC_BSWAP16 x).
Definition rte_constant_bswap32 (x : Z) : Z := u32 (RTE_STATIC_BSWAP32 x).
Definition rte_constant_bswap64 (x : Z) : Z := u64 (RTE_STATIC_BSWAP64 x).

(** The instruction, on a register of [n] bytes. *)
Definition swap_register (n : nat) (x : Z) : Z := be_combine (le_split n x).
Definition rte_arch_bswap16 (x : Z) : Z := swap_register 2 x.
Definition rte_arch_bswap32 (x : Z) : Z := swap_register 4 x.
Definition rte_arch_bswap64 (x : Z) : Z := swap_register 8 x.

(** [constant]: whether the compiler knows the value. *)
Definition rte_bswap16 (constant : bool) (x : Z) : Z := if constant then rte_constant_bswap16 x else rte_arch_bswap16 x.
Definition rte_bswap32 (constant : bool) (x : Z) : Z := if constant then rte_constant_bswap32 x else rte_arch_bswap32 x.
Definition rte_bswap64 (constant : bool) (x : Z) : Z := if constant then rte_constant_bswap64 x else rte_arch_bswap64 x.

(** On a little-endian host. *)
Definition RTE_BE16 (v : Z) : Z := u16 (RTE_STATIC_BSWAP16 v).
Definition RTE_BE32 (v : Z) : Z := u32 (RTE_STATIC_BSWAP32 v).
Definition RTE_BE64 (v : Z) : Z := u64 (RTE_STATIC_BSWAP64 v).
Definition RTE_LE16 (v : Z) : Z := u16 v.
Definition RTE_LE32 (v : Z) : Z := u32 v.
Definition RTE_LE64 (v : Z) : Z := u64 v.
Definition rte_cpu_to_le (x : Z) : Z := x.
Definition rte_le_to_cpu (x : Z) : Z := x.
Definition rte_cpu_to_be_16 (constant : bool) (x : Z) : Z := rte_bswap16 constant x.
Definition rte_cpu_to_be_32 (constant : bool) (x : Z) : Z := rte_bswap32 constant x.
Definition rte_cpu_to_be_64 (constant : bool) (x : Z) : Z := rte_bswap64 constant x.
Definition rte_be_to_cpu_16 (constant : bool) (x : Z) : Z := rte_bswap16 constant x.
Definition rte_be_to_cpu_32 (constant : bool) (x : Z) : Z := rte_bswap32 constant x.
Definition rte_be_to_cpu_64 (constant : bool) (x : Z) : Z := rte_bswap64 constant x.

(** ** The bit searches *)

(** [y] has the bits of [x] and those less than [n] below them. *)
Definition smeared (n x y : Z) : Prop :=
  forall i, 0 <= i -> Z.testbit y i = true <-> exists d, 0 <= d < n /\ Z.testbit x (i + d) = true.

(** Ones from bit 0 to the highest bit of [x]. *)
Definition top_ones (x : Z) : Z := if x =? 0 then 0 else 2 ^ (Z.log2 x + 1) - 1.

Lemma smeared_start x : smeared 1 x x.
Proof.
  intros i Hi. split; [intros E; exists 0; by rewrite Z.add_0_r|].
  intros (d & Hd & E). by replace (i + d) with i in E by lia.
Qed.

Lemma smeared_step n x y : 0 < n -> smeared n x y -> smeared (n + n) x (Z.lor y (Z.shiftr y n)).
Proof.
  intros Hn Hs i Hi. rewrite Z.lor_spec, Z.shiftr_spec, orb_true_iff, (Hs i Hi), (Hs (i + n)) by lia. split.
  - intros [(d & Hd & E)|(d & Hd & E)]; [exists d; split; [lia|done]|exists (n + d); split; [lia|]]. by rewrite Z.add_assoc.
  - intros (d & Hd & E). destruct (Z.lt_ge_cases d n); [left; exists d; split; [lia|done]|right]. exists (d - n). split; [lia|].
    by replace (i + n + (d - n)) with (i + d) by lia.
Qed.

Lemma smeared_all w x y : 0 <= x < 2 ^ w -> 0 <= w -> smeared w x y -> y = top_ones x.
Proof.
  intros Hx Hw Hs. pose proof (Z.log2_nonneg x) as Hl.
  assert (forall i, 0 <= i -> Z.testbit y i = negb (x =? 0) && (i <? Z.log2 x + 1)) as Hb.
  { intros i Hi. apply eq_true_iff_eq. rewrite (Hs i Hi), andb_true_iff, negb_true_iff, Z.eqb_neq, Z.ltb_lt. split.
    - intros (d & Hd & E). destruct (Z.eqb_spec x 0) as [->|N]; [by rewrite Z.bits_0 in E|]. split; [done|].
      destruct (Z.le_gt_cases (i + d) (Z.log2 x)); [lia|]. by rewrite Z.bits_above_log2 in E by lia.
    - intros [N Hi']. assert (Z.log2 x < w) by (apply Z.log2_lt_pow2; lia). exists (Z.log2 x - i). split; [lia|].
      replace (i + (Z.log2 x - i)) with (Z.log2 x) by lia. apply Z.bit_log2. lia. }
  apply Z.bits_inj'. intros i Hi. rewrite Hb by done. unfold top_ones. destruct (x =? 0); cbn [negb andb]; [by rewrite Z.bits_0|].
  rewrite Z.sub_1_r, <- Z.ones_equiv. symmetry. apply testbit_ones_pos; lia.
Qed.

Lemma combine32_top x : is_u32 x -> rte_combine32ms1b x = top_ones x.
Proof.
  intros Hx. apply (smeared_all 32); [exact Hx|lia|].
  pose proof (smeared_start x) as H. do 5 (apply smeared_step in H; [|lia]). exact H.
Qed.

Lemma combine64_top x : is_u64 x -> rte_combine64ms1b x = top_ones x.
Proof.
  intros Hx. apply (smeared_all 64); [exact Hx|lia|].
  pose proof (smeared_start x) as H. do 6 (apply smeared_step in H; [|lia]). exact H.
Qed.

Lemma top_ones_next w x : 0 < w -> 0 < x < 2 ^ w ->
  wrap w (top_ones (wrap w (x - 1)) + 1) = if x <=? 2 ^ (w - 1) then 2 ^ Z.log2_up x else 0.
Proof.
  intros Hw Hx. unfold wrap. rewrite (Z.mod_small (x - 1)) by lia.
  assert (top_ones (x - 1) + 1 = 2 ^ Z.log2_up x) as ->.
  { unfold top_ones. destruct (Z.eqb_spec (x - 1) 0) as [E|N]; [by replace x with 1 by lia|].
    rewrite Z.log2_up_eqn, <- Z.sub_1_r by lia. unfold Z.succ. lia. }
  destruct (Z.leb_spec x (2 ^ (w - 1))) as [L|L].
  - assert (Z.log2_up x <= w - 1) by (apply Z.log2_up_le_pow2; lia).
    apply Z.mod_small. split; [apply Z.pow_nonneg; lia|]. apply Z.pow_lt_mono_r; lia.
  - assert (w - 1 < Z.log2_up x) by (apply Z.log2_up_lt_pow2; lia).
    assert (Z.log2_up x <= w) by (apply Z.log2_up_le_pow2; lia).
    replace (Z.log2_up x) with w by lia. apply Z.mod_same. lia.
Qed.

Lemma top_ones_prev w x : 0 <= w -> 0 < x < 2 ^ w -> wrap w (top_ones x - Z.shiftr (top_ones x) 1) = 2 ^ Z.log2 x.
Proof.
  intros Hw Hx. unfold top_ones. destruct (Z.eqb_spec x 0); [lia|]. pose proof (Z.log2_nonneg x) as Hl.
  rewrite Z.shiftr_div_pow2 by lia. change (2 ^ 1) with 2. rewrite Z.pow_add_r by lia. change (2 ^ 1) with 2.
  pose proof (Z.pow_pos_nonneg 2 (Z.log2 x) ltac:(lia) Hl) as Hp.
  replace ((2 ^ Z.log2 x * 2 - 1) / 2) with (2 ^ Z.log2 x - 1) by lia. unfold wrap. rewrite Z.mod_small; [lia|].
  pose proof (Z.log2_spec x ltac:(lia)). lia.
Qed.

Lemma land_pred_power n : 0 < n -> Z.land n (n - 1) = 0 <-> exists k, 0 <= k /\ n = 2 ^ k.
Proof.
  intros Hn. split.
  - intros E. exists (Z.log2 n). split; [apply Z.log2_nonneg|]. pose proof (Z.log2_spec n Hn) as [H1 H2]. unfold Z.succ in H2.
    destruct (Z.eq_dec n (2 ^ Z.log2 n)) as [|N]; [done|exfalso].
    assert (Z.log2 (n - 1) = Z.log2 n) as El by (apply Z.log2_unique; [apply Z.log2_nonneg|unfold Z.succ; lia]).
    assert (Z.testbit (Z.land n (n - 1)) (Z.log2 n) = true) as Hb; [|by rewrite E, Z.bits_0 in Hb].
    rewrite Z.land_spec, Z.bit_log2 by lia. rewrite <- El. rewrite Z.bit_log2; [done|].
    pose proof (Z.pow_pos_nonneg 2 (Z.log2 n) ltac:(lia) (Z.log2_nonneg n)). lia.
  - intros (k & Hk & ->). rewrite Z.sub_1_r, <- Z.ones_equiv, Z.land_ones by done. apply Z.mod_same. lia.
Qed.

Lemma ctz_pow2 k : 0 <= k -> ctz (2 ^ k) = Some k.
Proof.
  intros Hk. pattern k. apply natlike_ind; [done| |done]. clear k Hk. intros k Hk IH. rewrite Z.pow_succ_r by done.
  destruct (2 ^ k) as [|q|] eqn:E; [done| |done]. injection IH as <-.
  change (ctz (2 * Z.pos q)) with (Some (1 + ctz_pos q)). f_equal. lia.
Qed.

(** The lowest bit set. *)
Lemma ctz_lowest x k : ctz x = Some k -> 0 <= k /\ Z.testbit x k = true /\ forall i, 0 <= i < k -> Z.testbit x i = false.
Proof.
  destruct x as [|q|]; [done| |done]. intros [= <-]. induction q as [q _|q (Hk & Hb & Hl)|]; cbn [ctz_pos].
  - split; [done|]. split; [done|lia].
  - rewrite (Pos2Z.inj_xO q). split; [lia|]. split; [by rewrite Z.add_1_l, Z.double_bits_succ|].
    intros i Hi. destruct (Z.eq_dec i 0) as [->|N]; [done|]. replace i with (Z.succ (i - 1)) by lia.
    rewrite Z.double_bits_succ. apply Hl. lia.
  - split; [done|]. split; [done|lia].
Qed.

(** One lemma for the two widths of each routine. *)
Section Widths.
  Variable w : Z.
  Hypothesis w_pos : 0 < w.

Lemma next_power combine x : (forall v, 0 <= v < 2 ^ w -> combine v = top_ones v) -> 0 <= x < 2 ^ w ->
  wrap w (combine (wrap w (x - 1)) + 1) = if (x =? 0) || (2 ^ (w - 1) <? x) then 0 else 2 ^ Z.log2_up x.
Proof.
  intros Hc Hx. rewrite Hc by (apply Z.mod_pos_bound; lia). destruct (Z.eqb_spec x 0) as [->|N]; cbn [orb].
  - pose proof (Z.pow_gt_1 2 w). unfold wrap. assert ((0 - 1) mod 2 ^ w = 2 ^ w - 1) as -> by (symmetry; apply Z.mod_unique with (-1); lia).
    unfold top_ones. rewrite (proj2 (Z.eqb_neq _ _)), (Z.sub_1_r (2 ^ w)), Z.log2_pred_pow2 by lia.
    replace (2 ^ (Z.pred w + 1) - 1 + 1) with (2 ^ w) by (rewrite Z.sub_add; f_equal; lia). apply Z.mod_same. lia.
  - rewrite top_ones_next by lia. rewrite Z.leb_antisym. by destruct (_ <? _).
Qed.

Lemma previous_power combine x : (forall v, 0 <= v < 2 ^ w -> combine v = top_ones v) -> 0 <= x < 2 ^ w ->
  wrap w (combine x - Z.shiftr (combine x) 1) = if x =? 0 then 0 else 2 ^ Z.log2 x.
Proof.
  intros Hc Hx. rewrite Hc by done. destruct (Z.eqb_spec x 0) as [->|N]; [done|]. apply top_ones_prev; lia.
Qed.

Lemma log2_rounded align x :
  align x = (if (x =? 0) || (2 ^ (w - 1) <? x) then 0 else 2 ^ Z.log2_up x) -> 0 <= x ->
  (if x =? 0 then Some 0 else ctz (align x)) = if 2 ^ (w - 1) <? x then None else Some (Z.log2_up x).
Proof.
  intros -> Hx. pose proof (Z.pow_pos_nonneg 2 (w - 1)). destruct (Z.eqb_spec x 0) as [->|N]; cbn [orb].
  - by rewrite (proj2 (Z.ltb_ge _ _)) by lia.
  - destruct (_ <? _); [done|]. apply ctz_pow2, Z.log2_up_nonneg.
Qed.

Lemma fls_log2 x : (if x =? 0 then 0 else w - default 0 (clz w x)) = if x =? 0 then 0 else Z.log2 x + 1.
Proof. unfold clz. destruct (x =? 0); simpl; lia. Qed.

End Widths.

Lemma is_power_of_2_spec n : is_u32 n -> rte_is_power_of_2 n = true <-> exists k, 0 <= k /\ n = 2 ^ k.
Proof.
  unfold is_u32, rte_is_power_of_2. intros Hn. destruct (Z.eqb_spec n 0) as [->|N]; cbn [negb andb].
  - split; [done|]. intros (k & Hk & E). pose proof (Z.pow_pos_nonneg 2 k). lia.
  - unfold u32. rewrite Z.mod_small, Z.eqb_eq by lia. apply land_pred_power. lia.
Qed.

Lemma u64_wrap x : u64 x = wrap 64 x.
Proof. done. Qed.
Lemma u32_wrap x : u32 x = wrap 32 x.
Proof. done. Qed.

Lemma align64pow2_spec x : is_u64 x -> rte_align64pow2 x = if (x =? 0) || (2 ^ 63 <? x) then 0 else 2 ^ Z.log2_up x.
Proof. intros Hx. unfold rte_align64pow2. rewrite !u64_wrap. by apply (next_power 64 eq_refl _ _ combine64_top). Qed.

Lemma align32pow2_spec x : is_u32 x -> rte_align32pow2 x = if (x =? 0) || (2 ^ 31 <? x) then 0 else 2 ^ Z.log2_up x.
Proof. intros Hx. unfold rte_align32pow2. rewrite !u32_wrap. by apply (next_power 32 eq_refl _ _ combine32_top). Qed.

(** ** The routines on words *)

(** C33 (bounds): the searches for powers of two are the logarithms, up to the largest power of two of
    the word: past it the next power wraps to zero, and [__builtin_ctz] of it is undefined. *)
Theorem rte_power_searches x : is_u64 x ->
  (rte_align64pow2 x = if (x =? 0) || (2 ^ 63 <? x) then 0 else 2 ^ Z.log2_up x) /\
  (rte_align64prevpow2 x = if x =? 0 then 0 else 2 ^ Z.log2 x) /\
  (rte_log2_u64 x = if 2 ^ 63 <? x then None else Some (Z.log2_up x)) /\
  (rte_fls_u64 x = if x =? 0 then 0 else Z.log2 x + 1) /\
  (is_u32 x ->
    (rte_is_power_of_2 x = true <-> exists k, 0 <= k /\ x = 2 ^ k) /\
    (rte_align32pow2 x = if (x =? 0) || (2 ^ 31 <? x) then 0 else 2 ^ Z.log2_up x) /\
    (rte_align32prevpow2 x = if x =? 0 then 0 else 2 ^ Z.log2 x) /\
    (rte_log2_u32 x = if 2 ^ 31 <? x then None else Some (Z.log2_up x)) /\
    (rte_fls_u32 x = if x =? 0 then 0 else Z.log2 x + 1)).
Proof.
  intros Hx. split_and!.
  - by apply align64pow2_spec.
  - by apply (previous_power 64 eq_refl _ _ combine64_top).
  - apply (log2_rounded 64 eq_refl rte_align64pow2); [by apply align64pow2_spec|apply Hx].
  - apply (fls_log2 64).
  - intros Hx'. split_and!.
    + by apply is_power_of_2_spec.
    + by apply align32pow2_spec.
    + by apply (previous_power 32 eq_refl _ _ combine32_top).
    + apply (log2_rounded 32 eq_refl rte_align32pow2); [by apply align32pow2_spec|apply Hx].
    + apply (fls_log2 32).
Qed.

Lemma rte_power_searches_witness :
  rte_align64pow2 100 = 128 /\ rte_log2_u64 100 = Some 7 /\ rte_is_power_of_2 100 = false /\ rte_log2_u32 100 = Some 7.
Proof.
  destruct (rte_power_searches 100 ltac:(vm_compute; split; [discriminate|done])) as (-> & _ & -> & _ & H).
  destruct (H ltac:(vm_compute; split; [discriminate|done])) as (_ & _ & _ & -> & _). vm_compute. done.
Defined.

(** The 32-bit search skips the test for zero when it tests 64 bits; the rounded logarithm is
    undefined above the largest power of two. *)
Example rte_searches_undefined : rte_bsf32_safe (2 ^ 32) = None /\ rte_log2_u32 (2 ^ 31 + 1) = None.
Proof. done. Qed.

(** *** Alignment *)

Section Align.
  Variables w k : Z.
  Hypothesis Hk : 0 <= k < w.

Lemma rte_align_floor_spec val : 0 <= val < 2 ^ w -> RTE_ALIGN_FLOOR w val (2 ^ k) = val / 2 ^ k * 2 ^ k.
Proof.
  intros Hv. unfold RTE_ALIGN_FLOOR, wrap. pose proof (Z.pow_pos_nonneg 2 k). pose proof (Z.pow_lt_mono_r 2 k w).
  rewrite (Z.mod_small (2 ^ k - 1)) by lia. rewrite Z.sub_1_r, <- Z.ones_equiv.
  rewrite <- Z.land_ones, (Z.land_comm (Z.lnot _)), Z.land_assoc by lia.
  rewrite Z.land_ones, (Z.mod_small val), <- Z.ldiff_land, Z.ldiff_ones_r, Z.shiftr_div_pow2, Z.shiftl_mul_pow2 by lia. done.
Qed.

(** The next multiple, as far as the word reaches, and zero past it. *)
Lemma rte_align_ceil_spec val : 0 <= val < 2 ^ w ->
  RTE_ALIGN_CEIL w val (2 ^ k) = if val <=? 2 ^ w - 2 ^ k then (val + 2 ^ k - 1) / 2 ^ k * 2 ^ k else 0.
Proof.
  intros Hv. pose proof (Z.pow_pos_nonneg 2 k). pose proof (Z.pow_lt_mono_r 2 k w). unfold RTE_ALIGN_CEIL.
  rewrite rte_align_floor_spec by (apply Z.mod_pos_bound; lia). unfold wrap. rewrite (Z.mod_small (2 ^ k - 1)) by lia.
  destruct (Z.leb_spec val (2 ^ w - 2 ^ k)) as [L|L].
  - rewrite Z.mod_small by lia. do 2 f_equal. lia.
  - replace ((val + (2 ^ k - 1)) mod 2 ^ w) with (val + (2 ^ k - 1) - 2 ^ w) by (apply Z.mod_unique with 1; lia).
    rewrite Z.div_small by lia. done.
Qed.

End Align.

(** *** Byte swaps *)

Lemma swap_register_split n x : le_split n (swap_register n x) = be_split n x.
Proof.
  unfold swap_register, be_combine, be_split.
  replace n with (length (rev (le_split n x))) at 1 by (by rewrite length_rev, le_split_length).
  apply le_split_combine, Forall_rev, le_split_ok.
Qed.

Lemma swap_register_twice n x : swap_register n (swap_register n x) = x mod 2 ^ (8 * Z.of_nat n).
Proof.
  unfold swap_register at 1. rewrite swap_register_split. unfold be_combine, be_split. rewrite rev_involutive.
  revert x. induction n as [|n IH]; intros x; cbn [le_split le_combine].
  - by rewrite Z.mul_0_r, Z.mod_1_r.
  - rewrite IH. replace (8 * Z.of_nat (S n)) with (8 + 8 * Z.of_nat n) by lia.
    rewrite Z.pow_add_r by lia. change (2 ^ 8) with 0x100. rewrite Z.rem_mul_r by (try apply Z.pow_pos_nonneg; lia). lia.
Qed.

(** A byte of a word, moved up or down by whole bits. *)
Lemma move_byte_up v m lo k : m = field_mask lo 8 -> 0 <= lo -> 0 <= k ->
  Z.shiftl (Z.land v m) k = (v / 2 ^ lo) mod 0x100 * 2 ^ (lo + k).
Proof.
  intros -> Hl Hk. rewrite Z.shiftl_mul_pow2, Z.pow_add_r, Z.mul_assoc by done. f_equal.
  rewrite <- Z.shiftl_mul_pow2 by done. change 0x100 with (2 ^ 8). rewrite <- Z.land_ones, <- Z.shiftr_div_pow2 by lia.
  bits_ext i. rewrite testbit_field_mask by lia. destruct (Z.leb_spec lo i); cbn [andb].
  - rewrite Z.shiftr_spec, testbit_ones_pos, Z.sub_add by lia. f_equal. bits_cases; done.
  - by rewrite (Z.testbit_neg_r _ (i - lo)), andb_false_r by lia.
Qed.

Lemma move_byte_down v m lo k : m = field_mask lo 8 -> 0 <= k <= lo ->
  Z.shiftr (Z.land v m) k = (v / 2 ^ lo) mod 0x100 * 2 ^ (lo - k).
Proof.
  intros Hm Hk. pose proof (move_byte_up v m lo 0 Hm ltac:(lia) ltac:(lia)) as H. rewrite Z.shiftl_0_r, Z.add_0_r in H.
  rewrite H. replace lo with (lo - k + k) at 2 by lia. rewrite Z.pow_add_r, Z.mul_assoc, Z.shiftr_div_pow2 by lia.
  apply Z.div_mul. pose proof (Z.pow_pos_nonneg 2 k). lia.
Qed.

(** A byte joins the ones above it. *)
Lemma lor_next_byte a b j j' : j' = j + 8 -> 0 <= j -> 0 <= b < 0x100 ->
  Z.lor (a * 2 ^ j') (b * 2 ^ j) = (a * 0x100 + b) * 2 ^ j.
Proof.
  intros -> Hj Hb. rewrite <- Z.shiftl_mul_pow2, lor_shiftl_add, Z.pow_add_r by (rewrite ?Z.pow_add_r; nia). lia.
Qed.

Ltac swap_bytes v :=
  rewrite ?(move_byte_up v 0xff 0), ?(move_byte_up v 0xff00 8), ?(move_byte_up v 0xff0000 16), ?(move_byte_up v 0xff000000 24),
    ?(move_byte_down v 0xff00 8), ?(move_byte_down v 0xff0000 16), ?(move_byte_down v 0xff000000 24),
    ?(move_byte_down v 0xff00000000 32), ?(move_byte_down v 0xff0000000000 40), ?(move_byte_down v 0xff000000000000 48),
    ?(move_byte_down v 0xff00000000000000 56) by done;
  rewrite !lor_next_byte by (apply Z.mod_pos_bound || idtac; done);
  unfold swap_register; cbn [le_split]; rewrite ?Z.div_div by done; unfold be_combine; cbn [rev app le_combine];
  change (2 ^ 0) with 1; rewrite ?Z.div_1_r;
  repeat match goal with |- context [v / ?d] => let e := eval vm_compute in d in progress change d with e end;
  repeat match goal with |- context [?y mod 0x100] => generalize (y mod 0x100); intro end; lia.

Lemma static_bswap16 v : RTE_STATIC_BSWAP16 v = swap_register 2 v.
Proof. unfold RTE_STATIC_BSWAP16. swap_bytes v. Qed.
Lemma static_bswap32 v : RTE_STATIC_BSWAP32 v = swap_register 4 v.
Proof. unfold RTE_STATIC_BSWAP32. swap_bytes v. Qed.
Lemma static_bswap64 v : RTE_STATIC_BSWAP64 v = swap_register 8 v.
Proof. unfold RTE_STATIC_BSWAP64. swap_bytes v. Qed.

Lemma swap_register_range n x : 0 <= swap_register n x < 2 ^ (8 * Z.of_nat n).
Proof.
  unfold swap_register. pose proof (be_combine_range (le_split n x) (le_split_ok n x)) as H.
  by rewrite le_split_length in H.
Qed.

Lemma bswap_register c x :
  rte_bswap16 c x = swap_register 2 x /\ rte_bswap32 c x = swap_register 4 x /\ rte_bswap64 c x = swap_register 8 x.
Proof.
  unfold rte_bswap16, rte_bswap32, rte_bswap64, rte_constant_bswap16, rte_constant_bswap32, rte_constant_bswap64.
  rewrite static_bswap16, static_bswap32, static_bswap64.
  split_and!; (destruct c; [|done]); apply Z.mod_small.
  - apply (swap_register_range 2).
  - apply (swap_register_range 4).
  - apply (swap_register_range 8).
Qed.

(** Whether the compiler evaluates the macros or the processor swaps the register, a swapped word lies in
    memory with its bytes in network order, and swapping it again gives it back. *)
Theorem rte_bswap_network_order c x :
  (le_split 2 (rte_bswap16 c x) = be_split 2 x /\ rte_bswap16 c (rte_bswap16 c x) = u16 x) /\
  (le_split 4 (rte_bswap32 c x) = be_split 4 x /\ rte_bswap32 c (rte_bswap32 c x) = u32 x) /\
  (le_split 8 (rte_bswap64 c x) = be_split 8 x /\ rte_bswap64 c (rte_bswap64 c x) = u64 x).
Proof.
  destruct (bswap_register c x) as (E2 & E4 & E8). rewrite E2, E4, E8.
  rewrite (proj1 (bswap_register c _)), (proj1 (proj2 (bswap_register c _))), (proj2 (proj2 (bswap_register c _))).
  rewrite !swap_register_split, !swap_register_twice. done.
Qed.

(** *** Sizes *)

(** A size as the program prints a number, a space or none, and a suffix: the product is not checked against
    the width. *)
Lemma str_to_size_hex w x gap c : 0 <= x < 2 ^ 64 -> gap = [] \/ gap = [32] -> In c (lit "KMGkmg") ->
  rte_str_to_size (lit "0x" ++ print_hex w x ++ gap ++ [c]) = u64 (x * size_suffix c).
Proof.
  intros Hx Hg Hc. unfold rte_str_to_size.
  assert (stops (gap ++ [c])) as Hs.
  { destruct Hg as [-> | ->]; [|done]. cbn in Hc. cbn [app stops]. repeat destruct Hc as [<-|Hc]; done. }
  change (skip_space (lit "0x" ++ ?r)) with (lit "0x" ++ r).
  rewrite strtoul_0x by (try done; by left).
  destruct Hg as [-> | ->]; cbn in Hc; repeat destruct Hc as [<-|Hc]; done.
Qed.
