(* ===== verification/Crc.v ===== *)
(** * The POSIX CRC ([nfp_crc.c])

    The checksum of the resource keys and of the hardware information table, the
    carry-less arithmetic it computes in, and what it detects. *)

From S2P Require Export Bytes Bits.

Local Open Scope Z_scope.

Definition CRCPOLY_BE : Z := 0x04c11db7.

(** One iteration of the inner loop, on 32 bits. *)
Definition crc_bit (polynomial crc : Z) : Z :=
  Z.lxor (u32 (Z.shiftl crc 1)) (if negb (Z.land crc 0x80000000 =? 0) then polynomial else 0).

Definition crc_byte (polynomial crc b : Z) : Z :=
  Nat.iter 8 (crc_bit polynomial) (Z.lxor crc (u32 (Z.shiftl b 24))).

Definition nfp_crc32_be_generic (crc : Z) (p : list Z) (polynomial : Z) : Z :=
  foldl (crc_byte polynomial) crc p.

Definition nfp_crc32_be (crc : Z) (p : list Z) : Z := nfp_crc32_be_generic crc p CRCPOLY_BE.

(** [while (total_len != 0)], and the complement; [total_len] is a [size_t], so eight
    iterations are enough. *)
Fixpoint posix_end_loop (fuel : nat) (crc total_len : Z) : Z :=
  match fuel with
  | O => crc
  | S fuel =>
      if total_len =? 0 then crc
      else posix_end_loop fuel (nfp_crc32_be crc [Z.land total_len 0xff]) (Z.shiftr total_len 8)
  end.

Definition nfp_crc32_posix_end (crc total_len : Z) : Z :=
  0xffffffff - posix_end_loop 8 crc total_len.

Definition nfp_crc32_posix (buff : list Z) : Z :=
  nfp_crc32_posix_end (nfp_crc32_be 0 buff) (Z.of_nat (length buff)).

(** The check value of the comment in [nfp_hwinfo.h], and of "123456789". *)
Example crc_empty : nfp_crc32_posix [] = 0xffffffff.
Proof. reflexivity. Qed.
Example crc_a : nfp_crc32_posix [0x61] = 0x48c279fe.
Proof. reflexivity. Qed.
Example crc_check : nfp_crc32_posix [0x31; 0x32; 0x33; 0x34; 0x35; 0x36; 0x37; 0x38; 0x39] = 930766865.
Proof. reflexivity. Qed.

(** ** Carry-less arithmetic: polynomials over GF(2) as numbers *)

Fixpoint clmul_pos (p : positive) (g : Z) : Z :=
  match p with
  | xH => g
  | xO p => 2 * clmul_pos p g
  | xI p => Z.lxor (2 * clmul_pos p g) g
  end.

Definition clmul (q g : Z) : Z := match q with Zpos p => clmul_pos p g | _ => 0 end.

(** The CRC-32 polynomial with its leading coefficient. *)
Definition CRC_G : Z := 0x100000000 + CRCPOLY_BE.

(** [r] is the remainder of [n] by the CRC polynomial. *)
Definition crc_rem (n r : Z) : Prop :=
  is_u32 r /\ exists q, 0 <= q /\ n = Z.lxor (clmul q CRC_G) r.

Lemma lxor_double a b : Z.lxor (2 * a) (2 * b) = 2 * Z.lxor a b.
Proof.
  apply Z.bits_inj'. intros n Hn. rewrite Z.lxor_spec.
  destruct (Z.eq_dec n 0) as [->|N].
  - rewrite !Z.testbit_even_0. done.
  - replace n with (Z.succ (n - 1)) by lia. rewrite !Z.testbit_even_succ by lia. by rewrite Z.lxor_spec.
Qed.

Lemma clmul_step q (b : bool) g : 0 <= q ->
  clmul (2 * q + Z.b2z b) g = Z.lxor (2 * clmul q g) (if b then g else 0).
Proof.
  intros Hq. destruct q as [|p|p]; [|destruct b|lia].
  - by destruct b.
  - done.
  - cbn. by rewrite Z.lxor_0_r.
Qed.

Lemma clmul_double q g : 0 <= q -> clmul (2 * q) g = 2 * clmul q g.
Proof.
  intros Hq. pose proof (clmul_step q false g Hq) as H. cbn [Z.b2z] in H.
  by rewrite Z.add_0_r, Z.lxor_0_r in H.
Qed.

Lemma clmul_pow2 q g (n : nat) : 0 <= q -> clmul (q * 2 ^ Z.of_nat n) g = clmul q g * 2 ^ Z.of_nat n.
Proof.
  intros Hq. induction n as [|n IH]; [by rewrite !Z.mul_1_r|].
  rewrite Nat2Z.inj_succ, Z.pow_succ_r by lia.
  replace (q * (2 * 2 ^ Z.of_nat n)) with (2 * (q * 2 ^ Z.of_nat n)) by lia.
  rewrite clmul_double, IH by lia. lia.
Qed.

(** Induction on the bits of two numbers. *)
Lemma bits_ind2 (P : Z -> Z -> Prop) : P 0 0 ->
  (forall a b (x y : bool), 0 <= a -> 0 <= b -> P a b -> P (2 * a + Z.b2z x) (2 * b + Z.b2z y)) ->
  forall a b, 0 <= a -> 0 <= b -> P a b.
Proof.
  intros H0 HS. assert (forall n : nat, forall a b, 0 <= a < 2 ^ Z.of_nat n -> 0 <= b < 2 ^ Z.of_nat n -> P a b) as H.
  { induction n as [|n IH]; intros a b Ha Hb.
    - change (2 ^ Z.of_nat 0) with 1 in *. replace a with 0 by lia. by replace b with 0 by lia.
    - rewrite Nat2Z.inj_succ, Z.pow_succ_r in Ha, Hb by lia.
      rewrite (Z.div2_odd a), (Z.div2_odd b), !Z.div2_div. apply HS; [lia..|]. apply IH; lia. }
  intros a b Ha Hb. apply (H (Z.to_nat (Z.max a b))).
  - pose proof (Z.pow_gt_lin_r 2 (Z.max a b)). rewrite Z2Nat.id by lia. lia.
  - pose proof (Z.pow_gt_lin_r 2 (Z.max a b)). rewrite Z2Nat.id by lia. lia.
Qed.

Lemma b2z_step a b (x y : bool) :
  Z.lxor (2 * a + Z.b2z x) (2 * b + Z.b2z y) = 2 * Z.lxor a b + Z.b2z (xorb x y).
Proof.
  apply Z.bits_inj'. intros n Hn. rewrite Z.lxor_spec.
  destruct (Z.eq_dec n 0) as [->|N].
  - rewrite !(Z.add_comm (2 * _)), !Z.add_b2z_double_bit0. done.
  - replace n with (Z.succ (n - 1)) by lia. rewrite !(Z.add_comm (2 * _)).
    rewrite <- !Z.div2_bits, !(Z.mul_comm 2), !Z.div_add by lia.
    rewrite (Z.div_small (Z.b2z x)), (Z.div_small (Z.b2z y)), (Z.div_small (Z.b2z (xorb x y)))
      by (by destruct x, y). by rewrite !Z.add_0_l, Z.lxor_spec.
Qed.

Lemma lxor_nonneg2 a b : 0 <= a -> 0 <= b -> 0 <= Z.lxor a b.
Proof. intros. by apply Z.lxor_nonneg. Qed.

Lemma clmul_lxor q q' g : 0 <= q -> 0 <= q' ->
  clmul (Z.lxor q q') g = Z.lxor (clmul q g) (clmul q' g).
Proof.
  revert q q'. apply bits_ind2; [done|]. intros a b x y Ha Hb IH.
  rewrite b2z_step, !clmul_step, IH, <- lxor_double by (try apply lxor_nonneg2; done).
  rewrite !Z.lxor_assoc. f_equal.
  rewrite <- !Z.lxor_assoc, (Z.lxor_comm (if x then _ else _)), !Z.lxor_assoc. f_equal.
  destruct x, y; cbn; by rewrite ?Z.lxor_0_l, ?Z.lxor_0_r, ?Z.lxor_nilpotent.
Qed.

(** ** Remainders *)

Lemma lxor_div_pow2 a b m : 0 <= m -> 0 <= b < 2 ^ m -> Z.lxor a b / 2 ^ m = a / 2 ^ m.
Proof.
  intros Hm Hb. rewrite <- !Z.shiftr_div_pow2, Z.shiftr_lxor by done.
  rewrite (Z.shiftr_div_pow2 b) by done. rewrite (Z.div_small b) by done. apply Z.lxor_0_r.
Qed.

Lemma lxor_disjoint a b m : 0 <= m -> 0 <= b < 2 ^ m -> Z.lxor (a * 2 ^ m) b = a * 2 ^ m + b.
Proof.
  intros Hm Hb. symmetry. apply Z.add_nocarry_lxor. apply Z.bits_inj'. intros n Hn.
  rewrite Z.land_spec, Z.bits_0. destruct (decide (n < m)) as [L|L].
  - by rewrite Z.mul_pow2_bits_low.
  - rewrite (testbit_small b m) by lia. apply andb_false_r.
Qed.

Lemma lxor_lt_pow2 a b m : 0 <= m -> 0 <= a < 2 ^ m -> 0 <= b < 2 ^ m -> 0 <= Z.lxor a b < 2 ^ m.
Proof.
  intros Hm Ha Hb. assert (0 <= Z.lxor a b) as Hp by (apply lxor_nonneg2; lia).
  split; [done|]. pose proof (lxor_div_pow2 a b m Hm Hb) as H. rewrite (Z.div_small a) in H by done.
  apply Z.div_small_iff in H; lia.
Qed.

Lemma crc_bit_step x : is_u32 x -> is_u32 (crc_bit CRCPOLY_BE x) /\
  exists q, 0 <= q /\ 2 * x = Z.lxor (clmul q CRC_G) (crc_bit CRCPOLY_BE x).
Proof.
  intros Hx. unfold is_u32 in *. unfold crc_bit. rewrite Z.shiftl_mul_pow2 by lia.
  assert (Z.land x 0x80000000 = x / 0x80000000 * 0x80000000) as ->.
  { apply Z.bits_inj'. intros n Hn. change 0x80000000 with (2 ^ 31). rewrite Z.land_spec, Z.pow2_bits_eqb by lia.
    destruct (Z.eqb_spec 31 n) as [<-|N].
    - rewrite andb_true_r, Z.mul_pow2_bits by lia. by rewrite <- Z.shiftr_div_pow2, Z.shiftr_spec by lia.
    - rewrite andb_false_r. destruct (decide (n < 31)).
      + symmetry. apply Z.mul_pow2_bits_low. lia.
      + rewrite Z.mul_pow2_bits by lia. rewrite <- Z.shiftr_div_pow2, Z.shiftr_spec by lia.
        symmetry. apply (testbit_small x 32); lia. }
  assert (0 <= u32 (x * 2 ^ 1) < 2 ^ 32) as Hu by words.
  destruct (Z.eqb_spec (x / 0x80000000 * 0x80000000) 0) as [E|E]; cbn [negb].
  - rewrite Z.lxor_0_r. split; [words|]. exists 0. split; [done|]. cbn [clmul]. rewrite Z.lxor_0_l. words.
  - split; [apply (lxor_lt_pow2 _ _ 32); done|]. exists 1. split; [done|]. cbn [clmul clmul_pos].
    assert (CRC_G = Z.lxor (2 ^ 32) CRCPOLY_BE) as -> by reflexivity.
    rewrite (Z.lxor_comm (u32 _)), Z.lxor_assoc, <- (Z.lxor_assoc CRCPOLY_BE), Z.lxor_nilpotent, Z.lxor_0_l.
    rewrite <- (Z.mul_1_l (2 ^ 32)), lxor_disjoint by done. words.
Qed.

Lemma crc_bits_step k x : is_u32 x -> is_u32 (Nat.iter k (crc_bit CRCPOLY_BE) x) /\
  exists q, 0 <= q /\ x * 2 ^ Z.of_nat k = Z.lxor (clmul q CRC_G) (Nat.iter k (crc_bit CRCPOLY_BE) x).
Proof.
  intros Hx. induction k as [|k [Hr (q & Hq & E)]].
  - split; [done|]. exists 0. split; [done|]. cbn [clmul Nat.iter nat_rect].
    rewrite Z.lxor_0_l. change (2 ^ Z.of_nat 0) with 1. lia.
  - destruct (crc_bit_step _ Hr) as (Hr' & q' & Hq' & E').
    change (Nat.iter (S k) (crc_bit CRCPOLY_BE) x)
      with (crc_bit CRCPOLY_BE (Nat.iter k (crc_bit CRCPOLY_BE) x)).
    split; [exact Hr'|]. exists (Z.lxor (2 * q) q').
    split; [apply lxor_nonneg2; lia|]. rewrite clmul_lxor, clmul_double by lia.
    rewrite Z.lxor_assoc, <- E', lxor_double, <- E. rewrite Nat2Z.inj_succ, Z.pow_succ_r by lia. lia.
Qed.

Lemma crc_byte_rem m c b : is_u8 b -> crc_rem (m * 2 ^ 32) c ->
  crc_rem ((m * 256 + b) * 2 ^ 32) (crc_byte CRCPOLY_BE c b).
Proof.
  intros Hb (Hc & q & Hq & E). unfold crc_byte.
  assert (u32 (Z.shiftl b 24) = b * 2 ^ 24) as Eb by (rewrite Z.shiftl_mul_pow2 by lia; words).
  assert (0 <= b * 2 ^ 24 < 2 ^ 32) as Hb24 by words.
  rewrite Eb. destruct (crc_bits_step 8 (Z.lxor c (b * 2 ^ 24))) as (Hr & q' & Hq' & E').
  { apply (lxor_lt_pow2 _ _ 32); [lia|done|done]. }
  split; [exact Hr|]. exists (Z.lxor (q * 2 ^ Z.of_nat 8) q').
  split; [apply lxor_nonneg2; lia|]. rewrite clmul_lxor, clmul_pow2 by lia.
  rewrite Z.lxor_assoc, <- E'.
  assert (forall a b n, 0 <= n -> Z.lxor (a * 2 ^ n) (b * 2 ^ n) = Z.lxor a b * 2 ^ n) as Hsh.
  { intros x y n Hn. by rewrite <- !Z.shiftl_mul_pow2, Z.shiftl_lxor. }
  rewrite Hsh, <- Z.lxor_assoc, <- E by lia.
  replace (m * 2 ^ 32) with (m * 2 ^ 32 * 2 ^ 0) by lia.
  rewrite <- (Hsh (m * 2 ^ 32 * 2 ^ 0)) by lia.
  replace (m * 2 ^ 32 * 2 ^ 0 * 2 ^ Z.of_nat 8) with (m * 2 ^ 40) by lia.
  replace (b * 2 ^ 24 * 2 ^ Z.of_nat 8) with (b * 2 ^ 32) by lia.
  rewrite lxor_disjoint by words. lia.
Qed.

Lemma be_combine_snoc bs b : be_combine (bs ++ [b]) = be_combine bs * 256 + b.
Proof. unfold be_combine. rewrite rev_app_distr. cbn. lia. Qed.

(** The checksum of a message is the remainder of the message, a big-endian number,
    times x^32. *)
Lemma crc32_be_rem bs : bytes_ok bs -> crc_rem (be_combine bs * 2 ^ 32) (nfp_crc32_be 0 bs).
Proof.
  intros H. induction bs as [|b bs IH] using rev_ind.
  - split; [done|]. by exists 0.
  - apply Forall_app in H as [H Hb]. apply (Forall_singleton is_u8) in Hb.
    unfold nfp_crc32_be, nfp_crc32_be_generic. rewrite foldl_snoc, be_combine_snoc.
    apply crc_byte_rem; [done|by apply IH].
Qed.

(** The shortest little-endian encoding of a length. *)
Definition len_bytes (n : Z) : list Z :=
  le_split (Z.to_nat (if n =? 0 then 0 else Z.log2 n / 8 + 1)) n.

Lemma len_bytes_cons n : 0 < n -> len_bytes n = Z.land n 0xff :: len_bytes (Z.shiftr n 8).
Proof.
  intros Hn. unfold len_bytes. rewrite (proj2 (Z.eqb_neq n 0)) by lia.
  change 0xff with (Z.ones 8). rewrite Z.land_ones, Z.shiftr_div_pow2 by lia.
  change (2 ^ 8) with 256. pose proof (Z.log2_nonneg n).
  replace (Z.to_nat (Z.log2 n / 8 + 1)) with (S (Z.to_nat (Z.log2 n / 8))) by lia.
  cbn [le_split]. f_equal. f_equal. f_equal.
  destruct (Z.eqb_spec (n / 256) 0) as [E|E].
  - assert (Z.log2 n < 8); [|lia]. apply Z.log2_lt_pow2; lia.
  - assert (Z.log2 (n / 256) = Z.log2 n - 8); [|lia].
    pose proof (Z.log2_shiftr n 8 Hn) as H8. rewrite Z.shiftr_div_pow2 in H8 by lia.
    change (2 ^ 8) with 256 in H8.
    assert (8 <= Z.log2 n); [|lia]. apply Z.log2_le_pow2; lia.
Qed.

(** The loop feeds the length to the checksum. *)
Lemma posix_end_loop_spec fuel crc n : 0 <= n < 2 ^ (8 * Z.of_nat fuel) ->
  posix_end_loop fuel crc n = nfp_crc32_be crc (len_bytes n).
Proof.
  revert crc n. induction fuel as [|fuel IH]; intros crc n Hn.
  - change (2 ^ (8 * Z.of_nat 0)) with 1 in Hn. by replace n with 0 by lia.
  - cbn [posix_end_loop]. destruct (Z.eqb_spec n 0) as [->|N]; [done|].
    rewrite IH.
    + rewrite (len_bytes_cons n) by lia. done.
    + rewrite Z.shiftr_div_pow2 by lia. change (2 ^ 8) with 256.
      replace (8 * Z.of_nat (S fuel)) with (8 * Z.of_nat fuel + 8) in Hn by lia.
      rewrite Z.pow_add_r in Hn by lia. change (2 ^ 8) with 256 in Hn.
      split; [apply Z.div_pos; lia|apply Z.div_lt_upper_bound; lia].
Qed.

(** ** Uniqueness, and the errors detected *)

Lemma clmul_odd q : 0 <= q -> Z.odd (clmul q CRC_G) = Z.odd q.
Proof.
  intros Hq. rewrite (Z.div2_odd q) at 1. rewrite Z.div2_div, clmul_step by lia.
  rewrite <- Z.bit0_odd, Z.lxor_spec, Z.testbit_even_0. by destruct (Z.odd q).
Qed.

Lemma clmul_pow2_divides n : forall q m, 0 <= q -> clmul q CRC_G = m * 2 ^ Z.of_nat n ->
  exists q', 0 <= q' /\ q = q' * 2 ^ Z.of_nat n /\ clmul q' CRC_G = m.
Proof.
  induction n as [|n IH]; intros q m Hq E.
  - exists q. change (2 ^ Z.of_nat 0) with 1 in *. by rewrite !Z.mul_1_r in *.
  - rewrite Nat2Z.inj_succ, Z.pow_succ_r in E by lia. rewrite Nat2Z.inj_succ, Z.pow_succ_r by lia.
    assert (Z.odd q = false) as Ho.
    { rewrite <- clmul_odd, E by done. rewrite Z.odd_mul, Z.odd_mul. cbn. apply andb_false_r. }
    assert (q = 2 * (q / 2)) as Eq by (pose proof (Z.div2_odd q) as Hd; rewrite Ho, Z.div2_div in Hd; cbn in Hd; lia).
    rewrite Eq in E.
    rewrite clmul_double in E by lia.
    destruct (IH (q / 2) m) as (q' & Hq' & E1 & E2); [lia..|].
    exists q'. split; [done|]. split; [lia|done].
Qed.

Lemma div_one x M : 0 < M -> x / M = 1 <-> M <= x < 2 * M.
Proof.
  intros HM. pose proof (Z.div_mod x M ltac:(lia)). pose proof (Z.mod_pos_bound x M HM). split.
  - intros E. rewrite E in *. lia.
  - intros. symmetry. apply (Z.div_unique x M 1 (x - M)); lia.
Qed.

Lemma clmul_large q : 0 < q -> 2 ^ 32 <= clmul q CRC_G.
Proof.
  intros Hq. destruct q as [|p|p]; try lia. cbn [clmul]. clear Hq.
  assert (exists k, 0 <= k /\ 2 ^ (k + 32) <= clmul_pos p CRC_G < 2 ^ (k + 33)) as (k & Hk & H1 & H2).
  { induction p as [p (k & Hk & IH)|p (k & Hk & IH)|].
    - exists (k + 1). split; [lia|]. cbn [clmul_pos].
      assert (0 <= CRC_G < 2 ^ (k + 33)) as HG.
      { split; [done|]. apply Z.lt_le_trans with (2 ^ 33); [done|]. apply Z.pow_le_mono_r; lia. }
      replace (k + 1 + 32) with (k + 33) by lia. replace (k + 1 + 33) with (Z.succ (k + 33)) by lia.
      assert (2 ^ (k + 33) = 2 * 2 ^ (k + 32)) as Ep.
      { replace (k + 33) with (Z.succ (k + 32)) by lia. by rewrite Z.pow_succ_r by lia. }
      rewrite Z.pow_succ_r by lia.
      pose proof (lxor_div_pow2 (2 * clmul_pos p CRC_G) CRC_G (k + 33) ltac:(lia) HG) as Hd.
      assert (0 < 2 ^ (k + 32)) by (apply Z.pow_pos_nonneg; lia).
      apply (div_one _ (2 ^ (k + 33))); [lia|]. rewrite Hd. apply div_one; lia.
    - exists (k + 1). split; [lia|]. cbn [clmul_pos].
      replace (k + 1 + 32) with (Z.succ (k + 32)) by lia. replace (k + 1 + 33) with (Z.succ (k + 33)) by lia.
      rewrite !Z.pow_succ_r by lia. lia.
    - by exists 0. }
  etransitivity; [|exact H1]. apply Z.pow_le_mono_r; lia.
Qed.

Lemma lxor_swap a b r r' : Z.lxor a r = Z.lxor b r' -> Z.lxor a b = Z.lxor r r'.
Proof.
  intros H. apply Z.bits_inj'. intros n _. apply (f_equal (fun x => Z.testbit x n)) in H.
  rewrite !Z.lxor_spec in *. by destruct (Z.testbit a n), (Z.testbit b n), (Z.testbit r n), (Z.testbit r' n).
Qed.

Lemma crc_rem_unique n r r' : crc_rem n r -> crc_rem n r' -> r = r'.
Proof.
  intros (Hr & q & Hq & E) (Hr' & q' & Hq' & E').
  assert (clmul (Z.lxor q q') CRC_G = Z.lxor r r') as H.
  { rewrite clmul_lxor by done. apply lxor_swap. congruence. }
  pose proof (lxor_lt_pow2 r r' 32 ltac:(done) Hr Hr') as Hlt. rewrite <- H in Hlt.
  pose proof (lxor_nonneg2 q q' Hq Hq') as Hn.
  destruct (decide (Z.lxor q q' = 0)) as [E0|N].
  - rewrite E0 in H. symmetry in H. by apply Z.lxor_eq.
  - pose proof (clmul_large (Z.lxor q q') ltac:(lia)). lia.
Qed.

Lemma posix_rem bs : bytes_ok bs -> Z.of_nat (length bs) < 2 ^ 64 ->
  crc_rem (be_combine (bs ++ len_bytes (Z.of_nat (length bs))) * 2 ^ 32) (0xffffffff - nfp_crc32_posix bs).
Proof.
  intros Hb Hl. unfold nfp_crc32_posix, nfp_crc32_posix_end. rewrite posix_end_loop_spec by (cbn; lia).
  replace (0xffffffff - (0xffffffff - _)) with (nfp_crc32_be 0 (bs ++ len_bytes (Z.of_nat (length bs)))).
  - apply crc32_be_rem, Forall_app. split; [done|]. apply le_split_ok.
  - unfold nfp_crc32_be, nfp_crc32_be_generic. rewrite foldl_app. lia.
Qed.

(** C32 (equivalence): The bit-serial loop computes a polynomial remainder: the
    complement of [nfp_crc32_posix] is the only remainder over GF(2) of the message
    followed by the shortest little-endian encoding of its length, times x^32, by the
    CRC-32 polynomial. *)
Theorem crc32_posix_remainder bs r : bytes_ok bs -> Z.of_nat (length bs) < 2 ^ 64 ->
  crc_rem (be_combine (bs ++ len_bytes (Z.of_nat (length bs))) * 2 ^ 32) r <->
  r = 0xffffffff - nfp_crc32_posix bs.
Proof.
  intros Hb Hl. pose proof (posix_rem bs Hb Hl) as H. split; [|by intros ->].
  intros Hr. by eapply crc_rem_unique.
Qed.

Lemma crc32_posix_remainder_witness :
  crc_rem (be_combine [0x61; 1] * 2 ^ 32) (0xffffffff - 0x48c279fe).
Proof.
  apply (crc32_posix_remainder [0x61] (0xffffffff - 0x48c279fe)); [|done|done].
  constructor; [split; done|constructor].
Defined.

Lemma be_combine_app a b : be_combine (a ++ b) = be_combine a * 256 ^ Z.of_nat (length b) + be_combine b.
Proof.
  induction b as [|x b IH] using rev_ind; [rewrite app_nil_r; cbn; lia|].
  rewrite app_assoc, !be_combine_snoc, IH, length_app, Nat2Z.inj_add, Z.pow_add_r by lia.
  change (256 ^ Z.of_nat (length [x])) with 256. lia.
Qed.

Lemma crc_differs m m' e k r r' : 0 <= k -> 0 < e < 2 ^ 32 -> Z.lxor m m' = e * 2 ^ k ->
  crc_rem (m * 2 ^ 32) r -> crc_rem (m' * 2 ^ 32) r' -> r <> r'.
Proof.
  intros Hk He Hm (Hr & q & Hq & E) (Hr' & q' & Hq' & E') <-.
  assert (clmul (Z.lxor q q') CRC_G = e * 2 ^ Z.of_nat (Z.to_nat (k + 32))) as H.
  { rewrite clmul_lxor by done.
    transitivity (Z.lxor (m * 2 ^ 32) (m' * 2 ^ 32)).
    - rewrite E, E'. rewrite Z.lxor_assoc, (Z.lxor_comm (clmul q' _) r), <- (Z.lxor_assoc r r).
      by rewrite Z.lxor_nilpotent, Z.lxor_0_l.
    - rewrite <- !Z.shiftl_mul_pow2, <- Z.shiftl_lxor, !Z.shiftl_mul_pow2, Hm by lia.
      rewrite Z2Nat.id, Z.pow_add_r by lia. lia. }
  apply clmul_pow2_divides in H as (d & Hd & _ & H); [|by apply lxor_nonneg2].
  destruct (decide (d = 0)) as [->|N]; [cbn in H; lia|].
  pose proof (clmul_large d ltac:(lia)). lia.
Qed.

(** Two messages of the same length whose difference is a burst of at
    most 32 bits (any pattern [e] of 32 bits at any position [k]) have different
    checksums: a table or key corrupted in that way is not taken for the original. *)
Lemma crc32_detects_bursts bs bs' e k : bytes_ok bs -> bytes_ok bs' ->
  length bs = length bs' -> Z.of_nat (length bs) < 2 ^ 64 ->
  0 <= k -> 0 < e < 2 ^ 32 -> Z.lxor (be_combine bs) (be_combine bs') = e * 2 ^ k ->
  nfp_crc32_posix bs <> nfp_crc32_posix bs'.
Proof.
  intros Hb Hb' Hl Hln Hk He Hx E.
  pose proof (posix_rem bs Hb Hln) as H. pose proof (posix_rem bs' Hb' ltac:(lia)) as H'.
  rewrite <- Hl in H'. set (t := len_bytes _) in *.
  revert H H'. rewrite !be_combine_app.
  assert (256 ^ Z.of_nat (length t) = 2 ^ (8 * Z.of_nat (length t))) as -> by (rewrite Z.pow_mul_r; lia || done).
  set (n := 8 * Z.of_nat (length t)).
  assert (0 <= be_combine t < 2 ^ n) as Ht by apply be_combine_range, le_split_ok.
  rewrite <- !(lxor_disjoint _ _ n) by (lia || done).
  intros H H'. refine (crc_differs _ _ e (k + n) _ _ _ He _ H H' _); [lia| |lia].
  rewrite Z.lxor_assoc, (Z.lxor_comm (be_combine t)), Z.lxor_assoc, Z.lxor_nilpotent, Z.lxor_0_r.
  rewrite <- !Z.shiftl_mul_pow2, <- Z.shiftl_lxor, !Z.shiftl_mul_pow2, Hx, Z.pow_add_r by lia. lia.
Qed.

Lemma crc32_detects_bursts_witness : nfp_crc32_posix [0x61; 0x62] <> nfp_crc32_posix [0x61; 0x73].
Proof.
  apply (crc32_detects_bursts [0x61; 0x62] [0x61; 0x73] 0x11 0);
    [by repeat constructor..|done|done|done|done|reflexivity].
Defined.
