(* ===== verification/Resource.v ===== *)
(** * The resource table ([nfp_resource.c])

    A table of 128 entries in the memory unit, each with a lock and a region.  The
    operations are programs over the bus with the cache of mutex handles as state;
    [rprog] is their monad.  A program can also crash (dereference null or a dead
    handle) or, holding on to a lock that stays busy, spin. *)

From S2P Require Export MutexCache Crc RteIo.

Local Open Scope Z_scope.
Local Open Scope cprog_scope.

(** ** Programs with a handle store *)

Inductive run (A : Type) : Type :=
| Returns (a : A)
| Crashes
| Spins.
Arguments Returns {A} a.
Arguments Crashes {A}.
Arguments Spins {A}.

Definition rprog (A : Type) : Type := mutex_store -> cprog (run A * mutex_store).

Definition rret {A} (a : A) : rprog A := fun st => CRet (Returns a, st).
Definition rbind {A B} (m : rprog A) (f : A -> rprog B) : rprog B := fun st =>
  let* (r, st) := m st in
  match r with
  | Returns a => f a st
  | Crashes => CRet (Crashes, st)
  | Spins => CRet (Spins, st)
  end.
Definition rlift {A} (m : cprog A) : rprog A := fun st => let* a := m in CRet (Returns a, st).

Declare Scope rprog_scope.
Notation "'let+' x ':=' m 'in' f" := (rbind m (fun x => f))
  (at level 60, x pattern, right associativity) : rprog_scope.
Local Open Scope rprog_scope.

(** What an [int] function of the mutex and CPP interfaces returns. *)
Definition ret_of {A} (r : cres A) : Z := match r with Ok _ => 0 | Err e => cerr_ret e end.

(** Runs an operation on the handle at [p]. *)
Definition deref {A} (p : Z) (f : nfp_cpp_mutex -> cprog (A * nfp_cpp_mutex)) : rprog A := fun st =>
  match mutex_heap st !! p with
  | None => CRet (Crashes, st)
  | Some m => let* (a, m') := f m in CRet (Returns a, mkStore (<[p := m']> (mutex_heap st)) (mutex_cache st))
  end.

Definition r_trylock (interface p : Z) : rprog (cres unit) := deref p (nfp_cpp_mutex_trylock interface).
Definition r_unlock (interface p : Z) : rprog (cres unit) := deref p (nfp_cpp_mutex_unlock interface).
Definition r_lock (fuel : nat) (errno interface p : Z) : rprog (cres unit) :=
  let+ r := deref p (nfp_cpp_mutex_lock fuel errno interface) in
  match r with Some r => rret r | None => fun st => CRet (Spins, st) end.
Definition r_free (p : Z) : rprog unit := fun st =>
  match mutex_heap st !! p with
  | None => CRet (Crashes, st)
  | Some _ => CRet (Returns tt, nfp_cpp_mutex_free p st)
  end.

(** ** The table *)

Definition NFP_RESOURCE_TBL_TARGET : Z := NFP6000_CPPTGT_MU.
Definition NFP_RESOURCE_TBL_BASE : Z := 0x8100000000.
Definition NFP_RESOURCE_TBL_KEY : Z := 0.
Definition NFP_RESOURCE_ENTRY_NAME_SZ : nat := 8.
Definition NFP_RESOURCE_TBL_SIZE : Z := 4096.
Definition sizeof_entry : Z := 32.
Definition NFP_RESOURCE_TBL_ENTRIES : nat := Z.to_nat (NFP_RESOURCE_TBL_SIZE / sizeof_entry).
(** "nfp.res" *)
Definition NFP_RESOURCE_TBL_NAME : list Z := [0x6e; 0x66; 0x70; 0x2e; 0x72; 0x65; 0x73].

Record nfp_resource_entry := mkEntry {
  re_owner : Z;
  re_key : Z;
  re_name : list Z;
  re_reserved : list Z;
  re_cpp_action : Z;
  re_cpp_token : Z;
  re_cpp_target : Z;
  re_page_offset : Z;
  re_page_size : Z }.

(** The 32 bytes read from the table as the structure. *)
Definition entry_of_bytes (bs : list Z) : nfp_resource_entry :=
  mkEntry (le_combine (slice 0 4 bs)) (le_combine (slice 4 4 bs)) (slice 8 8 bs) (slice 16 5 bs)
    (le_combine (slice 21 1 bs)) (le_combine (slice 22 1 bs)) (le_combine (slice 23 1 bs))
    (le_combine (slice 24 4 bs)) (le_combine (slice 28 4 bs)).

Record nfp_resource := mkResource {
  res_name : list Z;
  res_cpp_id : Z;
  res_addr : Z;
  res_size : Z;
  res_mutex : Z }.

(** [strncpy] into a zeroed array: at most [n] characters, padded. *)
Definition pad_to (n : nat) (bs : list Z) : list Z := take n (cstring bs ++ replicate n 0).

(** [memset] and [strlcpy]: ten bytes. *)
Definition name_pad (name : list Z) : list Z := (rte_strlcpy (replicate 10 0) name 10).1.

Section Resource.
(** The model and the interface of the CPP handle; [errno] before the call; the
    attempts after which a busy lock is given up on; the address [calloc] returns
    (0 when it fails) and whether [malloc] succeeds. *)
Context (model interface errno : Z) (lock_fuel : nat) (calloc : mutex_store -> Z) (malloc_ok : bool).

Definition r_alloc (target address key : Z) : rprog Z := fun st =>
  let* (p, st) := nfp_cpp_mutex_alloc model target address key (calloc st) st in
  CRet (Returns p, st).

(** [for (i = 0; i < NFP_RESOURCE_TBL_ENTRIES; i++)], from [i] with [n] entries left. *)
Fixpoint find_loop (n : nat) (i : Z) (key : Z) (res : nfp_resource) : rprog (Z * nfp_resource) :=
  let cpp_id := NFP_CPP_ID NFP_RESOURCE_TBL_TARGET 3 0 in
  match n with
  | O => rret (- ENOENT, res)
  | S n =>
      let addr := NFP_RESOURCE_TBL_BASE + sizeof_entry * i in
      let+ r := rlift (read_bytes cpp_id addr sizeof_entry) in
      match r with
      | Err _ => rret (- EIO, res)
      | Ok bs =>
          let entry := entry_of_bytes bs in
          if negb (re_key entry =? key) then find_loop n (i + 1) key res
          else
            let+ mutex := r_alloc NFP_RESOURCE_TBL_TARGET addr key in
            rret (0, mkResource (res_name res)
              (NFP_CPP_ID (re_cpp_target entry) (re_cpp_action entry) (re_cpp_token entry))
              (u64 (Z.shiftl (re_page_offset entry) 8)) (u64 (Z.shiftl (re_page_size entry) 8)) mutex)
      end
  end.

Definition nfp_cpp_resource_find (res : nfp_resource) : rprog (Z * nfp_resource) :=
  let np := name_pad (res_name res) in
  if bool_decide (take 8 np = pad_to 8 NFP_RESOURCE_TBL_NAME) then rret (- EOPNOTSUPP, res)
  else
    let key := nfp_crc32_posix (take NFP_RESOURCE_ENTRY_NAME_SZ np) in
    find_loop NFP_RESOURCE_TBL_ENTRIES 0 key res.

Definition nfp_resource_try_acquire (res : nfp_resource) (dev_mutex : Z) : rprog (Z * nfp_resource) :=
  let+ r := r_lock lock_fuel errno interface dev_mutex in
  if negb (ret_of r =? 0) then rret (- EINVAL, res)
  else
    let+ (err, res) := nfp_cpp_resource_find res in
    if negb (err =? 0) then
      let+ _ := r_unlock interface dev_mutex in rret (err, res)
    else
      let+ r := r_trylock interface (res_mutex res) in
      let err := ret_of r in
      if negb (err =? 0) then
        let+ _ := r_free (res_mutex res) in
        let+ _ := r_unlock interface dev_mutex in
        rret (err, res)
      else
        let+ _ := r_unlock interface dev_mutex in rret (0, res).

(** [for (;;)]: [count] only grows, so [1002 - count] iterations are enough; the
    number of attempts is returned too. *)
Fixpoint acquire_loop (fuel : nat) (count : Z) (res : nfp_resource) (dev_mutex : Z)
    : rprog (Z * nfp_resource * Z) :=
  match fuel with
  | O => fun st => CRet (Spins, st)
  | S fuel =>
      let+ (err, res) := nfp_resource_try_acquire res dev_mutex in
      if err =? 0 then rret (0, res, count + 1)
      else if negb (err =? - EBUSY) then rret (err, res, count + 1)
      else if count >? 1000 then rret (- EBUSY, res, count + 1)
      else acquire_loop fuel (count + 1) res dev_mutex
  end.

Definition acquire_attempts : nat := 1002.

(** The handle and the number of attempts, [None] for null. *)
Definition resource_acquire (name : list Z) : rprog (option nfp_resource * Z) :=
  if negb malloc_ok then rret (None, 0)
  else
    let res := mkResource (pad_to 8 name ++ [0]) 0 0 0 0 in
    let+ dev_mutex := r_alloc NFP_RESOURCE_TBL_TARGET NFP_RESOURCE_TBL_BASE NFP_RESOURCE_TBL_KEY in
    if dev_mutex =? 0 then rret (None, 0)
    else
      let+ (err, res, n) := acquire_loop acquire_attempts 0 res dev_mutex in
      let+ _ := r_free dev_mutex in
      if err =? 0 then rret (Some res, n) else rret (None, n).

Definition nfp_resource_acquire (name : list Z) : rprog (option nfp_resource) :=
  let+ (res, _) := resource_acquire name in rret res.

Definition nfp_resource_release (res : nfp_resource) : rprog unit :=
  let+ _ := r_unlock interface (res_mutex res) in
  r_free (res_mutex res).
End Resource.

Definition nfp_resource_cpp_id (res : nfp_resource) : Z := res_cpp_id res.
Definition nfp_resource_name (res : nfp_resource) : list Z := res_name res.
Definition nfp_resource_address (res : nfp_resource) : Z := res_addr res.
Definition nfp_resource_size (res : nfp_resource) : Z := res_size res.
