(* ===== verification/ResourceThms.v ===== *)
(** * Properties of the resource table

    Over a memory unit of 32-bit words: the search finds the first entry with the
    key, acquiring and releasing lock and unlock that entry and leave the rest of
    the table and the cache of handles as they were, and what happens when the entry
    is locked by another interface. *)

From S2P Require Export Resource.

Local Open Scope Z_scope.
Local Open Scope rprog_scope.

(** [k] words from [a] as bytes. *)
Definition word_bytes (f : Z -> Z) (a : Z) (k : nat) : list Z :=
  mjoin ((fun i => le_split 4 (f (a + 4 * Z.of_nat i))) <$> seq 0 k).

(** A memory unit whose bulk reads agree with its words. *)
Class MuTable (S : Type) `{MuBus S} :=
  mu_read_block (s : S) a n : bus_read MU_READ a n s = (Ok (word_bytes (mu_word s) a (Z.to_nat (n / 4))), s).

#[export] Instance words_table : MuTable words32.
Proof. intros s a n. done. Defined.

Section Rprog.
Context {S : Type} `{CppBus S}.

Lemma rrun_ret {A} (a : A) st s : crun (rret a st) s = ((Returns a, st), s).
Proof using. done. Qed.

Lemma rrun_bind {A B} (m : rprog A) (f : A -> rprog B) st s :
  crun (rbind m f st) s =
  let '((r, st'), s') := crun (m st) s in
  match r with
  | Returns a => crun (f a st') s'
  | Crashes => ((Crashes, st'), s')
  | Spins => ((Spins, st'), s')
  end.
Proof using.
  unfold rbind. rewrite crun_bind. destruct (crun (m st) s) as [[[a| |] st'] s']; done.
Qed.
End Rprog.

Definition d_set_depth (n : Z) (d : mdata) : mdata := let '(t, _, a, k, u) := d in (t, n, a, k, u).

(** Storing a handle back with another depth. *)
Lemma holds_store st c p m n : holds st c -> mutex_heap st !! p = Some m ->
  holds (mkStore (<[p := m_set_depth n m]> (mutex_heap st)) (mutex_cache st)) (acache_upd (d_set_depth n) p c).
Proof.
  intros Hh Hm. eapply holds_upd; [done| |].
  - destruct Hh as [[Hn Hd] _]. split; [done|]. cbn [mutex_heap mutex_cache].
    replace (<[p := m_set_depth n m]> (mutex_heap st)) with (alter (m_set_depth n) p (mutex_heap st)).
    + by apply dseg_alter_data.
    + apply map_eq. intros q. destruct (decide (q = p)) as [->|N].
      * by rewrite lookup_alter_eq, lookup_insert_eq, Hm.
      * by rewrite lookup_alter_ne, lookup_insert_ne.
  - intros q _. cbn [mutex_heap]. destruct (Z.eqb_spec q p) as [->|N].
    + by rewrite lookup_insert_eq, Hm.
    + rewrite lookup_insert_ne by done. by destruct (_ !! q).
Qed.

Lemma acache_upd_here f p d c : p ∉ c.*1 -> acache_upd f p ((p, d) :: c) = (p, f d) :: c.
Proof.
  intros Hp. unfold acache_upd. cbn [fmap list_fmap fst snd]. rewrite Z.eqb_refl. f_equal.
  rewrite <- (list_fmap_id c) at 2. apply list_fmap_ext. intros i [q x] Hi.
  apply list_elem_of_lookup_2, (list_elem_of_fmap_2 fst) in Hi. cbn in *.
  destruct (Z.eqb_spec q p) as [->|]; done.
Qed.

Lemma acache_upd_skip f p q d c : q <> p -> acache_upd f p ((q, d) :: c) = (q, d) :: acache_upd f p c.
Proof. intros N. unfold acache_upd. cbn. by rewrite (proj2 (Z.eqb_neq q p)). Qed.

Lemma acache_free_last p i d c : list_find (fun e => e.1 = p) c = Some (i, (p, d)) -> d_usage d = 1 ->
  acache_free p c = filter (fun e => e.1 <> p) c.
Proof. intros Hf Hu. unfold acache_free. by rewrite Hf, Hu. Qed.

Lemma filter_other p (c : acache) : p ∉ c.*1 -> filter (fun e => e.1 <> p) c = c.
Proof. intros Hp. apply filter_keeps. intros x Hx <-. apply Hp. by apply list_elem_of_fmap_2. Qed.

Lemma acache_free_here p t n a k c : p ∉ c.*1 -> acache_free p ((p, (t, n, a, k, 1)) :: c) = c.
Proof.
  intros Hp. rewrite (acache_free_last p 0%nat (t, n, a, k, 1)); [|cbn; by rewrite decide_True|done].
  rewrite filter_cons, decide_False by (cbn; congruence). by apply filter_other.
Qed.

Lemma acache_free_second p t n a k q d c : q <> p -> p ∉ c.*1 ->
  acache_free p ((q, d) :: (p, (t, n, a, k, 1)) :: c) = (q, d) :: c.
Proof.
  intros N Hp. rewrite (acache_free_last p 1%nat (t, n, a, k, 1));
    [|cbn; by rewrite decide_False, decide_True by done|done].
  rewrite filter_cons, decide_True, filter_cons, decide_False by (cbn; congruence).
  by rewrite filter_other.
Qed.

Section Ops.
Context {S : Type} `{Mu : MuTable S}.

(** The handle at [p] on the lock at [a], with depth [n]. *)
Definition on_lock (a key n : Z) : mdata := (7, n, a, key, 1).
Definition lock_addr (a : Z) : Prop := is_u64 a /\ a mod 8 = 0.

(** A new handle. *)
Lemma alloc_new model calloc st c a key (s : S) : holds st c -> NFP_CPP_MODEL_IS_6000 model = true ->
  lock_addr a -> mu_word s (a + 4) = key ->
  list_find (fun e => d_match NFP6000_CPPTGT_MU a e = true) c = None ->
  calloc st <> 0 -> calloc st ∉ c.*1 ->
  exists st', crun (r_alloc model calloc NFP6000_CPPTGT_MU a key st) s = ((Returns (calloc st), st'), s) /\
    holds st' ((calloc st, on_lock a key 0) :: c).
Proof using Mu.
  intros Hh Hmod [Ha H8] Hk Hf Hp0 Hp. unfold r_alloc. rewrite crun_bind.
  pose proof (alloc_refines st c model NFP6000_CPPTGT_MU a key (calloc st) s Hh Hp) as Hr.
  pose proof (alloc_bus st model NFP6000_CPPTGT_MU a key (calloc st) s) as Hs.
  assert (u64 (a + 4) = a + 4) as Ea by (apply u64_id; words).
  rewrite Ea in Hr, Hs. change (NFP_CPP_ID NFP6000_CPPTGT_MU 3 0) with MU_READ in Hr, Hs.
  rewrite mu_read_law in Hr, Hs. cbn [fst snd] in Hr, Hs.
  destruct (crun (nfp_cpp_mutex_alloc _ _ _ _ _ _) s) as [[p st'] s']. cbn [snd] in Hs.
  assert (s' = s) as -> by (by destruct Hs). clear Hs.
  unfold acache_alloc in Hr. rewrite Hf, Hk, Z.eqb_refl, (proj2 (Z.eqb_neq _ _)) in Hr by done.
  assert (location_valid model NFP6000_CPPTGT_MU a = true) as Hv.
  { unfold location_valid, _nfp_cpp_mutex_validate. rewrite Hmod, Z.eqb_refl.
    change 7 with (Z.ones 3). rewrite Z.land_ones by lia. change (2 ^ 3) with 8. by rewrite H8. }
  rewrite Hv in Hr. cbn [andb negb] in Hr. destruct Hr as [-> Hr]. cbn [crun].
  by exists st'.
Qed.
Context (interface : Z).
Hypothesis interface_ok : is_u16 interface.

Lemma handle_at st c p a key n : holds st c -> (p, on_lock a key n) ∈ c -> lock_addr a -> is_u16 n ->
  exists m, mutex_heap st !! p = Some m /\ mutex_ok m /\
    m_depth m = n /\ m_address m = a /\ m_key m = key.
Proof using.
  intros Hh Hin [Ha H8] Hn. destruct (holds_lookup _ _ _ _ Hh Hin) as (_ & m & Hm & Hd).
  unfold data_of, on_lock in Hd. injection Hd as Ht Hdep Haddr Hkey Hu.
  exists m. split; [done|]. split; [|done]. split; [done|]. rewrite Haddr, Hdep. done.
Qed.

Lemma deref_run {A} (f : nfp_cpp_mutex -> cprog (A * nfp_cpp_mutex)) p m a n st c (s s' : S) :
  holds st c -> mutex_heap st !! p = Some m -> crun (f m) s = ((a, m_set_depth n m), s') ->
  exists st', crun (deref p f st) s = ((Returns a, st'), s') /\ holds st' (acache_upd (d_set_depth n) p c).
Proof using.
  intros Hh Hm Hf. unfold deref. rewrite Hm, crun_bind, Hf. cbn [crun].
  eexists. split; [done|]. by apply holds_store.
Qed.

Lemma set_depth_same m : m_set_depth (m_depth m) m = m.
Proof using. by destruct m. Qed.

(** Locking a lock that is free, or already this interface's. *)
Lemma handle_free st c p a key (s : S) : holds st c -> (p, on_lock a key 0) ∈ c -> lock_addr a ->
  mu_word s (a + 4) = key ->
  MUTEX_IS_UNLOCKED (mu_word s a) || (mu_word s a =? MUTEX_LOCKED interface) = true ->
  exists m s', mutex_heap st !! p = Some m /\
    crun (nfp_cpp_mutex_trylock interface m) s = ((Ok tt, m_set_depth 1 m), s') /\
    only_word a (MUTEX_LOCKED interface) s s'.
Proof using interface_ok Mu.
  intros Hh Hin Ha Hk Hw. destruct (handle_at _ _ _ _ _ _ Hh Hin Ha ltac:(words)) as (m & Hm & Hok & Hd & Had & Hkey).
  destruct (trylock_spec interface m s interface_ok Hok) as (s' & E & Hs).
  rewrite Hd, Had, Hkey, Hk, Z.eqb_refl in E, Hs. cbn [Z.gtb Z.compare orb negb] in E, Hs.
  rewrite Hw in E. exists m, s'. split; [done|]. split; [done|].
  destruct (MUTEX_IS_UNLOCKED (mu_word s a)) eqn:Eu; [done|].
  cbn [orb] in Hw. apply Z.eqb_eq in Hw. rewrite Hw, locked_test_set in Hs by done. done.
Qed.

Lemma trylock_free st c p a key (s : S) : holds st c -> (p, on_lock a key 0) ∈ c -> lock_addr a ->
  mu_word s (a + 4) = key ->
  MUTEX_IS_UNLOCKED (mu_word s a) || (mu_word s a =? MUTEX_LOCKED interface) = true ->
  exists st' s', crun (r_trylock interface p st) s = ((Returns (Ok tt), st'), s') /\
    holds st' (acache_upd (d_set_depth 1) p c) /\ only_word a (MUTEX_LOCKED interface) s s'.
Proof using interface_ok Mu.
  intros Hh Hin Ha Hk Hw. destruct (handle_free _ _ _ _ _ _ Hh Hin Ha Hk Hw) as (m & s' & Hm & E & Hs).
  destruct (deref_run (nfp_cpp_mutex_trylock interface) p m (Ok tt) 1 st c s s' Hh Hm E) as (st' & E' & Hh').
  by exists st', s'.
Qed.

Lemma lock_free fuel errno st c p a key (s : S) : holds st c -> (p, on_lock a key 0) ∈ c -> lock_addr a ->
  mu_word s (a + 4) = key ->
  MUTEX_IS_UNLOCKED (mu_word s a) || (mu_word s a =? MUTEX_LOCKED interface) = true ->
  exists st' s', crun (r_lock (Datatypes.S fuel) errno interface p st) s = ((Returns (Ok tt), st'), s') /\
    holds st' (acache_upd (d_set_depth 1) p c) /\ only_word a (MUTEX_LOCKED interface) s s'.
Proof using interface_ok Mu.
  intros Hh Hin Ha Hk Hw. destruct (handle_free _ _ _ _ _ _ Hh Hin Ha Hk Hw) as (m & s' & Hm & E & Hs).
  assert (crun (nfp_cpp_mutex_lock (Datatypes.S fuel) errno interface m) s = ((Some (Ok tt), m_set_depth 1 m), s')) as E2.
  { unfold nfp_cpp_mutex_lock. cbn [lock_loop]. by rewrite crun_bind, E. }
  destruct (deref_run (nfp_cpp_mutex_lock _ errno interface) p m _ 1 st c s s' Hh Hm E2) as (st' & E' & Hh').
  exists st', s'. split; [|done]. unfold r_lock. by rewrite rrun_bind, E'.
Qed.

(** Trying a lock another interface holds. *)
Lemma trylock_busy st c p a key (s : S) : holds st c -> (p, on_lock a key 0) ∈ c -> lock_addr a ->
  mu_word s (a + 4) = key -> MUTEX_IS_LOCKED (mu_word s a) = true -> mu_word s a <> MUTEX_LOCKED interface ->
  exists st' s', crun (r_trylock interface p st) s = ((Returns (Err (NFP_ERRNO EBUSY)), st'), s') /\
    holds st' (acache_upd (d_set_depth 0) p c) /\ only_word a (Z.lor (mu_word s a) 0xf) s s'.
Proof using interface_ok Mu.
  intros Hh Hin Ha Hk Hl Hw. destruct (handle_at _ _ _ _ _ _ Hh Hin Ha ltac:(words)) as (m & Hm & Hok & Hd & Had & Hkey).
  destruct (trylock_spec interface m s interface_ok Hok) as (s' & E & Hs).
  rewrite Hd, Had, Hkey, Hk, Z.eqb_refl in E, Hs. cbn [Z.gtb Z.compare orb negb] in E, Hs.
  assert (MUTEX_IS_UNLOCKED (mu_word s a) = false) as Hu.
  { unfold MUTEX_IS_LOCKED, MUTEX_IS_UNLOCKED in *. apply Z.eqb_eq in Hl. by rewrite Hl. }
  rewrite Hu, (proj2 (Z.eqb_neq _ _)), Hl in E by done. rewrite Hu in Hs. cbn [orb] in E.
  assert (m_set_depth 0 m = m) as Em by (rewrite <- Hd; apply set_depth_same).
  assert (crun (nfp_cpp_mutex_trylock interface m) s = ((Err (NFP_ERRNO EBUSY), m_set_depth 0 m), s')) as E2
    by (rewrite Em; exact E).
  destruct (deref_run (nfp_cpp_mutex_trylock interface) p m _ 0 st c s s' Hh Hm E2) as (st' & E' & Hh').
  by exists st', s'.
Qed.

(** Unlocking what this interface holds. *)
Lemma unlock_own st c p a key n (s : S) : holds st c -> (p, on_lock a key n) ∈ c -> lock_addr a ->
  0 <= n <= 1 -> mu_word s (a + 4) = key -> mu_word s a = MUTEX_LOCKED interface ->
  exists st' s', crun (r_unlock interface p st) s = ((Returns (Ok tt), st'), s') /\
    holds st' (acache_upd (d_set_depth 0) p c) /\ only_word a 0 s s'.
Proof using interface_ok Mu.
  intros Hh Hin Ha Hn Hk Hw. destruct (handle_at _ _ _ _ _ _ Hh Hin Ha ltac:(words)) as (m & Hm & Hok & Hd & Had & Hkey).
  destruct (unlock_spec interface m s interface_ok Hok) as (s' & E & Hs).
  rewrite Hd, Had, Hkey, Hk, Hw, !Z.eqb_refl in E, Hs.
  rewrite Z.gtb_ltb, (proj2 (Z.ltb_ge 1 n)) in E, Hs by lia. cbn [orb negb] in E, Hs.
  destruct (deref_run (nfp_cpp_mutex_unlock interface) p m _ 0 st c s s' Hh Hm E) as (st' & E' & Hh').
  by exists st', s'.
Qed.

Lemma free_run st c p a key n (s : S) : holds st c -> (p, on_lock a key n) ∈ c ->
  exists st', crun (r_free p st) s = ((Returns tt, st'), s) /\ holds st' (acache_free p c).
Proof using.
  intros Hh Hin. destruct (holds_lookup _ _ _ _ Hh Hin) as (_ & m & Hm & Hd).
  unfold r_free. rewrite Hm. eexists. split; [done|]. by eapply free_refines.
Qed.

End Ops.

(** ** The search *)

Lemma le_combine_split_mod n x : le_combine (le_split n x) = x mod 2 ^ (8 * Z.of_nat n).
Proof.
  revert x. induction n as [|n IH]; intros x.
  - cbn [le_split le_combine]. change (2 ^ (8 * Z.of_nat 0)) with 1. by rewrite Z.mod_1_r.
  - cbn [le_split le_combine]. rewrite IH.
    replace (8 * Z.of_nat (S n)) with (8 * Z.of_nat n + 8) by lia.
    rewrite Z.pow_add_r by lia. change (2 ^ 8) with 0x100. rewrite (Z.mul_comm _ 0x100).
    rewrite Z.rem_mul_r; lia.
Qed.

Lemma le_combine_word x : le_combine (le_split 4 x) = u32 x.
Proof. apply (le_combine_split_mod 4). Qed.

(** Entry [i]'s location, key and region, from the words of the memory. *)
Definition entry_addr (i : Z) : Z := NFP_RESOURCE_TBL_BASE + sizeof_entry * i.
Definition entry_key (f : Z -> Z) (i : Z) : Z := u32 (f (entry_addr i + 4)).
Definition entry_cpp_id (f : Z -> Z) (i : Z) : Z :=
  let w := f (entry_addr i + 20) in
  NFP_CPP_ID (u8 (w / 0x1000000)) (u8 (w / 0x100)) (u8 (w / 0x10000)).
Definition entry_region (f : Z -> Z) (i : Z) (name : list Z) (mutex : Z) : nfp_resource :=
  mkResource name (entry_cpp_id f i) (u32 (f (entry_addr i + 24)) * 256)
    (u32 (f (entry_addr i + 28)) * 256) mutex.

Lemma entry_words f a : let e := entry_of_bytes (word_bytes f a 8) in
  let w := f (a + 20) in
  re_key e = u32 (f (a + 4)) /\ re_cpp_action e = u8 (w / 0x100) /\
  re_cpp_token e = u8 (w / 0x10000) /\ re_cpp_target e = u8 (w / 0x1000000) /\
  re_page_offset e = u32 (f (a + 24)) /\ re_page_size e = u32 (f (a + 28)).
Proof.
  cbv zeta. unfold entry_of_bytes. cbn [re_key re_cpp_action re_cpp_token re_cpp_target re_page_offset re_page_size].
  rewrite <- !le_combine_word.
  unfold u8. split_and!; try reflexivity; cbn; change (4 * Z.of_nat 5) with 20; lia.
Qed.

Lemma shift_page x : u64 (Z.shiftl (u32 x) 8) = u32 x * 256.
Proof. rewrite Z.shiftl_mul_pow2 by lia. change (2 ^ 8) with 256. apply u64_id. words. Qed.

Section Find.
Context {S : Type} `{Mu : MuTable S}.
Context (model : Z) (calloc : mutex_store -> Z).

Lemma find_step n i key res st (s : S) :
  crun (find_loop model calloc (Datatypes.S n) i key res st) s =
  if entry_key (mu_word s) i =? key then
    crun ((let+ mutex := r_alloc model calloc NFP_RESOURCE_TBL_TARGET (entry_addr i) key in
           rret (0, entry_region (mu_word s) i (res_name res) mutex)) st) s
  else crun (find_loop model calloc n (i + 1) key res st) s.
Proof using Mu.
  cbn [find_loop]. rewrite rrun_bind. unfold rlift, read_bytes. cbn [cbind crun].
  fold (entry_addr i).
  change (NFP_CPP_ID NFP_RESOURCE_TBL_TARGET 3 0) with MU_READ. rewrite mu_read_block. cbn [crun].
  change (Z.to_nat (sizeof_entry / 4)) with 8%nat.
  destruct (entry_words (mu_word s) (entry_addr i)) as (-> & -> & -> & -> & -> & ->).
  fold (entry_key (mu_word s) i). destruct (entry_key (mu_word s) i =? key); [|done].
  cbn [negb]. rewrite !rrun_bind. destruct (crun (r_alloc _ _ _ _ _ _) s) as [[[p| |] st'] s']; [|done..].
  rewrite !shift_page. done.
Qed.

Lemma find_miss n i key res st (s : S) :
  (forall j, i <= j < i + Z.of_nat n -> entry_key (mu_word s) j <> key) ->
  crun (find_loop model calloc n i key res st) s = ((Returns (- ENOENT, res), st), s).
Proof using Mu.
  revert i. induction n as [|n IH]; intros i Hj; [done|].
  rewrite find_step, (proj2 (Z.eqb_neq _ _)) by (apply Hj; lia). apply IH. intros. apply Hj. lia.
Qed.

Lemma find_hit n i j key res st (s : S) : i <= j < i + Z.of_nat n ->
  entry_key (mu_word s) j = key -> (forall k, i <= k < j -> entry_key (mu_word s) k <> key) ->
  crun (find_loop model calloc n i key res st) s =
  crun ((let+ mutex := r_alloc model calloc NFP_RESOURCE_TBL_TARGET (entry_addr j) key in
         rret (0, entry_region (mu_word s) j (res_name res) mutex)) st) s.
Proof using Mu.
  revert i. induction n as [|n IH]; intros i Hj Hk Hf; [lia|]. rewrite find_step.
  destruct (decide (i = j)) as [->|N]; [by rewrite Hk, Z.eqb_refl|].
  rewrite (proj2 (Z.eqb_neq _ _)) by (apply Hf; lia). apply IH; [lia|done|]. intros. apply Hf. lia.
Qed.
End Find.

(** ** Acquiring and releasing *)

(** The key of a resource. *)
Definition resource_key (name : list Z) : Z := nfp_crc32_posix (pad_to 8 name).

Lemma crc_range c p : is_u32 c -> is_u32 (nfp_crc32_be c p).
Proof.
  revert c. induction p as [|b p IH]; intros c Hc; [done|].
  unfold nfp_crc32_be, nfp_crc32_be_generic in *. cbn [foldl]. apply IH. unfold crc_byte.
  apply crc_bits_step, (lxor_lt_pow2 _ _ 32); [lia|exact Hc|apply u32_range].
Qed.

Lemma posix_loop_range fuel c n : is_u32 c -> is_u32 (posix_end_loop fuel c n).
Proof.
  revert c n. induction fuel as [|fuel IH]; intros c n Hc; [done|]. cbn [posix_end_loop].
  destruct (n =? 0); [done|]. by apply IH, crc_range.
Qed.

Lemma resource_key_u32 name : is_u32 (resource_key name).
Proof.
  unfold resource_key, nfp_crc32_posix, nfp_crc32_posix_end.
  assert (is_u32 (posix_end_loop 8 (nfp_crc32_be 0 (pad_to 8 name)) (Z.of_nat (length (pad_to 8 name))))) as H
    by (by apply posix_loop_range, crc_range). words.
Qed.

Lemma name_pad_eq name : name_pad name = take 9 (cstring name ++ replicate 9 0) ++ [0].
Proof.
  unfold name_pad, rte_strlcpy. cbn [fst]. rewrite take_app, take_replicate, length_app, length_take. cbn [length].
  rewrite <- !app_assoc, drop_replicate. f_equal. set (n := length (cstring name)).
  change ([0] ++ replicate ?k 0) with (replicate (S k) 0). rewrite <- replicate_S_end. f_equal. lia.
Qed.

(** The padded name is what the key is computed from. *)
Lemma name_pad_key name : take 8 (name_pad (pad_to 8 name ++ [0])) = pad_to 8 name.
Proof.
  assert (exists k, pad_to 8 name ++ [0] = take 8 (cstring name) ++ 0 :: replicate k 0) as (k & E).
  { unfold pad_to. rewrite take_app, take_replicate. exists (8 - length (cstring name))%nat.
    rewrite <- app_assoc. f_equal. rewrite Nat.min_l by lia.
    change (0 :: replicate ?k 0) with (replicate (Datatypes.S k) 0).
    by rewrite replicate_S_end. }
  rewrite name_pad_eq, E, cstring_end by (apply Forall_take, cstring_nonzero).
  unfold pad_to. rewrite take_app_le by (rewrite length_take, length_app, length_take, length_replicate; lia).
  rewrite take_take, Nat.min_l by lia. rewrite !take_app, take_take, Nat.min_id, !take_replicate, length_take.
  do 2 f_equal. lia.
Qed.

Lemma locked_low w : MUTEX_IS_LOCKED w = true -> Z.lor w 0xf = w.
Proof.
  unfold MUTEX_IS_LOCKED. intros H. apply Z.eqb_eq in H.
  assert (Z.land w 0xf = 0xf) as E.
  { change 0xf with (Z.land 0xffff 0xf) at 1. by rewrite Z.land_assoc, H. }
  rewrite <- E at 1. apply Z.bits_inj'. intros n _. rewrite Z.lor_spec, Z.land_spec.
  by destruct (Z.testbit w n).
Qed.

Section Acquire.
Context {S : Type} `{Mu : MuTable S}.
Context (model interface errno : Z) (lock_fuel : nat) (calloc : mutex_store -> Z).

(** The table is usable by this interface: the device lock is free, entry [j] is the
    first with the key of [name], and neither lock has a cached handle. *)
Record ready (st : mutex_store) (c : acache) (s : S) (name : list Z) (j : Z) : Prop := {
  ready_model : NFP_CPP_MODEL_IS_6000 model = true;
  ready_interface : is_u16 interface;
  ready_name : pad_to 8 name <> pad_to 8 NFP_RESOURCE_TBL_NAME;
  ready_alloc : forall st, calloc st <> 0 /\ mutex_heap st !! calloc st = None;
  ready_cache : holds st c;
  ready_uncached : forall e, e ∈ c -> d_match NFP6000_CPPTGT_MU NFP_RESOURCE_TBL_BASE e = false /\
    d_match NFP6000_CPPTGT_MU (entry_addr j) e = false;
  ready_dev_key : mu_word s (NFP_RESOURCE_TBL_BASE + 4) = NFP_RESOURCE_TBL_KEY;
  ready_dev : MUTEX_IS_UNLOCKED (mu_word s NFP_RESOURCE_TBL_BASE) = true;
  ready_entry : 0 < j < 128;
  ready_key : mu_word s (entry_addr j + 4) = resource_key name;
  ready_first : forall k, 0 <= k < j -> entry_key (mu_word s) k <> resource_key name }.

(** The first word of the entry is its lock. *)
Definition entry_free (s : S) (j : Z) : bool :=
  MUTEX_IS_UNLOCKED (mu_word s (entry_addr j)) || (mu_word s (entry_addr j) =? MUTEX_LOCKED interface).

(** The device lock and the lock of entry [j] have the values [d] and [w]; nothing
    else changed. *)
Definition locks (j d w : Z) (s s' : S) : Prop :=
  mu_word s' NFP_RESOURCE_TBL_BASE = d /\ mu_word s' (entry_addr j) = w /\
  forall b, b <> NFP_RESOURCE_TBL_BASE -> b <> entry_addr j -> mu_word s' b = mu_word s b.

Lemma entry_lock_addr j : 0 < j < 128 -> lock_addr (entry_addr j) /\ entry_addr j <> NFP_RESOURCE_TBL_BASE /\
  NFP_RESOURCE_TBL_BASE + 32 <= entry_addr j.
Proof using. unfold lock_addr, entry_addr, NFP_RESOURCE_TBL_BASE, sizeof_entry. words. Qed.

Lemma table_lock_addr : lock_addr NFP_RESOURCE_TBL_BASE.
Proof using. unfold lock_addr, NFP_RESOURCE_TBL_BASE. words. Qed.

Lemma uncached (c : acache) a : (forall e, e ∈ c -> d_match NFP6000_CPPTGT_MU a e = false) ->
  list_find (fun e => d_match NFP6000_CPPTGT_MU a e = true) c = None.
Proof using. intros H'. apply list_find_None, Forall_forall. intros e He. by rewrite H'. Qed.

Lemma d_match_lock a p b k n : d_match NFP6000_CPPTGT_MU a (p, on_lock b k n) = (b =? a).
Proof using. done. Qed.

Lemma calloc_fresh st c : holds st c -> (forall st, calloc st <> 0 /\ mutex_heap st !! calloc st = None) ->
  calloc st ∉ c.*1.
Proof using.
  intros [[_ Hd] _] Hc Hin. destruct (dseg_in _ _ _ _ _ _ Hd Hin) as [_ [m Hm]].
  destruct (Hc st) as [_ Hn]. congruence.
Qed.

Lemma entry_key_ext (s s' : S) i : mu_word s' (entry_addr i + 4) = mu_word s (entry_addr i + 4) ->
  entry_key (mu_word s') i = entry_key (mu_word s) i.
Proof using. unfold entry_key. by intros ->. Qed.

Lemma entry_region_ext (s s' : S) i name p : 0 < i < 128 ->
  (forall b, b <> NFP_RESOURCE_TBL_BASE -> mu_word s' b = mu_word s b) ->
  entry_region (mu_word s') i name p = entry_region (mu_word s) i name p.
Proof using.
  intros Hi H'. destruct (entry_lock_addr i Hi) as (_ & _ & Hb).
  unfold entry_region, entry_cpp_id. by rewrite !H' by lia.
Qed.

(** The search, with the device lock held. *)
Lemma find_ready st c p1 (s0 s : S) name j : ready st c s0 name j ->
  only_word NFP_RESOURCE_TBL_BASE (MUTEX_LOCKED interface) s0 s ->
  forall st1 d, holds st1 ((p1, on_lock NFP_RESOURCE_TBL_BASE 0 d) :: c) ->
  let nm := pad_to 8 name ++ [0] in
  exists p st2,
    crun (nfp_cpp_resource_find model calloc (mkResource nm 0 0 0 0) st1) s =
      ((Returns (0, entry_region (mu_word s0) j nm p), st2), s) /\
    p <> p1 /\ p ∉ c.*1 /\
    holds st2 ((p, on_lock (entry_addr j) (resource_key name) 0) :: (p1, on_lock NFP_RESOURCE_TBL_BASE 0 d) :: c).
Proof using Mu.
  intros Hr [Hw Ho] st1 d Hh nm. destruct Hr.
  destruct (entry_lock_addr j ready_entry0) as (Hla & Hne & Hge).
  assert (forall i, 0 <= i -> entry_key (mu_word s) i = entry_key (mu_word s0) i) as Hkeys.
  { intros i Hi. apply entry_key_ext, Ho. unfold entry_addr, NFP_RESOURCE_TBL_BASE, sizeof_entry. lia. }
  exists (calloc st1). pose proof (calloc_fresh _ _ Hh ready_alloc0) as Hfresh.
  destruct (alloc_new model calloc st1 ((p1, on_lock NFP_RESOURCE_TBL_BASE 0 d) :: c) (entry_addr j)
    (resource_key name) s) as (st2 & E & Hh2); try done.
  { rewrite Ho by lia. done. }
  { apply uncached. intros e He. apply elem_of_cons in He as [->|He]; [|by apply ready_uncached0].
    rewrite d_match_lock. by apply Z.eqb_neq. }
  { apply ready_alloc0. }
  exists st2. split.
  - unfold nfp_cpp_resource_find. cbn [res_name]. change NFP_RESOURCE_ENTRY_NAME_SZ with 8%nat.
    assert (take 8 (name_pad nm) = pad_to 8 name) as Hnp by apply name_pad_key.
    rewrite bool_decide_eq_false_2 by (by rewrite Hnp). rewrite Hnp.
    fold (resource_key name).
    rewrite (find_hit model calloc NFP_RESOURCE_TBL_ENTRIES 0 j).
    + rewrite rrun_bind. change NFP_RESOURCE_TBL_TARGET with NFP6000_CPPTGT_MU. rewrite E. cbn [res_name].
      unfold rret. cbn [crun]. rewrite (entry_region_ext s0 s); done.
    + change (Z.of_nat NFP_RESOURCE_TBL_ENTRIES) with 128. lia.
    + rewrite Hkeys by lia. unfold entry_key. rewrite ready_key0. apply u32_id, resource_key_u32.
    + intros k Hk. rewrite Hkeys by lia. by apply ready_first0.
  - cbn [fmap list_fmap fst] in Hfresh. apply not_elem_of_cons in Hfresh as [? ?]. done.
Qed.

Lemma only_word_at a v b (s s' : S) : only_word a v s s' -> b <> a -> mu_word s' b = mu_word s b.
Proof using. intros [_ Ho]. apply Ho. Qed.

(** Unlocking the device at the end of an attempt. *)
Lemma unlock_dev st c p1 d (s : S) : is_u16 interface -> holds st c ->
  (p1, on_lock NFP_RESOURCE_TBL_BASE 0 d) ∈ c -> 0 <= d <= 1 ->
  mu_word s (NFP_RESOURCE_TBL_BASE + 4) = NFP_RESOURCE_TBL_KEY ->
  mu_word s NFP_RESOURCE_TBL_BASE = MUTEX_LOCKED interface ->
  exists st' s', crun (r_unlock interface p1 st) s = ((Returns (Ok tt), st'), s') /\
    holds st' (acache_upd (d_set_depth 0) p1 c) /\ only_word NFP_RESOURCE_TBL_BASE 0 s s'.
Proof using Mu. intros. by eapply unlock_own. Qed.

(** Unlocking it after a change of an entry's lock: the change is what is left. *)
Lemma unlock_dev_after st c p1 (s s2 s4 : S) j v : is_u16 interface -> 0 < j < 128 -> holds st c ->
  (p1, on_lock NFP_RESOURCE_TBL_BASE 0 1) ∈ c -> mu_word s (NFP_RESOURCE_TBL_BASE + 4) = NFP_RESOURCE_TBL_KEY ->
  only_word NFP_RESOURCE_TBL_BASE (MUTEX_LOCKED interface) s s2 -> only_word (entry_addr j) v s2 s4 ->
  exists st' s', crun (r_unlock interface p1 st) s4 = ((Returns (Ok tt), st'), s') /\
    holds st' (acache_upd (d_set_depth 0) p1 c) /\ locks j 0 v s s'.
Proof using Mu calloc.
  intros Hi Hj Hh Hin Hk Hs2 Hs4. destruct (entry_lock_addr j Hj) as (Hla & Hne & Hge).
  destruct (unlock_dev st c p1 1 s4 Hi Hh Hin) as (st' & s' & E & Hh' & Hs').
  { lia. }
  { by rewrite (only_word_at _ _ _ _ _ Hs4), (only_word_at _ _ _ _ _ Hs2) by lia. }
  { rewrite (only_word_at _ _ _ _ _ Hs4) by done. apply Hs2. }
  exists st', s'. split; [done|]. split; [done|]. split; [apply Hs'|]. split.
  - rewrite (only_word_at _ _ _ _ _ Hs') by done. apply Hs4.
  - intros b Hb1 Hb2. rewrite (only_word_at _ _ _ _ _ Hs'), (only_word_at _ _ _ _ _ Hs4) by done.
    by apply (only_word_at _ _ _ _ _ Hs2).
Qed.

(** One attempt: the entry is locked, or busy. *)
Lemma try_acquire_ready st c (s : S) name j st1 p1 : ready st c s name j ->
  holds st1 ((p1, on_lock NFP_RESOURCE_TBL_BASE 0 0) :: c) -> p1 ∉ c.*1 ->
  let nm := pad_to 8 name ++ [0] in
  let w := mu_word s (entry_addr j) in
  entry_free s j = true \/ MUTEX_IS_LOCKED w = true ->
  exists p st' s' res',
    crun (nfp_resource_try_acquire model interface errno (Datatypes.S lock_fuel) calloc (mkResource nm 0 0 0 0) p1 st1) s =
      ((Returns (if entry_free s j then 0 else -1, res'), st'), s') /\
    locks j 0 (if entry_free s j then MUTEX_LOCKED interface else w) s s' /\ p <> p1 /\ p ∉ c.*1 /\
    (entry_free s j = true -> res' = entry_region (mu_word s) j nm p) /\
    holds st' ((if entry_free s j then [(p, on_lock (entry_addr j) (resource_key name) 1)] else []) ++
               (p1, on_lock NFP_RESOURCE_TBL_BASE 0 0) :: c).
Proof using Mu.
  cbv zeta. intros Hr Hh Hp1. set (w := mu_word s (entry_addr j)). intros Hw. pose proof Hr as Hr'. destruct Hr'.
  destruct (entry_lock_addr j ready_entry0) as (Hla & Hne & Hge). pose proof table_lock_addr as Hta.
  unfold nfp_resource_try_acquire. rewrite rrun_bind.
  destruct (lock_free interface ready_interface0 lock_fuel errno st1 _ p1 NFP_RESOURCE_TBL_BASE 0 s Hh
    (list_elem_of_here _ _) Hta ready_dev_key0) as (st2 & s2 & -> & Hh2 & Hs2); [by rewrite ready_dev0|].
  rewrite acache_upd_here in Hh2 by done. change (d_set_depth 1 (on_lock ?a ?k 0)) with (on_lock a k 1) in Hh2.
  cbn [ret_of Z.eqb negb]. rewrite rrun_bind.
  destruct (find_ready st c p1 s s2 name j Hr Hs2 st2 1 Hh2) as (p & st3 & -> & Hpp & Hpc & Hh3).
  cbn [Z.eqb negb]. rewrite rrun_bind.
  change (res_mutex (entry_region (mu_word s) j (pad_to 8 name ++ [0]) p)) with p.
  assert (mu_word s2 (entry_addr j + 4) = resource_key name) as Hk2 by (rewrite (only_word_at _ _ _ _ _ Hs2) by lia; done).
  assert (mu_word s2 (entry_addr j) = w) as Hw2 by (by apply (only_word_at _ _ _ _ _ Hs2)).
  assert (p ∉ ((p1, on_lock NFP_RESOURCE_TBL_BASE 0 1) :: c).*1) as Hpn by (by apply not_elem_of_cons).
  unfold entry_free. fold w. destruct (MUTEX_IS_UNLOCKED w || (w =? MUTEX_LOCKED interface)) eqn:Ef.
  - (* free *)
    destruct (trylock_free interface ready_interface0 st3 _ p (entry_addr j) (resource_key name) s2 Hh3
      (list_elem_of_here _ _) Hla Hk2) as (st4 & s4 & -> & Hh4 & Hs4); [by rewrite Hw2|].
    rewrite acache_upd_here in Hh4 by done. cbn [ret_of Z.eqb negb]. rewrite rrun_bind.
    destruct (unlock_dev_after st4 _ p1 s s2 s4 j (MUTEX_LOCKED interface) ready_interface0 ready_entry0 Hh4) as (st5 & s5 & -> & Hh5 & Hs5);
      [right; left|done..|].
    rewrite acache_upd_skip, acache_upd_here in Hh5 by done.
    exists p, st5, s5, (entry_region (mu_word s) j (pad_to 8 name ++ [0]) p). by split_and!.
  - (* busy *)
    destruct Hw as [Hw|Hw]; [unfold entry_free in Hw; fold w in Hw; congruence|].
    apply orb_false_iff in Ef as [_ Ef]. apply Z.eqb_neq in Ef.
    destruct (trylock_busy interface ready_interface0 st3 _ p (entry_addr j) (resource_key name) s2 Hh3
      (list_elem_of_here _ _) Hla Hk2) as (st4 & s4 & -> & Hh4 & Hs4); [by rewrite Hw2..|].
    rewrite acache_upd_here in Hh4 by done. cbn [ret_of cerr_ret Z.eqb negb]. rewrite rrun_bind.
    change (res_mutex (entry_region (mu_word s) j (pad_to 8 name ++ [0]) p)) with p.
    destruct (free_run st4 _ p (entry_addr j) (resource_key name) 0 s4 Hh4 (list_elem_of_here _ _)) as (st5 & -> & Hh5).
    change (d_set_depth 0 (on_lock ?a ?k 0)) with (7, 0, a, k, 1) in Hh5.
    rewrite acache_free_here in Hh5 by done. rewrite rrun_bind.
    rewrite Hw2, locked_low in Hs4 by done.
    destruct (unlock_dev_after st5 _ p1 s s2 s4 j w ready_interface0 ready_entry0 Hh5 (list_elem_of_here _ _))
      as (st6 & s6 & -> & Hh6 & Hs6); [done..|].
    rewrite acache_upd_here in Hh6 by done.
    exists p, st6, s6, (entry_region (mu_word s) j (pad_to 8 name ++ [0]) p). by split_and!.
Qed.

(** On a ready table one attempt is made. If the entry's lock is free the region of the
    first entry with the name's key is returned, the entry locked by this interface and
    one more handle in the cache; if another interface holds the lock, null. The device
    lock is released and no other word changes. *)
Lemma acquire_run st c (s : S) name j : ready st c s name j ->
  entry_free s j = true \/ MUTEX_IS_LOCKED (mu_word s (entry_addr j)) = true ->
  exists p st' s',
    crun (resource_acquire model interface errno (Datatypes.S lock_fuel) calloc true name st) s =
      ((Returns (if entry_free s j
                 then Some (entry_region (mu_word s) j (pad_to 8 name ++ [0]) p) else None, 1), st'), s') /\
    locks j 0 (if entry_free s j then MUTEX_LOCKED interface else mu_word s (entry_addr j)) s s' /\
    (p ∉ c.*1) /\
    holds st' ((if entry_free s j then [(p, on_lock (entry_addr j) (resource_key name) 1)] else []) ++ c).
Proof using Mu.
  intros Hr Hw. pose proof Hr as []. unfold resource_acquire. cbn [negb]. rewrite rrun_bind.
  change NFP_RESOURCE_TBL_TARGET with NFP6000_CPPTGT_MU.
  pose proof (calloc_fresh _ _ ready_cache0 ready_alloc0) as Hfresh.
  destruct (alloc_new model calloc st c NFP_RESOURCE_TBL_BASE NFP_RESOURCE_TBL_KEY s ready_cache0 ready_model0
    table_lock_addr ready_dev_key0) as (st1 & -> & Hh1); [|apply ready_alloc0|done|].
  { apply uncached. intros e He. by apply ready_uncached0. }
  rewrite (proj2 (Z.eqb_neq _ _)) by apply ready_alloc0. rewrite rrun_bind.
  destruct (try_acquire_ready st c s name j st1 _ Hr Hh1 Hfresh Hw)
    as (p & st2 & s2 & res' & E & Hl & Hpp & Hpc & Hres & Hh2).
  change acquire_attempts with (Datatypes.S 1001). generalize 1001%nat as more. intros more.
  cbn [acquire_loop]. rewrite rrun_bind, E.
  exists p. destruct (entry_free s j) eqn:Ef; cbn [app] in Hh2 |- *.
  - cbn [Z.eqb negb]. rewrite rrun_ret, rrun_bind.
    destruct (free_run st2 _ (calloc st) NFP_RESOURCE_TBL_BASE 0 0 s2 Hh2) as (st3 & -> & Hh3); [right; left|].
    unfold on_lock in Hh3. rewrite acache_free_second in Hh3 by done. cbn [Z.eqb]. unfold rret. cbn [crun].
    rewrite Hres by done. by exists st3, s2.
  - change (-1 =? 0) with false. change (-1 =? - EBUSY) with false. cbn [negb]. rewrite rrun_ret, rrun_bind.
    destruct (free_run st2 _ (calloc st) NFP_RESOURCE_TBL_BASE 0 0 s2 Hh2 (list_elem_of_here _ _)) as (st3 & -> & Hh3).
    unfold on_lock in Hh3. rewrite acache_free_here in Hh3 by done. unfold rret. cbn [crun Z.eqb].
    by exists st3, s2.
Qed.

(** Acquiring a resource whose lock another interface holds gives up after
    one attempt: the attempt fails with [-1], which is not the [-EBUSY] that the loop of
    1000 retries, a millisecond apart, waits for. Null is returned; the lock stays the
    other's, the device lock is released, no other word of the memory changes and the
    handle cache is as before. *)
Lemma resource_busy_gives_up st c (s : S) name j : ready st c s name j ->
  MUTEX_IS_LOCKED (mu_word s (entry_addr j)) = true ->
  mu_word s (entry_addr j) <> MUTEX_LOCKED interface ->
  exists st' s',
    crun (resource_acquire model interface errno (Datatypes.S lock_fuel) calloc true name st) s =
      ((Returns (None, 1), st'), s') /\
    locks j 0 (mu_word s (entry_addr j)) s s' /\ holds st' c.
Proof using Mu.
  intros Hr Hl N. destruct (acquire_run st c s name j Hr (or_intror Hl)) as (p & st' & s' & E & L & _ & Hh).
  assert (entry_free s j = false) as Hf.
  { unfold entry_free. rewrite (proj2 (Z.eqb_neq _ _)) by done. rewrite orb_false_r.
    unfold MUTEX_IS_LOCKED, MUTEX_IS_UNLOCKED in *. apply Z.eqb_eq in Hl. by rewrite Hl. }
  rewrite Hf in E, L, Hh. by exists st', s'.
Qed.
End Acquire.

Section Release.
Context {S : Type} `{Mu : MuTable S}.

(** Releasing what was acquired. *)
Lemma release_run interface st c (s : S) p j key name : is_u16 interface -> 0 < j < 128 ->
  holds st ((p, on_lock (entry_addr j) key 1) :: c) -> p ∉ c.*1 ->
  mu_word s (entry_addr j + 4) = key -> mu_word s (entry_addr j) = MUTEX_LOCKED interface ->
  forall f, exists st' s',
    crun (nfp_resource_release interface (entry_region f j name p) st) s = ((Returns tt, st'), s') /\
    only_word (entry_addr j) 0 s s' /\ holds st' c.
Proof using Mu.
  intros Hi Hj Hh Hp Hk Hw f. destruct (entry_lock_addr j Hj) as (Hla & Hne & Hge).
  unfold nfp_resource_release. rewrite rrun_bind. change (res_mutex (entry_region f j name p)) with p.
  destruct (unlock_own interface Hi st _ p (entry_addr j) key 1 s Hh (list_elem_of_here _ _) Hla)
    as (st1 & s1 & -> & Hh1 & Hs1); [lia|done|done|].
  rewrite acache_upd_here in Hh1 by done.
  destruct (free_run st1 _ p (entry_addr j) key 0 s1 Hh1 (list_elem_of_here _ _)) as (st2 & -> & Hh2).
  exists st2, s1. split; [done|]. split; [done|].
  change (d_set_depth 0 (on_lock ?a ?k 1)) with (7, 0, a, k, 1) in Hh2.
  by rewrite acache_free_here in Hh2.
Qed.

Lemma ready_after model interface calloc st c (s : S) name j st' s' w :
  ready model interface calloc st c s name j -> holds st' c -> locks j 0 w s s' ->
  ready model interface calloc st' c s' name j.
Proof using.
  intros [] Hh (H0' & _ & Ho).
  destruct (entry_lock_addr j ready_entry0) as (_ & _ & Hge).
  split; try done.
  - rewrite Ho by lia. done.
  - by rewrite H0'.
  - rewrite Ho by lia. done.
  - intros k Hk. rewrite (entry_key_ext s s'); [by apply ready_first0|]. apply Ho;
      unfold entry_addr, NFP_RESOURCE_TBL_BASE, sizeof_entry; lia.
Qed.

Lemma locked_by_other interface other : is_u16 interface -> is_u16 other -> interface <> other ->
  (MUTEX_IS_UNLOCKED (MUTEX_LOCKED other) || (MUTEX_LOCKED other =? MUTEX_LOCKED interface)) = false.
Proof using.
  intros Hi Ho N. rewrite locked_not_unlocked by done. cbn [orb]. apply Z.eqb_neq. intros E.
  apply N. symmetry. by apply MUTEX_LOCKED_inj.
Qed.

(** C30 (safety): Two clients with different interfaces and caches, on one table: while
    the first has a resource acquired the second gets null and disturbs nothing; when the
    first has released it, its cache of handles is as it was before, and the second
    acquires the same entry. *)
Theorem resource_exclusive modelA modelB ifA ifB errno fuel callocA callocB stA cA stB cB (s : S) name j :
  ready modelA ifA callocA stA cA s name j -> ready modelB ifB callocB stB cB s name j ->
  ifA <> ifB -> MUTEX_IS_UNLOCKED (mu_word s (entry_addr j)) = true ->
  exists pA pB stA1 s1 stB1 s2 stA2 s3 stB2 s4,
    crun (nfp_resource_acquire modelA ifA errno (Datatypes.S fuel) callocA true name stA) s =
      ((Returns (Some (entry_region (mu_word s) j (pad_to 8 name ++ [0]) pA)), stA1), s1) /\
    crun (nfp_resource_acquire modelB ifB errno (Datatypes.S fuel) callocB true name stB) s1 =
      ((Returns None, stB1), s2) /\
    mu_word s2 (entry_addr j) = MUTEX_LOCKED ifA /\
    crun (nfp_resource_release ifA (entry_region (mu_word s) j (pad_to 8 name ++ [0]) pA) stA1) s2 =
      ((Returns tt, stA2), s3) /\ holds stA2 cA /\
    crun (nfp_resource_acquire modelB ifB errno (Datatypes.S fuel) callocB true name stB1) s3 =
      ((Returns (Some (entry_region (mu_word s3) j (pad_to 8 name ++ [0]) pB)), stB2), s4) /\
    mu_word s4 (entry_addr j) = MUTEX_LOCKED ifB.
Proof using Mu.
  intros HA HB N Hu. pose proof HA as []. pose proof (ready_interface _ _ _ _ _ _ _ _ HB) as HiB.
  assert (entry_free ifA s j = true) as HfA by (unfold entry_free; by rewrite Hu).
  destruct (acquire_run modelA ifA errno fuel callocA stA cA s name j HA (or_introl HfA))
    as (pA & stA1 & s1 & E1 & L1 & HpA & Hh1). rewrite HfA in E1, L1, Hh1. cbn [app] in Hh1.
  (* the second client, while the first holds the entry *)
  pose proof (ready_after _ _ _ _ _ _ _ _ _ _ _ HB (ready_cache _ _ _ _ _ _ _ _ HB) L1) as HB1.
  assert (entry_free ifB s1 j = false) as HfB.
  { unfold entry_free. rewrite (proj1 (proj2 L1)). by apply locked_by_other. }
  destruct (acquire_run modelB ifB errno fuel callocB stB cB s1 name j HB1)
    as (pB' & stB1 & s2 & E2 & L2 & _ & Hh2).
  { right. rewrite (proj1 (proj2 L1)). by apply locked_is_locked. }
  rewrite HfB in E2, L2, Hh2. rewrite (proj1 (proj2 L1)) in L2. cbn [app] in Hh2.
  (* the release *)
  destruct (entry_lock_addr j ready_entry0) as (_ & Hne & Hge).
  destruct (release_run ifA stA1 cA s2 pA j (resource_key name) (pad_to 8 name ++ [0]) ready_interface0
    ready_entry0 Hh1 HpA) with (f := mu_word s) as (stA2 & s3 & E3 & L3 & Hh3).
  { destruct L1 as (_ & _ & O1), L2 as (_ & _ & O2). rewrite O2, O1 by lia. done. }
  { apply L2. }
  (* the second client again *)
  assert (locks j 0 0 s1 s3) as L13.
  { destruct L2 as (D2 & _ & O2). destruct L3 as [W3 O3]. split_and!; [by rewrite O3 by done|done|].
    intros b Hb1 Hb2. rewrite O3, O2 by done. done. }
  pose proof (ready_after _ _ _ _ _ _ _ _ _ _ _ HB1 Hh2 L13) as HB3.
  assert (entry_free ifB s3 j = true) as HfB3 by (unfold entry_free; by rewrite (proj1 L3)).
  destruct (acquire_run modelB ifB errno fuel callocB stB1 cB s3 name j HB3 (or_introl HfB3))
    as (pB & stB2 & s4 & E4 & L4 & _ & _). rewrite HfB3 in E4, L4.
  exists pA, pB, stA1, s1, stB1, s2, stA2, s3, stB2, s4.
  unfold nfp_resource_acquire. rewrite !rrun_bind, E1, E2, E4.
  split_and!; try done; [apply L2|apply L4].
Qed.
End Release.

(** A table of plain words with "nfp.info" as entry 1, 64 KiB at page 0x20. *)
Definition nfp_info : list Z := [0x6e; 0x66; 0x70; 0x2e; 0x69; 0x6e; 0x66; 0x6f].
Definition ex_table : words32 :=
  let key := nfp_crc32_posix nfp_info in
  fun a => if a =? 0x8100000024 then key else if a =? 0x8100000034 then 0x07010300
           else if a =? 0x8100000038 then 0x20 else if a =? 0x810000003c then 0x100 else 0.
Definition fresh_handle (st : mutex_store) : Z := 1 + map_fold (fun p _ m => Z.max (Z.abs p) m) 0 (mutex_heap st).

Lemma fresh_handle_ok st : fresh_handle st <> 0 /\ mutex_heap st !! fresh_handle st = None.
Proof.
  assert (forall h : gmap Z nfp_cpp_mutex, 0 <= map_fold (fun p _ m => Z.max (Z.abs p) m) 0 h /\
    forall p, is_Some (h !! p) -> p <= map_fold (fun p _ m => Z.max (Z.abs p) m) 0 h) as H.
  { intros h. apply (map_fold_weak_ind (fun r (h : gmap Z nfp_cpp_mutex) => 0 <= r /\ forall p, is_Some (h !! p) -> p <= r)).
    - split; [done|]. intros p [m Hm]. by rewrite lookup_empty in Hm.
    - intros p m h' r Hp [Hr IH]. split; [lia|]. intros q [m' Hq].
      destruct (decide (q = p)) as [->|N]; [lia|]. rewrite lookup_insert_ne in Hq by done.
      specialize (IH q ltac:(by eexists)). lia. }
  specialize (H (mutex_heap st)) as [H0 H]. unfold fresh_handle. split; [lia|].
  destruct (mutex_heap st !! _) eqn:E; [|done]. specialize (H _ ltac:(by eexists)). lia.
Qed.

Lemma ex_table_ready interface : is_u16 interface ->
  ready 0x60000010 interface fresh_handle (mkStore ∅ 0) [] ex_table nfp_info 1.
Proof.
  intros Hi. split.
  - by vm_compute.
  - exact Hi.
  - by vm_compute.
  - apply fresh_handle_ok.
  - split; [split; [constructor|reflexivity]|]. intros p d Hin. by apply elem_of_nil in Hin.
  - intros e He. by apply elem_of_nil in He.
  - by vm_compute.
  - by vm_compute.
  - lia.
  - by vm_compute.
  - intros k Hk. replace k with 0 by lia. by vm_compute.
Qed.

(** The entry held by interface 0x1101. *)
Definition ex_busy_table : words32 := word_set 0x8100000020 0x1101000f ex_table.

Lemma resource_busy_gives_up_witness : exists st' s',
  crun (resource_acquire 0x60000010 0x1001 0 1 fresh_handle true nfp_info (mkStore ∅ 0)) ex_busy_table =
    ((Returns (None, 1), st'), s').
Proof.
  assert (ready 0x60000010 0x1001 fresh_handle (mkStore ∅ 0) [] ex_busy_table nfp_info 1) as Hr.
  { destruct (ex_table_ready 0x1001 ltac:(split; done)) as [Hm Hi Hn Ha Hc Hu _ _ He _ _]. split.
    - exact Hm.
    - exact Hi.
    - exact Hn.
    - exact Ha.
    - exact Hc.
    - exact Hu.
    - by vm_compute.
    - by vm_compute.
    - exact He.
    - by vm_compute.
    - intros k Hk. replace k with 0 by lia. by vm_compute. }
  destruct (resource_busy_gives_up 0x60000010 0x1001 0 0 fresh_handle (mkStore ∅ 0) [] ex_busy_table nfp_info 1 Hr)
    as (st' & s' & E & _); [by vm_compute|by vm_compute|].
  exists st', s'. exact E.
Defined.

Lemma resource_exclusive_witness : exists stA1 s1 stB1 s2 res,
  crun (nfp_resource_acquire 0x60000010 0x1001 0 1 fresh_handle true nfp_info (mkStore ∅ 0)) ex_table =
    ((Returns (Some res), stA1), s1) /\
  crun (nfp_resource_acquire 0x60000010 0x1101 0 1 fresh_handle true nfp_info (mkStore ∅ 0)) s1 =
    ((Returns None, stB1), s2).
Proof.
  destruct (resource_exclusive 0x60000010 0x60000010 0x1001 0x1101 0 0 fresh_handle fresh_handle
    (mkStore ∅ 0) [] (mkStore ∅ 0) [] ex_table nfp_info 1) as (pA & pB & stA1 & s1 & stB1 & s2 & stA2 & s3 & stB2 & s4 & E1 & E2 & _);
    [apply ex_table_ready; split; done|apply ex_table_ready; split; done|done|by vm_compute|].
  exists stA1, s1, stB1, s2. eexists. split; [exact E1|exact E2].
Defined.
