(* ===== verification/Hwinfo.v ===== *)
(** * The hardware information table ([nfp_hwinfo.c])

    A checksummed table of key and value strings.  The copy read from the device is a
    buffer of bytes; pointers into it are offsets and a read outside it is a fault
    ([None]). *)

From S2P Require Export ResourceThms.

Local Open Scope Z_scope.
Local Open Scope rprog_scope.

Definition HWINFO_SIZE_MIN : Z := 0x100.
Definition NFP_HWINFO_VERSION_2 : Z :=
  Z.lor (Z.lor (Z.shiftl 0x48 24) (Z.shiftl 0x49 16)) (Z.shiftl 2 8).
Definition NFP_HWINFO_VERSION_UPDATING : Z := 1.

(** The fields of [struct nfp_hwinfo]; the strings start at [data_off]. *)
Definition hwinfo_version (db : list Z) : Z := le_combine (slice 0 4 db).
Definition hwinfo_size (db : list Z) : Z := le_combine (slice 4 4 db).
Definition data_off : nat := 16.

Definition nfp_hwinfo_is_updating (db : list Z) : bool :=
  negb (Z.land (hwinfo_version db) NFP_HWINFO_VERSION_UPDATING =? 0).

(** [strlen] of the string at [o]: faults if no terminator follows in the buffer. *)
Fixpoint scan_nul (bs : list Z) : option nat :=
  match bs with
  | [] => None
  | b :: bs => if b =? 0 then Some O else S <$> scan_nul bs
  end.

Definition strlen (db : list Z) (o : nat) : option nat := scan_nul (drop o db).

(** [for (key = hwinfo->data; *key && key < end; key = val + strlen(val) + 1)]; each
    turn advances [key], so the length of the buffer is enough fuel. *)
Fixpoint walk_loop (fuel : nat) (db : list Z) (end_ : Z) (key : nat) : option Z :=
  match fuel with
  | O => None
  | S fuel =>
      match db !! key with
      | None => None
      | Some c =>
          if (c =? 0) || negb (Z.of_nat key <? end_) then Some 0
          else
            match strlen db key with
            | None => None
            | Some lk =>
                let val := (key + lk + 1)%nat in
                if Z.of_nat val >=? end_ then Some (- EINVAL)
                else
                  match strlen db val with
                  | None => None
                  | Some lv =>
                      if Z.of_nat (val + lv + 1) >? end_ then Some (- EINVAL)
                      else walk_loop fuel db end_ (val + lv + 1)
                  end
            end
      end
  end.

Definition nfp_hwinfo_db_walk (db : list Z) (size : Z) : option Z :=
  walk_loop (S (length db)) db (Z.of_nat data_off + size) data_off.

(** Reading [n] bytes at [o]. *)
Definition read_at (db : list Z) (o n : Z) : option (list Z) :=
  if (0 <=? o) && (o + n <=? Z.of_nat (length db)) then Some (slice (Z.to_nat o) (Z.to_nat n) db) else None.

Definition nfp_hwinfo_db_validate (db : list Z) (len : Z) : option Z :=
  let size := hwinfo_size db in
  if size >? u32 len then Some (- EINVAL)
  else
    let size := u32 (size - 4) in
    match read_at db 0 size with
    | None => None
    | Some covered =>
        match read_at db size 4 with
        | None => None
        | Some crc =>
            if negb (nfp_crc32_posix covered =? le_combine crc) then Some (- EINVAL)
            else nfp_hwinfo_db_walk db size
        end
    end.

(** The value is the string at the offset returned; [Some None] is null. *)
Fixpoint lookup_loop (fuel : nat) (db : list Z) (end_ : Z) (lookup : list Z) (key : nat)
    : option (option nat) :=
  match fuel with
  | O => None
  | S fuel =>
      match db !! key with
      | None => None
      | Some c =>
          if (c =? 0) || negb (Z.of_nat key <? end_) then Some None
          else
            match strlen db key with
            | None => None
            | Some lk =>
                let val := (key + lk + 1)%nat in
                if bool_decide (slice key lk db = lookup) then Some (Some val)
                else
                  match strlen db val with
                  | None => None
                  | Some lv => lookup_loop fuel db end_ lookup (val + lv + 1)
                  end
            end
      end
  end.

Definition nfp_hwinfo_lookup (db : list Z) (lookup : list Z) : option (option nat) :=
  lookup_loop (S (length db)) db (Z.of_nat data_off + hwinfo_size db - 4) lookup data_off.

(** ** Reading the table *)

(** "nfp.info" *)
Definition NFP_RESOURCE_NFP_HWINFO : list Z := [0x6e; 0x66; 0x70; 0x2e; 0x69; 0x6e; 0x66; 0x6f].

Section Fetch.
Context (model interface errno : Z) (lock_fuel : nat) (calloc : mutex_store -> Z) (malloc_ok : bool).

(** The buffer, a terminator added, and its size. *)
Definition nfp_hwinfo_try_fetch : rprog (option (list Z * Z)) :=
  let+ res := nfp_resource_acquire model interface errno lock_fuel calloc malloc_ok NFP_RESOURCE_NFP_HWINFO in
  match res with
  | None => rret None
  | Some res =>
      let cpp_id := nfp_resource_cpp_id res in
      let cpp_addr := nfp_resource_address res in
      let cpp_size := nfp_resource_size res in
      let+ _ := nfp_resource_release interface res in
      if cpp_size <? HWINFO_SIZE_MIN then rret None
      else if negb malloc_ok then rret None
      else
        let+ r := rlift (read_bytes cpp_id cpp_addr cpp_size) in
        match r with
        | Err _ => rret None
        | Ok db =>
            if nfp_hwinfo_is_updating db then rret None
            else if negb (hwinfo_version db =? NFP_HWINFO_VERSION_2) then rret None
            else rret (Some (db ++ [0], cpp_size))
        end
  end.

(** [for (;;)] with [count++ > 200]: 202 attempts. *)
Fixpoint fetch_loop (fuel : nat) (count : Z) : rprog (option (list Z * Z)) :=
  match fuel with
  | O => rret None
  | S fuel =>
      let+ db := nfp_hwinfo_try_fetch in
      match db with
      | Some db => rret (Some db)
      | None => if count >? 200 then rret None else fetch_loop fuel (count + 1)
      end
  end.

Definition fetch_attempts : nat := 202.
Definition nfp_hwinfo_fetch : rprog (option (list Z * Z)) := fetch_loop fetch_attempts 0.

Definition nfp_hwinfo_read : rprog (option (list Z)) :=
  let+ r := nfp_hwinfo_fetch in
  match r with
  | None => rret None
  | Some (db, hwdb_size) =>
      match nfp_hwinfo_db_validate db hwdb_size with
      | None => fun st => CRet (Crashes, st)
      | Some err => if negb (err =? 0) then rret None else rret (Some db)
      end
  end.
End Fetch.
