(* ===== verification/HwinfoThms.v ===== *)
(** * Properties of the hardware information table

    Building and reading back a table, what a corruption does, and how far the walk
    reads. *)

From S2P Require Export Hwinfo.

Local Open Scope Z_scope.

(** ** Tables *)

Definition is_str (s : list Z) : Prop := Forall (fun b => is_u8 b /\ b <> 0) s.
Definition kv_ok (kv : list Z * list Z) : Prop := is_str kv.1 /\ is_str kv.2 /\ kv.1 <> [].
Definition kv_bytes (kv : list Z * list Z) : list Z := kv.1 ++ 0 :: kv.2 ++ [0].
Definition strings (kvs : list (list Z * list Z)) : list Z := mjoin (kv_bytes <$> kvs).

(** A version 2 table; [term] is what follows the strings. *)
Definition hwinfo_body (limit : Z) (kvs : list (list Z * list Z)) (term : list Z) : list Z :=
  le_split 4 NFP_HWINFO_VERSION_2 ++ le_split 4 (Z.of_nat (20 + length (strings kvs ++ term))) ++
  le_split 4 limit ++ le_split 4 0 ++ strings kvs ++ term.
Definition hwinfo_table (limit : Z) (kvs : list (list Z * list Z)) (term : list Z) : list Z :=
  let body := hwinfo_body limit kvs term in body ++ le_split 4 (nfp_crc32_posix body).

(** The string at an offset. *)
Definition string_at (db : list Z) (o : nat) : option (list Z) :=
  (fun n => slice o n db) <$> strlen db o.

(** The value of the first pair with the key. *)
Definition kv_get (kvs : list (list Z * list Z)) (k : list Z) : option (list Z) :=
  (fun x => x.2.2) <$> list_find (fun kv => kv.1 = k) kvs.

(** Associates appends to the right. *)
Ltac norm_app := repeat first [rewrite <- app_assoc | progress cbn [app]].

Ltac lens := repeat first [rewrite length_app | progress cbn [length]].

(** ** Strings in the buffer *)

Lemma scan_str s post : is_str s -> scan_nul (s ++ 0 :: post) = Some (length s).
Proof.
  induction 1 as [|b s [_ Hb] _ IH]; [done|]. cbn. rewrite (proj2 (Z.eqb_neq b 0)) by done.
  by rewrite IH.
Qed.

Lemma strlen_at pre s post : is_str s -> strlen (pre ++ s ++ 0 :: post) (length pre) = Some (length s).
Proof. intros Hs. unfold strlen. rewrite drop_app_length. by apply scan_str. Qed.

Lemma slice_at {A} (pre s post : list A) : slice (length pre) (length s) (pre ++ s ++ post) = s.
Proof. unfold slice. by rewrite drop_app_length, take_app_length. Qed.

Lemma at_app {A} (pre : list A) x post : (pre ++ x :: post) !! length pre = Some x.
Proof. by rewrite list_lookup_middle. Qed.

(** One pair of the walk. *)
Lemma walk_pair fuel pre kv post end_ : kv_ok kv ->
  Z.of_nat (length pre + length (kv_bytes kv)) <= end_ ->
  walk_loop (S fuel) (pre ++ kv_bytes kv ++ post) end_ (length pre) =
  walk_loop fuel (pre ++ kv_bytes kv ++ post) end_ (length pre + length (kv_bytes kv)).
Proof.
  intros (Hk & Hv & Hne) He. destruct kv as [[|c k] v]; [done|]. unfold kv_bytes in *. cbn [fst snd] in *.
  rewrite length_app in He. cbn [length] in He. rewrite length_app in He. cbn [length] in He.
  cbn [walk_loop]. cbn [app]. rewrite at_app. pose proof Hk as Hk'. inversion Hk' as [|? ? [_ Hc] _]; subst.
  rewrite (proj2 (Z.eqb_neq c 0)), (proj2 (Z.ltb_lt _ _)) by (done || lia). cbn [orb negb].
  assert (pre ++ c :: (k ++ 0 :: v ++ [0]) ++ post = pre ++ (c :: k) ++ 0 :: (v ++ 0 :: post)) as E.
  { norm_app. done. }
  rewrite E, strlen_at by done.
  rewrite Z.geb_leb, (proj2 (Z.leb_gt _ _)) by (lens; lia).
  assert (pre ++ (c :: k) ++ 0 :: v ++ 0 :: post = (pre ++ (c :: k) ++ [0]) ++ v ++ 0 :: post) as E2.
  { norm_app. done. }
  replace (length pre + length (c :: k) + 1)%nat with (length (pre ++ (c :: k) ++ [0]))
    by (lens; lia).
  rewrite E2, strlen_at by done.
  rewrite Z.gtb_ltb, (proj2 (Z.ltb_ge _ _)) by (lens; lia).
  f_equal. lens. lia.
Qed.

Lemma strings_cons kv kvs : strings (kv :: kvs) = kv_bytes kv ++ strings kvs.
Proof. done. Qed.

Lemma walk_strings kvs : forall fuel pre post end_, Forall kv_ok kvs ->
  Z.of_nat (length pre + length (strings kvs)) <= end_ ->
  walk_loop (length kvs + fuel) (pre ++ strings kvs ++ post) end_ (length pre) =
  walk_loop fuel (pre ++ strings kvs ++ post) end_ (length pre + length (strings kvs)).
Proof.
  induction kvs as [|kv kvs IH]; intros fuel pre post end_ Hk He.
  { cbn. by rewrite Nat.add_0_r. }
  apply Forall_cons in Hk as [Hkv Hk]. rewrite strings_cons, length_app in He. rewrite strings_cons.
  cbn [length Nat.add]. rewrite <- app_assoc, walk_pair by (done || lia).
  assert (pre ++ kv_bytes kv ++ strings kvs ++ post = (pre ++ kv_bytes kv) ++ strings kvs ++ post) as ->
    by (by rewrite <- app_assoc).
  rewrite <- length_app, IH by (try done; rewrite length_app; lia).
  f_equal. lens. lia.
Qed.

(** The same for the lookup. *)
Lemma lookup_pair fuel pre kv post end_ k : kv_ok kv ->
  Z.of_nat (length pre) < end_ ->
  lookup_loop (S fuel) (pre ++ kv_bytes kv ++ post) end_ k (length pre) =
  if bool_decide (kv.1 = k) then Some (Some (length pre + length kv.1 + 1)%nat)
  else lookup_loop fuel (pre ++ kv_bytes kv ++ post) end_ k (length pre + length (kv_bytes kv)).
Proof.
  intros (Hk & Hv & Hne) He. destruct kv as [[|c s] v]; [done|]. unfold kv_bytes in *. cbn [fst snd] in *.
  cbn [lookup_loop]. cbn [app]. rewrite at_app. pose proof Hk as Hk'. inversion Hk' as [|? ? [_ Hc] _]; subst.
  rewrite (proj2 (Z.eqb_neq c 0)), (proj2 (Z.ltb_lt _ _)) by done. cbn [orb negb].
  assert (pre ++ c :: (s ++ 0 :: v ++ [0]) ++ post = pre ++ (c :: s) ++ 0 :: (v ++ 0 :: post)) as E.
  { norm_app. done. }
  rewrite E, strlen_at, slice_at by done.
  destruct (bool_decide_reflect (c :: s = k)); [done|].
  assert (pre ++ (c :: s) ++ 0 :: v ++ 0 :: post = (pre ++ (c :: s) ++ [0]) ++ v ++ 0 :: post) as E2.
  { norm_app. done. }
  replace (length pre + length (c :: s) + 1)%nat with (length (pre ++ (c :: s) ++ [0])) by (lens; lia).
  rewrite E2, strlen_at by done. f_equal. lens. lia.
Qed.

Lemma kv_get_cons kv kvs k : kv_get (kv :: kvs) k = if bool_decide (kv.1 = k) then Some kv.2 else kv_get kvs k.
Proof.
  unfold kv_get. cbn [list_find]. destruct (bool_decide_reflect (kv.1 = k)) as [E|E].
  - by rewrite decide_True.
  - rewrite decide_False by done. by destruct (list_find _ kvs) as [[? ?]|].
Qed.

Lemma lookup_strings kvs k : forall fuel pre post end_, Forall kv_ok kvs ->
  Z.of_nat (length pre + length (strings kvs)) <= end_ ->
  let db := pre ++ strings kvs ++ post in
  match kv_get kvs k with
  | Some v => exists o, lookup_loop (length kvs + fuel) db end_ k (length pre) = Some (Some o) /\
                        string_at db o = Some v
  | None => lookup_loop (length kvs + fuel) db end_ k (length pre) =
            lookup_loop fuel db end_ k (length pre + length (strings kvs))
  end.
Proof.
  induction kvs as [|kv kvs IH]; intros fuel pre post end_ Hk He.
  { cbn. by rewrite Nat.add_0_r. }
  apply Forall_cons in Hk as [Hkv Hk]. rewrite strings_cons, length_app in He.
  cbv zeta. rewrite strings_cons, kv_get_cons. cbn [length Nat.add].
  rewrite <- app_assoc, lookup_pair.
  2: done.
  2:{ destruct Hkv as (_ & _ & Hne). destruct kv as [[|? ?] ?]; [done|]. unfold kv_bytes in He.
      cbn in He. lia. }
  destruct (bool_decide_reflect (kv.1 = k)) as [E|E].
  - eexists. split; [done|]. unfold string_at, kv_bytes.
    assert (pre ++ (kv.1 ++ 0 :: kv.2 ++ [0]) ++ strings kvs ++ post =
      (pre ++ kv.1 ++ [0]) ++ kv.2 ++ 0 :: (strings kvs ++ post)) as -> by (norm_app; done).
    replace (length pre + length kv.1 + 1)%nat with (length (pre ++ kv.1 ++ [0])) by (lens; lia).
    rewrite strlen_at by apply Hkv. cbn [fmap option_fmap option_map]. by rewrite slice_at.
  - assert (pre ++ kv_bytes kv ++ strings kvs ++ post = (pre ++ kv_bytes kv) ++ strings kvs ++ post) as ->
      by (by rewrite <- app_assoc).
    rewrite <- length_app. specialize (IH fuel (pre ++ kv_bytes kv) post end_ Hk).
    rewrite length_app in IH. specialize (IH ltac:(lia)). cbv zeta in IH. rewrite <- length_app in IH.
    destruct (kv_get kvs k); [done|]. rewrite IH. f_equal. lens. lia.
Qed.

(** ** Whole tables *)

Definition header (limit : Z) (kvs : list (list Z * list Z)) (term : list Z) : list Z :=
  le_split 4 NFP_HWINFO_VERSION_2 ++ le_split 4 (Z.of_nat (20 + length (strings kvs ++ term))) ++
  le_split 4 limit ++ le_split 4 0.

Lemma header_length limit kvs term : length (header limit kvs term) = data_off.
Proof. unfold header. rewrite !length_app, !le_split_length. done. Qed.

Lemma body_header limit kvs term : hwinfo_body limit kvs term = header limit kvs term ++ strings kvs ++ term.
Proof. unfold hwinfo_body, header. by rewrite <- !app_assoc. Qed.

Lemma table_header limit kvs term rest : hwinfo_table limit kvs term ++ rest =
  header limit kvs term ++ strings kvs ++
  (term ++ le_split 4 (nfp_crc32_posix (hwinfo_body limit kvs term)) ++ rest).
Proof. unfold hwinfo_table. rewrite body_header. by rewrite <- !app_assoc. Qed.

Lemma le_split_4 x : le_split 4 x = [x mod 0x100; x / 0x100 mod 0x100; x / 0x100 / 0x100 mod 0x100;
  x / 0x100 / 0x100 / 0x100 mod 0x100].
Proof. done. Qed.

Lemma header_fields limit kvs term rest :
  hwinfo_version (header limit kvs term ++ rest) = NFP_HWINFO_VERSION_2 /\
  hwinfo_size (header limit kvs term ++ rest) = u32 (Z.of_nat (20 + length (strings kvs ++ term))).
Proof.
  unfold hwinfo_version, hwinfo_size, header. rewrite <- !app_assoc.
  rewrite <- (le_combine_word (Z.of_nat _)). split.
  - reflexivity.
  - reflexivity.
Qed.

Lemma body_length limit kvs term : length (hwinfo_body limit kvs term) = (16 + length (strings kvs ++ term))%nat.
Proof. rewrite body_header, length_app, header_length. done. Qed.

Lemma posix_u32 bs : is_u32 (nfp_crc32_posix bs).
Proof.
  unfold nfp_crc32_posix, nfp_crc32_posix_end.
  assert (is_u32 (posix_end_loop 8 (nfp_crc32_be 0 bs) (Z.of_nat (length bs)))) as H
    by (by apply posix_loop_range, crc_range). words.
Qed.

Lemma le_crc bs : le_combine (le_split 4 (nfp_crc32_posix bs)) = nfp_crc32_posix bs.
Proof. rewrite le_combine_word. apply u32_id, posix_u32. Qed.

Lemma read_at_prefix a b : read_at (a ++ b) 0 (Z.of_nat (length a)) = Some a.
Proof.
  unfold read_at. rewrite length_app. replace (0 + _ <=? _) with true by (symmetry; apply Z.leb_le; lia).
  cbn [Z.leb Z.compare andb]. unfold slice. by rewrite Nat2Z.id, drop_0, take_app_length.
Qed.

Lemma read_at_mid a b c : read_at (a ++ b ++ c) (Z.of_nat (length a)) (Z.of_nat (length b)) = Some b.
Proof.
  unfold read_at. rewrite (proj2 (Z.leb_le 0 _)), (proj2 (Z.leb_le _ _)) by (rewrite ?length_app; lia).
  cbn [andb]. by rewrite !Nat2Z.id, slice_at.
Qed.

(** What validation computes when the size field covers the body and a checksum. *)
Lemma validate_body body crc rest len :
  hwinfo_size (body ++ crc ++ rest) = Z.of_nat (length body + 4) -> length crc = 4%nat ->
  Z.of_nat (length body + 4) < 2 ^ 32 -> Z.of_nat (length body + 4) <= u32 len ->
  nfp_hwinfo_db_validate (body ++ crc ++ rest) len =
  if negb (nfp_crc32_posix body =? le_combine crc) then Some (- EINVAL)
  else nfp_hwinfo_db_walk (body ++ crc ++ rest) (Z.of_nat (length body)).
Proof.
  intros Hs Hc Hlt Hle. unfold nfp_hwinfo_db_validate. rewrite Hs.
  rewrite Z.gtb_ltb, (proj2 (Z.ltb_ge _ _)) by lia.
  replace (u32 (Z.of_nat (length body + 4) - 4)) with (Z.of_nat (length body)) by (rewrite u32_id; words).
  rewrite read_at_prefix. change 4 with (Z.of_nat 4) at 1. rewrite <- Hc at 1. by rewrite read_at_mid.
Qed.

Lemma table_size limit kvs term rest : Z.of_nat (20 + length (strings kvs ++ term)) < 2 ^ 32 ->
  hwinfo_size (hwinfo_table limit kvs term ++ rest) =
  Z.of_nat (length (hwinfo_body limit kvs term) + 4).
Proof.
  intros Hlt. rewrite table_header. rewrite (proj2 (header_fields _ _ _ _)), body_length, u32_id by words.
  f_equal. lia.
Qed.

Lemma validate_table limit kvs term rest len :
  let size := Z.of_nat (20 + length (strings kvs ++ term)) in
  size < 2 ^ 32 -> size <= u32 len ->
  nfp_hwinfo_db_validate (hwinfo_table limit kvs term ++ rest) len =
  nfp_hwinfo_db_walk (hwinfo_table limit kvs term ++ rest) (size - 4).
Proof.
  cbv zeta. intros Hlt Hle. unfold hwinfo_table. rewrite <- app_assoc.
  rewrite validate_body; [|rewrite app_assoc; by apply (table_size _ _ _ rest)|apply le_split_length|..].
  - rewrite le_crc, Z.eqb_refl. cbn [negb]. rewrite body_length.
    replace (Z.of_nat (20 + length (strings kvs ++ term)) - 4)
      with (Z.of_nat (16 + length (strings kvs ++ term))) by lia. reflexivity.
  - rewrite body_length. lia.
  - rewrite body_length. lia.
Qed.

Lemma strings_length kvs : Forall kv_ok kvs -> (length kvs <= length (strings kvs))%nat.
Proof.
  induction 1 as [|[k v] kvs (_ & _ & Hk) _ IH]; [done|]. rewrite strings_cons, length_app. unfold kv_bytes.
  cbn. lens. lia.
Qed.

(** A table built from key and value strings, a terminator after them,
    validates, and looking a key up in it gives the value of the first pair with that
    key, or null if there is none; none of the reads leaves the buffer. *)
Lemma hwinfo_roundtrip limit kvs term rest len k :
  Forall kv_ok kvs ->
  let size := Z.of_nat (20 + length (strings kvs ++ 0 :: term)) in
  size < 2 ^ 32 -> size <= u32 len ->
  let db := hwinfo_table limit kvs (0 :: term) ++ rest in
  nfp_hwinfo_db_validate db len = Some 0 /\
  match kv_get kvs k with
  | Some v => exists o, nfp_hwinfo_lookup db k = Some (Some o) /\ string_at db o = Some v
  | None => nfp_hwinfo_lookup db k = Some None
  end.
Proof.
  cbv zeta. intros Hk Hlt Hle. rewrite validate_table by done.
  pose proof (table_size limit kvs (0 :: term) rest Hlt) as Hsz. rewrite body_length in Hsz.
  set (tail := (0 :: term) ++ le_split 4 (nfp_crc32_posix (hwinfo_body limit kvs (0 :: term))) ++ rest).
  pose proof (table_header limit kvs (0 :: term) rest) as Et. fold tail in Et.
  pose proof (strings_length kvs Hk) as Hl.
  assert (exists f, S (length (hwinfo_table limit kvs (0%Z :: term) ++ rest)) = (length kvs + S f)%nat) as (f & Ef).
  { assert (length kvs <= length (hwinfo_table limit kvs (0%Z :: term) ++ rest))%nat
      by (rewrite Et, !length_app; lia).
    exists (length (hwinfo_table limit kvs (0%Z :: term) ++ rest) - length kvs)%nat. lia. }
  assert (Z.of_nat (length (header limit kvs (0 :: term)) + length (strings kvs)) <=
          Z.of_nat data_off + (Z.of_nat (20 + length (strings kvs ++ 0 :: term)) - 4)) as Hend.
  { rewrite header_length, length_app. unfold data_off. lia. }
  assert ((header limit kvs (0 :: term) ++ strings kvs ++ tail) !! (data_off + length (strings kvs))%nat = Some 0) as Hz.
  { rewrite <- (header_length limit kvs (0 :: term)), <- length_app, app_assoc. unfold tail. cbn [app]. apply at_app. }
  split.
  - unfold nfp_hwinfo_db_walk. rewrite Ef, Et.
    pose proof (walk_strings kvs (S f) (header limit kvs (0 :: term)) tail _ Hk Hend) as W.
    rewrite header_length in W. rewrite W. cbn [walk_loop]. by rewrite Hz.
  - unfold nfp_hwinfo_lookup. rewrite Hsz, Ef, Et.
    replace (Z.of_nat data_off + Z.of_nat (16 + length (strings kvs ++ 0 :: term) + 4) - 4)
      with (Z.of_nat data_off + (Z.of_nat (20 + length (strings kvs ++ 0 :: term)) - 4)) by lia.
    pose proof (lookup_strings kvs k (S f) (header limit kvs (0 :: term)) tail _ Hk Hend) as W.
    cbv zeta in W. rewrite header_length in W.
    destruct (kv_get kvs k); [exact W|]. rewrite W. cbn [lookup_loop]. by rewrite Hz.
Qed.

(** ** What validation rejects, and how far it reads *)

Lemma slice_app_left {A} o n (a b : list A) : (o + n <= length a)%nat -> slice o n (a ++ b) = slice o n a.
Proof.
  intros H. unfold slice. rewrite drop_app_le by lia. rewrite take_app_le; [done|]. rewrite length_drop. lia.
Qed.

(** A valid table (any body, of the length its size field says, and the
    body's checksum) is rejected once a burst of at most 32 bits has changed it anywhere
    but in its size field. *)
Lemma hwinfo_detects_bursts body body' rest len e k :
  bytes_ok body -> bytes_ok body' -> length body' = length body -> (8 <= length body)%nat ->
  slice 4 4 body' = slice 4 4 body -> le_combine (slice 4 4 body) = Z.of_nat (length body + 4) ->
  Z.of_nat (length body + 4) < 2 ^ 32 -> Z.of_nat (length body + 4) <= u32 len ->
  0 <= k -> 0 < e < 2 ^ 32 -> Z.lxor (be_combine body) (be_combine body') = e * 2 ^ k ->
  nfp_hwinfo_db_validate (body' ++ le_split 4 (nfp_crc32_posix body) ++ rest) len = Some (- EINVAL).
Proof.
  intros Hb Hb' Hl H8 Hs Hsz Hlt Hle Hk He Hx.
  rewrite validate_body; [|..|apply le_split_length|by rewrite Hl|by rewrite Hl].
  - rewrite le_crc. assert (nfp_crc32_posix body <> nfp_crc32_posix body') as N
      by (apply (crc32_detects_bursts body body' e k); try done; lia).
    rewrite (proj2 (Z.eqb_neq _ _)) by congruence. done.
  - unfold hwinfo_size. rewrite slice_app_left, Hs, Hsz, Hl by lia. done.
Qed.

(** The walk runs past the table: when the strings are not followed by a
    terminator, which the documented format does not ask for, and no byte of the checksum
    is zero, the loop takes the checksum for a key and, the end it stops at being 16 bytes
    too far, reads beyond a buffer that holds exactly the table and the terminator the
    code adds; with more fuel it still does. *)
Lemma hwinfo_walk_overreads limit kvs fuel :
  Forall kv_ok kvs ->
  let body := hwinfo_body limit kvs [] in
  let db := hwinfo_table limit kvs [] ++ [0] in
  let size := Z.of_nat (length body + 4) in
  size < 2 ^ 32 -> Forall (fun b => b <> 0) (le_split 4 (nfp_crc32_posix body)) ->
  length db = S (Z.to_nat size) /\
  nfp_hwinfo_db_validate db size = None /\
  walk_loop (S (length db) + fuel) db (Z.of_nat data_off + (size - 4)) data_off = None.
Proof.
  cbv zeta. intros Hk Hlt Hnz. rewrite body_length in Hlt.
  assert (length (hwinfo_table limit kvs [] ++ [0]) = S (length (hwinfo_body limit kvs []) + 4)) as Hlen.
  { unfold hwinfo_table. rewrite !length_app, le_split_length. cbn. lia. }
  split; [rewrite Hlen; lia|].
  pose proof (table_header limit kvs [] [0]) as Et. set (crc := le_split 4 _) in Hnz, Et.
  cbn [app] in Et. pose proof (strings_length kvs Hk) as Hl. rewrite body_length, app_nil_r in *.
  assert (forall f, walk_loop (length kvs + S f) (hwinfo_table limit kvs [] ++ [0])
    (Z.of_nat data_off + (Z.of_nat (16 + length (strings kvs) + 4) - 4)) data_off = None) as W.
  { intros f. rewrite Et.
    pose proof (walk_strings kvs (S f) (header limit kvs []) (crc ++ [0])
      (Z.of_nat data_off + (Z.of_nat (16 + length (strings kvs) + 4) - 4)) Hk) as W.
    rewrite header_length in W. rewrite W by (unfold data_off; lia).
    assert (header limit kvs [] ++ strings kvs ++ crc ++ [0] = (header limit kvs [] ++ strings kvs) ++ crc ++ [0]) as ->
      by (by rewrite <- app_assoc).
    rewrite <- (header_length limit kvs []) at 2. rewrite <- length_app.
    set (pre := header limit kvs [] ++ strings kvs).
    assert (length pre = (16 + length (strings kvs))%nat) as Hp by (unfold pre; by rewrite length_app, header_length).
    assert (is_str crc) as Hcrc.
    { apply Forall_and. split; [|done]. apply le_split_ok. }
    cbn [walk_loop].
    assert (exists c0, (pre ++ crc ++ [0]) !! length pre = Some c0 /\ c0 <> 0) as (c0 & -> & Hc0).
    { subst crc. rewrite le_split_4 in *. eexists. split; [apply at_app|]. by apply Forall_cons in Hnz as [? _]. }
    rewrite (proj2 (Z.eqb_neq c0 0)), (proj2 (Z.ltb_lt _ _)) by (done || (rewrite Hp; unfold data_off; lia)).
    cbn [orb negb]. rewrite strlen_at by done.
    assert (length crc = 4%nat) as Hc4 by (apply le_split_length). rewrite Hc4.
    rewrite Z.geb_leb, (proj2 (Z.leb_gt _ _)) by (rewrite Hp; unfold data_off; lia).
    unfold strlen at 1. rewrite drop_ge; [done|]. rewrite !length_app, Hc4. cbn. lia. }
  split.
  - rewrite validate_table by (rewrite ?app_nil_r, ?u32_id; words).
    unfold nfp_hwinfo_db_walk. rewrite app_nil_r, Hlen.
    replace (S (S (16 + length (strings kvs) + 4))) with (length kvs + S (21 + length (strings kvs) - length kvs))%nat by lia.
    replace (Z.of_nat (20 + length (strings kvs)) - 4) with (Z.of_nat (16 + length (strings kvs) + 4) - 4) by lia.
    apply W.
  - rewrite Hlen.
    replace (S (S (16 + length (strings kvs) + 4)) + fuel)%nat
      with (length kvs + S (21 + length (strings kvs) - length kvs + fuel))%nat by lia.
    apply W.
Qed.

(** "me.count" is "40", "nbi.mac" is empty. *)
Definition ex_kvs : list (list Z * list Z) :=
  [([0x6d; 0x65; 0x2e; 0x63; 0x6f; 0x75; 0x6e; 0x74], [0x34; 0x30]); ([0x6e; 0x62; 0x69], [])].

Lemma ex_kvs_ok : Forall kv_ok ex_kvs.
Proof. repeat constructor; cbn; done. Qed.

Lemma hwinfo_roundtrip_witness :
  let db := hwinfo_table 0x1000 ex_kvs [0] ++ [0] in
  nfp_hwinfo_db_validate db 64 = Some 0 /\
  exists o, nfp_hwinfo_lookup db [0x6d; 0x65; 0x2e; 0x63; 0x6f; 0x75; 0x6e; 0x74] = Some (Some o) /\
    string_at db o = Some [0x34; 0x30].
Proof.
  apply (hwinfo_roundtrip 0x1000 ex_kvs [] [0] 64 [0x6d; 0x65; 0x2e; 0x63; 0x6f; 0x75; 0x6e; 0x74] ex_kvs_ok);
    [by vm_compute|by vm_compute].
Defined.


(** A bit of the "o" of the first key flipped. *)
Lemma hwinfo_detects_bursts_witness :
  let body := hwinfo_body 0x1000 ex_kvs [0] in
  let body' := take 20 body ++ [0x6e] ++ drop 21 body in
  nfp_hwinfo_db_validate (body' ++ le_split 4 (nfp_crc32_posix body) ++ [0]) 64 = Some (- EINVAL).
Proof.
  cbv zeta.
  apply (hwinfo_detects_bursts (hwinfo_body 0x1000 ex_kvs [0])
    (take 20 (hwinfo_body 0x1000 ex_kvs [0]) ++ [0x6e] ++ drop 21 (hwinfo_body 0x1000 ex_kvs [0])) [0] 64
    1 (8 * 13)); try (vm_compute; reflexivity); try lia.
  - vm_compute. by repeat constructor.
  - vm_compute. by repeat constructor.
  - vm_compute. lia.
  - vm_compute. congruence.
Defined.

Lemma hwinfo_walk_overreads_witness :
  nfp_hwinfo_db_validate (hwinfo_table 0x1000 ex_kvs [] ++ [0]) 37 = None.
Proof.
  refine (proj1 (proj2 (hwinfo_walk_overreads 0x1000 ex_kvs 0 ex_kvs_ok _ _))).
  - vm_compute. reflexivity.
  - vm_compute. by repeat constructor.
Defined.

(** ** Reading the table of a device *)

Lemma word_bytes_ext f g a k : (forall b, a <= b < a + 4 * Z.of_nat k -> f b = g b) ->
  word_bytes f a k = word_bytes g a k.
Proof.
  intros H. unfold word_bytes. f_equal. apply list_fmap_ext. intros i x Hi.
  apply lookup_seq in Hi as [-> Hi]. cbn. by rewrite H by lia.
Qed.

Lemma word_bytes_length f a k : length (word_bytes f a k) = (4 * k)%nat.
Proof.
  unfold word_bytes. assert (forall i, length (mjoin ((fun i => le_split 4 (f (a + 4 * Z.of_nat i))) <$> seq i k)) = (4 * k)%nat) as H;
    [|apply H].
  induction k as [|k IH]; intros i; [done|].
  cbn [seq]. rewrite fmap_cons. change (mjoin (?x :: ?l)) with (x ++ mjoin l).
  rewrite length_app, le_split_length, IH. lia.
Qed.

Section Read.
Context {S : Type} `{Mu : MuTable S}.
Context (model interface errno : Z) (lock_fuel : nat) (calloc : mutex_store -> Z).

(** Acquiring and releasing a free resource leaves both locks free. *)
Lemma acquire_release st c (s : S) name j : ready model interface calloc st c s name j ->
  entry_free interface s j = true ->
  exists p st1 s1 st2 s2,
    let res := entry_region (mu_word s) j (pad_to 8 name ++ [0]) p in
    crun (nfp_resource_acquire model interface errno (Datatypes.S lock_fuel) calloc true name st) s =
      ((Returns (Some res), st1), s1) /\
    crun (nfp_resource_release interface res st1) s1 = ((Returns tt, st2), s2) /\
    locks j 0 0 s s2 /\ holds st2 c /\ locks j 0 (MUTEX_LOCKED interface) s s1.
Proof using Mu.
  intros Hr Hf. pose proof Hr as [].
  destruct (acquire_run model interface errno lock_fuel calloc st c s name j Hr (or_introl Hf))
    as (p & st1 & s1 & E1 & L1 & Hp & Hh1). rewrite Hf in E1, L1, Hh1. cbn [app] in Hh1.
  destruct (entry_lock_addr j ready_entry) as (_ & Hne & Hge). destruct L1 as (D1 & W1 & O1).
  destruct (release_run interface st1 c s1 p j (resource_key name) (pad_to 8 name ++ [0]) ready_interface
    ready_entry Hh1 Hp) with (f := mu_word s) as (st2 & s2 & E2 & [W2 O2] & Hh2).
  { rewrite O1 by lia. done. }
  { done. }
  exists p, st1, s1, st2, s2. cbv zeta. split.
  - unfold nfp_resource_acquire. by rewrite rrun_bind, E1.
  - split; [done|]. split; [|done]. split; [by rewrite O2 by done|]. split; [done|].
    intros b Hb1 Hb2. rewrite O2, O1 by done. done.
Qed.

(** C31 (functional): [nfp_hwinfo_read] on a device whose table of resources has a free
    "nfp.info" entry for a region of the memory unit that holds a table of key and value
    strings (with a terminator): it returns a buffer in which every key looks up to the
    first value stored for it; the entry and the device lock are left free, the rest of
    the memory and the cache of handles as they were. *)
Theorem hwinfo_read_lookup st c (s : S) j limit kvs term rest :
  ready model interface calloc st c s NFP_RESOURCE_NFP_HWINFO j -> entry_free interface s j = true ->
  let addr := u32 (mu_word s (entry_addr j + 24)) * 256 in
  let size := u32 (mu_word s (entry_addr j + 28)) * 256 in
  entry_cpp_id (mu_word s) j = MU_READ ->
  NFP_RESOURCE_TBL_BASE + NFP_RESOURCE_TBL_SIZE <= addr \/ addr + size <= NFP_RESOURCE_TBL_BASE ->
  word_bytes (mu_word s) addr (Z.to_nat (size / 4)) = hwinfo_table limit kvs (0 :: term) ++ rest ->
  Forall kv_ok kvs -> size < 2 ^ 32 -> HWINFO_SIZE_MIN <= size ->
  exists db st' s',
    crun (nfp_hwinfo_read model interface errno (Datatypes.S lock_fuel) calloc true st) s =
      ((Returns (Some db), st'), s') /\ locks j 0 0 s s' /\ holds st' c /\
    forall k, match kv_get kvs k with
              | Some v => exists o, nfp_hwinfo_lookup db k = Some (Some o) /\ string_at db o = Some v
              | None => nfp_hwinfo_lookup db k = Some None
              end.
Proof using Mu.
  cbv zeta. intros Hr Hf Hid Hdis Hdata Hk Hlt Hmin. pose proof Hr as [].
  destruct (acquire_release st c s _ j Hr Hf) as (p & st1 & s1 & st2 & s2 & E1 & E2 & L & Hh & _).
  set (addr := u32 (mu_word s (entry_addr j + 24)) * 256) in *.
  set (size := u32 (mu_word s (entry_addr j + 28)) * 256) in *.
  assert (0 <= size /\ size mod 4 = 0) as [Hs0 Hs4].
  { unfold size. pose proof (u32_range (mu_word s (entry_addr j + 28))) as [? _]. clear - H1. lia. }
  assert (word_bytes (mu_word s2) addr (Z.to_nat (size / 4)) = hwinfo_table limit kvs (0 :: term) ++ rest) as Hd2.
  { rewrite <- Hdata. apply word_bytes_ext. intros b Hb. apply L.
    - unfold NFP_RESOURCE_TBL_SIZE in *. words.
    - unfold NFP_RESOURCE_TBL_SIZE, entry_addr, sizeof_entry in *. words. }
  assert (length (hwinfo_table limit kvs (0%Z :: term) ++ rest) = Z.to_nat size) as Hlen.
  { rewrite <- Hdata, word_bytes_length. lia. }
  assert (Z.of_nat (20 + length (strings kvs ++ 0 :: term)) <= size) as Hsz.
  { unfold hwinfo_table in Hlen. rewrite !length_app, le_split_length, body_length in Hlen. words. }
  destruct (header_fields limit kvs (0 :: term) (strings kvs ++ ((0 :: term) ++
    le_split 4 (nfp_crc32_posix (hwinfo_body limit kvs (0 :: term))) ++ rest))) as [Hv _].
  rewrite <- table_header in Hv.
  assert (exists st' s', crun (nfp_hwinfo_fetch model interface errno (Datatypes.S lock_fuel) calloc true st) s =
    ((Returns (Some (hwinfo_table limit kvs (0 :: term) ++ rest ++ [0], size)), st'), s') /\
    st' = st2 /\ s' = s2) as (st' & s' & Ef & -> & ->).
  { exists st2, s2. split; [|split; reflexivity]. unfold nfp_hwinfo_fetch. change fetch_attempts with (Datatypes.S 201).
    generalize 201%nat as more. intros more. cbn [fetch_loop]. rewrite rrun_bind.
    unfold nfp_hwinfo_try_fetch. rewrite rrun_bind, E1, rrun_bind.
    change (nfp_resource_size (entry_region _ _ _ _)) with size.
    change (nfp_resource_address (entry_region _ _ _ _)) with addr.
    change (nfp_resource_cpp_id (entry_region ?f ?j _ _)) with (entry_cpp_id f j).
    rewrite E2, (proj2 (Z.ltb_ge _ _)), Hid by done. cbn [negb]. rewrite rrun_bind.
    unfold rlift, read_bytes. cbn [cbind crun]. rewrite mu_read_block, Hd2. cbn [crun].
    unfold nfp_hwinfo_is_updating. rewrite Hv. change (negb (Z.land _ _ =? 0)) with false at 1. cbv iota.
    rewrite Z.eqb_refl. cbn [negb]. rewrite !rrun_ret, <- app_assoc. done. }
  exists (hwinfo_table limit kvs (0 :: term) ++ rest ++ [0]), st2, s2.
  assert (Z.of_nat (20 + length (strings kvs ++ 0 :: term)) < 2 ^ 32) as Hlt' by lia.
  assert (Z.of_nat (20 + length (strings kvs ++ 0 :: term)) <= u32 size) as Hle by (rewrite u32_id by (split; lia); done).
  split; [|split; [done|]; split; [done|]].
  - unfold nfp_hwinfo_read. rewrite rrun_bind, Ef.
    rewrite (proj1 (hwinfo_roundtrip limit kvs term (rest ++ [0]) size [] Hk Hlt' Hle)). done.
  - intros k. apply (hwinfo_roundtrip limit kvs term (rest ++ [0]) size k Hk Hlt' Hle).
Qed.
End Read.

(** A device with the table of [ex_kvs] in a 256-byte region at 0x2000. *)
Definition ex_rest : list Z := replicate (256 - length (hwinfo_table 0x1000 ex_kvs [0])) 0.
Definition ex_image : list Z := hwinfo_table 0x1000 ex_kvs [0] ++ ex_rest.
Definition ex_hw : words32 :=
  let key := nfp_crc32_posix nfp_info in
  fun a => if a =? 0x8100000024 then key else if a =? 0x8100000034 then 0x07000300
           else if a =? 0x8100000038 then 0x20 else if a =? 0x810000003c then 1
           else if (0x2000 <=? a) && (a <? 0x2100) then le_combine (slice (Z.to_nat (a - 0x2000)) 4 ex_image)
           else 0.

Lemma ex_hw_ready : ready 0x60000010 0x1001 fresh_handle (mkStore ∅ 0) [] ex_hw NFP_RESOURCE_NFP_HWINFO 1.
Proof.
  split.
  - by vm_compute.
  - split; done.
  - by vm_compute.
  - apply fresh_handle_ok.
  - split; [split; [constructor|reflexivity]|]. intros p d Hin. by apply elem_of_nil in Hin.
  - intros e He. by apply elem_of_nil in He.
  - by vm_compute.
  - by vm_compute.
  - lia.
  - by vm_compute.
  - intros k Hk. replace k with 0 by lia. by vm_compute.
Qed.

Lemma hwinfo_read_lookup_witness : exists db st' s' o,
  crun (nfp_hwinfo_read 0x60000010 0x1001 0 1 fresh_handle true (mkStore ∅ 0)) ex_hw = ((Returns (Some db), st'), s') /\
  nfp_hwinfo_lookup db [0x6d; 0x65; 0x2e; 0x63; 0x6f; 0x75; 0x6e; 0x74] = Some (Some o) /\
  string_at db o = Some [0x34; 0x30].
Proof.
  destruct (hwinfo_read_lookup (S := words32) 0x60000010 0x1001 0 0 fresh_handle (mkStore ∅ 0) [] ex_hw 1 0x1000
    ex_kvs [] ex_rest ex_hw_ready) as (db & st' & s' & E & _ & _ & H).
  - by vm_compute.
  - by vm_compute.
  - right. by vm_compute.
  - by vm_compute.
  - exact ex_kvs_ok.
  - by vm_compute.
  - by vm_compute.
  - specialize (H [0x6d; 0x65; 0x2e; 0x63; 0x6f; 0x75; 0x6e; 0x74]).
    destruct H as (o & H1 & H2). exists db, st', s', o. split; [exact E|]. split; [exact H1|exact H2].
Defined.
