(* ===== verification/Fwinfo.v ===== *)
(** * Firmware information ([nfp_nffw.c], [nfp_mip.c])

    The table of loaded firmware in the "nfp.nffw" resource, the location of the
    first firmware's MIP, and the MIP itself. *)

From S2P Require Export HwinfoThms.

Local Open Scope Z_scope.
Local Open Scope cprog_scope.
Local Open Scope rprog_scope.

(** ** The table of firmware *)

Definition NFFW_INFO_VERSION_CURRENT : Z := 2.
Definition NFFW_FWINFO_CNT_V1 : nat := 120.
Definition NFFW_FWINFO_CNT_V2 : nat := 200.
(** "nfp.nffw" *)
Definition NFP_RESOURCE_NFP_NFFW : list Z := [0x6e; 0x66; 0x70; 0x2e; 0x6e; 0x66; 0x66; 0x77].

(** [struct nfp_nffw_info_data]: two flag words and the larger of the two layouts. *)
Definition sizeof_fwinf : Z := 8 + 200 * 4 + 200 * 12.
Definition word_at (bs : list Z) (o : nat) : Z := le_combine (slice o 4 bs).

Definition nffw_res_info_version_get (res : list Z) : Z := Z.land (Z.shiftr (word_at res 0) 16) 0xfff.
Definition nffw_res_flg_init_get (res : list Z) : Z := Z.land (Z.shiftr (word_at res 0) 0) 1.

Record nffw_fwinfo := mkFwinfo {
  loaded__mu_da__mip_off_hi : Z;
  mip_cppid : Z;
  mip_offset_lo : Z }.

Definition nffw_fwinfo_loaded_get (fi : nffw_fwinfo) : Z :=
  Z.land (Z.shiftr (loaded__mu_da__mip_off_hi fi) 31) 1.
Definition nffw_fwinfo_mip_cppid_get (fi : nffw_fwinfo) : Z := mip_cppid fi.
Definition nffw_fwinfo_mip_mu_da_get (fi : nffw_fwinfo) : Z :=
  Z.land (Z.shiftr (loaded__mu_da__mip_off_hi fi) 8) 1.
Definition nffw_fwinfo_mip_offset_get (fi : nffw_fwinfo) : Z :=
  let mip_off_hi := loaded__mu_da__mip_off_hi fi in
  Z.lor (Z.shiftl (Z.land mip_off_hi 0xff) 32) (mip_offset_lo fi).

Definition fwinfo_at (res : list Z) (o : nat) : nffw_fwinfo :=
  mkFwinfo (word_at res o) (word_at res (o + 4)) (word_at res (o + 8)).

(** The array of entries: their number and where the first one is. *)
Definition nffw_res_fwinfos (fwinf : list Z) : nat * nat :=
  match nffw_res_info_version_get fwinf with
  | 0 | 1 => (NFFW_FWINFO_CNT_V1, (8 + 120 * 4)%nat)
  | 2 => (NFFW_FWINFO_CNT_V2, (8 + 200 * 4)%nat)
  | _ => (0%nat, 0%nat)
  end.

Record nfp_nffw_info := mkNffw {
  ni_res : nfp_resource;
  ni_fwinf : list Z }.

Fixpoint fwid_loop (n o : nat) (res : list Z) : option nffw_fwinfo :=
  match n with
  | O => None
  | S n =>
      let fi := fwinfo_at res o in
      if negb (nffw_fwinfo_loaded_get fi =? 0) then Some fi else fwid_loop n (o + 12) res
  end.

Definition nfp_nffw_info_fwid_first (state : nfp_nffw_info) : option nffw_fwinfo :=
  let '(cnt, o) := nffw_res_fwinfos (ni_fwinf state) in
  fwid_loop cnt o (ni_fwinf state).

Definition NFP_IMB_TGTADDRESSMODECFG_MODE_of (x : Z) : Z := Z.land (Z.shiftr x 13) 0x7.
Definition NFP_IMB_TGTADDRESSMODECFG_ADDRMODE : Z := Z.shiftl 1 12.
Definition NFP_MU_ADDR_ACCESS_TYPE_MASK : Z := 3.
Definition NFP_MU_ADDR_ACCESS_TYPE_DIRECT : Z := 2.

Section Nffw.
Context (model interface errno : Z) (lock_fuel : nat) (calloc : mutex_store -> Z) (malloc_ok : bool).

(** An XPB read of the handle with this model and interface. *)
Definition xpb_readl (xpb_addr : Z) : cprog (cres Z) :=
  let '(cpp_dest, xpb_addr) := xpb_to_cpp model interface xpb_addr in readl cpp_dest xpb_addr.

Definition nfp_mip_mu_locality_lsb : cprog (cres Z) :=
  let xpbaddr := 0x000a0000 + NFP6000_CPPTGT_MU * 4 in
  let* r := xpb_readl xpbaddr in
  match r with
  | Err e => CRet (Err e)
  | Ok imbcppat =>
      let mode := NFP_IMB_TGTADDRESSMODECFG_MODE_of imbcppat in
      let addr40 := negb (Z.land imbcppat NFP_IMB_TGTADDRESSMODECFG_ADDRMODE =? 0) in
      CRet (nfp_cppat_mu_locality_lsb mode addr40)
  end.

Definition nfp_nffw_info_open : rprog (option nfp_nffw_info) :=
  if negb malloc_ok then rret None
  else
    let+ res := nfp_resource_acquire model interface errno lock_fuel calloc malloc_ok NFP_RESOURCE_NFP_NFFW in
    match res with
    | None => rret None
    | Some res =>
        let err_release := let+ _ := nfp_resource_release interface res in rret None in
        if sizeof_fwinf >? nfp_resource_size res then err_release
        else
          let+ r := rlift (read_bytes (nfp_resource_cpp_id res) (nfp_resource_address res) sizeof_fwinf) in
          match r with
          | Err _ => err_release
          | Ok fwinf =>
              if nffw_res_flg_init_get fwinf =? 0 then err_release
              else if nffw_res_info_version_get fwinf >? NFFW_INFO_VERSION_CURRENT then err_release
              else rret (Some (mkNffw res fwinf))
          end
    end.

Definition nfp_nffw_info_close (state : nfp_nffw_info) : rprog unit :=
  nfp_resource_release interface (ni_res state).

(** The identifier and the address of the first firmware's MIP. *)
Definition nfp_nffw_info_mip_first (state : nfp_nffw_info) : cprog (cres (Z * Z)) :=
  match nfp_nffw_info_fwid_first state with
  | None => CRet (Err (NegErr EINVAL))
  | Some fwinfo =>
      let cpp_id := nffw_fwinfo_mip_cppid_get fwinfo in
      let off := nffw_fwinfo_mip_offset_get fwinfo in
      if negb (nffw_fwinfo_mip_mu_da_get fwinfo =? 0) then
        if negb (NFP_CPP_ID_TARGET_of cpp_id =? NFP6000_CPPTGT_MU) then CRet (Ok (cpp_id, off))
        else
          let* r := nfp_mip_mu_locality_lsb in
          match r with
          | Err e => CRet (Err e)
          | Ok locality_off =>
              let off := Z.land off (Z.lnot (u64 (Z.shiftl NFP_MU_ADDR_ACCESS_TYPE_MASK locality_off))) in
              let off := Z.lor off (u64 (Z.shiftl NFP_MU_ADDR_ACCESS_TYPE_DIRECT locality_off)) in
              CRet (Ok (cpp_id, off))
          end
      else CRet (Ok (cpp_id, off))
  end.

(** ** The MIP *)

Definition NFP_MIP_SIGNATURE : Z := 0x0050494d.
Definition NFP_MIP_VERSION : Z := 1.
Definition sizeof_mip : Z := 96.

Record nfp_mip := mkMip {
  mip_signature : Z;
  mip_mip_version : Z;
  mip_symtab_addr : Z;
  mip_symtab_size : Z;
  mip_strtab_addr : Z;
  mip_strtab_size : Z;
  mip_name : list Z }.

Definition mip_of_bytes (bs : list Z) : nfp_mip :=
  mkMip (word_at bs 0) (word_at bs 4) (word_at bs 32) (word_at bs 36) (word_at bs 40) (word_at bs 44)
    (slice 48 16 bs).

Definition nfp_mip_try_read (cpp_id addr : Z) : cprog (cres nfp_mip) :=
  let* r := read_bytes cpp_id addr sizeof_mip in
  match r with
  | Err _ => CRet (Err (NegErr EIO))
  | Ok bs =>
      let mip := mip_of_bytes bs in
      if negb (mip_signature mip =? NFP_MIP_SIGNATURE) then CRet (Err (NegErr EINVAL))
      else if negb (mip_mip_version mip =? NFP_MIP_VERSION) then CRet (Err (NegErr EINVAL))
      else CRet (Ok mip)
  end.

Definition nfp_mip_read_resource : rprog (cres nfp_mip) :=
  let+ nffw_info := nfp_nffw_info_open in
  match nffw_info with
  | None => rret (Err (NegErr ENODEV))
  | Some nffw_info =>
      let+ r := rlift (nfp_nffw_info_mip_first nffw_info) in
      match r with
      | Err e => let+ _ := nfp_nffw_info_close nffw_info in rret (Err e)
      | Ok (cpp_id, addr) =>
          let+ r := rlift (nfp_mip_try_read cpp_id addr) in
          let+ _ := nfp_nffw_info_close nffw_info in
          rret r
      end
  end.

Definition nfp_mip_open : rprog (option nfp_mip) :=
  if negb malloc_ok then rret None
  else
    let+ r := nfp_mip_read_resource in
    match r with
    | Err _ => rret None
    | Ok mip =>
        rret (Some (mkMip (mip_signature mip) (mip_mip_version mip) (mip_symtab_addr mip) (mip_symtab_size mip)
                      (mip_strtab_addr mip) (mip_strtab_size mip) (<[15%nat := 0]> (mip_name mip))))
    end.
End Nffw.

(** [nfp_mip_symtab] and [nfp_mip_strtab]: address and size. *)
Definition nfp_mip_symtab (mip : nfp_mip) : Z * Z := (mip_symtab_addr mip, mip_symtab_size mip).
Definition nfp_mip_strtab (mip : nfp_mip) : Z * Z := (mip_strtab_addr mip, mip_strtab_size mip).
