(* ===== verification/FwinfoThms.v ===== *)
(** * Finding the firmware's MIP

    On a device whose "nfp.nffw" table names a firmware, [nfp_mip_open] returns that
    firmware's MIP and leaves the locks as they were. *)

From S2P Require Export Fwinfo.

Local Open Scope Z_scope.
Local Open Scope rprog_scope.

(** The first loaded entry. *)
Lemma fwid_first n o res i : (i < n)%nat ->
  nffw_fwinfo_loaded_get (fwinfo_at res (o + 12 * i)) <> 0 ->
  (forall k, (k < i)%nat -> nffw_fwinfo_loaded_get (fwinfo_at res (o + 12 * k)) = 0) ->
  fwid_loop n o res = Some (fwinfo_at res (o + 12 * i)).
Proof.
  revert o i. induction n as [|n IH]; intros o i Hi Hl Hf; [lia|]. cbn [fwid_loop].
  destruct i as [|i].
  - replace (o + 12 * 0)%nat with o in * by lia. by rewrite (proj2 (Z.eqb_neq _ _)).
  - pose proof (Hf 0%nat ltac:(lia)) as H0. replace (o + 12 * 0)%nat with o in H0 by lia. rewrite H0.
    cbn [Z.eqb negb]. replace (o + 12 * S i)%nat with (o + 12 + 12 * i)%nat in * by lia.
    apply IH; [lia|done|]. intros k Hk. replace (o + 12 + 12 * k)%nat with (o + 12 * S k)%nat by lia.
    apply Hf. lia.
Qed.

(** Forcing direct access replaces the locality field. *)
Lemma direct_address off lsb : lsb = 38 \/ lsb = 30 ->
  Z.lor (Z.land off (Z.lnot (u64 (Z.shiftl NFP_MU_ADDR_ACCESS_TYPE_MASK lsb))))
        (u64 (Z.shiftl NFP_MU_ADDR_ACCESS_TYPE_DIRECT lsb)) = set_field off lsb 2 2.
Proof.
  intros Hl. unfold set_field, field_mask. rewrite !u64_id by (destruct Hl as [->| ->]; split; by vm_compute).
  by destruct Hl as [->| ->].
Qed.

(** Where the MIP of an entry is: its offset, or with direct access forced for a memory
    unit in the mode the island's configuration word [imb] says. *)
Definition mip_location (fi : nffw_fwinfo) (imb : Z) : Z :=
  let off := nffw_fwinfo_mip_offset_get fi in
  if nffw_fwinfo_mip_mu_da_get fi =? 0 then off
  else set_field off (if negb (Z.land imb NFP_IMB_TGTADDRESSMODECFG_ADDRMODE =? 0) then 38 else 30) 2 2.

(** The address of the island's configuration word for the memory unit. *)
Definition IMB_MU : Z := 0x000a001c.

Section Mip.
Context {S : Type} `{Mu : MuTable S}.
Context (model interface errno : Z) (lock_fuel : nat) (calloc : mutex_store -> Z).

Lemma mip_first_run fi st_info imb (s : S) : NFP_CPP_MODEL_IS_6000 model = true ->
  nfp_nffw_info_fwid_first st_info = Some fi -> NFP_CPP_ID_TARGET_of (mip_cppid fi) = NFP6000_CPPTGT_MU ->
  bus_readl (NFP_CPP_ID 14 NFP_CPP_ACTION_RW 0) IMB_MU s = (Ok imb, s) ->
  NFP_IMB_TGTADDRESSMODECFG_MODE_of imb <= 3 ->
  crun (nfp_nffw_info_mip_first model interface st_info) s = (Ok (mip_cppid fi, mip_location fi imb), s).
Proof using.
  intros Hm Hf Ht Hi Hmode. unfold nfp_nffw_info_mip_first. rewrite Hf. unfold mip_location.
  destruct (nffw_fwinfo_mip_mu_da_get fi =? 0); cbn [negb]; [done|].
  unfold nffw_fwinfo_mip_cppid_get. rewrite Ht, Z.eqb_refl. cbn [negb]. rewrite crun_bind.
  unfold nfp_mip_mu_locality_lsb. rewrite crun_bind. unfold xpb_readl, xpb_to_cpp. rewrite Hm. cbn [negb].
  change (Z.land (Z.shiftr (0x000a0000 + NFP6000_CPPTGT_MU * 4) 24) 0x3f =? 0) with true. cbv iota.
  unfold readl. cbn [crun]. change (0x000a0000 + NFP6000_CPPTGT_MU * 4) with IMB_MU. rewrite Hi. cbn [crun].
  unfold nfp_cppat_mu_locality_lsb.
  assert (0 <= NFP_IMB_TGTADDRESSMODECFG_MODE_of imb) as Hge.
  { unfold NFP_IMB_TGTADDRESSMODECFG_MODE_of. apply Z.land_nonneg. right. done. }
  assert (exists r, r = negb (Z.land imb NFP_IMB_TGTADDRESSMODECFG_ADDRMODE =? 0)) as [r Er] by eauto.
  rewrite <- Er. destruct (NFP_IMB_TGTADDRESSMODECFG_MODE_of imb) as [|[[|[]|]|[|[]|]|]|];
    try lia; cbn [crun]; rewrite direct_address by (destruct r; auto); done.
Qed.

(** [nfp_mip_open] on a device with a free "nfp.nffw" resource in the
    memory unit: it returns the MIP of the first loaded firmware of the table (version 0,
    1 or 2), read where the entry says, direct access forced when it asks for it; the
    locks are left free, the rest of the memory and the cache of handles as they were. *)
Lemma mip_open_finds st c (s : S) j i imb :
  ready model interface calloc st c s NFP_RESOURCE_NFP_NFFW j -> entry_free interface s j = true ->
  let addr := u32 (mu_word s (entry_addr j + 24)) * 256 in
  let size := u32 (mu_word s (entry_addr j + 28)) * 256 in
  let outside a n := NFP_RESOURCE_TBL_BASE + NFP_RESOURCE_TBL_SIZE <= a \/ a + n <= NFP_RESOURCE_TBL_BASE in
  let data := word_bytes (mu_word s) addr (Z.to_nat (sizeof_fwinf / 4)) in
  let '(cnt, o) := nffw_res_fwinfos data in
  let fi := fwinfo_at data (o + 12 * i) in
  let loc := mip_location fi imb in
  let mip := mip_of_bytes (word_bytes (mu_word s) loc (Z.to_nat (sizeof_mip / 4))) in
  entry_cpp_id (mu_word s) j = MU_READ -> outside addr sizeof_fwinf -> sizeof_fwinf <= size ->
  nffw_res_flg_init_get data <> 0 -> nffw_res_info_version_get data <= NFFW_INFO_VERSION_CURRENT ->
  (i < cnt)%nat -> nffw_fwinfo_loaded_get fi <> 0 ->
  (forall k, (k < i)%nat -> nffw_fwinfo_loaded_get (fwinfo_at data (o + 12 * k)) = 0) ->
  mip_cppid fi = MU_READ -> NFP_IMB_TGTADDRESSMODECFG_MODE_of imb <= 3 ->
  (forall s', (forall b, b <> NFP_RESOURCE_TBL_BASE -> b <> entry_addr j -> mu_word s' b = mu_word s b) ->
     bus_readl (NFP_CPP_ID 14 NFP_CPP_ACTION_RW 0) IMB_MU s' = (Ok imb, s')) ->
  outside loc sizeof_mip -> mip_signature mip = NFP_MIP_SIGNATURE -> mip_mip_version mip = NFP_MIP_VERSION ->
  exists st' s',
    crun (nfp_mip_open model interface errno (Datatypes.S lock_fuel) calloc true st) s =
      ((Returns (Some (mkMip (mip_signature mip) (mip_mip_version mip) (mip_symtab_addr mip) (mip_symtab_size mip)
        (mip_strtab_addr mip) (mip_strtab_size mip) (<[15%nat := 0]> (mip_name mip)))), st'), s') /\
    locks j 0 0 s s' /\ holds st' c.
Proof using Mu.
  intros Hr Hf addr size outside data.
  assert (word_bytes (mu_word s) addr (Z.to_nat (sizeof_fwinf / 4)) = data) as Hdata by reflexivity. clearbody data.
  destruct (nffw_res_fwinfos data) as [cnt o] eqn:Ec. cbv zeta.
  set (fi := fwinfo_at data (o + 12 * i)). set (loc := mip_location fi imb).
  assert (exists mip, mip = mip_of_bytes (word_bytes (mu_word s) loc (Z.to_nat (sizeof_mip / 4)))) as [mip Emip]
    by eauto. rewrite <- Emip.
  intros Hid Hout Hsz Hinit Hver Hi Hl Hfirst Hcpp Hmode Himb Hloc Hsig Hmv. pose proof Hr as [].
  destruct (acquire_release model interface errno lock_fuel calloc st c s _ j Hr Hf)
    as (p & st1 & s1 & st2 & s2 & E1 & E2 & L & Hh & L1).
  assert (forall a n, outside a (4 * Z.of_nat n) -> word_bytes (mu_word s1) a n = word_bytes (mu_word s) a n) as Hext.
  { intros a n Ho. apply word_bytes_ext. intros b Hb. apply L1;
      unfold outside, NFP_RESOURCE_TBL_SIZE, entry_addr, sizeof_entry in *; lia. }
  exists st2, s2. split; [|split; assumption].
  unfold nfp_mip_open. cbn [negb]. rewrite rrun_bind. unfold nfp_mip_read_resource. rewrite rrun_bind.
  unfold nfp_nffw_info_open. cbn [negb]. rewrite rrun_bind, E1.
  change (nfp_resource_size (entry_region _ _ _ _)) with size.
  change (nfp_resource_address (entry_region _ _ _ _)) with addr.
  change (nfp_resource_cpp_id (entry_region ?f ?j _ _)) with (entry_cpp_id f j).
  rewrite Z.gtb_ltb, (proj2 (Z.ltb_ge _ _)), Hid by done. rewrite rrun_bind.
  unfold rlift at 1, read_bytes at 1. cbn [cbind crun]. rewrite mu_read_block, Hext, Hdata by done. cbn [crun].
  rewrite (proj2 (Z.eqb_neq _ _)), Z.gtb_ltb, (proj2 (Z.ltb_ge _ _)) by done. rewrite rrun_ret.
  rewrite rrun_bind. unfold rlift at 1. rewrite crun_bind.
  rewrite (mip_first_run fi _ imb s1); [|done| |by rewrite Hcpp|by apply Himb; apply L1|done].
  2:{ unfold nfp_nffw_info_fwid_first. cbn [ni_fwinf]. rewrite Ec. apply fwid_first; assumption. }
  cbn [crun]. fold loc. rewrite rrun_bind. unfold rlift at 1. rewrite crun_bind.
  unfold nfp_mip_try_read. rewrite crun_bind. unfold read_bytes. cbn [crun]. rewrite Hcpp, mu_read_block, Hext by done.
  rewrite <- Emip, Hsig, Hmv, !Z.eqb_refl. cbn [negb crun]. rewrite rrun_bind.
  unfold nfp_nffw_info_close. cbn [ni_res]. rewrite E2, !rrun_ret, Hsig, Hmv. reflexivity.
Qed.
End Mip.

(** A device whose second firmware entry is loaded, its MIP at 0x4000 with direct
    access: "nfp.nffw" is 16 pages at 0x2000. *)
Definition ex_fw : words32 :=
  let key := nfp_crc32_posix NFP_RESOURCE_NFP_NFFW in
  fun a => if a =? 0x8100000024 then key else if a =? 0x8100000034 then 0x07000300
           else if a =? 0x8100000038 then 0x20 else if a =? 0x810000003c then 0x10
           else if a =? 0x2000 then 0x00020001
           else if a =? 0x2334 then 0x80000100 else if a =? 0x2338 then MU_READ
           else if a =? 0x233c then 0x4000
           else if a =? IMB_MU then 0x1000
           else if a =? 0x8000004000 then NFP_MIP_SIGNATURE else if a =? 0x8000004004 then 1
           else if a =? 0x8000004020 then 0x10000 else if a =? 0x8000004024 then 0x20 else 0.

Lemma ex_fw_ready : ready 0x60000010 0x1001 fresh_handle (mkStore ∅ 0) [] ex_fw NFP_RESOURCE_NFP_NFFW 1.
Proof.
  split.
  - by vm_compute.
  - split; done.
  - by vm_compute.
  - apply fresh_handle_ok.
  - split; [split; [constructor|reflexivity]|]. intros p d Hin. by apply elem_of_nil in Hin.
  - intros e He. by apply elem_of_nil in He.
  - by vm_compute.
  - by vm_compute.
  - lia.
  - by vm_compute.
  - intros k Hk. replace k with 0 by lia. by vm_compute.
Qed.

Lemma mip_open_finds_witness : exists st' s' mip,
  crun (nfp_mip_open 0x60000010 0x1001 0 1 fresh_handle true (mkStore ∅ 0)) ex_fw = ((Returns (Some mip), st'), s') /\
  nfp_mip_symtab mip = (0x10000, 0x20).
Proof.
  pose proof (mip_open_finds (S := words32) 0x60000010 0x1001 0 0 fresh_handle (mkStore ∅ 0) [] ex_fw 1 1 0x1000
    ex_fw_ready) as H. cbv zeta in H.
  assert (nffw_res_fwinfos (word_bytes (mu_word ex_fw) (u32 (mu_word ex_fw (entry_addr 1 + 24)) * 256)
    (Z.to_nat (sizeof_fwinf / 4))) = (200%nat, 808%nat)) as Ec by (by vm_compute).
  rewrite Ec in H.
  destruct H as (st' & s' & E & _).
  - by vm_compute.
  - by vm_compute.
  - right. by vm_compute.
  - by vm_compute.
  - by vm_compute.
  - by vm_compute.
  - lia.
  - by vm_compute.
  - intros k Hk. replace k with 0%nat by lia. by vm_compute.
  - by vm_compute.
  - by vm_compute.
  - intros s' Hs. assert (s' IMB_MU = ex_fw IMB_MU) as E by (apply Hs; by vm_compute).
    change (bus_readl (NFP_CPP_ID 14 NFP_CPP_ACTION_RW 0) IMB_MU s') with (Ok (s' IMB_MU) : cres Z, s').
    rewrite E. reflexivity.
  - right. by vm_compute.
  - by vm_compute.
  - by vm_compute.
  - eexists st', s', _. split; [exact E|]. by vm_compute.
Defined.
