(* ===== verification/Rtsym.v ===== *)
(** * Run-time symbols ([nfp_rtsym.c])

    The firmware's symbol table and its strings are read from the memory the MIP
    names; symbols are looked up by name. *)

From S2P Require Export FwinfoThms.

Local Open Scope Z_scope.
Local Open Scope cprog_scope.

Definition SYM_TGT_LMEM : Z := 0.
Definition SYM_TGT_EMU_CACHE : Z := 0x17.
Definition NFP_RTSYM_TARGET_LMEM : Z := -1.
Definition NFP_RTSYM_TARGET_EMU_CACHE : Z := -7.
Definition NFP_ISL_EMEM0 : Z := 24.

Record nfp_rtsym_entry := mkRtsymEntry {
  fw_type : Z;
  fw_target : Z;
  fw_island : Z;
  fw_addr_hi : Z;
  fw_addr_lo : Z;
  fw_name : Z;
  fw_menum : Z;
  fw_size_hi : Z;
  fw_size_lo : Z }.

Definition sizeof_rtsym_entry : Z := 16.

Definition byte_at (bs : list Z) (o : nat) : Z := le_combine (slice o 1 bs).
Definition half_at (bs : list Z) (o : nat) : Z := le_combine (slice o 2 bs).

Definition rtsym_entry_of_bytes (bs : list Z) : nfp_rtsym_entry :=
  mkRtsymEntry (byte_at bs 0) (byte_at bs 1) (byte_at bs 2) (byte_at bs 3) (word_at bs 4)
    (half_at bs 8) (byte_at bs 10) (byte_at bs 11) (word_at bs 12).

(** [sw_name] is the offset of the name in the strings. *)
Record nfp_rtsym := mkRtsym {
  sw_name : Z;
  sw_addr : Z;
  sw_size : Z;
  sw_type : Z;
  sw_target : Z;
  sw_domain : Z }.

Record nfp_rtsym_table := mkRtsymTable {
  rt_num : Z;
  rt_strtab : list Z;
  rt_symtab : list nfp_rtsym }.

Definition sizeof_rtsym : Z := 40.
Definition sizeof_rtsym_table : Z := 24.

Definition nfp_meid (island_id menum : Z) : Z :=
  if (Z.land island_id 0x3f =? island_id) && (menum <? 12)
  then Z.lor (Z.shiftl island_id 4) (menum + 4) else -1.

Definition nfp_rtsym_sw_entry_init (strtab_size : Z) (fw : nfp_rtsym_entry) : nfp_rtsym :=
  mkRtsym (fw_name fw mod strtab_size)
    (Z.lor (Z.shiftl (fw_addr_hi fw) 32) (fw_addr_lo fw))
    (Z.lor (Z.shiftl (fw_size_hi fw) 32) (fw_size_lo fw))
    (fw_type fw)
    (if fw_target fw =? SYM_TGT_LMEM then NFP_RTSYM_TARGET_LMEM
     else if fw_target fw =? SYM_TGT_EMU_CACHE then NFP_RTSYM_TARGET_EMU_CACHE
     else fw_target fw)
    (if negb (fw_menum fw =? 0xff) then nfp_meid (fw_island fw) (fw_menum fw)
     else if negb (fw_island fw =? 0xff) then fw_island fw
     else -1).

(** The macro, for a [uint32_t]. *)
Definition round_up (x y : Z) : Z := u32 (Z.lor (u32 (x - 1)) (y - 1) + 1).

(** Entry [i] of the raw table. *)
Definition rtsym_entry_at (rtsymtab : list Z) (i : nat) : nfp_rtsym_entry :=
  rtsym_entry_of_bytes (slice (16 * i) 16 rtsymtab).

Definition rtsym_dram : Z := Z.lor (NFP_CPP_ID NFP6000_CPPTGT_MU NFP_CPP_ACTION_RW 0) NFP_ISL_EMEM0.

(** [__nfp_rtsym_table_read]; [malloc] says whether an allocation of that size succeeds.
    [Crashes]: the table is written past its allocation, or the string table's size,
    a divisor, is 0. *)
Definition rtsym_table_read (malloc : Z -> bool) (mip : option nfp_mip)
    : cprog (run (option nfp_rtsym_table)) :=
  match mip with
  | None => CRet (Returns None)
  | Some mip =>
      let '(strtab_addr, strtab_size) := nfp_mip_strtab mip in
      let '(symtab_addr, symtab_size) := nfp_mip_symtab mip in
      if (symtab_size =? 0) || (strtab_size =? 0) || negb (symtab_size mod sizeof_rtsym_entry =? 0)
      then CRet (Returns None)
      else
        let symtab_size := round_up symtab_size 8 in
        let strtab_size := round_up strtab_size 8 in
        if negb (malloc symtab_size) then CRet (Returns None)
        else
          let num := symtab_size / sizeof_rtsym_entry in
          let size := s32 (sizeof_rtsym_table + num * sizeof_rtsym) in
          let size := s32 (size + (strtab_size + 1)) in
          if negb (malloc (u64 size)) then CRet (Returns None)
          else
            let* r := read_bytes rtsym_dram symtab_addr symtab_size in
            match r with
            | Err _ => CRet (Returns None)
            | Ok rtsymtab =>
                if u64 size <? sizeof_rtsym_table + num * sizeof_rtsym + strtab_size + 1
                then CRet Crashes
                else
                  let* r := read_bytes rtsym_dram strtab_addr strtab_size in
                  match r with
                  | Err _ => CRet (Returns None)
                  | Ok strtab =>
                      if strtab_size =? 0 then CRet Crashes
                      else
                        CRet (Returns (Some (mkRtsymTable num (strtab ++ [0])
                          ((fun i => nfp_rtsym_sw_entry_init strtab_size (rtsym_entry_at rtsymtab i))
                             <$> seq 0 (Z.to_nat num)))))
                  end
            end
  end.

Definition nfp_rtsym_count (rtbl : option nfp_rtsym_table) : Z :=
  match rtbl with None => - EINVAL | Some rtbl => rt_num rtbl end.

(** [idx] is an [int]: a negative one is before the array. *)
Definition nfp_rtsym_get (rtbl : option nfp_rtsym_table) (idx : Z) : run (option nfp_rtsym) :=
  match rtbl with
  | None => Returns None
  | Some rtbl =>
      if idx >=? rt_num rtbl then Returns None
      else if idx <? 0 then Crashes
      else Returns (rt_symtab rtbl !! Z.to_nat idx)
  end.

(** The name of a symbol. *)
Definition rtsym_name (rtbl : nfp_rtsym_table) (sym : nfp_rtsym) : list Z :=
  cstring (drop (Z.to_nat (sw_name sym)) (rt_strtab rtbl)).

Fixpoint rtsym_lookup_loop (rtbl : nfp_rtsym_table) (name : list Z) (syms : list nfp_rtsym) : option nfp_rtsym :=
  match syms with
  | [] => None
  | sym :: syms =>
      if bool_decide (name = rtsym_name rtbl sym) then Some sym else rtsym_lookup_loop rtbl name syms
  end.

Definition nfp_rtsym_lookup (rtbl : option nfp_rtsym_table) (name : list Z) : option nfp_rtsym :=
  match rtbl with
  | None => None
  | Some rtbl => rtsym_lookup_loop rtbl name (rt_symtab rtbl)
  end.

(** The value and [*error]. *)
Definition nfp_rtsym_read_le (rtbl : option nfp_rtsym_table) (name : list Z) : cprog (Z * Z) :=
  match nfp_rtsym_lookup rtbl name with
  | None => CRet (u64 (-1), - ENOENT)
  | Some sym =>
      let id := NFP_CPP_ISLAND_ID (sw_target sym) NFP_CPP_ACTION_RW 0 (sw_domain sym) in
      if sw_size sym =? 4 then
        let* r := readl id (sw_addr sym) in
        match r with Ok val => CRet (val, 0) | Err _ => CRet (u64 (-1), - EIO) end
      else if sw_size sym =? 8 then
        let* r := readq id (sw_addr sym) in
        match r with Ok val => CRet (val, 0) | Err _ => CRet (u64 (-1), - EIO) end
      else CRet (u64 (-1), - EIO)
  end.

Local Open Scope rprog_scope.

(** [nfp_rtsym_table_read]: the MIP is opened and closed. *)
Definition nfp_rtsym_table_read (model interface errno : Z) (lock_fuel : nat) (calloc : mutex_store -> Z)
    (malloc_ok : bool) (malloc : Z -> bool) : rprog (option nfp_rtsym_table) :=
  let+ mip := nfp_mip_open model interface errno lock_fuel calloc malloc_ok in
  let+ r := rlift (rtsym_table_read malloc mip) in
  match r with
  | Returns t => rret t
  | Crashes => fun st => CRet (Crashes, st)
  | Spins => fun st => CRet (Spins, st)
  end.

(** Mapping a symbol: the window's address and the area. *)
Definition nfp_rtsym_map {S P} `{nfp_cpp_operations S P} (rtbl : option nfp_rtsym_table) (name : list Z)
    (min_size : Z) (cpp : nfp_cpp S) : option (Z * nfp_cpp_area P) * nfp_cpp S :=
  match nfp_rtsym_lookup rtbl name with
  | None => (None, cpp)
  | Some sym =>
      if sw_size sym <? min_size then (None, cpp)
      else nfp_cpp_map_area cpp (sw_domain sym) (sw_target sym) (sw_addr sym) (sw_size sym)
  end.
