(* ===== verification/RtsymThms.v ===== *)
(** * Reading back a symbol table

    A linker's symbols, laid out as the firmware's tables, are found again by name. *)

From S2P Require Export Rtsym.

Local Open Scope Z_scope.

(** A symbol as the linker has it. *)
Record symbol := mkSymbol {
  s_name : list Z;
  s_type : Z;
  s_target : Z;
  s_island : Z;
  s_menum : Z;
  s_addr : Z;
  s_size : Z }.

Definition symbol_ok (s : symbol) : Prop :=
  is_str (s_name s) /\ is_u8 (s_type s) /\ is_u8 (s_target s) /\ is_u8 (s_island s) /\ is_u8 (s_menum s) /\
  0 <= s_addr s < 2 ^ 40 /\ 0 <= s_size s < 2 ^ 40.

(** The strings, and each symbol with the offset of its name. *)
Definition strtab_of (syms : list symbol) : list Z := mjoin ((fun s => s_name s ++ [0]) <$> syms).
Fixpoint offsets (o : Z) (syms : list symbol) : list (Z * symbol) :=
  match syms with
  | [] => []
  | s :: syms => (o, s) :: offsets (o + Z.of_nat (length (s_name s)) + 1) syms
  end.

Definition enc_symbol (os : Z * symbol) : list Z :=
  let '(o, s) := os in
  [s_type s; s_target s; s_island s; s_addr s / 2 ^ 32] ++ le_split 4 (s_addr s) ++ le_split 2 o ++
  [s_menum s; s_size s / 2 ^ 32] ++ le_split 4 (s_size s).
Definition symtab_of (syms : list symbol) : list Z := mjoin (enc_symbol <$> offsets 0 syms).

(** What the reader makes of a symbol. *)
Definition sw_of (os : Z * symbol) : nfp_rtsym :=
  let '(o, s) := os in
  mkRtsym o (s_addr s) (s_size s) (s_type s)
    (if s_target s =? SYM_TGT_LMEM then NFP_RTSYM_TARGET_LMEM
     else if s_target s =? SYM_TGT_EMU_CACHE then NFP_RTSYM_TARGET_EMU_CACHE else s_target s)
    (if negb (s_menum s =? 0xff) then nfp_meid (s_island s) (s_menum s)
     else if negb (s_island s =? 0xff) then s_island s else -1).

Lemma half_mod x : le_combine (le_split 2 x) = u16 x.
Proof. apply (le_combine_split_mod 2). Qed.

Lemma enc_symbol_length os : length (enc_symbol os) = 16%nat.
Proof. by destruct os. Qed.

Lemma byte_id b : is_u8 b -> le_combine [b] = b.
Proof. intros. cbn. lia. Qed.

(** One entry. *)
Lemma entry_roundtrip o s n : symbol_ok s -> 0 <= o < n -> o < 0x10000 ->
  nfp_rtsym_sw_entry_init n (rtsym_entry_of_bytes (enc_symbol (o, s))) = sw_of (o, s).
Proof.
  intros (_ & Ht & Htg & Hi & Hm & Ha & Hs) Ho Hlt.
  assert (rtsym_entry_of_bytes (enc_symbol (o, s)) =
    mkRtsymEntry (s_type s) (s_target s) (s_island s) (s_addr s / 2 ^ 32) (u32 (s_addr s)) o (s_menum s)
      (s_size s / 2 ^ 32) (u32 (s_size s))) as ->.
  { unfold rtsym_entry_of_bytes, byte_at, half_at, word_at, enc_symbol.
    assert (le_combine (le_split 2 o) = o) as Eo by (rewrite half_mod; unfold u16; lia).
    rewrite <- !le_combine_word.
    cbn [le_split app]. unfold slice. cbn [drop take].
    rewrite !byte_id by (try done; unfold is_u8; lia). f_equal. exact Eo. }
  unfold nfp_rtsym_sw_entry_init, sw_of. cbn [fw_name fw_addr_hi fw_addr_lo fw_size_hi fw_size_lo fw_type fw_target fw_menum fw_island].
  rewrite Z.mod_small by lia.
  rewrite !lor_shiftl_add by (try lia; change (2 ^ 32) with 0x100000000; apply u32_range).
  f_equal; unfold u32; lia.
Qed.

Lemma offsets_lookup syms : forall o i p s, offsets o syms !! i = Some (p, s) ->
  syms !! i = Some s /\ o <= p /\
  p + Z.of_nat (length (s_name s)) + 1 <= o + Z.of_nat (length (strtab_of syms)) /\
  forall pre post, Z.of_nat (length pre) = o -> Forall symbol_ok syms ->
    cstring (drop (Z.to_nat p) (pre ++ strtab_of syms ++ post)) = s_name s.
Proof.
  induction syms as [|s0 syms IH]; intros o i p s Hi; [done|].
  assert (strtab_of (s0 :: syms) = (s_name s0 ++ [0]) ++ strtab_of syms) as Es by done.
  destruct i as [|i]; cbn [offsets lookup list_lookup] in Hi.
  - injection Hi as <- <-. split; [done|]. split; [lia|]. rewrite Es, !length_app. cbn [length].
    split; [lia|]. intros pre post Hp Hok. rewrite <- Hp, Nat2Z.id, drop_app_length.
    apply Forall_cons in Hok as [(Hn & _) _]. rewrite <- !app_assoc. cbn [app].
    apply cstring_end. eapply Forall_impl; [exact Hn|]. by intros ? [].
  - destruct (IH _ _ _ _ Hi) as (Hl & Hle & Hbd & Hstr). split; [done|]. split; [lia|].
    rewrite Es, !length_app. cbn [length]. split; [lia|].
    intros pre post Hp Hok. apply Forall_cons in Hok as [_ Hok].
    replace (pre ++ ((s_name s0 ++ [0]) ++ strtab_of syms) ++ post)
      with ((pre ++ s_name s0 ++ [0]) ++ strtab_of syms ++ post) by (by rewrite <- !app_assoc).
    apply Hstr; [|done]. rewrite !length_app. cbn [length]. lia.
Qed.

Lemma offsets_length o syms : length (offsets o syms) = length syms.
Proof. revert o. induction syms as [|s syms IH]; intros o; [done|]. cbn. by rewrite IH. Qed.

Lemma symtab_length_aux l : length (mjoin (enc_symbol <$> l)) = (16 * length l)%nat.
Proof.
  induction l as [|x l IH]; [done|]. rewrite fmap_cons. change (mjoin (?x :: ?l)) with (x ++ mjoin l).
  rewrite length_app, IH, enc_symbol_length. cbn [length]. lia.
Qed.

Lemma symtab_slice l i x : l !! i = Some x -> slice (16 * i) 16 (mjoin (enc_symbol <$> l)) = enc_symbol x.
Proof.
  revert i. induction l as [|y l IH]; intros i Hi; [done|].
  rewrite fmap_cons. change (mjoin (?x :: ?l)) with (x ++ mjoin l). destruct i as [|i].
  - injection Hi as ->. rewrite <- (enc_symbol_length x) at 2. replace (16 * 0)%nat with 0%nat by lia.
    unfold slice. by rewrite drop_0, take_app_length.
  - replace (16 * S i)%nat with (length (enc_symbol y) + 16 * i)%nat by (rewrite enc_symbol_length; lia).
    unfold slice. rewrite drop_app_add. apply IH. done.
Qed.

Lemma lor_7 y : 0 <= y -> Z.lor y 7 = y / 8 * 8 + 7.
Proof.
  intros Hy. rewrite (Z.div_mod y 8) at 1 by lia. rewrite (Z.mul_comm 8).
  pose proof (Z.mod_pos_bound y 8 ltac:(lia)) as Hm. change 8 with (2 ^ 3) at 2.
  rewrite <- (lor_shiftl_add (y / 8) (y mod 8) 3), <- Z.lor_assoc by lia.
  assert (Z.lor (y mod 8) 7 = 7) as ->.
  { generalize dependent (y mod 8). intros r Hr.
    assert (r = 0 \/ r = 1 \/ r = 2 \/ r = 3 \/ r = 4 \/ r = 5 \/ r = 6 \/ r = 7) as Hc by lia.
    by destruct Hc as [->|[->|[->|[->|[->|[->|[->| ->]]]]]]]. }
  rewrite lor_shiftl_add by lia. done.
Qed.

Lemma round_up_8 x : 0 < x <= 0xfffffff8 -> x <= round_up x 8 <= x + 7 /\ round_up x 8 mod 8 = 0.
Proof.
  intros Hx. unfold round_up. change (8 - 1) with 7. rewrite (u32_id (x - 1)) by (unfold is_u32; lia).
  rewrite lor_7 by lia. rewrite u32_id by (unfold is_u32; lia). lia.
Qed.

Lemma round_up_exact n : 0 < n < 2 ^ 28 -> round_up (16 * n) 8 = 16 * n.
Proof. intros. pose proof (round_up_8 (16 * n)). lia. Qed.

Lemma strtab_bound syms : (length syms <= length (strtab_of syms))%nat.
Proof.
  induction syms as [|s syms IH]; [done|]. unfold strtab_of in *. rewrite fmap_cons.
  change (mjoin (?x :: ?l)) with (x ++ mjoin l). rewrite !length_app. cbn [length]. lia.
Qed.

(** The table [syms] is read as. *)
Definition table_of (syms : list symbol) (pad : list Z) : nfp_rtsym_table :=
  mkRtsymTable (Z.of_nat (length syms)) ((strtab_of syms ++ pad) ++ [0]) (sw_of <$> offsets 0 syms).

Lemma table_name syms pad i os : Forall symbol_ok syms -> offsets 0 syms !! i = Some os ->
  rtsym_name (table_of syms pad) (sw_of os) = s_name os.2.
Proof.
  destruct os as [o s]. intros Hok Hi. destruct (offsets_lookup _ _ _ _ _ Hi) as (_ & _ & _ & H).
  unfold rtsym_name, table_of, sw_of. cbn [sw_name rt_strtab snd]. rewrite <- app_assoc.
  by apply (H []).
Qed.

Lemma rtsym_lookup_find tbl name l : (forall os, os ∈ l -> rtsym_name tbl (sw_of os) = s_name os.2) ->
  rtsym_lookup_loop tbl name (sw_of <$> l) = sw_of <$> (snd <$> list_find (fun os => s_name os.2 = name) l).
Proof.
  induction l as [|os l IH]; intros Hn; [done|]. rewrite fmap_cons. cbn [rtsym_lookup_loop list_find].
  rewrite Hn by left. case_bool_decide as E; case_decide as E'; try congruence; [done|].
  rewrite IH by (intros; apply Hn; by right). by destruct (list_find _ l) as [[]|].
Qed.

Lemma entries_of syms n : Forall symbol_ok syms -> Z.of_nat (length (strtab_of syms)) <= n ->
  Z.of_nat (length (strtab_of syms)) < 0x10000 ->
  (fun i => nfp_rtsym_sw_entry_init n (rtsym_entry_at (symtab_of syms) i)) <$> seq 0 (length syms) =
  sw_of <$> offsets 0 syms.
Proof.
  intros Hok Hn Hlt. apply list_eq. intros i. rewrite !list_lookup_fmap.
  destruct (offsets 0 syms !! i) as [[o s]|] eqn:Ei.
  - pose proof (lookup_lt_Some _ _ _ Ei) as Hl. rewrite offsets_length in Hl.
    rewrite lookup_seq_lt by done. cbn [fmap option_fmap option_map]. do 2 f_equal.
    destruct (offsets_lookup _ _ _ _ _ Ei) as (Hs & Hle & Hbd & _).
    unfold rtsym_entry_at, symtab_of. rewrite (symtab_slice _ _ (o, s)) by done.
    rewrite entry_roundtrip; [done| |lia|lia]. by eapply Forall_lookup_1.
  - apply lookup_ge_None in Ei. rewrite offsets_length in Ei. by rewrite lookup_seq_ge.
Qed.

(** C34 (roundtrip): the symbols a linker lays out in the memory the MIP names are read
    back: the table read has as many symbols, each with its address, size, type and
    target, and a name finds the first symbol that has it, or none. *)
Theorem rtsym_table_roundtrip {S} `{CppBus S} syms pad malloc mip (s s1 s2 : S) :
  Forall symbol_ok syms -> syms <> [] ->
  let L := Z.of_nat (length (strtab_of syms)) in
  L < 0x10000 -> Z.of_nat (length (strtab_of syms ++ pad)) = round_up L 8 ->
  (forall n, 0 <= n < 2 ^ 31 -> malloc n = true) ->
  mip_symtab_size mip = 16 * Z.of_nat (length syms) -> mip_strtab_size mip = L ->
  bus_read rtsym_dram (mip_symtab_addr mip) (mip_symtab_size mip) s = (Ok (symtab_of syms), s1) ->
  bus_read rtsym_dram (mip_strtab_addr mip) (round_up L 8) s1 = (Ok (strtab_of syms ++ pad), s2) ->
  exists tbl, crun (rtsym_table_read malloc (Some mip)) s = (Returns (Some tbl), s2) /\
    nfp_rtsym_count (Some tbl) = Z.of_nat (length syms) /\
    (forall i os, offsets 0 syms !! i = Some os ->
       nfp_rtsym_get (Some tbl) (Z.of_nat i) = Returns (Some (sw_of os))) /\
    forall name, nfp_rtsym_lookup (Some tbl) name =
      sw_of <$> (snd <$> list_find (fun os => s_name os.2 = name) (offsets 0 syms)).
Proof.
  intros Hok Hne L HL Hpad Hm Hsym Hstr R1 R2. exists (table_of syms pad).
  pose proof (strtab_bound syms) as Hb.
  assert (0 < Z.of_nat (length syms)) as Hpos by (destruct syms; [done|cbn [length]; lia]).
  split_and!.
  - unfold rtsym_table_read, nfp_mip_strtab, nfp_mip_symtab. rewrite Hstr, Hsym.
    rewrite !(proj2 (Z.eqb_neq _ 0)) by lia.
    assert (16 * Z.of_nat (length syms) mod 16 = 0) as E1 by lia.
    assert (16 * Z.of_nat (length syms) / 16 = Z.of_nat (length syms)) as E2 by lia.
    unfold sizeof_rtsym_entry. rewrite E1. cbn [orb negb Z.eqb]. rewrite round_up_exact, E2 by lia.
    pose proof (round_up_8 L) as Hr. destruct Hr as [Hr _]; [lia|].
    rewrite (Hm (16 * _)) by lia. cbn [negb].
    unfold sizeof_rtsym_table, sizeof_rtsym in *.
    assert (forall z, 0 <= z < 2 ^ 31 -> s32 z = z) as Hs32 by (intros; unfold s32; lia).
    rewrite (Hs32 (24 + _ * 40)) by lia. rewrite Hs32 by lia. rewrite u64_id by (unfold is_u64; lia).
    rewrite Hm by lia. cbn [negb].
    rewrite crun_bind. unfold read_bytes. cbn [crun]. rewrite <- Hsym, R1. cbn [crun].
    rewrite (proj2 (Z.ltb_ge _ _)) by lia. rewrite crun_bind. cbn [crun]. rewrite R2. cbn [crun].
    rewrite (proj2 (Z.eqb_neq _ 0)) by lia. rewrite Nat2Z.id, entries_of by (done || lia). reflexivity.
  - done.
  - intros i os Hi. pose proof (lookup_lt_Some _ _ _ Hi) as Hl. rewrite offsets_length in Hl.
    unfold nfp_rtsym_get. cbn [table_of rt_num rt_symtab].
    rewrite Z.geb_leb, (proj2 (Z.leb_gt _ _)), (proj2 (Z.ltb_ge _ 0)) by lia.
    by rewrite Nat2Z.id, list_lookup_fmap, Hi.
  - intros name. unfold nfp_rtsym_lookup. apply rtsym_lookup_find. intros os Hin.
    apply list_elem_of_lookup in Hin as [i Hi]. by eapply table_name.
Qed.

(** Two symbols, "a" in the external memory and "bc" in local memory, tables at 0x1000
    and 0x2000. *)
Definition ex_syms : list symbol :=
  [mkSymbol [0x61] 1 7 24 0xff 0x8000001000 0x40; mkSymbol [0x62; 0x63] 1 0 32 3 0x80 8].
Definition ex_symmem : words32 :=
  snd (bus_write rtsym_dram 0x2000 (strtab_of ex_syms ++ [0; 0; 0]) 8
        (snd (bus_write rtsym_dram 0x1000 (symtab_of ex_syms) 32 ((fun _ => 0) : words32)))).
Definition ex_mip : nfp_mip := mkMip NFP_MIP_SIGNATURE 1 0x1000 32 0x2000 5 [].

Lemma rtsym_table_roundtrip_witness : exists tbl,
  (crun (rtsym_table_read (fun _ => true) (Some ex_mip)) ex_symmem).1 = Returns (Some tbl) /\
  nfp_rtsym_lookup (Some tbl) [0x62; 0x63] = Some (mkRtsym 2 0x80 8 1 NFP_RTSYM_TARGET_LMEM 0x207) /\
  nfp_rtsym_lookup (Some tbl) [0x63] = None.
Proof.
  destruct (rtsym_table_roundtrip (S := words32) ex_syms [0; 0; 0] (fun _ => true) ex_mip ex_symmem ex_symmem ex_symmem)
    as (tbl & E & _ & _ & Hl).
  - repeat constructor; by vm_compute.
  - done.
  - by vm_compute.
  - by vm_compute.
  - done.
  - by vm_compute.
  - by vm_compute.
  - apply (f_equal (fun r => (r, ex_symmem))). by vm_compute.
  - apply (f_equal (fun r => (r, ex_symmem))). by vm_compute.
  - exists tbl. rewrite E, !Hl. split; [done|]. split; by vm_compute.
Defined.
