(* ===== verification/Nsp.v ===== *)
(** * The service processor ([nfp_nsp.c], [nfp_nsp.h], [nfp_nsp_cmds.c])

    Commands are given to the service processor through four registers in the
    "nfp.sp" resource and a buffer in the device's memory.  The handle, changed by
    every command, is taken and returned. *)

From S2P Require Export RtsymThms.

Local Open Scope Z_scope.
Local Open Scope rprog_scope.

(** ** Fields of 64-bit registers *)

Definition GENMASK_ULL (h l : Z) : Z :=
  Z.land (u64 (0xffffffffffffffff - u64 (Z.shiftl 1 l) + 1)) (Z.shiftr 0xffffffffffffffff (64 - 1 - h)).
Definition BIT_ULL (n : Z) : Z := u64 (Z.shiftl 1 n).

(** The position of the lowest bit set. *)
Definition bf_shf (x : Z) : Z := Z.log2 (Z.land x (- x)).

Definition FIELD_GET (mask reg : Z) : Z := Z.shiftr (Z.land reg mask) (bf_shf mask).
Definition FIELD_FIT (mask val : Z) : bool :=
  Z.land (u64 (Z.shiftl (u64 val) (bf_shf mask))) (u64 (Z.lnot mask)) =? 0.
Definition FIELD_PREP (mask val : Z) : Z := Z.land (u64 (Z.shiftl (u64 val) (bf_shf mask))) mask.

Definition NSP_STATUS : Z := 0x00.
Definition NSP_STATUS_MAGIC : Z := GENMASK_ULL 63 48.
Definition NSP_STATUS_MAJOR : Z := GENMASK_ULL 47 44.
Definition NSP_STATUS_MINOR : Z := GENMASK_ULL 43 32.
Definition NSP_STATUS_RESULT : Z := GENMASK_ULL 15 8.
Definition NSP_STATUS_BUSY : Z := BIT_ULL 0.

Definition NSP_COMMAND : Z := 0x08.
Definition NSP_COMMAND_OPTION : Z := GENMASK_ULL 63 32.
Definition NSP_COMMAND_CODE : Z := GENMASK_ULL 31 16.
Definition NSP_COMMAND_START : Z := BIT_ULL 0.

Definition NSP_BUFFER : Z := 0x10.
Definition NSP_BUFFER_CPP : Z := GENMASK_ULL 63 40.
Definition NSP_BUFFER_ADDRESS : Z := GENMASK_ULL 37 0.
Definition NSP_DFLT_BUFFER : Z := 0x18.
Definition NSP_DFLT_BUFFER_CONFIG : Z := 0x20.
Definition NSP_DFLT_BUFFER_SIZE_MB : Z := GENMASK_ULL 7 0.

Definition NSP_MAGIC : Z := 0xab10.
Definition NSP_MAJOR : Z := 0.
Definition NSP_MINOR : Z := 8.

Inductive nfp_nsp_cmd :=
| SPCODE_NOOP | SPCODE_SOFT_RESET | SPCODE_FW_DEFAULT | SPCODE_PHY_INIT | SPCODE_MAC_INIT
| SPCODE_PHY_RXADAPT | SPCODE_FW_LOAD | SPCODE_ETH_RESCAN | SPCODE_ETH_CONTROL
| SPCODE_NSP_SENSORS | SPCODE_NSP_IDENTIFY.

Definition spcode (c : nfp_nsp_cmd) : Z :=
  match c with
  | SPCODE_NOOP => 0 | SPCODE_SOFT_RESET => 1 | SPCODE_FW_DEFAULT => 2 | SPCODE_PHY_INIT => 3
  | SPCODE_MAC_INIT => 4 | SPCODE_PHY_RXADAPT => 5 | SPCODE_FW_LOAD => 6 | SPCODE_ETH_RESCAN => 7
  | SPCODE_ETH_CONTROL => 8 | SPCODE_NSP_SENSORS => 12 | SPCODE_NSP_IDENTIFY => 13
  end.

(** ** The handle *)

(** An entry of the table of ports: four words, the third the MAC address's bytes. *)
Record eth_table_entry := mkEthEntry {
  raw_port : Z;
  raw_state : Z;
  raw_mac : Z;
  raw_control : Z }.

Record nfp_nsp := mkNsp {
  nsp_res : nfp_resource;
  ver_major : Z;
  ver_minor : Z;
  nsp_modified : Z;
  nsp_idx : Z;
  nsp_entries : option (list eth_table_entry) }.

Definition nfp_nsp_config_modified (state : nfp_nsp) : Z := nsp_modified state.
Definition nfp_nsp_config_set_modified (state : nfp_nsp) (modified : Z) : nfp_nsp :=
  mkNsp (nsp_res state) (ver_major state) (ver_minor state) modified (nsp_idx state) (nsp_entries state).
Definition nfp_nsp_config_entries (state : nfp_nsp) : option (list eth_table_entry) := nsp_entries state.
Definition nfp_nsp_config_idx (state : nfp_nsp) : Z := nsp_idx state.
Definition nfp_nsp_config_set_state (state : nfp_nsp) (entries : list eth_table_entry) (idx : Z) : nfp_nsp :=
  mkNsp (nsp_res state) (ver_major state) (ver_minor state) (nsp_modified state) idx (Some entries).
Definition nfp_nsp_config_clear_state (state : nfp_nsp) : nfp_nsp :=
  mkNsp (nsp_res state) (ver_major state) (ver_minor state) (nsp_modified state) 0 None.
Definition nfp_nsp_get_abi_ver_major (state : nfp_nsp) : Z := ver_major state.
Definition nfp_nsp_get_abi_ver_minor (state : nfp_nsp) : Z := ver_minor state.

(** [state->ver] as [nfp_nsp_check] sets it. *)
Definition nsp_set_ver (state : nfp_nsp) (reg : Z) : nfp_nsp :=
  mkNsp (nsp_res state) (u16 (FIELD_GET NSP_STATUS_MAJOR reg)) (u16 (FIELD_GET NSP_STATUS_MINOR reg))
    (nsp_modified state) (nsp_idx state) (nsp_entries state).

(** "nfp.sp" *)
Definition NFP_RESOURCE_NSP : list Z := [0x6e; 0x66; 0x70; 0x2e; 0x73; 0x70].

(** The register at [off]. *)
Definition nsp_reg (state : nfp_nsp) (off : Z) : Z := u64 (nfp_resource_address (nsp_res state) + off).
Definition nsp_cpp (state : nfp_nsp) : Z := nfp_resource_cpp_id (nsp_res state).

(** ** Commands *)

Definition nfp_nsp_check (state : nfp_nsp) : rprog (Z * nfp_nsp) :=
  let+ r := rlift (readq (nsp_cpp state) (nsp_reg state NSP_STATUS)) in
  match r with
  | Err e => rret (cerr_ret e, state)
  | Ok reg =>
      if negb (FIELD_GET NSP_STATUS_MAGIC reg =? NSP_MAGIC) then rret (- ENODEV, state)
      else
        let state := nsp_set_ver state reg in
        if negb (ver_major state =? NSP_MAJOR) || (ver_minor state <? NSP_MINOR) then rret (- EINVAL, state)
        else if negb (Z.land reg NSP_STATUS_BUSY =? 0) then rret (- EBUSY, state)
        else rret (0, state)
  end.

(** [for (;;)]: the value read, or the error.  [count] only grows, so [1002 - count]
    iterations are enough. *)
Fixpoint wait_reg_loop (fuel : nat) (count : Z) (nsp_cpp addr mask val : Z) : rprog (cres Z) :=
  match fuel with
  | O => fun st => CRet (Spins, st)
  | S fuel =>
      let+ r := rlift (readq nsp_cpp addr) in
      match r with
      | Err e => rret (Err e)
      | Ok reg =>
          if Z.land reg mask =? val then rret (Ok reg)
          else if count >? 1000 then rret (Err (NegErr ETIMEDOUT))
          else wait_reg_loop fuel (count + 1) nsp_cpp addr mask val
      end
  end.

Definition nsp_polls : nat := 1002.

Definition nfp_nsp_wait_reg (nsp_cpp addr mask val : Z) : rprog (cres Z) :=
  wait_reg_loop nsp_polls 0 nsp_cpp addr mask val.

(** The buffer and the command written, the command started and run, its result. *)
Definition nsp_execute (state : nfp_nsp) (code option buff_cpp buff_addr : Z) : rprog Z :=
  let+ r := rlift (writeq (nsp_cpp state) (nsp_reg state NSP_BUFFER)
    (Z.lor (FIELD_PREP NSP_BUFFER_CPP (Z.shiftr buff_cpp 8)) (FIELD_PREP NSP_BUFFER_ADDRESS buff_addr))) in
  match r with
  | Err e => rret (cerr_ret e)
  | Ok _ =>
      let+ r := rlift (writeq (nsp_cpp state) (nsp_reg state NSP_COMMAND)
        (Z.lor (Z.lor (FIELD_PREP NSP_COMMAND_OPTION option) (FIELD_PREP NSP_COMMAND_CODE code))
           (FIELD_PREP NSP_COMMAND_START 1))) in
      match r with
      | Err e => rret (cerr_ret e)
      | Ok _ =>
          let+ r := nfp_nsp_wait_reg (nsp_cpp state) (nsp_reg state NSP_COMMAND) NSP_COMMAND_START 0 in
          match r with
          | Err e => rret (cerr_ret e)
          | Ok _ =>
              let+ r := nfp_nsp_wait_reg (nsp_cpp state) (nsp_reg state NSP_STATUS) NSP_STATUS_BUSY 0 in
              match r with
              | Err e => rret (cerr_ret e)
              | Ok reg =>
                  let+ r := rlift (readq (nsp_cpp state) (nsp_reg state NSP_COMMAND)) in
                  match r with
                  | Err e => rret (cerr_ret e)
                  | Ok ret_val =>
                      let ret_val := FIELD_GET NSP_COMMAND_OPTION ret_val in
                      let err := s32 (FIELD_GET NSP_STATUS_RESULT reg) in
                      if negb (err =? 0) then rret (- err) else rret (s32 ret_val)
                  end
              end
          end
      end
  end.

Definition nfp_nsp_command (state : nfp_nsp) (code option buff_cpp buff_addr : Z) : rprog (Z * nfp_nsp) :=
  let+ (err, state) := nfp_nsp_check state in
  if negb (err =? 0) then rret (err, state)
  else if negb (FIELD_FIT NSP_BUFFER_CPP (Z.shiftr buff_cpp 8)) || negb (FIELD_FIT NSP_BUFFER_ADDRESS buff_addr)
  then rret (- EINVAL, state)
  else let+ ret := nsp_execute state code option buff_cpp buff_addr in rret (ret, state).

Definition SZ_1M : Z := 0x00100000.

(** A buffer after its first bytes are replaced. *)
Definition overwrite (data buf : list Z) : list Z := data ++ drop (length data) buf.

(** [if (in_buf && in_size)] and [if (out_buf && out_size && out_size > in_size)]: a
    null buffer is [None]; the output buffer after the latter is returned. *)
Definition nsp_fill (cpp_id cpp_buf : Z) (in_buf : option (list Z)) (in_size : Z) (out_buf : option (list Z))
    (out_size : Z) : rprog (cres unit * option (list Z)) :=
  let+ r := match in_buf with
            | Some bs => if in_size =? 0 then rret (Ok 0) else rlift (write_bytes cpp_id cpp_buf bs in_size)
            | None => rret (Ok 0)
            end in
  match r with
  | Err e => rret (Err e, out_buf)
  | Ok _ =>
      match out_buf with
      | Some buf =>
          if negb (out_size =? 0) && (out_size >? in_size) then
            let buf := overwrite (replicate (Z.to_nat (out_size - in_size)) 0) buf in
            let+ r := rlift (write_bytes cpp_id (u64 (cpp_buf + in_size)) buf (out_size - in_size)) in
            match r with
            | Err e => rret (Err e, Some buf)
            | Ok _ => rret (Ok tt, Some buf)
            end
          else rret (Ok tt, Some buf)
      | None => rret (Ok tt, None)
      end
  end.

(** [if (out_buf && out_size)]: the buffer read back. *)
Definition nsp_fetch (cpp_id cpp_buf : Z) (out_buf : option (list Z)) (out_size : Z)
    : rprog (cres unit * option (list Z)) :=
  match out_buf with
  | Some buf =>
      if out_size =? 0 then rret (Ok tt, Some buf)
      else
        let+ r := rlift (read_bytes cpp_id cpp_buf out_size) in
        match r with
        | Err e => rret (Err e, Some buf)
        | Ok bs => rret (Ok tt, Some (overwrite bs buf))
        end
  | None => rret (Ok tt, None)
  end.

(** The result, the output buffer and the handle. *)
Definition nfp_nsp_command_buf (nsp : nfp_nsp) (code option : Z) (in_buf : Datatypes.option (list Z))
    (in_size : Z) (out_buf : Datatypes.option (list Z)) (out_size : Z)
    : rprog (Z * Datatypes.option (list Z) * nfp_nsp) :=
  if ver_minor nsp <? 13 then rret (- EOPNOTSUPP, out_buf, nsp)
  else
    let+ r := rlift (readq (nsp_cpp nsp) (nsp_reg nsp NSP_DFLT_BUFFER_CONFIG)) in
    match r with
    | Err e => rret (cerr_ret e, out_buf, nsp)
    | Ok reg =>
        let max_size := Z.max in_size out_size in
        if FIELD_GET NSP_DFLT_BUFFER_SIZE_MB reg * SZ_1M <? max_size then rret (- EINVAL, out_buf, nsp)
        else
          let+ r := rlift (readq (nsp_cpp nsp) (nsp_reg nsp NSP_DFLT_BUFFER)) in
          match r with
          | Err e => rret (cerr_ret e, out_buf, nsp)
          | Ok reg =>
              let cpp_id := u32 (Z.shiftl (FIELD_GET NSP_BUFFER_CPP reg) 8) in
              let cpp_buf := FIELD_GET NSP_BUFFER_ADDRESS reg in
              let+ (r, out_buf) := nsp_fill cpp_id cpp_buf in_buf in_size out_buf out_size in
              match r with
              | Err e => rret (cerr_ret e, out_buf, nsp)
              | Ok _ =>
                  let+ (ret, nsp) := nfp_nsp_command nsp code option cpp_id cpp_buf in
                  if ret <? 0 then rret (ret, out_buf, nsp)
                  else
                    let+ (r, out_buf) := nsp_fetch cpp_id cpp_buf out_buf out_size in
                    match r with
                    | Err e => rret (cerr_ret e, out_buf, nsp)
                    | Ok _ => rret (ret, out_buf, nsp)
                    end
              end
          end
    end.

(** [nfp_nsp_wait]: [1002 - count] commands are enough. *)
Fixpoint nsp_wait_loop (fuel : nat) (count : Z) (state : nfp_nsp) : rprog (Z * nfp_nsp) :=
  match fuel with
  | O => fun st => CRet (Spins, st)
  | S fuel =>
      let+ (err, state) := nfp_nsp_command state (spcode SPCODE_NOOP) 0 0 0 in
      if negb (err =? - EAGAIN) then rret (err, state)
      else if count >? 1000 then rret (- ETIMEDOUT, state)
      else nsp_wait_loop fuel (count + 1) state
  end.

Definition nfp_nsp_wait (state : nfp_nsp) : rprog (Z * nfp_nsp) := nsp_wait_loop nsp_polls 0 state.

Definition nfp_nsp_device_soft_reset (state : nfp_nsp) := nfp_nsp_command state (spcode SPCODE_SOFT_RESET) 0 0 0.
Definition nfp_nsp_mac_reinit (state : nfp_nsp) := nfp_nsp_command state (spcode SPCODE_MAC_INIT) 0 0 0.
Definition nfp_nsp_has_mac_reinit (state : nfp_nsp) : bool := nfp_nsp_get_abi_ver_minor state >? 20.

Definition nfp_nsp_load_fw (state : nfp_nsp) (buf : list Z) (size : Z) :=
  nfp_nsp_command_buf state (spcode SPCODE_FW_LOAD) size (Some buf) size None 0.
Definition nfp_nsp_read_eth_table (state : nfp_nsp) (buf : list Z) (size : Z) :=
  nfp_nsp_command_buf state (spcode SPCODE_ETH_RESCAN) size None 0 (Some buf) size.
Definition nfp_nsp_write_eth_table (state : nfp_nsp) (buf : list Z) (size : Z) :=
  nfp_nsp_command_buf state (spcode SPCODE_ETH_CONTROL) size (Some buf) size None 0.
Definition nfp_nsp_read_identify (state : nfp_nsp) (buf : list Z) (size : Z) :=
  nfp_nsp_command_buf state (spcode SPCODE_NSP_IDENTIFY) size None 0 (Some buf) size.
Definition nfp_nsp_read_sensors (state : nfp_nsp) (sensor_mask : Z) (buf : list Z) (size : Z) :=
  nfp_nsp_command_buf state (spcode SPCODE_NSP_SENSORS) sensor_mask None 0 (Some buf) size.

Section Open.
Context (model interface errno : Z) (lock_fuel : nat) (calloc : mutex_store -> Z) (malloc_ok : bool).

Definition nfp_nsp_close (state : nfp_nsp) : rprog unit := nfp_resource_release interface (nsp_res state).

Definition nfp_nsp_open : rprog (option nfp_nsp) :=
  let+ res := nfp_resource_acquire model interface errno lock_fuel calloc malloc_ok NFP_RESOURCE_NSP in
  match res with
  | None => rret None
  | Some res =>
      if negb malloc_ok then
        let+ _ := nfp_resource_release interface res in rret None
      else
        let state := mkNsp res 0 0 0 0 None in
        let+ (err, state) := nfp_nsp_check state in
        if negb (err =? 0) then let+ _ := nfp_nsp_close state in rret None
        else rret (Some state)
  end.
End Open.

(** ** Identification and sensors *)

Record nfp_nsp_identify := mkIdentify {
  id_version : list Z;
  id_flags : Z;
  id_br_primary : Z;
  id_br_secondary : Z;
  id_br_nsp : Z;
  id_primary : Z;
  id_secondary : Z;
  id_nsp : Z;
  id_sensor_mask : Z }.

Definition sizeof_nsp_identify : Z := 64.

Definition identify_of_bytes (ni : list Z) : nfp_nsp_identify :=
  mkIdentify (<[39%nat := 0]> (slice 0 40 ni)) (byte_at ni 40) (byte_at ni 41) (byte_at ni 42) (byte_at ni 43)
    (half_at ni 44) (half_at ni 46) (half_at ni 48) (le_combine (slice 56 8 ni)).

Definition __nfp_nsp_identify (malloc_ok : bool) (nsp : nfp_nsp) : rprog (option nfp_nsp_identify * nfp_nsp) :=
  if nfp_nsp_get_abi_ver_minor nsp <? 15 then rret (None, nsp)
  else if negb malloc_ok then rret (None, nsp)
  else
    let+ (ret, ni, nsp) := nfp_nsp_read_identify nsp (replicate 64 0) sizeof_nsp_identify in
    if ret <? 0 then rret (None, nsp)
    else rret (identify_of_bytes <$> ni, nsp).

Inductive nfp_nsp_sensor_id :=
| NFP_SENSOR_CHIP_TEMPERATURE | NFP_SENSOR_ASSEMBLY_POWER | NFP_SENSOR_ASSEMBLY_12V_POWER
| NFP_SENSOR_ASSEMBLY_3V3_POWER.

Definition sensor_no (id : nfp_nsp_sensor_id) : nat :=
  match id with
  | NFP_SENSOR_CHIP_TEMPERATURE => 0 | NFP_SENSOR_ASSEMBLY_POWER => 1
  | NFP_SENSOR_ASSEMBLY_12V_POWER => 2 | NFP_SENSOR_ASSEMBLY_3V3_POWER => 3
  end.

Definition sizeof_sensors : Z := 16.

(** [s] is uninitialised on the stack: its bytes are [junk]. The value is [*val]. *)
Definition nfp_hwmon_read_sensor (model interface errno : Z) (lock_fuel : nat) (calloc : mutex_store -> Z)
    (malloc_ok : bool) (junk : list Z) (id : nfp_nsp_sensor_id) : rprog (Z * option Z) :=
  let+ nsp := nfp_nsp_open model interface errno lock_fuel calloc malloc_ok in
  match nsp with
  | None => rret (- EIO, None)
  | Some nsp =>
      let+ (ret, s, nsp) := nfp_nsp_read_sensors nsp (Z.shiftl 1 (Z.of_nat (sensor_no id))) junk sizeof_sensors in
      let+ _ := nfp_nsp_close interface nsp in
      if ret <? 0 then rret (ret, None)
      else rret (0, (fun s => word_at s (4 * sensor_no id)) <$> s)
  end.
