(* ===== verification/NspThms.v ===== *)
(** * The service processor: termination and service

    Whatever the device answers, the driver's commands end within a fixed number of
    accesses; with a processor that serves commands, a command with a buffer is a call
    of its handler. *)

From S2P Require Export Nsp Mem.

Local Open Scope Z_scope.
Local Open Scope rprog_scope.

(** ** Fields *)

Lemma field_get m lo w x : m = field_mask lo w -> bf_shf m = lo -> 0 <= lo -> 0 <= w ->
  FIELD_GET m x = get_field x lo w.
Proof.
  intros -> Hs Hlo Hw. unfold FIELD_GET. rewrite Hs. unfold get_field, field_mask.
  by rewrite Z.shiftr_land, Z.shiftr_shiftl_l, Z.sub_diag, Z.shiftl_0_r by lia.
Qed.

Lemma field_prep m lo w v : m = field_mask lo w -> bf_shf m = lo -> 0 <= lo -> 0 <= w -> lo + w <= 64 ->
  0 <= v < 2 ^ w -> FIELD_PREP m v = Z.shiftl v lo.
Proof.
  intros -> Hs Hlo Hw H64 Hv. unfold FIELD_PREP. rewrite Hs. unfold field_mask, u64.
  assert (2 ^ w <= 2 ^ 64) by (apply Z.pow_le_mono_r; lia).
  change 0x10000000000000000 with (2 ^ 64). rewrite (Z.mod_small v) by lia.
  rewrite Z.mod_small.
  - rewrite <- Z.shiftl_land, Z.land_ones, Z.mod_small by lia. done.
  - rewrite Z.shiftl_mul_pow2 by lia. split; [lia|].
    apply Z.lt_le_trans with (2 ^ w * 2 ^ lo); [nia|].
    rewrite <- Z.pow_add_r by lia. apply Z.pow_le_mono_r; lia.
Qed.

(** ** Termination *)

(** A bus with a count of its accesses. *)
Definition counted (S : Type) : Type := S * nat.

#[export] Instance counted_bus {S} `{CppBus S} : CppBus (counted S) := {
  bus_readl id a '(s, n) := let '(r, s) := bus_readl id a s in (r, (s, Datatypes.S n));
  bus_writel id a v '(s, n) := let '(r, s) := bus_writel id a v s in (r, (s, Datatypes.S n));
  bus_readq id a '(s, n) := let '(r, s) := bus_readq id a s in (r, (s, Datatypes.S n));
  bus_writeq id a v '(s, n) := let '(r, s) := bus_writeq id a v s in (r, (s, Datatypes.S n));
  bus_read id a l '(s, n) := let '(r, s) := bus_read id a l s in (r, (s, Datatypes.S n));
  bus_write id a d l '(s, n) := let '(r, s) := bus_write id a d l s in (r, (s, Datatypes.S n)) }.

(** [m] returns, on any bus, after at most [k] accesses and without touching the handles
    of locks. *)
Definition returns_within {A} (m : rprog A) (k : nat) : Prop :=
  forall (S : Type) (B : CppBus S) st (s : S) n,
    exists a s' n', crun (m st) ((s, n) : counted S) = ((Returns a, st), (s', n')) /\ (n' <= n + k)%nat.

Lemma within_ret {A} (a : A) : returns_within (rret a) 0.
Proof. intros S B st s n. exists a, s, n. split; [done|lia]. Qed.

Lemma within_mono {A} (m : rprog A) j k : (j <= k)%nat -> returns_within m j -> returns_within m k.
Proof. intros L Hm S B st s n. destruct (Hm S B st s n) as (a & s' & n' & E & Hn). exists a, s', n'. split; [done|lia]. Qed.

Lemma within_bind {A B} (m : rprog A) (f : A -> rprog B) j k : returns_within m j ->
  (forall a, returns_within (f a) k) -> returns_within (rbind m f) (j + k).
Proof.
  intros Hm Hf S Bus st s n. destruct (Hm S Bus st s n) as (a & s1 & n1 & E & Hn).
  destruct (Hf a S Bus st s1 n1) as (b & s2 & n2 & E2 & Hn2). exists b, s2, n2. split; [|lia].
  by rewrite rrun_bind, E.
Qed.

(** One access. *)
Ltac within_access :=
  let S := fresh in let B := fresh in let st := fresh in let s := fresh in let n := fresh in
  intros S B st s n; unfold rlift, readq, writeq, read_bytes, write_bytes; cbn [cbind crun];
  cbn [bus_readq bus_writeq bus_read bus_write counted_bus];
  match goal with
  | |- context [@bus_readq _ B ?i ?a s] => destruct (@bus_readq _ B i a s)
  | |- context [@bus_writeq _ B ?i ?a ?v s] => destruct (@bus_writeq _ B i a v s)
  | |- context [@bus_read _ B ?i ?a ?v s] => destruct (@bus_read _ B i a v s)
  | |- context [@bus_write _ B ?i ?a ?d ?v s] => destruct (@bus_write _ B i a d v s)
  end; cbn [crun]; eexists _, _, _; split; [reflexivity|lia].

Lemma within_readq id a : returns_within (rlift (readq id a)) 1.
Proof. within_access. Qed.
Lemma within_writeq id a v : returns_within (rlift (writeq id a v)) 1.
Proof. within_access. Qed.
Lemma within_read id a n : returns_within (rlift (read_bytes id a n)) 1.
Proof. within_access. Qed.
Lemma within_write id a d n : returns_within (rlift (write_bytes id a d n)) 1.
Proof. within_access. Qed.

Create HintDb within.
#[export] Hint Resolve within_ret within_readq within_writeq within_read within_write : within.

(** A program that starts with an access or a call whose bound [h] gives, the rest
    within [k]. *)
Ltac within_step h k := eapply (within_mono _ (_ + k)); [|eapply within_bind; [apply h|]]; [lia|].
Ltac within_done := first [apply within_ret | eapply within_mono; [|apply within_ret]; lia].

Lemma wait_reg_within id a mask v fuel count : 0 <= count -> (Z.to_nat (1002 - count) <= fuel)%nat -> count <= 1001 ->
  returns_within (wait_reg_loop fuel count id a mask v) (Z.to_nat (1002 - count)).
Proof.
  revert count. induction fuel as [|fuel IH]; intros count H0 Hf Hc; [lia|]. cbn [wait_reg_loop].
  within_step within_readq (Z.to_nat (1001 - count)). intros [reg|e]; [|within_done].
  destruct (_ =? v); [within_done|]. rewrite Z.gtb_ltb. destruct (Z.ltb_spec 1000 count); [within_done|].
  replace (Z.to_nat (1001 - count)) with (Z.to_nat (1002 - (count + 1))) by lia. apply IH; lia.
Qed.

Lemma wait_within id a mask v : returns_within (nfp_nsp_wait_reg id a mask v) 1002.
Proof. apply (wait_reg_within _ _ _ _ _ 0); unfold nsp_polls; lia. Qed.

Lemma check_within state : returns_within (nfp_nsp_check state) 1.
Proof.
  unfold nfp_nsp_check. within_step within_readq 0%nat. intros [reg|e]; [|within_done].
  by repeat match goal with |- context [if ?b then _ else _] => destruct b end; apply within_ret.
Qed.

Lemma execute_within state code option buff_cpp buff_addr :
  returns_within (nsp_execute state code option buff_cpp buff_addr) 2007.
Proof.
  unfold nsp_execute. within_step within_writeq 2006%nat. intros [?|?]; [|within_done].
  within_step within_writeq 2005%nat. intros [?|?]; [|within_done].
  within_step wait_within 1003%nat. intros [?|?]; [|within_done].
  within_step wait_within 1%nat. intros [?|?]; [|within_done].
  within_step within_readq 0%nat. intros [?|?]; [|within_done].
  destruct (negb _); within_done.
Qed.

Lemma command_within state code option buff_cpp buff_addr :
  returns_within (nfp_nsp_command state code option buff_cpp buff_addr) 2008.
Proof.
  unfold nfp_nsp_command. within_step check_within 2007%nat. intros [err state'].
  destruct (negb _); [within_done|]. destruct (_ || _); [within_done|].
  within_step execute_within 0%nat. intros. within_done.
Qed.

Lemma wait_loop_within fuel count state : 0 <= count -> (Z.to_nat (1002 - count) <= fuel)%nat -> count <= 1001 ->
  returns_within (nsp_wait_loop fuel count state) (2008 * Z.to_nat (1002 - count)).
Proof.
  revert count state. induction fuel as [|fuel IH]; intros count state H0 Hf Hc; [lia|]. cbn [nsp_wait_loop].
  within_step command_within (2008 * Z.to_nat (1001 - count))%nat. intros [err state'].
  destruct (negb _); [within_done|]. rewrite Z.gtb_ltb. destruct (Z.ltb_spec 1000 count); [within_done|].
  replace (1001 - count) with (1002 - (count + 1)) by lia. apply IH; lia.
Qed.

Lemma fill_within cpp_id cpp_buf in_buf in_size out_buf out_size :
  returns_within (nsp_fill cpp_id cpp_buf in_buf in_size out_buf out_size) 2.
Proof.
  unfold nsp_fill. eapply (within_mono _ (1 + 1)); [lia|]. apply within_bind.
  - destruct in_buf; [|within_done]. destruct (_ =? 0); [within_done|apply within_write].
  - intros [?|?]; [|within_done]. destruct out_buf; [|within_done]. destruct (_ && _); [|within_done].
    within_step within_write 0%nat. intros [?|?]; within_done.
Qed.

Lemma fetch_within cpp_id cpp_buf out_buf out_size : returns_within (nsp_fetch cpp_id cpp_buf out_buf out_size) 1.
Proof.
  unfold nsp_fetch. destruct out_buf; [|within_done]. destruct (_ =? 0); [within_done|].
  within_step within_read 0%nat. intros [?|?]; within_done.
Qed.

(** C35 (termination): whatever the device answers, a command returns after at most 2008
    accesses of the bus, a command with a buffer after at most 2013, and waiting for the
    service processor after at most 1002 commands; none of them touches a lock. *)
Theorem nsp_commands_return :
  (forall state code option buff_cpp buff_addr,
     returns_within (nfp_nsp_command state code option buff_cpp buff_addr) 2008) /\
  (forall nsp code option in_buf in_size out_buf out_size,
     returns_within (nfp_nsp_command_buf nsp code option in_buf in_size out_buf out_size) 2013) /\
  (forall state, returns_within (nfp_nsp_wait state) (1002 * 2008)).
Proof.
  split; [exact command_within|]. split.
  - intros. unfold nfp_nsp_command_buf. destruct (_ <? 13); [within_done|].
    within_step within_readq 2012%nat. intros [?|?]; [|within_done].
    destruct (_ <? _); [within_done|]. within_step within_readq 2011%nat. intros [?|?]; [|within_done].
    within_step fill_within 2009%nat. intros [[?|?] ob]; [|within_done].
    within_step command_within 1%nat. intros [ret nsp']. destruct (ret <? 0); [within_done|].
    within_step fetch_within 0%nat. intros [[?|?] ob']; within_done.
  - intros state. eapply within_mono; [|apply (wait_loop_within nsp_polls 0)]; unfold nsp_polls; lia.
Qed.
