(* ===== verification/NspService.v ===== *)
(** * A processor that serves commands

    The other side of the command registers, as an abstract specification: a processor
    with a memory, a function [sp_serve] from a command, its option, the buffer's
    address and the memory to a result code, a value and a new memory, and delays, in
    polls, before it accepts and before it finishes a command. *)

From S2P Require Export NspThms.

Local Open Scope Z_scope.
Local Open Scope rprog_scope.

Record nsp_config := mkNspConfig {
  sp_id : Z;
  sp_base : Z;
  sp_minor : Z;
  sp_buf : Z;
  sp_addr : Z;
  sp_mb : Z;
  sp_start_delay : nat;
  sp_run_delay : nat;
  sp_serve : Z -> Z -> Z -> mem -> Z * Z * mem }.

Record processor := mkProcessor {
  sp_cfg : nsp_config;
  sp_mem : mem;
  sp_bufreg : Z;
  sp_value : Z;
  sp_result : Z;
  sp_starting : nat;
  sp_running : nat;
  sp_log : list (Z * Z) }.

(** The registers as read, each read of a pending one bringing it nearer its end. *)
Definition sp_status (p : processor) : Z :=
  0xab10 * 2 ^ 48 + sp_minor (sp_cfg p) * 2 ^ 32 + sp_result p * 2 ^ 8 + (if sp_running p is O then 0 else 1).
Definition sp_command (p : processor) : Z := sp_value p * 2 ^ 32 + (if sp_starting p is O then 0 else 1).
Definition sp_ran (p : processor) : processor :=
  mkProcessor (sp_cfg p) (sp_mem p) (sp_bufreg p) (sp_value p) (sp_result p) (sp_starting p)
    (pred (sp_running p)) (sp_log p).
Definition sp_started (p : processor) : processor :=
  mkProcessor (sp_cfg p) (sp_mem p) (sp_bufreg p) (sp_value p) (sp_result p) (pred (sp_starting p))
    (sp_running p) (sp_log p).
Definition sp_set_mem (m : mem) (p : processor) : processor :=
  mkProcessor (sp_cfg p) m (sp_bufreg p) (sp_value p) (sp_result p) (sp_starting p) (sp_running p) (sp_log p).
Definition sp_set_buffer (v : Z) (p : processor) : processor :=
  mkProcessor (sp_cfg p) (sp_mem p) v (sp_value p) (sp_result p) (sp_starting p) (sp_running p) (sp_log p).

(** A command: the memory is as the handler leaves it. *)
Definition sp_execute (v : Z) (p : processor) : processor :=
  let code := get_field v 16 16 in
  let option := get_field v 32 32 in
  let '(rc, value, m) := sp_serve (sp_cfg p) code option (get_field (sp_bufreg p) 0 38) (sp_mem p) in
  mkProcessor (sp_cfg p) m (sp_bufreg p) value rc (sp_start_delay (sp_cfg p)) (sp_run_delay (sp_cfg p))
    (sp_log p ++ [(code, option)]).

Definition sp_readq (id a : Z) (p : processor) : cres Z * processor :=
  let c := sp_cfg p in
  if negb (id =? sp_id c) then (Err1, p)
  else if a =? sp_base c + 0x00 then (Ok (sp_status p), sp_ran p)
  else if a =? sp_base c + 0x08 then (Ok (sp_command p), sp_started p)
  else if a =? sp_base c + 0x18 then (Ok (sp_buf c / 2 ^ 8 * 2 ^ 40 + sp_addr c), p)
  else if a =? sp_base c + 0x20 then (Ok (sp_mb c), p)
  else (Err1, p).

Definition sp_writeq (id a v : Z) (p : processor) : cres unit * processor :=
  let c := sp_cfg p in
  if negb (id =? sp_id c) then (Err1, p)
  else if a =? sp_base c + 0x10 then (Ok tt, sp_set_buffer v p)
  else if a =? sp_base c + 0x08 then (Ok tt, if Z.testbit v 0 then sp_execute v p else p)
  else (Err1, p).

#[export] Instance processor_bus : CppBus processor := {
  bus_readl id a p := (Err1, p);
  bus_writel id a v p := (Err1, p);
  bus_readq := sp_readq;
  bus_writeq := sp_writeq;
  bus_read id a n p :=
    if id =? sp_buf (sp_cfg p) then (Ok (load (sp_mem p) a n), p) else (Err1, p);
  bus_write id a d n p :=
    if id =? sp_buf (sp_cfg p) then (Ok n, sp_set_mem (store (sp_mem p) a (take (Z.to_nat n) d)) p)
    else (Err1, p) }.

(** Well-formed settings: what the registers can hold, and delays within the driver's
    patience. *)
Record config_ok (c : nsp_config) : Prop := {
  ok_base : 0 <= sp_base c < 2 ^ 63;
  ok_minor : 8 <= sp_minor c < 2 ^ 12;
  ok_buf : exists b, sp_buf c = 2 ^ 8 * b /\ 0 <= b < 2 ^ 24;
  ok_addr : 0 <= sp_addr c < 2 ^ 38;
  ok_mb : 0 <= sp_mb c < 2 ^ 8;
  ok_start : (sp_start_delay c <= 1001)%nat;
  ok_run : (sp_run_delay c <= 1001)%nat }.

(** An idle processor, and a handle on it. *)
Definition idle (p : processor) : Prop :=
  sp_starting p = O /\ sp_running p = O /\ 0 <= sp_result p < 2 ^ 8 /\ 0 <= sp_value p < 2 ^ 32.

Definition attached (nsp : nfp_nsp) (c : nsp_config) : Prop :=
  nfp_resource_cpp_id (nsp_res nsp) = sp_id c /\ nfp_resource_address (nsp_res nsp) = sp_base c.

(** The handle with the version the processor reports. *)
Definition with_version (minor : Z) (nsp : nfp_nsp) : nfp_nsp :=
  mkNsp (nsp_res nsp) 0 minor (nsp_modified nsp) (nsp_idx nsp) (nsp_entries nsp).

Lemma field_fit m lo w v : m = field_mask lo w -> bf_shf m = lo -> 0 <= lo -> 0 <= w -> lo + w <= 64 ->
  0 <= v < 2 ^ w -> FIELD_FIT m v = true.
Proof.
  intros -> Hs Hlo Hw H64 Hv. unfold FIELD_FIT. rewrite Hs. apply Z.eqb_eq. unfold u64.
  change 0x10000000000000000 with (2 ^ 64).
  assert (2 ^ w <= 2 ^ 64) by (apply Z.pow_le_mono_r; lia). rewrite (Z.mod_small v) by lia.
  bits_ext i. destruct (Z.ltb_spec i 64).
  2:{ rewrite !Z.mod_pow2_bits_high by lia. done. }
  rewrite !Z.mod_pow2_bits_low, Z.lnot_spec, Z.shiftl_spec, testbit_field_mask by lia.
  destruct (Z.leb_spec lo i); [|by rewrite Z.testbit_neg_r by lia].
  destruct (Z.ltb_spec i (lo + w)); [by rewrite andb_false_r|].
  rewrite (testbit_small v w) by lia. done.
Qed.

(** The command register's word. *)
Lemma command_word code option : is_u16 code -> is_u32 option ->
  Z.lor (Z.lor (FIELD_PREP NSP_COMMAND_OPTION option) (FIELD_PREP NSP_COMMAND_CODE code))
    (FIELD_PREP NSP_COMMAND_START 1) = option * 2 ^ 32 + code * 2 ^ 16 + 1.
Proof.
  intros Hcode Ho. unfold is_u16, is_u32 in *.
  rewrite (field_prep NSP_COMMAND_OPTION 32 32), (field_prep NSP_COMMAND_CODE 16 16) by (done || lia).
  change (FIELD_PREP NSP_COMMAND_START 1) with 1.
  rewrite lor_shiftl_add by (rewrite ?Z.shiftl_mul_pow2; lia). rewrite Z.shiftl_mul_pow2 by lia.
  replace (option * 2 ^ 32 + code * 2 ^ 16) with (Z.shiftl (option * 2 ^ 16 + code) 16)
    by (rewrite Z.shiftl_mul_pow2; lia).
  rewrite lor_shiftl_add by lia. rewrite Z.shiftl_mul_pow2 by lia. done.
Qed.

Section Serve.
Context (nsp : nfp_nsp) (c : nsp_config) (Hc : config_ok c) (Hat : attached nsp c).

Lemma reg_addr off : 0 <= off < 2 ^ 32 -> nsp_reg nsp off = sp_base c + off.
Proof using Hc Hat.
  intros Ho. unfold nsp_reg. rewrite (proj2 Hat). destruct Hc. apply u64_id. unfold is_u64. lia.
Qed.

Lemma readq_status p : sp_cfg p = c ->
  bus_readq (nsp_cpp nsp) (nsp_reg nsp NSP_STATUS) p = (Ok (sp_status p), sp_ran p).
Proof using Hc Hat.
  intros E. cbn [bus_readq processor_bus]. unfold sp_readq, nsp_cpp. rewrite (proj1 Hat), E, Z.eqb_refl.
  unfold NSP_STATUS. rewrite reg_addr, Z.eqb_refl by lia. done.
Qed.

Ltac at_reg := rewrite reg_addr by (unfold NSP_COMMAND, NSP_BUFFER, NSP_DFLT_BUFFER, NSP_DFLT_BUFFER_CONFIG; lia);
  unfold NSP_COMMAND, NSP_BUFFER, NSP_DFLT_BUFFER, NSP_DFLT_BUFFER_CONFIG;
  repeat rewrite (proj2 (Z.eqb_neq _ _)) by lia; rewrite ?Z.eqb_refl.

Lemma readq_command p : sp_cfg p = c ->
  bus_readq (nsp_cpp nsp) (nsp_reg nsp NSP_COMMAND) p = (Ok (sp_command p), sp_started p).
Proof using Hc Hat.
  intros E. cbn [bus_readq processor_bus]. unfold sp_readq, nsp_cpp. rewrite (proj1 Hat), E, Z.eqb_refl.
  cbn [negb]. by at_reg.
Qed.

Lemma readq_dflt p : sp_cfg p = c ->
  bus_readq (nsp_cpp nsp) (nsp_reg nsp NSP_DFLT_BUFFER) p = (Ok (sp_buf c / 2 ^ 8 * 2 ^ 40 + sp_addr c), p).
Proof using Hc Hat.
  intros E. cbn [bus_readq processor_bus]. unfold sp_readq, nsp_cpp. rewrite (proj1 Hat), E, Z.eqb_refl.
  cbn [negb]. by at_reg.
Qed.

Lemma readq_dflt_config p : sp_cfg p = c ->
  bus_readq (nsp_cpp nsp) (nsp_reg nsp NSP_DFLT_BUFFER_CONFIG) p = (Ok (sp_mb c), p).
Proof using Hc Hat.
  intros E. cbn [bus_readq processor_bus]. unfold sp_readq, nsp_cpp. rewrite (proj1 Hat), E, Z.eqb_refl.
  cbn [negb]. by at_reg.
Qed.

Lemma writeq_buffer v p : sp_cfg p = c ->
  bus_writeq (nsp_cpp nsp) (nsp_reg nsp NSP_BUFFER) v p = (Ok tt, sp_set_buffer v p).
Proof using Hc Hat.
  intros E. cbn [bus_writeq processor_bus]. unfold sp_writeq, nsp_cpp. rewrite (proj1 Hat), E, Z.eqb_refl.
  cbn [negb]. by at_reg.
Qed.

Lemma writeq_command v p : sp_cfg p = c -> Z.testbit v 0 = true ->
  bus_writeq (nsp_cpp nsp) (nsp_reg nsp NSP_COMMAND) v p = (Ok tt, sp_execute v p).
Proof using Hc Hat.
  intros E Hv. cbn [bus_writeq processor_bus]. unfold sp_writeq, nsp_cpp. rewrite (proj1 Hat), E, Z.eqb_refl.
  cbn [negb]. at_reg. by rewrite Hv.
Qed.

(** The version check of an idle processor. *)
Lemma check_run p st : sp_cfg p = c -> idle p ->
  crun (nfp_nsp_check nsp st) p = ((Returns (0, with_version (sp_minor c) nsp), st), p).
Proof using Hc Hat.
  intros E (Hs & Hr & Hres & _). destruct Hc. unfold nfp_nsp_check. rewrite rrun_bind.
  unfold rlift, readq. cbn [cbind crun]. rewrite readq_status by done. cbn [crun].
  assert (sp_status p = 0xab10 * 2 ^ 48 + sp_minor c * 2 ^ 32 + sp_result p * 2 ^ 8) as ->.
  { unfold sp_status. rewrite E, Hr. lia. }
  rewrite (field_get NSP_STATUS_MAGIC 48 16), get_field_div by (done || lia).
  unfold NSP_MAGIC. rewrite (proj2 (Z.eqb_eq _ _)) by lia. cbn [negb].
  unfold nsp_set_ver. cbn [ver_major ver_minor].
  rewrite (field_get NSP_STATUS_MAJOR 44 4), (field_get NSP_STATUS_MINOR 32 12), !get_field_div by (done || lia).
  unfold NSP_MAJOR, NSP_MINOR. rewrite (proj2 (Z.eqb_eq _ _)) by (unfold u16; lia).
  rewrite (proj2 (Z.ltb_ge _ _)) by (unfold u16; lia). cbn [negb orb].
  change NSP_STATUS_BUSY with (Z.ones 1). rewrite Z.land_ones by lia.
  rewrite (proj2 (Z.eqb_eq (_ mod 2 ^ 1) _)) by lia. cbn [negb]. rewrite rrun_ret.
  assert (sp_ran p = p) as -> by (destruct p; cbn in *; by rewrite Hr).
  unfold with_version. repeat f_equal; unfold u16; lia.
Qed.

(** Polling a register until its low bit clears. *)
Lemma wait_pending id a (value : processor -> Z) (step : processor -> processor) (pending : processor -> nat) st :
  (forall p, sp_cfg p = c -> bus_readq id a p = (Ok (value p), step p)) ->
  (forall p, sp_cfg (step p) = sp_cfg p) -> (forall p, pending (step p) = pred (pending p)) ->
  (forall p, value p mod 2 = if pending p is O then 0 else 1) ->
  forall fuel count p, sp_cfg p = c -> count + Z.of_nat (pending p) <= 1001 -> (pending p < fuel)%nat ->
    let q := Nat.iter (pending p) step p in
    crun (wait_reg_loop fuel count id a (BIT_ULL 0) 0 st) p = ((Returns (Ok (value q)), st), step q).
Proof using.
  intros Hr Hcfg Hp Hv. induction fuel as [|fuel IH]; intros count p E Hn Hf; [lia|]. cbn [wait_reg_loop].
  rewrite rrun_bind. unfold rlift, readq. cbn [cbind crun]. rewrite Hr by done. cbn [crun].
  change (BIT_ULL 0) with (Z.ones 1). rewrite Z.land_ones by lia. change (2 ^ 1) with 2. rewrite Hv.
  destruct (pending p) as [|d] eqn:Ed; cbn [Z.eqb]; [done|].
  rewrite Z.gtb_ltb, (proj2 (Z.ltb_ge _ _)) by lia.
  rewrite IH; rewrite ?Hcfg, ?Hp, ?Ed; cbn [pred]; try lia; [|done].
  by rewrite Nat.iter_succ_r.
Qed.

Lemma iter_started n p : Nat.iter n sp_started p =
  mkProcessor (sp_cfg p) (sp_mem p) (sp_bufreg p) (sp_value p) (sp_result p) (sp_starting p - n) (sp_running p) (sp_log p).
Proof using.
  induction n as [|n IH]; [rewrite Nat.sub_0_r; by destruct p|].
  rewrite Nat.iter_succ, IH. unfold sp_started. cbn [sp_cfg sp_mem sp_bufreg sp_value sp_result sp_starting sp_running sp_log].
  f_equal. lia.
Qed.

Lemma iter_ran n p : Nat.iter n sp_ran p =
  mkProcessor (sp_cfg p) (sp_mem p) (sp_bufreg p) (sp_value p) (sp_result p) (sp_starting p) (sp_running p - n) (sp_log p).
Proof using.
  induction n as [|n IH]; [rewrite Nat.sub_0_r; by destruct p|].
  rewrite Nat.iter_succ, IH. unfold sp_ran. cbn [sp_cfg sp_mem sp_bufreg sp_value sp_result sp_starting sp_running sp_log].
  f_equal. lia.
Qed.

(** The command accepted. *)
Definition sp_accepted (p : processor) : processor :=
  mkProcessor (sp_cfg p) (sp_mem p) (sp_bufreg p) (sp_value p) (sp_result p) 0 (sp_running p) (sp_log p).
(** The command finished. *)
Definition sp_finished (p : processor) : processor :=
  mkProcessor (sp_cfg p) (sp_mem p) (sp_bufreg p) (sp_value p) (sp_result p) (sp_starting p) 0 (sp_log p).

Lemma wait_start p st : sp_cfg p = c -> (sp_starting p <= 1001)%nat ->
  crun (nfp_nsp_wait_reg (nsp_cpp nsp) (nsp_reg nsp NSP_COMMAND) NSP_COMMAND_START 0 st) p =
    ((Returns (Ok (sp_value p * 2 ^ 32)), st), sp_accepted p).
Proof using Hc Hat.
  intros E Hd. unfold nfp_nsp_wait_reg.
  rewrite (wait_pending _ _ sp_command sp_started sp_starting st readq_command); unfold nsp_polls; try done; try lia.
  - rewrite iter_started. unfold sp_command, sp_started, sp_accepted. cbn. rewrite Nat.sub_diag. cbn.
    do 5 f_equal. lia.
  - intros q. unfold sp_command. destruct (sp_starting q); lia.
Qed.

Lemma wait_run p st : sp_cfg p = c -> (sp_running p <= 1001)%nat ->
  crun (nfp_nsp_wait_reg (nsp_cpp nsp) (nsp_reg nsp NSP_STATUS) NSP_STATUS_BUSY 0 st) p =
    ((Returns (Ok (sp_status (sp_finished p))), st), sp_finished p).
Proof using Hc Hat.
  intros E Hd. unfold nfp_nsp_wait_reg.
  rewrite (wait_pending _ _ sp_status sp_ran sp_running st readq_status); unfold nsp_polls; try done; try lia.
  - rewrite iter_ran. unfold sp_ran, sp_finished. cbn. by rewrite Nat.sub_diag.
  - intros q. unfold sp_status. destruct (sp_running q); lia.
Qed.

(** The handler's answer is one the registers can hold, the value one an [int] can. *)
Definition answer_ok (a : Z * Z * mem) : Prop := 0 <= a.1.1 < 2 ^ 8 /\ 0 <= a.1.2 < 2 ^ 31.

(** What [nfp_nsp_command] returns for an answer. *)
Definition answer_ret (a : Z * Z * mem) : Z := if a.1.1 =? 0 then a.1.2 else - a.1.1.

Definition sp_served (p : processor) (code option addr : Z) : processor :=
  let a := sp_serve (sp_cfg p) code option addr (sp_mem p) in
  mkProcessor (sp_cfg p) a.2 (Z.lor (Z.shiftl (sp_buf c / 2 ^ 8) 40) addr) a.1.2 a.1.1 0 0
    (sp_log p ++ [(code, option)]).

Lemma command_run p st code option : sp_cfg p = c -> idle p -> is_u16 code -> is_u32 option ->
  answer_ok (sp_serve c code option (sp_addr c) (sp_mem p)) ->
  crun (nfp_nsp_command nsp code option (sp_buf c) (sp_addr c) st) p =
    ((Returns (answer_ret (sp_serve c code option (sp_addr c) (sp_mem p)), with_version (sp_minor c) nsp), st),
     sp_served p code option (sp_addr c)).
Proof using Hc Hat.
  intros E Hi Hcode Ho Ha. unfold nfp_nsp_command. rewrite rrun_bind, (check_run p) by done. cbn [Z.eqb negb].
  destruct (ok_buf c Hc) as (b & Hb & Hbr). pose proof (ok_addr c Hc) as Haddr.
  assert (Z.shiftr (sp_buf c) 8 = b) as Eb by (rewrite Hb, Z.shiftr_div_pow2; lia).
  rewrite Eb. rewrite (field_fit NSP_BUFFER_CPP 40 24), (field_fit NSP_BUFFER_ADDRESS 0 38) by (done || lia).
  cbn [negb orb]. rewrite rrun_bind. unfold nsp_execute.
  change (nsp_cpp (with_version _ nsp)) with (nsp_cpp nsp).
  change (nsp_reg (with_version _ nsp)) with (nsp_reg nsp).
  rewrite rrun_bind. unfold rlift at 1, writeq at 1. cbn [cbind crun]. rewrite writeq_buffer by done. cbn [crun].
  rewrite rrun_bind. unfold rlift at 1, writeq at 1. cbn [cbind crun].
  rewrite command_word, Eb, (field_prep NSP_BUFFER_CPP 40 24), (field_prep NSP_BUFFER_ADDRESS 0 38) by (done || lia).
  rewrite Z.shiftl_0_r. rewrite writeq_command; [|done|].
  2:{ apply Z.b2z_inj. rewrite Z.bit0_mod. cbn [Z.b2z]. lia. }
  cbn [crun]. unfold sp_execute.
  assert (get_field (option * 2 ^ 32 + code * 2 ^ 16 + 1) 16 16 = code) as ->
    by (rewrite get_field_div by lia; unfold is_u16 in *; lia).
  assert (get_field (option * 2 ^ 32 + code * 2 ^ 16 + 1) 32 32 = option) as ->
    by (rewrite get_field_div by lia; unfold is_u16, is_u32 in *; lia).
  cbn [sp_set_buffer sp_cfg sp_mem sp_bufreg sp_log]. rewrite E.
  assert (get_field (Z.lor (Z.shiftl b 40) (sp_addr c)) 0 38 = sp_addr c) as ->.
  { rewrite lor_shiftl_add by lia. rewrite get_field_div by lia. lia. }
  unfold sp_served. rewrite E.
  destruct (sp_serve c code option (sp_addr c) (sp_mem p)) as [[rc v] m'] eqn:Es. destruct Ha as [Hrc Hv].
  cbn [fst snd] in Hrc, Hv.
  rewrite rrun_bind, wait_start; [|done|apply Hc]. cbn [crun].
  rewrite rrun_bind, wait_run; [|done|apply Hc]. unfold sp_accepted, sp_finished.
  cbn [sp_cfg sp_mem sp_bufreg sp_log sp_value sp_result sp_running sp_starting].
  rewrite rrun_bind. unfold rlift, readq. cbn [cbind crun]. rewrite readq_command by done. cbn [crun].
  unfold sp_status, sp_command, sp_started.
  cbn [sp_cfg sp_mem sp_bufreg sp_log sp_value sp_result sp_running sp_starting pred].
  rewrite (field_get NSP_STATUS_RESULT 8 8), (field_get NSP_COMMAND_OPTION 32 32), !get_field_div by (done || lia).
  destruct Hc. rewrite !s32_id by lia.
  replace ((v * 2 ^ 32 + 0) / 2 ^ 32 mod 2 ^ 32) with v by lia.
  match goal with |- context [negb (?x =? 0)] => replace x with rc by lia end.
  unfold answer_ret. cbn [fst snd]. replace (sp_buf c / 2 ^ 8) with b by lia.
  destruct (rc =? 0); cbn [negb]; rewrite !rrun_ret; done.
Qed.

(** The memory once the driver has filled the buffer: the input, then zeros up to the
    size of the output. *)
Definition filled (m : mem) (input : list Z) (out_size : Z) : mem :=
  let n := Z.of_nat (length input) in
  let m := if n =? 0 then m else store m (sp_addr c) input in
  if out_size >? n then store m (sp_addr c + n) (replicate (Z.to_nat (out_size - n)) 0) else m.

Definition buf_size (b : option (list Z)) : Z := Z.of_nat (length (default [] b)).

Lemma fill_run p st in_buf out_buf : sp_cfg p = c ->
  sp_addr c + Z.max (buf_size in_buf) (buf_size out_buf) < 2 ^ 64 ->
  exists ob, crun (nsp_fill (sp_buf c) (sp_addr c) in_buf (buf_size in_buf) out_buf (buf_size out_buf) st) p =
    ((Returns (Ok tt, ob), st), sp_set_mem (filled (sp_mem p) (default [] in_buf) (buf_size out_buf)) p) /\
    length (default [] ob) = length (default [] out_buf) /\ (ob = None <-> out_buf = None).
Proof using Hc.
  intros E Hb. unfold nsp_fill. pose proof (ok_addr c Hc).
  set (input := default [] in_buf). set (m1 := if Z.of_nat (length input) =? 0 then sp_mem p
    else store (sp_mem p) (sp_addr c) input).
  assert (crun ((match in_buf with
    | Some bs => if buf_size in_buf =? 0 then rret (Ok 0) else rlift (write_bytes (sp_buf c) (sp_addr c) bs (buf_size in_buf))
    | None => rret (Ok 0) end : rprog (cres Z)) st) p = ((Returns (Ok (buf_size in_buf)), st), sp_set_mem m1 p)) as E1.
  { subst m1 input. destruct in_buf as [bs|]; cbn [default from_option id] in *; [|by destruct p].
    unfold buf_size. cbn [default from_option id]. destruct (Z.eqb_spec (Z.of_nat (length bs)) 0) as [Ez|Ez].
    - rewrite Ez. by destruct p.
    - unfold rlift, write_bytes. cbn [cbind crun bus_write processor_bus]. rewrite E, Z.eqb_refl. cbn [crun].
      by rewrite Nat2Z.id, firstn_all. }
  rewrite rrun_bind, E1. clear E1. change (buf_size in_buf) with (Z.of_nat (length input)).
  destruct out_buf as [buf|]; cbn [default from_option id].
  2:{ exists None. split; [|done]. unfold filled. fold input m1. unfold buf_size. cbn [default from_option id length].
    rewrite Z.gtb_ltb, (proj2 (Z.ltb_ge _ _)) by lia. done. }
  unfold buf_size in *. cbn [default from_option id] in *. set (n := Z.of_nat (length input)) in *.
  set (k := Z.of_nat (length buf)) in *.
  unfold filled. fold input n m1. rewrite Z.gtb_ltb. destruct (Z.ltb_spec n k) as [L|L].
  - rewrite (proj2 (Z.eqb_neq k 0)) by lia. cbn [negb andb].
    exists (Some (overwrite (replicate (Z.to_nat (k - n)) 0) buf)).
    rewrite rrun_bind. unfold rlift, write_bytes. cbn [cbind crun bus_write processor_bus].
    cbn [sp_set_mem sp_cfg sp_mem]. rewrite E, Z.eqb_refl. cbn [crun]. rewrite rrun_ret.
    rewrite u64_id by (unfold is_u64; lia).
    split; [|split; [|done]].
    + f_equal. unfold sp_set_mem. cbn. f_equal. f_equal. unfold overwrite.
      rewrite take_app_le by (rewrite length_replicate; lia).
      by rewrite take_ge by (rewrite length_replicate; lia).
    + cbn [default from_option id]. unfold overwrite. rewrite length_app, length_drop, length_replicate. lia.
  - rewrite andb_false_r. eexists. rewrite rrun_ret. split; [reflexivity|]. done.
Qed.

(** The command with a buffer, whatever is passed. *)
Lemma command_buf_run p st code option in_buf out_buf :
  sp_cfg p = c -> idle p -> 13 <= ver_minor nsp -> is_u16 code -> is_u32 option ->
  Z.max (buf_size in_buf) (buf_size out_buf) <= sp_mb c * 2 ^ 20 ->
  let m := filled (sp_mem p) (default [] in_buf) (buf_size out_buf) in
  let answer := sp_serve c code option (sp_addr c) m in
  answer_ok answer ->
  exists ob p',
    crun (nfp_nsp_command_buf nsp code option in_buf (buf_size in_buf) out_buf (buf_size out_buf) st) p =
      ((Returns (answer_ret answer, ob, with_version (sp_minor c) nsp), st), p') /\
    (0 <= answer_ret answer -> ob = (fun _ => load answer.2 (sp_addr c) (buf_size out_buf)) <$> out_buf) /\
    sp_cfg p' = c /\ idle p' /\ sp_mem p' = answer.2 /\ sp_log p' = sp_log p ++ [(code, option)].
Proof using Hc Hat.
  intros E Hi Hver Hcode Ho Hsz m answer Ha. unfold nfp_nsp_command_buf.
  destruct (ok_buf c Hc) as (b & Hb & Hbr). pose proof (ok_addr c Hc). pose proof (ok_mb c Hc).
  rewrite (proj2 (Z.ltb_ge _ _)) by lia.
  rewrite rrun_bind. unfold rlift at 1, readq at 1. cbn [cbind crun]. rewrite readq_dflt_config by done. cbn [crun].
  rewrite (field_get NSP_DFLT_BUFFER_SIZE_MB 0 8), get_field_small by (done || lia).
  unfold SZ_1M. rewrite (proj2 (Z.ltb_ge _ _)) by lia.
  rewrite rrun_bind. unfold rlift at 1, readq at 1. cbn [cbind crun]. rewrite readq_dflt by done. cbn [crun].
  rewrite (field_get NSP_BUFFER_CPP 40 24), (field_get NSP_BUFFER_ADDRESS 0 38), !get_field_div by (done || lia).
  replace ((sp_buf c / 2 ^ 8 * 2 ^ 40 + sp_addr c) / 2 ^ 0 mod 2 ^ 38) with (sp_addr c) by lia.
  replace (u32 (Z.shiftl ((sp_buf c / 2 ^ 8 * 2 ^ 40 + sp_addr c) / 2 ^ 40 mod 2 ^ 24) 8)) with (sp_buf c)
    by (rewrite Z.shiftl_mul_pow2 by lia; unfold u32; lia).
  destruct (fill_run p st in_buf out_buf E) as (ob & Ef & Hlen & Hnone); [lia|].
  rewrite rrun_bind, Ef. fold m. set (q := sp_set_mem m p).
  rewrite rrun_bind, (command_run q) by (try done; apply Hi).
  change (sp_mem q) with m. fold answer.
  assert (idle (sp_served q code option (sp_addr c))) as Hi'.
  { unfold idle, sp_served. cbn [sp_starting sp_running sp_result sp_value sp_cfg]. change (sp_cfg q) with (sp_cfg p). rewrite E. change (sp_mem q) with m.
    fold answer. destruct Ha. lia. }
  assert (sp_mem (sp_served q code option (sp_addr c)) = answer.2) as Hm
    by (unfold sp_served; cbn [sp_mem]; change (sp_cfg q) with (sp_cfg p); by rewrite E).
  assert (sp_cfg (sp_served q code option (sp_addr c)) = c) as Hcfg by done.
  destruct (Z.ltb_spec (answer_ret answer) 0).
  { eexists _, _. split; [apply rrun_ret|]. split; [lia|done]. }
  exists ((fun _ => load answer.2 (sp_addr c) (buf_size out_buf)) <$> out_buf), (sp_served q code option (sp_addr c)).
  split; [|done]. rewrite rrun_bind. unfold nsp_fetch.
  destruct out_buf as [buf|], ob as [buf'|]; cbn [default from_option id fmap option_fmap option_map] in *;
    try (by exfalso; intuition discriminate); [|done].
  unfold buf_size in *. cbn [default from_option id] in *. destruct (Z.eqb_spec (Z.of_nat (length buf)) 0) as [Ez|Ez].
  { rewrite rrun_ret. rewrite Ez. destruct buf'; [done|cbn in Hlen; lia]. }
  rewrite rrun_bind. unfold rlift, read_bytes. cbn [cbind crun bus_read processor_bus].
  rewrite Hcfg, Z.eqb_refl, Hm. cbn [crun]. rewrite rrun_ret.
  unfold overwrite. rewrite drop_ge by (rewrite load_length; lia). by rewrite app_nil_r.
Qed.

(** C36 (refinement): a command with a buffer is a call of the processor's handler: it is
    run once, on a memory that holds the input and then zeros up to the size of the
    output; its result code or value is returned, and after a success the output buffer
    holds what the handler left there. *)
Theorem nsp_command_buf_serves p st code option in_buf out_buf :
  sp_cfg p = c -> idle p -> 13 <= ver_minor nsp -> is_u16 code -> is_u32 option ->
  Z.max (buf_size in_buf) (buf_size out_buf) <= sp_mb c * 2 ^ 20 ->
  let m := filled (sp_mem p) (default [] in_buf) (buf_size out_buf) in
  let answer := sp_serve c code option (sp_addr c) m in
  answer_ok answer ->
  exists ob p',
    crun (nfp_nsp_command_buf nsp code option in_buf (buf_size in_buf) out_buf (buf_size out_buf) st) p =
      ((Returns (answer_ret answer, ob, with_version (sp_minor c) nsp), st), p') /\
    (0 <= answer_ret answer -> ob = (fun _ => load answer.2 (sp_addr c) (buf_size out_buf)) <$> out_buf) /\
    sp_cfg p' = c /\ idle p' /\ sp_mem p' = answer.2 /\ sp_log p' = sp_log p ++ [(code, option)].
Proof using Hc Hat. apply command_buf_run. Qed.
End Serve.

(** A processor whose handler adds one to the four bytes of the buffer. *)
Definition ex_nsp_cfg : nsp_config := mkNspConfig 0x700 0x1000 20 0x70300 0x40000 1 3 5
  (fun code option addr m => (0, option, store m addr ((fun b => b + 1) <$> load m addr 4))).
Definition ex_proc : processor := mkProcessor ex_nsp_cfg (fun _ => 7) 0 0 0 0 0 [].
Definition ex_nsp : nfp_nsp := mkNsp (mkResource [] 0x700 0x1000 0 0) 0 20 0 0 None.

Lemma ex_nsp_cfg_ok : config_ok ex_nsp_cfg.
Proof. by split; cbn; try lia; exists 0x703. Qed.

Lemma nsp_command_buf_serves_witness : exists p',
  crun (nfp_nsp_command_buf ex_nsp 13 4 (Some [1; 2]) 2 (Some [9; 9; 9; 9]) 4 (mkStore ∅ 0)) ex_proc =
    ((Returns (4, Some [2; 3; 1; 1], with_version 20 ex_nsp), mkStore ∅ 0), p') /\
  sp_log p' = [(13, 4)].
Proof.
  destruct (nsp_command_buf_serves ex_nsp ex_nsp_cfg ex_nsp_cfg_ok (conj eq_refl eq_refl) ex_proc (mkStore ∅ 0) 13 4
    (Some [1; 2]) (Some [9; 9; 9; 9])) as (ob & p' & E & Hob & _ & _ & _ & Hl).
  - done.
  - split_and!; by cbn.
  - by vm_compute.
  - by vm_compute.
  - by vm_compute.
  - by vm_compute.
  - split; by vm_compute.
  - exists p'. split; [|exact Hl]. refine (eq_trans E _). rewrite (Hob ltac:(by vm_compute)). reflexivity.
Defined.
