(* ===== verification/NspEth.v ===== *)
(** * The port table ([nfp_nsp_eth.c])

    The processor's table of ports: reading it into the driver's form, and changing a
    field of one entry.  The table is 48 entries of four 64-bit words. *)

From S2P Require Export NspService.

Local Open Scope Z_scope.
Local Open Scope rprog_scope.

Definition NSP_ETH_NBI_PORT_COUNT : Z := 24.
Definition NSP_ETH_MAX_COUNT : nat := 48.
Definition NSP_ETH_TABLE_SIZE : Z := 48 * 32.

Definition NSP_ETH_PORT_LANES : Z := GENMASK_ULL 3 0.
Definition NSP_ETH_PORT_INDEX : Z := GENMASK_ULL 15 8.
Definition NSP_ETH_PORT_LABEL : Z := GENMASK_ULL 53 48.
Definition NSP_ETH_PORT_PHYLABEL : Z := GENMASK_ULL 59 54.
Definition NSP_ETH_PORT_FEC_SUPP_BASER : Z := BIT_ULL 60.
Definition NSP_ETH_PORT_FEC_SUPP_RS : Z := BIT_ULL 61.

Definition NSP_ETH_STATE_CONFIGURED : Z := BIT_ULL 0.
Definition NSP_ETH_STATE_ENABLED : Z := BIT_ULL 1.
Definition NSP_ETH_STATE_TX_ENABLED : Z := BIT_ULL 2.
Definition NSP_ETH_STATE_RX_ENABLED : Z := BIT_ULL 3.
Definition NSP_ETH_STATE_RATE : Z := GENMASK_ULL 11 8.
Definition NSP_ETH_STATE_INTERFACE : Z := GENMASK_ULL 19 12.
Definition NSP_ETH_STATE_MEDIA : Z := GENMASK_ULL 21 20.
Definition NSP_ETH_STATE_OVRD_CHNG : Z := BIT_ULL 22.
Definition NSP_ETH_STATE_ANEG : Z := GENMASK_ULL 25 23.
Definition NSP_ETH_STATE_FEC : Z := GENMASK_ULL 27 26.

Definition NSP_ETH_CTRL_CONFIGURED : Z := BIT_ULL 0.
Definition NSP_ETH_CTRL_ENABLED : Z := BIT_ULL 1.
Definition NSP_ETH_CTRL_SET_RATE : Z := BIT_ULL 4.
Definition NSP_ETH_CTRL_SET_LANES : Z := BIT_ULL 5.
Definition NSP_ETH_CTRL_SET_ANEG : Z := BIT_ULL 6.
Definition NSP_ETH_CTRL_SET_FEC : Z := BIT_ULL 7.

Definition PORT_FIBRE : Z := 0x03.
Definition PORT_DA : Z := 0x05.
Definition PORT_NONE : Z := 0xef.
Definition NFP_INTERFACE_NONE : Z := 0.
Definition NFP_MEDIA_FIBRE : Z := 2.
Definition NFP_FEC_BASER_BIT : Z := 1.
Definition NFP_FEC_REED_SOLOMON_BIT : Z := 2.
Definition NFP_FEC_AUTO : Z := 1.
Definition NFP_FEC_DISABLED : Z := 8.

Inductive nfp_eth_rate := RATE_INVALID | RATE_10M | RATE_100M | RATE_1G | RATE_10G | RATE_25G.

Definition rate_no (r : nfp_eth_rate) : Z :=
  match r with
  | RATE_INVALID => 0 | RATE_10M => 1 | RATE_100M => 2 | RATE_1G => 3 | RATE_10G => 4 | RATE_25G => 5
  end.

Definition nsp_eth_rate_tbl : list (Z * Z) :=
  [(rate_no RATE_INVALID, 0); (rate_no RATE_10M, 10); (rate_no RATE_100M, 100); (rate_no RATE_1G, 1000);
   (rate_no RATE_10G, 10000); (rate_no RATE_25G, 25000)].

Definition nfp_eth_rate2speed (rate : Z) : Z :=
  match list_find (fun e => e.1 = rate) nsp_eth_rate_tbl with Some (_, (_, speed)) => speed | None => 0 end.

Definition nfp_eth_speed2rate (speed : Z) : Z :=
  match list_find (fun e => e.2 = speed) nsp_eth_rate_tbl with
  | Some (_, (rate, _)) => rate
  | None => rate_no RATE_INVALID
  end.

(** ** The table in memory *)

Definition entry_of_words (bs : list Z) : eth_table_entry :=
  mkEthEntry (le_combine (slice 0 8 bs)) (le_combine (slice 8 8 bs)) (le_combine (slice 16 8 bs))
    (le_combine (slice 24 8 bs)).

Definition entries_of_bytes (bs : list Z) : list eth_table_entry :=
  (fun i => entry_of_words (slice (32 * i) 32 bs)) <$> seq 0 NSP_ETH_MAX_COUNT.

Definition entry_bytes (e : eth_table_entry) : list Z :=
  le_split 8 (raw_port e) ++ le_split 8 (raw_state e) ++ le_split 8 (raw_mac e) ++ le_split 8 (raw_control e).

Definition bytes_of_entries (es : list eth_table_entry) : list Z := mjoin (entry_bytes <$> es).

(** ** The driver's table *)

Record nfp_eth_table_port := mkPort {
  eth_index : Z;
  port_index : Z;
  port_nbi : Z;
  port_base : Z;
  lanes : Z;
  port_speed : Z;
  port_interface : Z;
  port_media : Z;
  port_fec : Z;
  port_aneg : Z;
  mac_addr : list Z;
  label_port : Z;
  label_subport : Z;
  enabled : Z;
  tx_enabled : Z;
  rx_enabled : Z;
  override_changed : Z;
  port_type : Z;
  port_lanes : Z;
  is_split : Z;
  fec_modes_supported : Z }.

Record nfp_eth_table := mkEthTable {
  max_index : Z;
  ports : list nfp_eth_table_port }.

(** [for (i = 0; i < ETH_ALEN; i++) dst[ETH_ALEN - i - 1] = src[i]] *)
Definition nfp_eth_copy_mac_reverse (src : list Z) : list Z := rev (take 6 src).

(** Into a zeroed port. *)
Definition nfp_eth_port_translate (nsp : nfp_nsp) (src : eth_table_entry) (index : Z) : nfp_eth_table_port :=
  let port := raw_port src in
  let state := raw_state src in
  let ln := FIELD_GET NSP_ETH_PORT_LANES port in
  let rate := nfp_eth_rate2speed (FIELD_GET NSP_ETH_STATE_RATE state) in
  let v17 := negb (nfp_nsp_get_abi_ver_minor nsp <? 17) in
  let v22 := v17 && negb (nfp_nsp_get_abi_ver_minor nsp <? 22) in
  let supp := Z.lor (Z.shiftl (FIELD_GET NSP_ETH_PORT_FEC_SUPP_BASER port) NFP_FEC_BASER_BIT)
                (Z.shiftl (FIELD_GET NSP_ETH_PORT_FEC_SUPP_RS port) NFP_FEC_REED_SOLOMON_BIT) in
  mkPort (FIELD_GET NSP_ETH_PORT_INDEX port) index (index / NSP_ETH_NBI_PORT_COUNT)
    (index mod NSP_ETH_NBI_PORT_COUNT) ln (u32 (ln * rate))
    (FIELD_GET NSP_ETH_STATE_INTERFACE state) (FIELD_GET NSP_ETH_STATE_MEDIA state)
    (if v22 then Z.shiftl 1 (FIELD_GET NSP_ETH_STATE_FEC state) else 0)
    (if v17 then FIELD_GET NSP_ETH_STATE_ANEG state else 0)
    (nfp_eth_copy_mac_reverse (le_split 8 (raw_mac src)))
    (u8 (FIELD_GET NSP_ETH_PORT_PHYLABEL port)) (u8 (FIELD_GET NSP_ETH_PORT_LABEL port))
    (FIELD_GET NSP_ETH_STATE_ENABLED state) (FIELD_GET NSP_ETH_STATE_TX_ENABLED state)
    (FIELD_GET NSP_ETH_STATE_RX_ENABLED state)
    (if v17 then FIELD_GET NSP_ETH_STATE_OVRD_CHNG state else 0) 0 0 0
    (if v22 then
       if supp =? 0 then 0 else Z.lor supp (Z.lor NFP_FEC_AUTO NFP_FEC_DISABLED)
     else 0).

Definition set_geometry (p : nfp_eth_table_port) (port_lanes is_split : Z) : nfp_eth_table_port :=
  mkPort (eth_index p) (port_index p) (port_nbi p) (port_base p) (lanes p) (port_speed p) (port_interface p)
    (port_media p) (port_fec p) (port_aneg p) (mac_addr p) (label_port p) (label_subport p) (enabled p)
    (tx_enabled p) (rx_enabled p) (override_changed p) (port_type p) port_lanes is_split (fec_modes_supported p).

Definition set_type (p : nfp_eth_table_port) (port_type : Z) : nfp_eth_table_port :=
  mkPort (eth_index p) (port_index p) (port_nbi p) (port_base p) (lanes p) (port_speed p) (port_interface p)
    (port_media p) (port_fec p) (port_aneg p) (mac_addr p) (label_port p) (label_subport p) (enabled p)
    (tx_enabled p) (rx_enabled p) (override_changed p) port_type (port_lanes p) (is_split p) (fec_modes_supported p).

(** The loop over [j], from [j] with [n] turns left. *)
Fixpoint geometry_j (n j i : nat) (ports : list nfp_eth_table_port) : list nfp_eth_table_port :=
  match n with
  | O => ports
  | S n =>
      match ports !! i, ports !! j with
      | Some pi, Some pj =>
          if negb (label_port pi =? label_port pj) then geometry_j n (S j) i ports
          else
            let pi := set_geometry pi (u32 (port_lanes pi + lanes pj))
                        (if (i =? j)%nat then is_split pi else 1) in
            geometry_j n (S j) i (<[i := pi]> ports)
      | _, _ => ports
      end
  end.

(** The loop over [i]. *)
Fixpoint geometry_i (n i : nat) (table : nfp_eth_table) : nfp_eth_table :=
  match n with
  | O => table
  | S n =>
      match ports table !! i with
      | Some p =>
          geometry_i n (S i) (mkEthTable (Z.max (max_index table) (port_index p))
                                (geometry_j (length (ports table)) 0 i (ports table)))
      | None => table
      end
  end.

Definition nfp_eth_calc_port_geometry (table : nfp_eth_table) : nfp_eth_table :=
  geometry_i (length (ports table)) 0 table.

Definition nfp_eth_calc_port_type (entry : nfp_eth_table_port) : nfp_eth_table_port :=
  if port_interface entry =? NFP_INTERFACE_NONE then set_type entry PORT_NONE
  else if port_media entry =? NFP_MEDIA_FIBRE then set_type entry PORT_FIBRE
  else set_type entry PORT_DA.

Definition lanes_present (e : eth_table_entry) : bool := negb (Z.land (raw_port e) NSP_ETH_PORT_LANES =? 0).

(** The second pass over the entries, from index [i]. *)
Fixpoint translate_loop (nsp : nfp_nsp) (i : Z) (entries : list eth_table_entry) : list nfp_eth_table_port :=
  match entries with
  | [] => []
  | e :: entries =>
      if lanes_present e then nfp_eth_port_translate nsp e i :: translate_loop nsp (i + 1) entries
      else translate_loop nsp (i + 1) entries
  end.

Definition count_present (entries : list eth_table_entry) : nat := length (filter lanes_present entries).

(** [malloc_ok]: both allocations succeed. *)
Definition __nfp_eth_read_ports (malloc_ok : bool) (nsp : nfp_nsp) : rprog (option nfp_eth_table * nfp_nsp) :=
  if negb malloc_ok then rret (None, nsp)
  else
    let+ (ret, buf, nsp) := nfp_nsp_read_eth_table nsp (replicate (Z.to_nat NSP_ETH_TABLE_SIZE) 0) NSP_ETH_TABLE_SIZE in
    if ret <? 0 then rret (None, nsp)
    else
      let entries := entries_of_bytes (default [] buf) in
      let cnt := Z.of_nat (count_present entries) in
      if negb (ret =? 0) && negb (ret =? cnt) then rret (None, nsp)
      else
        let table := nfp_eth_calc_port_geometry (mkEthTable 0 (translate_loop nsp 0 entries)) in
        rret (Some (mkEthTable (max_index table) (nfp_eth_calc_port_type <$> ports table)), nsp).

(** ** Changing an entry *)

Inductive nfp_eth_raw := NSP_ETH_RAW_PORT | NSP_ETH_RAW_STATE.

Definition entry_raw (raw_idx : nfp_eth_raw) (e : eth_table_entry) : Z :=
  match raw_idx with NSP_ETH_RAW_PORT => raw_port e | NSP_ETH_RAW_STATE => raw_state e end.
Definition set_raw (raw_idx : nfp_eth_raw) (v : Z) (e : eth_table_entry) : eth_table_entry :=
  match raw_idx with
  | NSP_ETH_RAW_PORT => mkEthEntry v (raw_state e) (raw_mac e) (raw_control e)
  | NSP_ETH_RAW_STATE => mkEthEntry (raw_port e) v (raw_mac e) (raw_control e)
  end.
Definition set_control (v : Z) (e : eth_table_entry) : eth_table_entry :=
  mkEthEntry (raw_port e) (raw_state e) (raw_mac e) v.

(** The entries of the handle changed at its index, and marked modified. *)
Definition nsp_set_entry (e : eth_table_entry) (idx : Z) (nsp : nfp_nsp) : nfp_nsp :=
  mkNsp (nsp_res nsp) (ver_major nsp) (ver_minor nsp) 1 (nsp_idx nsp)
    ((fun es => <[Z.to_nat idx := e]> es) <$> nsp_entries nsp).

Definition nsp_entry (idx : Z) (nsp : nfp_nsp) : option eth_table_entry :=
  match nfp_nsp_config_entries nsp with
  | None => None
  | Some es => es !! Z.to_nat idx
  end.

(** [None]: an access outside the entries. *)
Definition nfp_eth_set_bit_config (nsp : nfp_nsp) (raw_idx : nfp_eth_raw) (mask shift val ctrl_bit : Z)
    : option (Z * nfp_nsp) :=
  let idx := nfp_nsp_config_idx nsp in
  if nfp_nsp_get_abi_ver_minor nsp <? 17 then Some (- EOPNOTSUPP, nsp)
  else
    match nsp_entry idx nsp with
    | None => None
    | Some e =>
        let reg := entry_raw raw_idx e in
        if val =? Z.shiftr (Z.land reg mask) shift then Some (0, nsp)
        else
          let reg := Z.land reg (u64 (Z.lnot mask)) in
          let reg := Z.lor reg (Z.land (u32 (Z.shiftl val shift)) mask) in
          let e := set_raw raw_idx reg e in
          Some (0, nsp_set_entry (set_control (Z.lor (raw_control e) ctrl_bit) e) idx nsp)
    end.

Definition NFP_ETH_SET_BIT_CONFIG (nsp : nfp_nsp) (raw_idx : nfp_eth_raw) (mask val ctrl_bit : Z) :=
  nfp_eth_set_bit_config nsp raw_idx mask (bf_shf mask) val ctrl_bit.

Definition __nfp_eth_set_aneg (nsp : nfp_nsp) (mode : Z) :=
  NFP_ETH_SET_BIT_CONFIG nsp NSP_ETH_RAW_STATE NSP_ETH_STATE_ANEG mode NSP_ETH_CTRL_SET_ANEG.
Definition __nfp_eth_set_fec (nsp : nfp_nsp) (mode : Z) :=
  NFP_ETH_SET_BIT_CONFIG nsp NSP_ETH_RAW_STATE NSP_ETH_STATE_FEC mode NSP_ETH_CTRL_SET_FEC.
Definition __nfp_eth_set_speed (nsp : nfp_nsp) (speed : Z) :=
  let rate := nfp_eth_speed2rate speed in
  if rate =? rate_no RATE_INVALID then Some (- EINVAL, nsp)
  else NFP_ETH_SET_BIT_CONFIG nsp NSP_ETH_RAW_STATE NSP_ETH_STATE_RATE rate NSP_ETH_CTRL_SET_RATE.
Definition __nfp_eth_set_split (nsp : nfp_nsp) (lanes : Z) :=
  NFP_ETH_SET_BIT_CONFIG nsp NSP_ETH_RAW_PORT NSP_ETH_PORT_LANES lanes NSP_ETH_CTRL_SET_LANES.

(** ** Sessions *)

Definition rcrash {A} : rprog A := fun st => CRet (Crashes, st).

Section Session.
Context (model interface errno : Z) (lock_fuel : nat) (calloc : mutex_store -> Z) (malloc_ok : bool).

Definition nfp_eth_read_ports : rprog (option nfp_eth_table) :=
  let+ nsp := nfp_nsp_open model interface errno lock_fuel calloc malloc_ok in
  match nsp with
  | None => rret None
  | Some nsp =>
      let+ (ret, nsp) := __nfp_eth_read_ports malloc_ok nsp in
      let+ _ := nfp_nsp_close interface nsp in
      rret ret
  end.

(** The handle with the table read, the entry [idx] having lanes. *)
Definition nfp_eth_config_start (idx : Z) : rprog (option nfp_nsp) :=
  if negb malloc_ok then rret None
  else
    let+ nsp := nfp_nsp_open model interface errno lock_fuel calloc malloc_ok in
    match nsp with
    | None => rret None
    | Some nsp =>
        let+ (ret, buf, nsp) :=
          nfp_nsp_read_eth_table nsp (replicate (Z.to_nat NSP_ETH_TABLE_SIZE) 0) NSP_ETH_TABLE_SIZE in
        if ret <? 0 then let+ _ := nfp_nsp_close interface nsp in rret None
        else
          let entries := entries_of_bytes (default [] buf) in
          match entries !! Z.to_nat idx with
          | None => rcrash
          | Some e =>
              if negb (lanes_present e) then let+ _ := nfp_nsp_close interface nsp in rret None
              else rret (Some (nfp_nsp_config_set_state nsp entries idx))
          end
    end.

Definition nfp_eth_config_cleanup_end (nsp : nfp_nsp) : rprog unit :=
  nfp_nsp_close interface (nfp_nsp_config_clear_state (nfp_nsp_config_set_modified nsp 0)).

Definition nfp_eth_config_commit_end (nsp : nfp_nsp) : rprog Z :=
  let+ (ret, nsp) :=
    if negb (nfp_nsp_config_modified nsp =? 0) then
      match nfp_nsp_config_entries nsp with
      | None => rcrash
      | Some entries =>
          let+ (ret, _, nsp) := nfp_nsp_write_eth_table nsp (bytes_of_entries entries) NSP_ETH_TABLE_SIZE in
          rret (if ret <? 0 then ret else 0, nsp)
      end
    else rret (1, nsp) in
  let+ _ := nfp_eth_config_cleanup_end nsp in
  rret ret.

(** The control bit [mask] of entry [idx] set to [v] when the state's bit differs. *)
Definition eth_set_control (idx v state_mask mask : Z) (nsp : nfp_nsp) : rprog Z :=
  match nsp_entry idx nsp with
  | None => rcrash
  | Some e =>
      let reg := raw_state e in
      let nsp :=
        if negb (v =? s32 (FIELD_GET state_mask reg)) then
          let reg := raw_control e in
          let reg := Z.land reg (u64 (Z.lnot mask)) in
          let reg := Z.lor reg (FIELD_PREP mask v) in
          nsp_set_entry (set_control reg e) idx nsp
        else nsp in
      nfp_eth_config_commit_end nsp
  end.

Definition nfp_eth_set_mod_enable (idx enable : Z) : rprog Z :=
  let+ nsp := nfp_eth_config_start idx in
  match nsp with
  | None => rret (-1)
  | Some nsp => eth_set_control idx enable NSP_ETH_CTRL_ENABLED NSP_ETH_CTRL_ENABLED nsp
  end.

Definition nfp_eth_set_configured (idx configed : Z) : rprog Z :=
  let+ nsp := nfp_eth_config_start idx in
  match nsp with
  | None => rret (- EIO)
  | Some nsp =>
      if nfp_nsp_get_abi_ver_minor nsp <? 20 then
        let+ _ := nfp_eth_config_cleanup_end nsp in rret (- EOPNOTSUPP)
      else eth_set_control idx configed NSP_ETH_STATE_CONFIGURED NSP_ETH_CTRL_CONFIGURED nsp
  end.

Definition nfp_eth_set_fec (idx mode : Z) : rprog Z :=
  let+ nsp := nfp_eth_config_start idx in
  match nsp with
  | None => rret (- EIO)
  | Some nsp =>
      match __nfp_eth_set_fec nsp mode with
      | None => rcrash
      | Some (err, nsp) =>
          if negb (err =? 0) then
            let+ _ := nfp_eth_config_cleanup_end nsp in rret err
          else nfp_eth_config_commit_end nsp
      end
  end.
End Session.
