(* ===== verification/NspEthThms.v ===== *)
(** * Theorems about the port table

    The loops that fill in the ports' geometry against a direct definition, the whole
    table read from a processor, and the change of one field. *)

From S2P Require Export NspEth.

Local Open Scope Z_scope.
Local Open Scope rprog_scope.

(** ** Geometry *)

(** What the loops read of a port. *)
Definition port_key (p : nfp_eth_table_port) : Z * Z := (label_port p, lanes p).

Fixpoint add_lanes (l : Z) (ks : list (Z * Z)) (acc : Z) : Z :=
  match ks with
  | [] => acc
  | k :: ks => add_lanes l ks (if l =? k.1 then u32 (acc + k.2) else acc)
  end.

Fixpoint mark_split (l : Z) (i j : nat) (ks : list (Z * Z)) (acc : Z) : Z :=
  match ks with
  | [] => acc
  | k :: ks => mark_split l i (S j) ks (if l =? k.1 then if (i =? j)%nat then acc else 1 else acc)
  end.

Lemma key_insert (i : nat) p p' (ps : list nfp_eth_table_port) : ps !! i = Some p -> port_key p' = port_key p ->
  port_key <$> <[i := p']> ps = port_key <$> ps.
Proof.
  intros Hi Hk. rewrite list_fmap_insert, Hk. apply list_insert_id. by rewrite list_lookup_fmap, Hi.
Qed.

Lemma drop_fmap_S {A B} (f : A -> B) (l : list A) j x : l !! j = Some x -> drop j (f <$> l) = f x :: drop (S j) (f <$> l).
Proof. intros Hj. apply drop_S. by rewrite list_lookup_fmap, Hj. Qed.

Lemma geometry_j_run i : forall n j ps p, (j + n = length ps)%nat -> ps !! i = Some p ->
  geometry_j n j i ps =
  <[i := set_geometry p (add_lanes (label_port p) (drop j (port_key <$> ps)) (port_lanes p))
           (mark_split (label_port p) i j (drop j (port_key <$> ps)) (is_split p))]> ps.
Proof.
  induction n as [|n IH]; intros j ps p Hn Hi.
  - rewrite drop_ge by (rewrite length_fmap; lia). cbn. rewrite list_insert_id; [done|].
    rewrite Hi. by destruct p.
  - cbn [geometry_j]. rewrite Hi. destruct (lookup_lt_is_Some_2 ps j) as [q Hj]; [lia|]. rewrite Hj.
    rewrite (drop_fmap_S _ _ _ q) by done. cbn [add_lanes mark_split port_key fst snd].
    destruct (label_port p =? label_port q); cbn [negb]; [|apply IH; [lia|done]].
    erewrite IH; [|rewrite length_insert; lia|apply list_lookup_insert_eq; by eapply lookup_lt_Some].
    erewrite (key_insert i p); [|done..]. rewrite list_insert_insert_eq. done.
Qed.

Lemma add_lanes_sum l ks acc : is_u32 acc ->
  add_lanes l ks acc = u32 (acc + foldr (fun k a => k.2 + a) 0 (filter (fun k => k.1 = l) ks)).
Proof.
  revert acc. induction ks as [|k ks IH]; intros acc Ha; cbn [add_lanes].
  - cbn. by rewrite Z.add_0_r, u32_id.
  - rewrite filter_cons. destruct (Z.eqb_spec l k.1) as [->|N].
    + rewrite decide_True by done. rewrite IH by apply u32_range. cbn [foldr]. words.
    + rewrite decide_False by congruence. by apply IH.
Qed.

Lemma mark_split_after l i j ks acc : (i < j)%nat ->
  mark_split l i j ks acc = if decide (0 < length (filter (fun k => k.1 = l) ks))%nat then 1 else acc.
Proof.
  revert j acc. induction ks as [|k ks IH]; intros j acc Hj; cbn [mark_split]; [done|].
  rewrite filter_cons, (proj2 (Nat.eqb_neq i j)) by lia. rewrite IH by lia. destruct (Z.eqb_spec l k.1) as [->|N].
  - rewrite (decide_True (P := k.1 = k.1)) by done. cbn [length]. rewrite (decide_True (P := (0 < S _)%nat)) by lia.
    by case_decide.
  - by rewrite (decide_False (P := k.1 = l)) by congruence.
Qed.

Lemma mark_split_count l i j ks acc v : (j <= i)%nat -> ks !! (i - j)%nat = Some (l, v) ->
  mark_split l i j ks acc = if decide (1 < length (filter (fun k => k.1 = l) ks))%nat then 1 else acc.
Proof.
  revert j acc. induction ks as [|k ks IH]; intros j acc Hj Hi; [done|]. cbn [mark_split]. rewrite filter_cons.
  destruct (Nat.eqb_spec i j) as [->|N].
  - rewrite Nat.sub_diag in Hi. injection Hi as ->. cbn [fst]. rewrite Z.eqb_refl, (decide_True (P := l = l)) by done.
    rewrite mark_split_after by lia. cbn [length]. by repeat case_decide; try lia.
  - replace (i - j)%nat with (S (i - S j)) in Hi by lia. cbn in Hi. rewrite IH by (done || lia).
    assert (0 < length (filter (fun k => k.1 = l) ks))%nat as Hpos.
    { apply list_elem_of_lookup_2 in Hi. destruct (filter _ ks) as [|x r] eqn:E; [|cbn; lia].
      assert ((l, v) ∈ filter (fun k => k.1 = l) ks) as Hin by (by apply list_elem_of_filter).
      rewrite E in Hin. by apply elem_of_nil in Hin. }
    destruct (Z.eqb_spec l k.1) as [->|N'].
    + rewrite (decide_True (P := k.1 = k.1)) by done. cbn [length]. by repeat case_decide; try lia.
    + by rewrite (decide_False (P := k.1 = l)) by congruence.
Qed.

(** The geometry of a port of a table: the lanes of the ports with its label, and whether
    there is another one. *)
Definition siblings (ps : list nfp_eth_table_port) (p : nfp_eth_table_port) : list nfp_eth_table_port :=
  filter (fun q => label_port q = label_port p) ps.
Definition with_geometry (ps : list nfp_eth_table_port) (p : nfp_eth_table_port) : nfp_eth_table_port :=
  set_geometry p (u32 (foldr (fun q a => lanes q + a) 0 (siblings ps p)))
    (if decide (1 < length (siblings ps p))%nat then 1 else 0).

Definition fresh_port (p : nfp_eth_table_port) : Prop := port_lanes p = 0 /\ is_split p = 0.

Lemma filter_keys l (ps : list nfp_eth_table_port) : filter (fun k => k.1 = l) (port_key <$> ps) =
  port_key <$> filter (fun q => label_port q = l) ps.
Proof.
  induction ps as [|p ps IH]; [done|]. rewrite fmap_cons, !filter_cons. cbn [port_key fst].
  case_decide; [by rewrite IH|done].
Qed.

Lemma geometry_one ks ps i p : ks = port_key <$> ps -> ps !! i = Some p -> fresh_port p ->
  set_geometry p (add_lanes (label_port p) ks (port_lanes p)) (mark_split (label_port p) i 0 ks (is_split p)) =
  with_geometry ps p.
Proof.
  intros -> Hi [Hl Hs]. unfold with_geometry, siblings. rewrite Hl, Hs.
  rewrite add_lanes_sum by (unfold is_u32; lia).
  rewrite (mark_split_count _ _ _ _ _ (lanes p)); [|lia|by rewrite Nat.sub_0_r, list_lookup_fmap, Hi].
  rewrite filter_keys, length_fmap. f_equal. rewrite Z.add_0_l. f_equal.
  induction (filter _ ps) as [|q qs IH]; [done|]. cbn. by rewrite IH.
Qed.

Lemma geometry_i_run ps0 : forall n i m ps, (i + n = length ps)%nat -> port_key <$> ps = port_key <$> ps0 ->
  drop i ps = drop i ps0 -> Forall fresh_port ps0 ->
  geometry_i n i (mkEthTable m ps) =
  mkEthTable (foldl Z.max m (port_index <$> drop i ps0)) (take i ps ++ (with_geometry ps0 <$> drop i ps0)).
Proof.
  induction n as [|n IH]; intros i m ps Hn Hk Hd Hf; cbn [geometry_i ports max_index].
  - rewrite <- Hd, drop_ge, take_ge by lia. cbn. by rewrite app_nil_r.
  - destruct (lookup_lt_is_Some_2 ps i) as [p Hi]; [lia|]. rewrite Hi.
    assert (ps0 !! i = Some p) as Hi0.
    { rewrite <- (Nat.add_0_r i), <- lookup_drop, <- Hd, lookup_drop, Nat.add_0_r. done. }
    rewrite (geometry_j_run i _ 0 ps p) by (done || lia). rewrite drop_0.
    rewrite (geometry_one _ ps0) by (done || by eapply Forall_lookup_1).
    rewrite IH; [|rewrite length_insert; lia|by erewrite key_insert| |done].
    + rewrite (drop_S ps0 p i) by done. cbn [fmap list_fmap foldl]. f_equal.
      rewrite (take_S_r _ i (with_geometry ps0 p)) by (apply list_lookup_insert_eq; by eapply lookup_lt_Some).
      rewrite take_insert_ge by lia. by rewrite <- app_assoc.
    + rewrite drop_insert_lt by lia. rewrite !(drop_S _ p i) in Hd by done. by injection Hd.
Qed.

(** The loops compute the geometry of every port. *)
Lemma calc_geometry ps : Forall fresh_port ps ->
  nfp_eth_calc_port_geometry (mkEthTable 0 ps) =
  mkEthTable (foldl Z.max 0 (port_index <$> ps)) (with_geometry ps <$> ps).
Proof. intros. unfold nfp_eth_calc_port_geometry. by rewrite (geometry_i_run ps) by (done || cbn; lia). Qed.

(** ** The table *)

(** The entries in use with their indices. *)
Definition present (entries : list eth_table_entry) : list (Z * eth_table_entry) :=
  filter (fun ie => lanes_present ie.2) (imap (fun i e => (Z.of_nat i, e)) entries).

Lemma translate_present nsp entries : forall i, translate_loop nsp (Z.of_nat i) entries =
  (fun ie => nfp_eth_port_translate nsp ie.2 ie.1) <$>
    filter (fun ie => lanes_present ie.2) (imap (fun k e => (Z.of_nat (i + k), e)) entries).
Proof.
  induction entries as [|e entries IH]; intros i; [done|]. cbn [translate_loop imap].
  rewrite filter_cons. cbn [snd]. replace (Z.of_nat i + 1) with (Z.of_nat (S i)) by lia. rewrite IH.
  assert (imap ((fun k e => (Z.of_nat (i + k), e)) ∘ S) entries = imap (fun k e => (Z.of_nat (S i + k), e)) entries) as ->.
  { apply imap_ext. intros k x _. cbn. do 2 f_equal. lia. }
  rewrite Nat.add_0_r. destruct (lanes_present e); cbn [Is_true]; [|by rewrite decide_False by naive_solver].
  by rewrite decide_True by done.
Qed.

Lemma count_present_imap (f : nat -> Z) entries :
  length (filter (fun ie => lanes_present ie.2) (imap (fun i e => (f i, e)) entries)) = count_present entries.
Proof.
  unfold count_present. revert f. induction entries as [|e entries IH]; intros f; [done|].
  cbn [imap]. rewrite !filter_cons. cbn [snd]. specialize (IH (fun i => f (S i))).
  case_decide; cbn [length]; [f_equal|]; exact IH.
Qed.

Lemma count_present_length entries : length (present entries) = count_present entries.
Proof. apply (count_present_imap Z.of_nat). Qed.

Definition table_of_entries (nsp : nfp_nsp) (entries : list eth_table_entry) : nfp_eth_table :=
  let ps := (fun ie => nfp_eth_port_translate nsp ie.2 ie.1) <$> present entries in
  mkEthTable (foldl Z.max 0 (port_index <$> ps)) ((fun p => nfp_eth_calc_port_type (with_geometry ps p)) <$> ps).

Lemma read_table nsp entries :
  let table := nfp_eth_calc_port_geometry (mkEthTable 0 (translate_loop nsp 0 entries)) in
  mkEthTable (max_index table) (nfp_eth_calc_port_type <$> ports table) = table_of_entries nsp entries.
Proof.
  cbv zeta. change (translate_loop nsp 0 entries) with (translate_loop nsp (Z.of_nat 0) entries).
  rewrite translate_present. cbn [Nat.add].
  rewrite calc_geometry.
  - cbn [max_index ports]. unfold table_of_entries, present. f_equal.
    symmetry. apply (list_fmap_compose (with_geometry _) nfp_eth_calc_port_type).
  - apply Forall_fmap, Forall_forall. intros x _. by split.
Qed.

(** C37 (functional): the table of ports read from a processor has, in the order of the
    entries, a port for each entry with lanes, with its fields, the lanes of all the
    ports that share its label, whether there is another one, its connector, and the
    largest index; there is no table when the processor reports an error or a count of
    ports that is neither 0 nor theirs. *)
Theorem eth_read_ports_table nsp c p st :
  config_ok c -> attached nsp c -> sp_cfg p = c -> idle p -> 13 <= ver_minor nsp -> 1 <= sp_mb c ->
  let m := filled c (sp_mem p) [] NSP_ETH_TABLE_SIZE in
  let answer := sp_serve c (spcode SPCODE_ETH_RESCAN) NSP_ETH_TABLE_SIZE (sp_addr c) m in
  answer_ok answer ->
  let entries := entries_of_bytes (load answer.2 (sp_addr c) NSP_ETH_TABLE_SIZE) in
  let nsp' := with_version (sp_minor c) nsp in
  let ret := answer_ret answer in
  exists p',
    crun (__nfp_eth_read_ports true nsp st) p =
      ((Returns (if (ret =? 0) || (ret =? Z.of_nat (length (present entries)))
                 then Some (table_of_entries nsp' entries) else None, nsp'), st), p') /\
    idle p' /\ sp_log p' = sp_log p ++ [(spcode SPCODE_ETH_RESCAN, NSP_ETH_TABLE_SIZE)].
Proof.
  intros Hc Hat E Hi Hv Hmb m answer Ha entries nsp' ret.
  assert (buf_size (Some (replicate (Z.to_nat NSP_ETH_TABLE_SIZE) 0)) = NSP_ETH_TABLE_SIZE) as Hs
    by (unfold buf_size; cbn [default from_option id]; rewrite length_replicate; done).
  destruct (command_buf_run nsp c Hc Hat p st (spcode SPCODE_ETH_RESCAN) NSP_ETH_TABLE_SIZE None
    (Some (replicate (Z.to_nat NSP_ETH_TABLE_SIZE) 0))) as (ob & p' & R & Hob & _ & Hi' & _ & Hl);
    [assumption..|by vm_compute|by vm_compute| | |].
  { rewrite Hs. unfold buf_size, NSP_ETH_TABLE_SIZE in *. cbn. lia. }
  { rewrite Hs. exact Ha. }
  rewrite Hs in R, Hob. cbn [default from_option id] in R, Hob. fold m answer ret in R, Hob.
  exists p'. split; [|done]. unfold __nfp_eth_read_ports. cbn [negb]. rewrite rrun_bind.
  unfold nfp_nsp_read_eth_table. 
  change (nfp_nsp_command_buf nsp ?a ?b None 0 ?d ?e) with (nfp_nsp_command_buf nsp a b None (buf_size None) d e).
  rewrite R. rewrite count_present_length.
  destruct (Z.ltb_spec ret 0).
  { rewrite rrun_ret, (proj2 (Z.eqb_neq ret 0)), (proj2 (Z.eqb_neq ret _)) by lia. done. }
  rewrite Hob by done. cbn [fmap option_fmap option_map default from_option id]. fold entries.
  rewrite read_table, <- negb_orb. destruct ((ret =? 0) || _); cbn [negb]; apply rrun_ret.
Qed.

(** A split port: two entries with a lane each and one label. *)
Definition ex_entries : list eth_table_entry :=
  [mkEthEntry 0x0000000000000001 0xa403 0x060504030201 0; mkEthEntry 0x0001000000000101 0xa403 0x060504030202 0].
Definition ex_eth_cfg : nsp_config := mkNspConfig 0x700 0x1000 20 0x70300 0x40000 1 3 5
  (fun code option addr m => (0, 2, store m addr (bytes_of_entries ex_entries))).
Definition ex_eth_proc : processor := mkProcessor ex_eth_cfg (fun _ => 0) 0 0 0 0 0 [].

Lemma ex_eth_cfg_ok : config_ok ex_eth_cfg.
Proof. by split; cbn; try lia; exists 0x703. Qed.

Lemma eth_read_ports_table_witness : exists table nsp p',
  crun (__nfp_eth_read_ports true ex_nsp (mkStore ∅ 0)) ex_eth_proc =
    ((Returns (Some table, nsp), mkStore ∅ 0), p') /\
  max_index table = 1 /\
  (fun q => (port_lanes q, is_split q, port_speed q)) <$> ports table = [(2, 1, 10000); (2, 1, 10000)].
Proof.
  destruct (eth_read_ports_table ex_nsp ex_eth_cfg ex_eth_proc (mkStore ∅ 0) ex_eth_cfg_ok (conj eq_refl eq_refl))
    as (p' & E & _).
  - done.
  - split_and!; by cbn.
  - by vm_compute.
  - by vm_compute.
  - split; by vm_compute.
  - assert (exists x, x = entries_of_bytes (load (store (filled ex_eth_cfg (fun _ => 0) [] NSP_ETH_TABLE_SIZE) 0x40000
      (bytes_of_entries ex_entries)) 0x40000 NSP_ETH_TABLE_SIZE) /\ length (present x) = 2%nat) as (x & Ex & Hx)
      by (eexists; split; [reflexivity|by vm_compute]).
    eexists _, _, p'. split; [refine (eq_trans E _)|].
    + cbn [sp_cfg ex_eth_proc sp_serve ex_eth_cfg sp_mem sp_addr snd fst answer_ret].
      match goal with |- context [entries_of_bytes ?y] => change (entries_of_bytes y) with
        (entries_of_bytes (load (store (filled ex_eth_cfg (fun _ => 0) [] NSP_ETH_TABLE_SIZE) 0x40000
          (bytes_of_entries ex_entries)) 0x40000 NSP_ETH_TABLE_SIZE)) end.
      rewrite <- Ex, Hx. reflexivity.
    + rewrite Ex. split; by vm_compute.
Defined.

(** ** Setting a field *)

Lemma masked_set reg lo w val mask : mask = field_mask lo w -> 0 <= lo -> 0 <= w -> lo + w <= 32 ->
  is_u64 reg -> 0 <= val < 2 ^ w ->
  Z.lor (Z.land reg (u64 (Z.lnot mask))) (Z.land (u32 (Z.shiftl val lo)) mask) = set_field reg lo w val.
Proof.
  intros -> Hlo Hw H32 Hr Hv. unfold u32, u64, is_u64 in *. change 0x100000000 with (2 ^ 32).
  change 0x10000000000000000 with (2 ^ 64) in *. bits_ext i. rewrite testbit_set_field, testbit_field_mask by lia.
  destruct (Z.ltb_spec i 64).
  - rewrite Z.mod_pow2_bits_low, Z.lnot_spec, testbit_field_mask by lia.
    destruct (Z.leb_spec lo i), (Z.ltb_spec i (lo + w)); cbn [andb negb];
      rewrite ?andb_false_r, ?andb_true_r, ?orb_false_r; try done.
    rewrite Z.mod_pow2_bits_low, Z.shiftl_spec by lia. done.
  - rewrite (testbit_small reg 64) by lia. cbn [andb orb].
    destruct (Z.ltb_spec i (lo + w)); [lia|]. rewrite andb_false_r. apply andb_false_r.
Qed.

(** What a setter leaves: the entry as it was, or the changed one and a handle to commit. *)
Definition entry_set (nsp nsp' : nfp_nsp) (e e' : eth_table_entry) : Prop :=
  nsp_entry (nsp_idx nsp) nsp' = Some e' /\
  (forall k, k <> Z.to_nat (nsp_idx nsp) ->
     (fun es : list eth_table_entry => es !! k) <$> nsp_entries nsp' = (fun es : list eth_table_entry => es !! k) <$> nsp_entries nsp) /\
  (e' <> e -> nsp_modified nsp' = 1) /\ (e' = e -> nsp' = nsp).

Definition with_field (raw_idx : nfp_eth_raw) (lo w val ctrl : Z) (e : eth_table_entry) : eth_table_entry :=
  if get_field (entry_raw raw_idx e) lo w =? val then e
  else set_control (Z.lor (raw_control e) ctrl) (set_raw raw_idx (set_field (entry_raw raw_idx e) lo w val) e).

Lemma set_bit_run nsp raw_idx mask lo w val ctrl e : mask = field_mask lo w -> bf_shf mask = lo ->
  0 <= lo -> 0 <= w -> lo + w <= 32 -> is_u64 (entry_raw raw_idx e) -> 0 <= val < 2 ^ w ->
  17 <= ver_minor nsp -> nsp_entry (nsp_idx nsp) nsp = Some e ->
  exists nsp', NFP_ETH_SET_BIT_CONFIG nsp raw_idx mask val ctrl = Some (0, nsp') /\
    entry_set nsp nsp' e (with_field raw_idx lo w val ctrl e).
Proof.
  intros Hm Hs Hlo Hw H32 Hr Hv Hver He. unfold NFP_ETH_SET_BIT_CONFIG, nfp_eth_set_bit_config.
  unfold nfp_nsp_get_abi_ver_minor, nfp_nsp_config_idx. rewrite (proj2 (Z.ltb_ge _ _)), He, Hs by lia.
  assert (Z.shiftr (Z.land (entry_raw raw_idx e) mask) lo = get_field (entry_raw raw_idx e) lo w) as ->
    by (pose proof (field_get mask lo w (entry_raw raw_idx e) Hm Hs Hlo Hw) as G; unfold FIELD_GET in G;
        rewrite Hs in G; exact G).
  unfold with_field. rewrite (Z.eqb_sym val).
  destruct (Z.eqb_spec (get_field (entry_raw raw_idx e) lo w) val) as [Eq|Ne].
  { exists nsp. split; [done|]. unfold entry_set. by split_and!. }
  eexists. split; [reflexivity|]. rewrite (masked_set _ lo w) by done.
  replace (raw_control (set_raw _ _ e)) with (raw_control e) by (by destruct raw_idx).
  set (e' := set_control _ _). assert (e' <> e) as Hne.
  { intros E. apply Ne. rewrite <- E. subst e'. destruct raw_idx; cbn [entry_raw set_control set_raw raw_port raw_state];
      by apply get_set_same. }
  unfold entry_set, nsp_entry, nfp_nsp_config_entries, nsp_set_entry in *. cbn [nsp_entries nsp_modified].
  destruct (nsp_entries nsp) as [es|]; [|done]. cbn [fmap option_fmap option_map]. split_and!; [| |done|done].
  - apply list_lookup_insert_eq. by eapply lookup_lt_Some.
  - intros k Hk. by rewrite list_lookup_insert_ne.
Qed.

Definition set_port_aneg (v : Z) (p : nfp_eth_table_port) : nfp_eth_table_port :=
  mkPort (eth_index p) (port_index p) (port_nbi p) (port_base p) (lanes p) (port_speed p) (port_interface p)
    (port_media p) (port_fec p) v (mac_addr p) (label_port p) (label_subport p) (enabled p)
    (tx_enabled p) (rx_enabled p) (override_changed p) (port_type p) (port_lanes p) (is_split p) (fec_modes_supported p).
Definition set_port_fec (v : Z) (p : nfp_eth_table_port) : nfp_eth_table_port :=
  mkPort (eth_index p) (port_index p) (port_nbi p) (port_base p) (lanes p) (port_speed p) (port_interface p)
    (port_media p) v (port_aneg p) (mac_addr p) (label_port p) (label_subport p) (enabled p)
    (tx_enabled p) (rx_enabled p) (override_changed p) (port_type p) (port_lanes p) (is_split p) (fec_modes_supported p).
Definition set_port_speed (v : Z) (p : nfp_eth_table_port) : nfp_eth_table_port :=
  mkPort (eth_index p) (port_index p) (port_nbi p) (port_base p) (lanes p) v (port_interface p)
    (port_media p) (port_fec p) (port_aneg p) (mac_addr p) (label_port p) (label_subport p) (enabled p)
    (tx_enabled p) (rx_enabled p) (override_changed p) (port_type p) (port_lanes p) (is_split p) (fec_modes_supported p).
Definition set_port_lanes (n speed : Z) (p : nfp_eth_table_port) : nfp_eth_table_port :=
  mkPort (eth_index p) (port_index p) (port_nbi p) (port_base p) n speed (port_interface p)
    (port_media p) (port_fec p) (port_aneg p) (mac_addr p) (label_port p) (label_subport p) (enabled p)
    (tx_enabled p) (rx_enabled p) (override_changed p) (port_type p) (port_lanes p) (is_split p) (fec_modes_supported p).

(** The driver's view of a port, its fields as fields. *)
Ltac port_fields :=
  repeat match goal with
  | |- context [FIELD_GET ?m ?x] =>
      let lo := eval vm_compute in (bf_shf m) in
      let w := eval vm_compute in (Z.log2 m - lo + 1) in
      rewrite (field_get m lo w x) by (done || lia)
  end.

(** Fields of the words of an entry with one field set. *)
Ltac read_back :=
  unfold with_field; match goal with |- context [if ?g =? ?v then _ else _] => destruct (Z.eqb_spec g v) as [Hget|Hget] end;
  unfold nfp_eth_port_translate; cbn [set_control set_raw entry_raw raw_port raw_state raw_mac raw_control] in *;
  port_fields; rewrite ?get_set_same by lia; repeat rewrite get_set_other by lia;
  unfold nfp_nsp_get_abi_ver_minor; rewrite !(proj2 (Z.ltb_ge _ _)) by lia; cbn [negb andb]; try match goal with H : get_field _ _ _ = _ |- _ => rewrite H end.

Ltac set_at raw mask lo w val ctrl e nsp' E :=
  match goal with He : nsp_entry (nsp_idx ?nsp) ?nsp = Some e |- _ =>
    let R := fresh in
    destruct (set_bit_run nsp raw mask lo w val ctrl e) as (nsp' & R & E); try done; try lia;
    exists nsp', (with_field raw lo w val ctrl e); split; [exact R|]; split; [exact E|]; clear R E; cbn beta
  end.

(** C38 (roundtrip): setting auto-negotiation, error correction, the lane speed or the
    lanes of a port, and reading the changed entry as a port again: only what was set
    differs, and has the value set (for error correction, its bit); no other entry
    changes, and there is something to commit exactly when the entry changed. *)
Theorem eth_set_then_read nsp e :
  nsp_entry (nsp_idx nsp) nsp = Some e -> 22 <= ver_minor nsp -> is_u64 (raw_port e) -> is_u64 (raw_state e) ->
  let view e := nfp_eth_port_translate nsp e (nsp_idx nsp) in
  (forall mode, 0 <= mode < 8 -> exists nsp' e', __nfp_eth_set_aneg nsp mode = Some (0, nsp') /\
     entry_set nsp nsp' e e' /\ view e' = set_port_aneg mode (view e)) /\
  (forall mode, 0 <= mode < 4 -> exists nsp' e', __nfp_eth_set_fec nsp mode = Some (0, nsp') /\
     entry_set nsp nsp' e e' /\ view e' = set_port_fec (2 ^ mode) (view e)) /\
  (forall speed, speed ∈ [10; 100; 1000; 10000; 25000] ->
     exists nsp' e', __nfp_eth_set_speed nsp speed = Some (0, nsp') /\
     entry_set nsp nsp' e e' /\ view e' = set_port_speed (lanes (view e) * speed) (view e)) /\
  (forall n, 0 <= n < 16 -> exists nsp' e', __nfp_eth_set_split nsp n = Some (0, nsp') /\
     entry_set nsp nsp' e e' /\
     view e' = set_port_lanes n (n * nfp_eth_rate2speed (FIELD_GET NSP_ETH_STATE_RATE (raw_state e))) (view e)).
Proof.
  intros He Hver Hp Hs view.
  assert (0 <= get_field (raw_port e) 0 4 < 2 ^ 4) as Hl by (by apply get_field_range).
  split_and!.
  - intros mode Hm. set_at NSP_ETH_RAW_STATE NSP_ETH_STATE_ANEG 23 3 mode NSP_ETH_CTRL_SET_ANEG e nsp' E.
    subst view. read_back; reflexivity.
  - intros mode Hm. set_at NSP_ETH_RAW_STATE NSP_ETH_STATE_FEC 26 2 mode NSP_ETH_CTRL_SET_FEC e nsp' E.
    subst view. read_back; rewrite Z.shiftl_1_l; reflexivity.
  - intros speed Hsp.
    assert (exists r, nfp_eth_speed2rate speed = r /\ 0 < r < 2 ^ 4 /\ nfp_eth_rate2speed r = speed /\ 0 <= speed <= 25000)
      as (r & Er & Hr & Es & Hb).
    { repeat (apply elem_of_cons in Hsp as [->|Hsp]; [eexists; split; [reflexivity|]; vm_compute; intuition congruence|]).
      by apply elem_of_nil in Hsp. }
    unfold __nfp_eth_set_speed. rewrite Er. change (rate_no RATE_INVALID) with 0. rewrite (proj2 (Z.eqb_neq r 0)) by lia.
    set_at NSP_ETH_RAW_STATE NSP_ETH_STATE_RATE 8 4 r NSP_ETH_CTRL_SET_RATE e nsp' E.
    subst view. read_back; unfold set_port_speed; cbn [lanes]; rewrite Es, u32_id by (unfold is_u32; nia); reflexivity.
  - intros n Hn. assert (0 <= nfp_eth_rate2speed (FIELD_GET NSP_ETH_STATE_RATE (raw_state e)) <= 25000) as Hrate.
    { unfold nfp_eth_rate2speed. cbn [list_find nsp_eth_rate_tbl]. repeat case_decide; cbn; lia. }
    set_at NSP_ETH_RAW_PORT NSP_ETH_PORT_LANES 0 4 n NSP_ETH_CTRL_SET_LANES e nsp' E. subst view.
    rewrite (field_get NSP_ETH_STATE_RATE 8 4) in * by (done || lia).
    read_back; rewrite ?u32_id by (unfold is_u32; nia); reflexivity.
Qed.

Definition ex_eth_nsp : nfp_nsp := mkNsp (mkResource [] 0x700 0x1000 0 0) 0 22 0 1 (Some ex_entries).

Lemma eth_set_then_read_witness : exists nsp' e',
  __nfp_eth_set_fec ex_eth_nsp 2 = Some (0, nsp') /\ nsp_entry 1 nsp' = Some e' /\ nsp_modified nsp' = 1 /\
  port_fec (nfp_eth_port_translate ex_eth_nsp e' 1) = 4.
Proof.
  destruct (eth_set_then_read ex_eth_nsp (mkEthEntry 0x0001000000000101 0xa403 0x060504030202 0)) as (_ & H & _).
  - done.
  - by vm_compute.
  - by vm_compute.
  - by vm_compute.
  - destruct (H 2 ltac:(lia)) as (nsp' & e' & E & (En & _ & Hm & _) & Hv). exists nsp', e'.
    split; [exact E|]. split; [exact En|]. split.
    + apply Hm. intros ->. apply (f_equal port_fec) in Hv. by vm_compute in Hv.
    + apply (f_equal port_fec) in Hv. exact Hv.
Defined.
