(* ===== verification/Socket.v ===== *)
(** * Programs over a stream socket

    The client shim and the device server talk over a UNIX stream socket with [read] and
    [write].  A program is a tree of these calls; a connection runs two of them against
    each other over two byte queues.  The kernel's part is documented behaviour: a
    [write] takes a prefix of its buffer, a [read] returns a prefix of what has arrived, or
    nothing once the other end is closed.  How much is an oracle, with a restriction beyond
    what the kernel documents ([taken]): at least eight bytes where there are as many, so
    that a word of the protocol, which the programs do not ask for again, is not split. *)

From S2P Require Export Bytes.

Local Open Scope Z_scope.

(** [None] is the result [-1]. [SSpin] is a loop that never ends. *)
Inductive sprog (A : Type) : Type :=
| SRet (a : A)
| SRead (n : Z) (k : option (list Z) -> sprog A)
| SWrite (bs : list Z) (k : option Z -> sprog A)
| SClose (k : sprog A)
| SSpin.
Arguments SRet {A}.
Arguments SRead {A}.
Arguments SWrite {A}.
Arguments SClose {A}.
Arguments SSpin {A}.

Fixpoint sbind {A B} (m : sprog A) (f : A -> sprog B) : sprog B :=
  match m with
  | SRet a => f a
  | SRead n k => SRead n (fun r => sbind (k r) f)
  | SWrite bs k => SWrite bs (fun r => sbind (k r) f)
  | SClose k => SClose (sbind k f)
  | SSpin => SSpin
  end.

Declare Scope sprog_scope.
Notation "'let%' x ':=' m 'in' f" := (sbind m (fun x => f))
  (at level 60, x pattern, right associativity) : sprog_scope.
Local Open Scope sprog_scope.

(** [ret < sizeof(x)] with [ret] an [int] or [ssize_t]: the comparison is unsigned, so
    [-1] is not less. *)
Definition read_short (r : option (list Z)) (n : Z) : bool :=
  match r with Some bs => Z.of_nat (length bs) <? n | None => false end.
Definition write_short (r : option Z) (n : Z) : bool :=
  match r with Some m => m <? n | None => false end.

(** A buffer after its first bytes are replaced. *)
Definition read_into (r : option (list Z)) (buf : list Z) : list Z :=
  match r with Some bs => bs ++ drop (length bs) buf | None => buf end.

(** A 64-bit variable read into. *)
Definition read_word (r : option (list Z)) (old : Z) : Z := le_combine (read_into r (le_split 8 old)).

(** ** Connections *)

Section Session.
Context {C D : Type} (handler : D -> sprog (Z * D)) (chunk : nat -> nat).

(** The client, the server between or inside requests, the bytes in flight, whether each
    end is open, and the time. *)
Record session := mkSession {
  s_client : sprog C;
  s_server : sprog (Z * D);
  s_up : list Z;
  s_down : list Z;
  s_client_open : bool;
  s_server_open : bool;
  s_time : nat }.

(** What a call takes of [n] bytes: all of a word or a short buffer, of a longer one at
    least eight bytes. *)
Definition taken (t n : nat) : nat := Nat.min n (8 + chunk t).

Definition session_step (s : session) : option session :=
  let t := s_time s in
  let server :=
    match s_server s with
    | SRet (ret, d) =>
        if s_server_open s then
          if ret <? 0 then Some (mkSession (s_client s) (s_server s) (s_up s) (s_down s) (s_client_open s) false (S t))
          else if bool_decide (s_up s = []) then None
          else Some (mkSession (s_client s) (handler d) (s_up s) (s_down s) (s_client_open s) true (S t))
        else None
    | SWrite bs k =>
        let m := taken t (length bs) in
        if s_client_open s then
          Some (mkSession (s_client s) (k (Some (Z.of_nat m))) (s_up s) (s_down s ++ take m bs)
                  (s_client_open s) (s_server_open s) (S t))
        else Some (mkSession (s_client s) (k None) (s_up s) (s_down s) (s_client_open s) (s_server_open s) (S t))
    | SRead n k =>
        if bool_decide (s_up s = []) then
          if s_client_open s then None
          else Some (mkSession (s_client s) (k (Some [])) (s_up s) (s_down s) false (s_server_open s) (S t))
        else
          let m := taken t (Nat.min (Z.to_nat n) (length (s_up s))) in
          Some (mkSession (s_client s) (k (Some (take m (s_up s)))) (drop m (s_up s)) (s_down s)
                  (s_client_open s) (s_server_open s) (S t))
    | SClose k => Some (mkSession (s_client s) k (s_up s) (s_down s) (s_client_open s) false (S t))
    | SSpin => None
    end in
  match s_client s with
  | SRet _ | SSpin => server
  | SWrite bs k =>
      let m := taken t (length bs) in
      if s_server_open s then
        Some (mkSession (k (Some (Z.of_nat m))) (s_server s) (s_up s ++ take m bs) (s_down s)
                (s_client_open s) (s_server_open s) (S t))
      else Some (mkSession (k None) (s_server s) (s_up s) (s_down s) (s_client_open s) (s_server_open s) (S t))
  | SRead n k =>
      if bool_decide (s_down s = []) then
        if s_server_open s then server
        else Some (mkSession (k (Some [])) (s_server s) (s_up s) (s_down s) (s_client_open s) false (S t))
      else
        let m := taken t (Nat.min (Z.to_nat n) (length (s_down s))) in
        Some (mkSession (k (Some (take m (s_down s)))) (s_server s) (s_up s) (drop m (s_down s))
                (s_client_open s) (s_server_open s) (S t))
  | SClose k => Some (mkSession k (s_server s) (s_up s) (s_down s) false (s_server_open s) (S t))
  end.

(** The connection run until it stops, [None] when [fuel] steps are not enough. *)
Fixpoint session_run (fuel : nat) (s : session) : option session :=
  match session_step s with
  | None => Some s
  | Some s' => match fuel with O => None | S fuel => session_run fuel s' end
  end.
End Session.
Arguments mkSession {C D}.
Arguments s_client {C D}.
Arguments s_server {C D}.
Arguments s_up {C D}.
Arguments s_down {C D}.
Arguments s_client_open {C D}.
Arguments s_server_open {C D}.
Arguments s_time {C D}.
