(* ===== verification/CppDev.v ===== *)
(** * The device server ([nfp_cpp_dev.c], [nfp_cpp_dev_ops.c])

    A process that serves reads and writes of the CPP bus, and a few queries, to clients
    on a socket.  A request is handled by a program over the client's socket whose state
    is the handle of the CPP core and the list of registered areas.  Allocations are
    taken to succeed. *)

From S2P Require Export CppCore Socket Nsp.

Local Open Scope Z_scope.
Local Open Scope sprog_scope.

Inductive op_type := OP_UNUSED | OP_PREAD | OP_PWRITE | OP_IOCTL.

Definition op_no (op : op_type) : Z :=
  match op with OP_UNUSED => 0 | OP_PREAD => 1 | OP_PWRITE => 2 | OP_IOCTL => 3 end.

Definition NFP_CPP_MEMIO_BOUNDARY : Z := Z.shiftl 1 20.
Definition PAGE_SHIFT : Z := 12.
Definition PAGE_SIZE : Z := Z.shiftl 1 PAGE_SHIFT.
Definition PAGE_MASK : Z := Z.lnot (PAGE_SIZE - 1).

(** ** Request structures *)

Record nfp_cpp_area_request := mkAreaReq {
  ar_offset : Z;
  ar_cpp_id : Z;
  ar_cpp_addr : Z;
  ar_size : Z }.

(** 32 bytes, [pad] the four after the identifier. *)
Definition area_request_bytes (pad : list Z) (r : nfp_cpp_area_request) : list Z :=
  le_split 8 (ar_offset r) ++ le_split 4 (ar_cpp_id r) ++ pad ++ le_split 8 (ar_cpp_addr r) ++ le_split 8 (ar_size r).
Definition area_request_pad (bs : list Z) : list Z := slice 12 4 bs.
Definition area_request_of_bytes (bs : list Z) : nfp_cpp_area_request :=
  mkAreaReq (le_combine (slice 0 8 bs)) (le_combine (slice 8 4 bs)) (le_combine (slice 16 8 bs))
    (le_combine (slice 24 8 bs)).
Definition sizeof_area_request : Z := 32.

Record nfp_cpp_identification := mkIdent {
  idn_size : Z;
  idn_model : Z;
  idn_interface : Z;
  idn_serial_lo : Z;
  idn_serial_hi : Z }.

Definition ident_bytes (i : nfp_cpp_identification) : list Z :=
  le_split 4 (idn_size i) ++ le_split 4 (idn_model i) ++ le_split 4 (idn_interface i) ++
  le_split 4 (idn_serial_lo i) ++ le_split 4 (idn_serial_hi i).
Definition ident_of_bytes (bs : list Z) : nfp_cpp_identification :=
  mkIdent (le_combine (slice 0 4 bs)) (le_combine (slice 4 4 bs)) (le_combine (slice 8 4 bs))
    (le_combine (slice 12 4 bs)) (le_combine (slice 16 4 bs)).
Definition sizeof_ident : Z := 20.
Definition sizeof_explicit_request : Z := 168.

(** The numbers of the requests: direction, size, type 'n' and number. *)
Definition _IOC (dir nr size : Z) : Z :=
  Z.lor (Z.lor (Z.shiftl dir 30) (Z.shiftl size 16)) (Z.lor (Z.shiftl 0x6e 8) nr).
Definition NFP_IOCTL_CPP_AREA_REQUEST : Z := _IOC 3 0x80 sizeof_area_request.
Definition NFP_IOCTL_CPP_AREA_RELEASE : Z := _IOC 1 0x81 sizeof_area_request.
Definition NFP_IOCTL_CPP_AREA_RELEASE_OBSOLETE : Z := _IOC 1 0x81 8.
Definition NFP_IOCTL_CPP_EXPL_REQUEST : Z := _IOC 1 0x82 sizeof_explicit_request.
Definition NFP_IOCTL_CPP_EVENT_ACQUIRE : Z := _IOC 1 0x83 16.
Definition NFP_IOCTL_CPP_EVENT_RELEASE : Z := _IOC 1 0x84 16.
Definition NFP_FIRMWARE_MAX : Z := 256.
Definition NFP_IOCTL_FIRMWARE_LOAD : Z := _IOC 1 0x8d NFP_FIRMWARE_MAX.
Definition NFP_IOCTL_FIRMWARE_LAST : Z := _IOC 2 0x8e NFP_FIRMWARE_MAX.
Definition NFP_IOCTL_CPP_IDENTIFICATION : Z := _IOC 1 0x8f 4.

(** ** Registered areas *)

Section Dev.
Context {S P : Type} `{Op : nfp_cpp_operations S P}.

(** What [snprintf] makes of "cdev@0x%lx" for an offset. *)
Context (cdev_name : Z -> string).

Record nfp_dev_cpp_area := mkDevArea {
  da_interface : Z;
  da_req : nfp_cpp_area_request;
  da_area : nfp_cpp_area P;
  da_vmas : list unit }.

(** The part of the server's data that requests use. *)
Record nfp_cpp_dev_data := mkDevData {
  cd_cpp : nfp_cpp S;
  cd_req : list nfp_dev_cpp_area }.

Definition cd_set_cpp (cpp : nfp_cpp S) (data : nfp_cpp_dev_data) : nfp_cpp_dev_data := mkDevData cpp (cd_req data).

Definition areas_collide (area area_req : nfp_cpp_area_request) : bool :=
  (ar_offset area_req <? u64 (ar_offset area + ar_size area)) &&
  (u64 (ar_offset area_req + ar_size area_req) >? ar_offset area).

Fixpoint nfp_dev_cpp_range_check (req_list : list nfp_dev_cpp_area) (area_req : nfp_cpp_area_request) : Z :=
  match req_list with
  | [] => 0
  | area :: req_list =>
      if areas_collide (da_req area) area_req then - ETXTBSY else nfp_dev_cpp_range_check req_list area_req
  end.

Definition nfp_dev_cpp_area_alloc (cdev : nfp_cpp_dev_data) (interface : Z) (area_req : nfp_cpp_area_request)
    : Z * nfp_cpp_dev_data :=
  match nfp_cpp_area_alloc_with_name (cd_cpp cdev) (ar_cpp_id area_req) (Some (cdev_name (ar_offset area_req)))
          (ar_cpp_addr area_req) (ar_size area_req) with
  | (None, cpp) => (- EINVAL, cd_set_cpp cpp cdev)
  | (Some cpp_area, cpp) =>
      (0, mkDevData cpp (cd_req cdev ++ [mkDevArea interface area_req cpp_area []]))
  end.

(** [nfp_dev_cpp_area_free] of the entry at [i]. *)
Definition nfp_dev_cpp_area_free (i : nat) (data : nfp_cpp_dev_data) : nfp_cpp_dev_data :=
  match cd_req data !! i with
  | None => data
  | Some area => mkDevData (nfp_cpp_area_free (da_area area) (cd_cpp data)) (delete i (cd_req data))
  end.

Definition set_offset (offset : Z) (r : nfp_cpp_area_request) : nfp_cpp_area_request :=
  mkAreaReq offset (ar_cpp_id r) (ar_cpp_addr r) (ar_size r).

(** [list_for_each_entry]: the offset past each area in turn, until one is free. *)
Fixpoint place_loop (areas req_list : list nfp_dev_cpp_area) (err : Z) (area_req : nfp_cpp_area_request)
    : Z * nfp_cpp_area_request :=
  match areas with
  | [] => (err, area_req)
  | area :: areas =>
      let area_req := set_offset (u64 (ar_offset (da_req area) + ar_size (da_req area))) area_req in
      let err := nfp_dev_cpp_range_check req_list area_req in
      if err =? 0 then (err, area_req) else place_loop areas req_list err area_req
  end.

Definition do_cpp_area_request (data : nfp_cpp_dev_data) (interface : Z) (area_req : nfp_cpp_area_request)
    : Z * nfp_cpp_area_request * nfp_cpp_dev_data :=
  if negb (Z.land (ar_size area_req) (u64 (Z.lnot PAGE_SIZE)) =? 0) then (- EINVAL, area_req, data)
  else if negb (ar_offset area_req =? u64 (-1)) && negb (Z.land (ar_offset area_req) (Z.lnot PAGE_MASK) =? 0)
  then (- EINVAL, area_req, data)
  else
    let '(err, area_req) :=
      if ar_offset area_req =? u64 (-1) then
        let area_req := set_offset 0 area_req in
        let err := nfp_dev_cpp_range_check (cd_req data) area_req in
        if err <? 0 then place_loop (cd_req data) (cd_req data) err area_req else (err, area_req)
      else (0, area_req) in
    if err >=? 0 then
      let err := nfp_dev_cpp_range_check (cd_req data) area_req in
      if err >=? 0 then
        let '(err, data) := nfp_dev_cpp_area_alloc data interface area_req in (err, area_req, data)
      else (err, area_req, data)
    else (err, area_req, data).

(** The first area at the offset, freed unless it is mapped. *)
Definition do_cpp_area_release (data : nfp_cpp_dev_data) (area_req : nfp_cpp_area_request) : Z * nfp_cpp_dev_data :=
  match list_find (fun area => ar_offset (da_req area) = ar_offset area_req) (cd_req data) with
  | None => (- ENOENT, data)
  | Some (i, area) =>
      match da_vmas area with
      | [] => (0, nfp_dev_cpp_area_free i data)
      | _ => (- EBUSY, data)
      end
  end.

Definition do_cpp_expl_request : Z := - EINVAL.

(** ** Identification *)

Definition do_cpp_identification (cpp : nfp_cpp S) (model : Z) (ident : nfp_cpp_identification) : nfp_cpp_identification :=
  let size := idn_size ident in
  let total := 4 in
  let '(ident, total) :=
    if size >=? 8 then (mkIdent size model (idn_interface ident) (idn_serial_lo ident) (idn_serial_hi ident), 8)
    else (ident, total) in
  let '(ident, total) :=
    if size >=? 12 then
      (mkIdent size (idn_model ident) (nfp_cpp_interface cpp) (idn_serial_lo ident) (idn_serial_hi ident), 12)
    else (ident, total) in
  let '(ident, total) :=
    if size >=? 20 then
      let serial i := nth i (cpp_serial cpp) 0 in
      (mkIdent size (idn_model ident) (idn_interface ident)
         (u32 (Z.lor (Z.lor (Z.shiftl (serial 2%nat) 24) (Z.shiftl (serial 3%nat) 16))
                 (Z.lor (Z.shiftl (serial 4%nat) 8) (Z.shiftl (serial 5%nat) 0))))
         (Z.lor (Z.shiftl (serial 0%nat) 8) (Z.shiftl (serial 1%nat) 0)), 20)
    else (ident, total) in
  mkIdent total (idn_model ident) (idn_interface ident) (idn_serial_lo ident) (idn_serial_hi ident).

(** The stack's contents before a structure is read. *)
Context (junk : list Z).

Definition ioctl_cpp_identification (data : nfp_cpp_dev_data) : sprog (Z * nfp_cpp_dev_data) :=
  SRead 4 (fun r =>
    if read_short r 4 then SRet (-1, data)
    else
      let ident := ident_of_bytes (read_into r junk) in
      let '(model, cpp) := nfp_cpp_model (cd_cpp data) in
      let data := if idn_size ident >=? 8 then cd_set_cpp cpp data else data in
      let ident := do_cpp_identification (cd_cpp data) model ident in
      SWrite (le_split 8 sizeof_ident) (fun r =>
        if write_short r 8 then SRet (-1, data)
        else SWrite (ident_bytes ident) (fun r =>
          if write_short r sizeof_ident then SRet (-1, data) else SRet (0, data)))).

Definition ioctl_area_request (data : nfp_cpp_dev_data) : sprog (Z * nfp_cpp_dev_data) :=
  SRead sizeof_area_request (fun r =>
    if read_short r sizeof_area_request then SRet (-1, data)
    else
      let bs := read_into r junk in
      let area_req := area_request_of_bytes bs in
      let '(err, area_req, data) := do_cpp_area_request data (nfp_cpp_interface (cd_cpp data)) area_req in
      SWrite (le_split 8 (u64 err)) (fun r =>
        if write_short r 8 then SRet (-1, data)
        else SWrite (area_request_bytes (area_request_pad bs) area_req) (fun r =>
          if write_short r sizeof_area_request then SRet (-1, data) else SRet (0, data)))).

Definition ioctl_area_release (data : nfp_cpp_dev_data) : sprog (Z * nfp_cpp_dev_data) :=
  SRead sizeof_area_request (fun r =>
    if read_short r sizeof_area_request then SRet (-1, data)
    else
      let area_req := area_request_of_bytes (read_into r junk) in
      let '(err, data) := do_cpp_area_release data area_req in
      SWrite (le_split 8 (u64 err)) (fun r =>
        if write_short r 8 then SRet (-1, data) else SRet (0, data))).

Definition ioctl_expl_request (data : nfp_cpp_dev_data) : sprog (Z * nfp_cpp_dev_data) :=
  SRead sizeof_explicit_request (fun r =>
    if read_short r sizeof_explicit_request then SRet (-1, data)
    else
      let explicit_req := read_into r junk in
      SWrite (le_split 8 (u64 do_cpp_expl_request)) (fun r =>
        if write_short r 8 then SRet (-1, data)
        else SWrite (take (Z.to_nat sizeof_explicit_request) explicit_req) (fun r =>
          if write_short r sizeof_explicit_request then SRet (-1, data) else SRet (0, data)))).

Definition nfp_cpp_dev_ioctl (data : nfp_cpp_dev_data) (request : Z) : sprog (Z * nfp_cpp_dev_data) :=
  if request =? NFP_IOCTL_CPP_IDENTIFICATION then ioctl_cpp_identification data
  else if request =? NFP_IOCTL_CPP_AREA_REQUEST then ioctl_area_request data
  else if request =? NFP_IOCTL_CPP_AREA_RELEASE then ioctl_area_release data
  else if request =? NFP_IOCTL_CPP_EXPL_REQUEST then ioctl_expl_request data
  else SRet (-1, data).

(** ** Reads and writes *)

(** The CPP identifier and the address of an offset of the device file. *)
Definition dev_cpp_id (offset : Z) : Z := u32 (Z.shiftl (Z.shiftr offset 40) 8).
Definition dev_address (offset : Z) : Z := Z.land offset (2 ^ 40 - 1).

Definition crosses_boundary (nfp_offset count : Z) : bool :=
  negb (Z.land (nfp_offset + count - 1) (Z.lnot (NFP_CPP_MEMIO_BOUNDARY - 1)) =?
        Z.land nfp_offset (Z.lnot (NFP_CPP_MEMIO_BOUNDARY - 1))).

Definition to_boundary (nfp_offset : Z) : Z :=
  NFP_CPP_MEMIO_BOUNDARY - Z.land nfp_offset (NFP_CPP_MEMIO_BOUNDARY - 1).

Definition next_len (count : Z) : Z := if count >? NFP_CPP_MEMIO_BOUNDARY then NFP_CPP_MEMIO_BOUNDARY else count.

(** [sizeof(tmpbuf)] *)
Definition sizeof_tmpbuf : Z := 64.

(** The length of the next piece: [len] is 32 bits wide. *)
Definition piece (curlen pos : Z) : Z :=
  let len := u32 (curlen - pos) in if len >? sizeof_tmpbuf then sizeof_tmpbuf else len.

(** [for (pos = 0; pos < curlen; pos += len)] of a read: the bytes copied to the buffer,
    the position, and the last result.  [None] when a turn leaves [pos] where it is. *)
Fixpoint read_pieces (fuel : nat) (area : nfp_cpp_area P) (curlen pos err : Z) (tmpbuf : list Z) (cpp : nfp_cpp S)
    : option (list Z * Z * Z * list Z * nfp_cpp S) :=
  if negb (pos <? curlen) then Some ([], pos, err, tmpbuf, cpp)
  else
    match fuel with
    | O => None
    | Datatypes.S fuel =>
        let len := piece curlen pos in
        match nfp_cpp_area_read area pos len cpp with
        | (Err e, cpp) => Some ([], pos, cerr_ret e, tmpbuf, cpp)
        | (Ok bs, cpp) =>
            let tmpbuf := overwrite bs tmpbuf in
            let copied := take (Z.to_nat len) tmpbuf in
            match read_pieces fuel area curlen (u32 (pos + len)) (Z.of_nat (length bs)) tmpbuf cpp with
            | None => None
            | Some (out, pos, err, tmpbuf, cpp) => Some (copied ++ out, pos, err, tmpbuf, cpp)
            end
        end
    end.

Definition pieces_fuel (curlen : Z) : nat := Z.to_nat (curlen / sizeof_tmpbuf + 1).

(** [while (count > 0)] of a read: the bytes read, or the error. *)
Fixpoint dev_read_loop (fuel : nat) (cpp_id nfp_offset curlen count : Z) (tmpbuf : list Z) (cpp : nfp_cpp S)
    : option (cres (list Z) * nfp_cpp S) :=
  if negb (count >? 0) then Some (Ok [], cpp)
  else
    match fuel with
    | O => None
    | Datatypes.S fuel =>
        match nfp_cpp_area_alloc_with_name cpp cpp_id (Some "nfp.cdev"%string) nfp_offset curlen with
        | (None, cpp) => Some (Err (NegErr EIO), cpp)
        | (Some area, cpp) =>
            match nfp_cpp_area_acquire area cpp with
            | (Err _, area, cpp) => Some (Err (NegErr EIO), nfp_cpp_area_free area cpp)
            | (Ok _, area, cpp) =>
                match read_pieces (pieces_fuel curlen) area curlen 0 0 tmpbuf cpp with
                | None => None
                | Some (out, pos, err, tmpbuf, cpp) =>
                    let cpp := nfp_cpp_area_release_free area cpp in
                    if err <? 0 then Some (Err (NegErr (- err)), cpp)
                    else
                      let count := u64 (count - pos) in
                      match dev_read_loop fuel cpp_id (nfp_offset + pos) (next_len count) count tmpbuf cpp with
                      | None => None
                      | Some (Ok out', cpp) => Some (Ok (out ++ out'), cpp)
                      | Some (Err e, cpp) => Some (Err e, cpp)
                      end
                end
            end
        end
    end.

(** Each turn but the first and the last handles a megabyte. *)
Definition dev_fuel (count : Z) : nat := Z.to_nat (count / NFP_CPP_MEMIO_BOUNDARY + 2).

(** [while (curlen < totlen)]: the rest of the buffer sent. A write of nothing leaves the
    loop where it is. *)
Fixpoint send_all (fuel : nat) (bs : list Z) : sprog bool :=
  match bs with
  | [] => SRet true
  | _ =>
      match fuel with
      | O => SSpin
      | Datatypes.S fuel =>
          SWrite bs (fun r => match r with
                              | None => SRet false
                              | Some m => if m <=? 0 then SSpin else send_all fuel (drop (Z.to_nat m) bs)
                              end)
      end
  end.

(** The error reply. *)
Definition reply_error (err : Z) (data : nfp_cpp_dev_data) : sprog (Z * nfp_cpp_dev_data) :=
  SWrite (le_split 8 (u64 err)) (fun r => match r with None => SRet (-1, data) | Some _ => SRet (0, data) end).

Definition nfp_cpp_dev_read (data : nfp_cpp_dev_data) (count offset : Z) : sprog (Z * nfp_cpp_dev_data) :=
  let cpp_id := dev_cpp_id offset in
  let nfp_offset := dev_address offset in
  let curlen := if crosses_boundary nfp_offset count then to_boundary nfp_offset else count in
  match dev_read_loop (dev_fuel count) cpp_id nfp_offset curlen count junk (cd_cpp data) with
  | None => SSpin
  | Some (Err e, cpp) => reply_error (cerr_ret e) (cd_set_cpp cpp data)
  | Some (Ok buf, cpp) =>
      let data := cd_set_cpp cpp data in
      let totlen := Z.of_nat (length buf) in
      SWrite (le_split 8 totlen) (fun r =>
        if write_short r 8 then SRet (-1, data)
        else let% sent := send_all (length buf) buf in SRet (if sent then 0 else -1, data))
  end.

(** [while (curlen < count)]: [n] more bytes received after [buf]; [None] on an error. At
    the end of the stream the loop spins. *)
Fixpoint receive_all (fuel : nat) (buf : list Z) (n : Z) : sprog (option (list Z)) :=
  if n <=? 0 then SRet (Some buf)
  else
    match fuel with
    | O => SSpin
    | Datatypes.S fuel =>
        SRead n (fun r =>
          match r with
          | None => SRet None
          | Some [] => SSpin
          | Some bs => receive_all fuel (buf ++ bs) (n - Z.of_nat (length bs))
          end)
    end.

Fixpoint write_pieces (fuel : nat) (area : nfp_cpp_area P) (curlen pos : Z) (buff : list Z) (cpp : nfp_cpp S)
    : option (option Z * nfp_cpp S) :=
  if negb (pos <? curlen) then Some (Some pos, cpp)
  else
    match fuel with
    | O => None
    | Datatypes.S fuel =>
        let len := piece curlen pos in
        match nfp_cpp_area_write area pos (slice (Z.to_nat pos) (Z.to_nat len) buff) len cpp with
        | (Err _, cpp) => Some (None, cpp)
        | (Ok _, cpp) => write_pieces fuel area curlen (u32 (pos + len)) buff cpp
        end
    end.

(** [while (count > 0)] of a write: the bytes written. *)
Fixpoint dev_write_loop (fuel : nat) (cpp_id nfp_offset curlen count totlen : Z) (buff : list Z) (cpp : nfp_cpp S)
    : option (cres Z * nfp_cpp S) :=
  if negb (count >? 0) then Some (Ok totlen, cpp)
  else
    match fuel with
    | O => None
    | Datatypes.S fuel =>
        match nfp_cpp_area_alloc_with_name cpp cpp_id (Some "nfp.cdev"%string) nfp_offset curlen with
        | (None, cpp) => Some (Err (NegErr EIO), cpp)
        | (Some area, cpp) =>
            match nfp_cpp_area_acquire area cpp with
            | (Err _, area, cpp) => Some (Err (NegErr EIO), nfp_cpp_area_free area cpp)
            | (Ok _, area, cpp) =>
                match write_pieces (pieces_fuel curlen) area curlen 0 buff cpp with
                | None => None
                | Some (None, cpp) => Some (Err (NegErr EIO), nfp_cpp_area_release_free area cpp)
                | Some (Some pos, cpp) =>
                    let cpp := nfp_cpp_area_release_free area cpp in
                    let count := u64 (count - pos) in
                    dev_write_loop fuel cpp_id (nfp_offset + pos) (next_len count) count (totlen + pos)
                      (drop (Z.to_nat pos) buff) cpp
                end
            end
        end
    end.

(** The length to the boundary is computed and then replaced by [count]. *)
Definition nfp_cpp_dev_write (data : nfp_cpp_dev_data) (count offset : Z) : sprog (Z * nfp_cpp_dev_data) :=
  let% buf := receive_all (Z.to_nat count) [] count in
  match buf with
  | None => SRet (-1, data)
  | Some buf =>
      let cpp_id := dev_cpp_id offset in
      let nfp_offset := dev_address offset in
      let curlen := count in
      match dev_write_loop (dev_fuel count) cpp_id nfp_offset curlen count 0 buf (cd_cpp data) with
      | None => SSpin
      | Some (Err e, cpp) => reply_error (cerr_ret e) (cd_set_cpp cpp data)
      | Some (Ok totlen, cpp) =>
          let data := cd_set_cpp cpp data in
          SWrite (le_split 8 totlen) (fun r => if write_short r 8 then SRet (-1, data) else SRet (0, data))
      end
  end.

(** ** Requests *)

(** [ret = read(fd, &tmp, sizeof(tmp)); if (ret < 0) return ret;] *)
Definition get_word (tmp : Z) (data : nfp_cpp_dev_data) (k : Z -> sprog (Z * nfp_cpp_dev_data))
    : sprog (Z * nfp_cpp_dev_data) :=
  SRead 8 (fun r => match r with None => SRet (-1, data) | Some _ => k (read_word r tmp) end).

(** [off_t]: the offset is signed. *)
Definition s64 (x : Z) : Z := u64 (x + 0x8000000000000000) - 0x8000000000000000.

(** [tmp] is uninitialised at first. *)
Definition nfp_cpp_dev_handle_cmd (tmp : Z) (data : nfp_cpp_dev_data) : sprog (Z * nfp_cpp_dev_data) :=
  get_word tmp data (fun tmp =>
    if tmp =? op_no OP_PREAD then
      get_word tmp data (fun count =>
        get_word count data (fun offset => nfp_cpp_dev_read data count (s64 offset)))
    else if tmp =? op_no OP_PWRITE then
      get_word tmp data (fun count =>
        get_word count data (fun offset => nfp_cpp_dev_write data count (s64 offset)))
    else if tmp =? op_no OP_IOCTL then
      get_word tmp data (fun request => nfp_cpp_dev_ioctl data request)
    else SRet (-1, data)).
End Dev.

(** ** The poll loop

    One round of [nfp_cpp_dev_poll]: [connections] is the table up to its count, the
    listening socket first; what [poll] reports of an entry is its two flags. *)

Record pollfd := mkPollfd {
  pf_fd : Z;
  pf_in : bool;
  pf_hup : bool }.

Definition MAX_CONNECTIONS : nat := 64.

(** A new connection, [fd] being what [accept] returns. *)
Definition poll_accept (fd : Z) (connections : list pollfd) : list pollfd :=
  match connections with
  | listen :: _ =>
      if pf_in listen && (length connections <? MAX_CONNECTIONS)%nat
      then connections ++ [mkPollfd fd false false]
      else connections
  | [] => []
  end.

Section Poll.
(** Handling a request on a descriptor: the result, and the server's state. *)
Context {D : Type} (handle_cmd : Z -> D -> Z * D).

(** The entry afterwards and the descriptors [close] is called with. *)
Definition poll_entry (c : pollfd) (d : D) : pollfd * list Z * D :=
  if negb (pf_in c) && negb (pf_hup c) then (c, [], d)
  else
    let '(c, closed, d) :=
      if pf_in c then
        let '(ret, d) := handle_cmd (pf_fd c) d in
        if ret <? 0 then (mkPollfd (-1) (pf_in c) (pf_hup c), [pf_fd c], d) else (c, [], d)
      else (c, [], d) in
    if pf_hup c then (mkPollfd (-1) (pf_in c) (pf_hup c), closed ++ [pf_fd c], d) else (c, closed, d).

Fixpoint poll_entries (cs : list pollfd) (d : D) : list pollfd * list Z * D :=
  match cs with
  | [] => ([], [], d)
  | c :: cs =>
      let '(c, closed, d) := poll_entry c d in
      let '(cs, closed', d) := poll_entries cs d in
      (c :: cs, closed ++ closed', d)
  end.

Definition poll_cleanup (cs : list pollfd) : list pollfd :=
  (fun c => mkPollfd (pf_fd c) false false) <$> filter (fun c => pf_fd c <> -1) cs.

Definition poll_round (accepted : Z) (connections : list pollfd) (d : D) : list pollfd * list Z * D :=
  match poll_accept accepted connections with
  | [] => ([], [], d)
  | listen :: cs =>
      let '(cs, closed, d) := poll_entries cs d in
      (listen :: match closed with [] => cs | _ => poll_cleanup cs end, closed, d)
  end.
End Poll.
