(* ===== verification/Shim.v ===== *)
(** * The client shim ([shim/interpose.c])

    The interposed [open], [close], [pread], [pwrite] and [ioctl]: calls on a descriptor
    of the device file become requests on its socket, the others go to the C library. *)

From S2P Require Export CppDev.

Local Open Scope Z_scope.
Local Open Scope sprog_scope.

Inductive fd_type := FD_UNUSED | FD_CPP | FD_LIBC.

#[export] Instance fd_type_eq_dec : EqDecision fd_type.
Proof. solve_decision. Defined.

Definition MAX_FD : Z := 1024 * 1024.
Definition EMFILE : Z := 24.

Definition fd_table := Z -> fd_type.
Definition set_fd (fd : Z) (t : fd_type) (tbl : fd_table) : fd_table := fun x => if x =? fd then t else tbl x.

(** A call's value and [errno] ([None]: as it was). *)
Definition shim_ret : Type := Z * option Z.

(** ** Opening and closing

    [fd] is what [socket] returns, [conn] the error of [connect], if any; [libc] is the C
    library's call. *)
Section Open.
Context (is_device : bool) (fd : Z) (conn : option Z) (libc : shim_ret).

Definition open_with (success : Z) (status : fd_table) : shim_ret * fd_table :=
  if is_device then
    if fd <? 0 then ((-1, None), status)
    else if fd >=? MAX_FD then ((-1, Some EMFILE), status)
    else
      match conn with
      | Some err => ((-1, Some err), status)
      | None => ((success, None), set_fd fd FD_CPP status)
      end
  else (libc, status).

(** [open] returns 0, [open64] the descriptor. *)
Definition shim_open (status : fd_table) : shim_ret * fd_table := open_with 0 status.
Definition shim_open64 (status : fd_table) : shim_ret * fd_table := open_with fd status.

Definition ENOTDIR : Z := 20.

Definition shim_openat (absolute : bool) (status : fd_table) : shim_ret * fd_table :=
  if absolute then shim_open status else ((-1, Some ENOTDIR), status).
End Open.

Definition shim_close (fd : Z) (libc : shim_ret) (status : fd_table) : shim_ret * fd_table :=
  (libc, if libc.1 =? 0 then set_fd fd FD_UNUSED status else status).

(** ** Reading and writing

    A call on the descriptor [fd] of a device; beside what the caller sees it returns the
    descriptor table. *)
Section Calls.
Context (status : fd_table) (fd : Z).

(** [close(fd); errno = EIO; return -1;] with what else the caller sees. *)
Definition shim_error {A} (x : A) : sprog (shim_ret * A * fd_table) :=
  SClose (SRet ((-1, Some EIO), x, set_fd fd FD_UNUSED status)).

Definition shim_return {A} (ret : shim_ret) (x : A) : sprog (shim_ret * A * fd_table) := SRet (ret, x, status).

(** [write(fd, &temp, sizeof(temp))], or the error. *)
Definition put_word {A} (w : Z) (err : sprog A) (k : sprog A) : sprog A :=
  SWrite (le_split 8 w) (fun r => if write_short r 8 then err else k).

(** [read(fd, &temp, sizeof(temp))], or the error. *)
Definition take_word {A} (temp : Z) (err : sprog A) (k : Z -> sprog A) : sprog A :=
  SRead 8 (fun r => if read_short r 8 then err else k (read_word r temp)).

(** [while (len < temp)]: [n] more bytes read after [buf], and whether all were. *)
Fixpoint fetch_all (fuel : nat) (buf : list Z) (n : Z) : sprog (list Z * bool) :=
  if n <=? 0 then SRet (buf, true)
  else
    match fuel with
    | O => SSpin
    | S fuel =>
        SRead n (fun r =>
          match r with
          | None => SRet (buf, false)
          | Some [] => SSpin
          | Some bs => fetch_all fuel (buf ++ bs) (n - Z.of_nat (length bs))
          end)
    end.

(** [pread] and [pread64] of the device: the value, [errno] and the bytes put in the
    buffer. *)
Definition cpp_pread (count offset : Z) : sprog (shim_ret * list Z * fd_table) :=
  let err := shim_error [] in
  put_word (op_no OP_PREAD) err (
  put_word count err (
  put_word (u64 offset) err (
  take_word (u64 offset) err (fun temp =>
    let ret := s32 temp in
    if ret <? 0 then shim_return (-1, Some (- ret)) []
    else
      let% (buf, ok) := fetch_all (Z.to_nat temp) [] temp in
      if ok then shim_return (temp, None) buf else shim_error buf)))).

(** [pwrite] and [pwrite64] of the device. *)
Definition cpp_pwrite (buf : list Z) (count offset : Z) : sprog (shim_ret * unit * fd_table) :=
  let err := shim_error tt in
  put_word (op_no OP_PWRITE) err (
  put_word count err (
  put_word (u64 offset) err (
    let% ok := send_all (Z.to_nat count) (take (Z.to_nat count) buf) in
    if ok then
      take_word (u64 offset) err (fun temp =>
        let ret := s32 temp in
        if ret <? 0 then shim_return (-1, Some (- ret)) tt else shim_return (temp, None) tt)
    else err))).

(** A call of the C library. *)
Definition libc_call {A} (libc : sprog (shim_ret * A)) : sprog (shim_ret * A * fd_table) :=
  let% r := libc in SRet (r, status).

Definition shim_pread (libc : sprog (shim_ret * list Z)) (count offset : Z) : sprog (shim_ret * list Z * fd_table) :=
  if decide (status fd = FD_CPP) then cpp_pread count offset else libc_call libc.
Definition shim_pwrite (libc : sprog (shim_ret * unit)) (buf : list Z) (count offset : Z)
    : sprog (shim_ret * unit * fd_table) :=
  if decide (status fd = FD_CPP) then cpp_pwrite buf count offset else libc_call libc.

(** The calls for large files are the same. *)
Definition shim_pread64 (libc64 : sprog (shim_ret * list Z)) (count offset : Z) : sprog (shim_ret * list Z * fd_table) :=
  if decide (status fd = FD_CPP) then cpp_pread count offset else libc_call libc64.
Definition shim_pwrite64 (libc64 : sprog (shim_ret * unit)) (buf : list Z) (count offset : Z)
    : sprog (shim_ret * unit * fd_table) :=
  if decide (status fd = FD_CPP) then cpp_pwrite buf count offset else libc_call libc64.

(** ** Requests *)

(** The size of the argument sent, [None] for an unknown request. *)
Definition ioctl_arg_size (request : Z) : option Z :=
  if request =? NFP_IOCTL_CPP_IDENTIFICATION then Some 4
  else if request =? NFP_IOCTL_FIRMWARE_LOAD then Some NFP_FIRMWARE_MAX
  else if request =? NFP_IOCTL_FIRMWARE_LAST then Some 0
  else if request =? NFP_IOCTL_CPP_AREA_REQUEST then Some sizeof_area_request
  else if request =? NFP_IOCTL_CPP_AREA_RELEASE then Some sizeof_area_request
  else if request =? NFP_IOCTL_CPP_AREA_RELEASE_OBSOLETE then Some 8
  else if request =? NFP_IOCTL_CPP_EXPL_REQUEST then Some sizeof_explicit_request
  else if request =? NFP_IOCTL_CPP_EVENT_ACQUIRE then Some 16
  else if request =? NFP_IOCTL_CPP_EVENT_RELEASE then Some 16
  else None.

(** [sizeof(ident.size)] of the argument replaced; the argument is a buffer of bytes. *)
Definition put_arg (bs : list Z) (argp : list Z) : list Z := bs ++ drop (length bs) argp.

(** The reply's structure into the argument: a short one is an error.  The size the
    firmware's name is compared with is that of an [int]. *)
Definition ioctl_reply (request temp : Z) (junk argp : list Z) : sprog (shim_ret * list Z * fd_table) :=
  let ok argp := shim_return (s32 temp, None) argp in
  if request =? NFP_IOCTL_CPP_IDENTIFICATION then
    SRead sizeof_ident (fun r =>
      if read_short r sizeof_ident then shim_error argp
      else
        let ident := read_into r junk in
        ok (put_arg (take (Z.to_nat (idn_size (ident_of_bytes ident))) ident) argp))
  else if request =? NFP_IOCTL_FIRMWARE_LAST then
    SRead NFP_FIRMWARE_MAX (fun r => if read_short r 4 then shim_error argp else ok (read_into r argp))
  else if request =? NFP_IOCTL_CPP_AREA_REQUEST then
    SRead sizeof_area_request (fun r =>
      if read_short r sizeof_ident then shim_error argp
      else ok (put_arg (take (Z.to_nat sizeof_area_request) (read_into r junk)) argp))
  else if request =? NFP_IOCTL_CPP_EXPL_REQUEST then
    SRead sizeof_explicit_request (fun r =>
      if read_short r sizeof_ident then shim_error argp
      else ok (put_arg (take (Z.to_nat sizeof_explicit_request) (read_into r junk)) argp))
  else ok argp.

(** [ioctl] of the device; [argp] is [None] for a null argument, which only the
    identification expects. The operation is sent before the request is looked at. *)
Definition cpp_ioctl (request : Z) (junk : list Z) (argp : option (list Z)) : sprog (shim_ret * list Z * fd_table) :=
  let arg := default [] argp in
  let err := shim_error arg in
  put_word (op_no OP_IOCTL) err (
  match ioctl_arg_size request with
  | None => shim_return (-1, Some EINVAL) arg
  | Some arg_size =>
      if (request =? NFP_IOCTL_CPP_IDENTIFICATION) && negb (bool_decide (is_Some argp))
      then shim_return (sizeof_ident, None) arg
      else
        put_word request err (
        let rest :=
          take_word request err (fun temp =>
            if s32 temp <? 0 then shim_return (-1, Some (- s32 temp)) arg
            else ioctl_reply request temp junk arg) in
        if arg_size >? 0 then
          SWrite (take (Z.to_nat arg_size) arg) (fun r => if write_short r arg_size then err else rest)
        else rest)
  end).

Definition shim_ioctl (libc : sprog (shim_ret * list Z)) (request : Z) (junk : list Z) (argp : option (list Z))
    : sprog (shim_ret * list Z * fd_table) :=
  if decide (status fd = FD_CPP) then cpp_ioctl request junk argp else libc_call libc.
End Calls.
