(* ===== verification/DevServe.v ===== *)
(** * Serving the device over a socket

    What the server relies on of the core's areas (the interface [AreaMemory]), its loops
    against it, and the two ends of a connection run together. *)

From S2P Require Export Shim.

Local Open Scope Z_scope.
Local Open Scope sprog_scope.

(** ** Areas as windows on memories *)

(** [am_mem cpp id] is the memory behind the identifier; ranges for which [am_range]
    holds can be opened, for accesses of multiples of [am_unit] bytes; [am_open cpp0 cpp
    area id a n]: [area] is open, the handle having been [cpp0] before. *)
Class AreaMemory (S P : Type) `{nfp_cpp_operations S P} := {
  am_mem : nfp_cpp S -> Z -> mem;
  am_unit : Z;
  am_range : nfp_cpp S -> Z -> Z -> Z -> Prop;
  am_open : nfp_cpp S -> nfp_cpp S -> nfp_cpp_area P -> Z -> Z -> Z -> Prop;
  am_unit_ok : 0 < am_unit /\ (am_unit | 64);
  am_range_pos cpp id a n : am_range cpp id a n -> 0 <= a /\ 0 < n;
  am_opens cpp name id a n : am_range cpp id a n ->
    exists area1 cpp1 area2 cpp2,
      nfp_cpp_area_alloc_with_name cpp id name a n = (Some area1, cpp1) /\
      nfp_cpp_area_acquire area1 cpp1 = (Ok tt, area2, cpp2) /\
      am_open cpp cpp2 area2 id a n /\ am_mem cpp2 id = am_mem cpp id;
  am_read cpp0 cpp area id a n o l : am_open cpp0 cpp area id a n ->
    0 <= o -> 0 < l -> o + l <= n -> (am_unit | o) -> (am_unit | l) ->
    exists cpp', nfp_cpp_area_read area o l cpp = (Ok (load (am_mem cpp id) (a + o) l), cpp') /\
      am_open cpp0 cpp' area id a n /\ am_mem cpp' id = am_mem cpp id;
  am_write cpp0 cpp area id a n o bs : am_open cpp0 cpp area id a n ->
    let l := Z.of_nat (length bs) in
    bytes_ok bs -> 0 <= o -> 0 < l -> o + l <= n -> (am_unit | o) -> (am_unit | l) ->
    exists cpp', nfp_cpp_area_write area o bs l cpp = (Ok l, cpp') /\
      am_open cpp0 cpp' area id a n /\ forall x, am_mem cpp' id x = store (am_mem cpp id) (a + o) bs x;
  am_close cpp0 cpp area id a n : am_open cpp0 cpp area id a n ->
    let cpp' := nfp_cpp_area_release_free area cpp in
    am_mem cpp' id = am_mem cpp id /\ forall id' a' n', am_range cpp0 id' a' n' -> am_range cpp' id' a' n' }.

Section Loops.
Context {S P : Type} `{Am : AreaMemory S P}.

Lemma units x y : (am_unit | x) -> (am_unit | y) -> (am_unit | x + y) /\ (am_unit | x - y).
Proof using. intros. split; [by apply Z.divide_add_r|by apply Z.divide_sub_r]. Qed.

(** The length of a piece. *)
Lemma piece_eq n pos : 0 <= pos < n -> n < 2 ^ 32 -> piece n pos = Z.min 64 (n - pos).
Proof using.
  intros. unfold piece, sizeof_tmpbuf. rewrite u32_id by (unfold is_u32; lia).
  rewrite Z.gtb_ltb. destruct (Z.ltb_spec 64 (n - pos)); lia.
Qed.

Lemma piece_unit n pos : 0 <= pos < n -> n < 2 ^ 32 -> (am_unit | n) -> (am_unit | pos) -> (am_unit | piece n pos).
Proof using Am.
  intros Hp Hn Hun Hup. rewrite piece_eq by done. destruct am_unit_ok as [Hu Hd].
  destruct (Z.min_spec 64 (n - pos)) as [[_ ->]|[_ ->]]; [done|by apply Z.divide_sub_r].
Qed.

Lemma read_pieces_run cpp0 area id a n : n < 2 ^ 32 -> (am_unit | n) ->
  forall fuel pos err tmpbuf cpp, am_open cpp0 cpp area id a n -> 0 <= pos <= n -> (am_unit | pos) ->
    (Z.to_nat ((n - pos + 63) / 64) <= fuel)%nat -> 0 <= err ->
    exists err' tmpbuf' cpp',
      read_pieces fuel area n pos err tmpbuf cpp =
        Some (load (am_mem cpp id) (a + pos) (n - pos), n, err', tmpbuf', cpp') /\
      0 <= err' /\ am_open cpp0 cpp' area id a n /\ am_mem cpp' id = am_mem cpp id.
Proof using Am.
  intros Hn Hun. induction fuel as [|fuel IH]; intros pos err tmpbuf cpp Ho Hp Hup Hf He.
  - assert (pos = n) as -> by lia. cbn [read_pieces]. rewrite Z.ltb_irrefl. cbn [negb].
    rewrite Z.sub_diag. by exists err, tmpbuf, cpp.
  - cbn [read_pieces]. destruct (Z.ltb_spec pos n) as [L|L]; cbn [negb].
    2:{ assert (pos = n) as -> by lia. rewrite Z.sub_diag. by exists err, tmpbuf, cpp. }
    pose proof (piece_eq n pos ltac:(lia) Hn) as Epc. pose proof (piece_unit n pos ltac:(lia) Hn Hun Hup) as Hpu.
    destruct (am_read cpp0 cpp area id a n pos (piece n pos) Ho) as (cpp1 & E1 & Ho1 & Hm1); [lia..|done|done|].
    rewrite E1. rewrite u32_id by (unfold is_u32; lia).
    set (bs := load (am_mem cpp id) (a + pos) (piece n pos)).
    assert (length bs = Z.to_nat (piece n pos)) as Hbs by apply load_length.
    destruct (IH (pos + piece n pos) (Z.of_nat (length bs)) (overwrite bs tmpbuf) cpp1)
      as (err' & tmp' & cpp' & E & He' & Ho' & Hm'); [done|lia|by apply units|lia|lia|].
    exists err', tmp', cpp'. rewrite E. split; [|by rewrite Hm', Hm1].
    unfold overwrite. rewrite take_app_le, take_ge by lia. do 5 f_equal.
    rewrite Hm1. subst bs. replace (n - pos) with (piece n pos + (n - (pos + piece n pos))) by lia.
    rewrite load_app by lia. by rewrite Z.add_assoc.
Qed.

(** The ranges the loop opens: aligned, inside the request and one megabyte. *)
Definition readable (cpp : nfp_cpp S) (id a n : Z) : Prop :=
  forall a' n', a <= a' -> 0 < n' -> a' + n' <= a + n -> (am_unit | a') -> (am_unit | n') ->
    a' / 2 ^ 20 = (a' + n' - 1) / 2 ^ 20 -> am_range cpp id a' n'.

(** The length of the next area. *)
Definition in_megabyte (a curlen : Z) : Prop := 0 < curlen /\ a / 2 ^ 20 = (a + curlen - 1) / 2 ^ 20.

Lemma dev_read_loop_run id : forall fuel a curlen count tmpbuf cpp,
  0 <= a -> 0 <= count < 2 ^ 63 -> readable cpp id a count -> (am_unit | a) -> (am_unit | count) ->
  (0 < count -> in_megabyte a curlen /\ curlen <= count /\ (am_unit | curlen) /\ curlen <= 2 ^ 20 /\
     (curlen < count -> (a + curlen) mod 2 ^ 20 = 0) /\ (Z.to_nat ((count - curlen + 2 ^ 20 - 1) / 2 ^ 20) < fuel)%nat) ->
  exists cpp', dev_read_loop fuel id a curlen count tmpbuf cpp = Some (Ok (load (am_mem cpp id) a count), cpp') /\
    am_mem cpp' id = am_mem cpp id /\ forall id' a' n', am_range cpp id' a' n' -> am_range cpp' id' a' n'.
Proof using Am.
  induction fuel as [|fuel IH]; intros a curlen count tmpbuf cpp Ha Hc Hr Hua Huc Hcur;
    cbn [dev_read_loop]; rewrite Z.gtb_ltb; destruct (Z.ltb_spec 0 count) as [L|L]; cbn [negb].
  - destruct (Hcur L) as (_ & _ & _ & _ & _ & Hf). lia.
  - assert (count = 0) as -> by lia. by exists cpp.
  - destruct (Hcur L) as ([Hcp Hmb] & Hle & Huu & Hmeg & Hnext & Hf).
    destruct (am_opens cpp (Some "nfp.cdev"%string) id a curlen) as (area1 & cpp1 & area & cpp2 & E1 & E2 & Ho & Hm2);
      [apply Hr; lia || done|]. rewrite E1, E2.
    destruct (read_pieces_run cpp area id a curlen ltac:(lia) Huu (pieces_fuel curlen) 0 0 tmpbuf cpp2)
      as (err & tmp' & cpp3 & E3 & He & Ho3 & Hm3); [done|lia|apply Z.divide_0_r| |lia|].
    { unfold pieces_fuel, sizeof_tmpbuf. lia. }
    rewrite E3. rewrite (proj2 (Z.ltb_ge err 0)) by done.
    destruct (am_close _ _ _ _ _ _ Ho3) as (Hm4 & Hrange). set (cpp4 := nfp_cpp_area_release_free area cpp3) in *.
    rewrite u64_id by (unfold is_u64; lia).
    destruct (IH (a + curlen) (next_len (count - curlen)) (count - curlen) tmp' cpp4) as (cpp' & E & Hm' & Hrange').
    + lia.
    + lia.
    + intros a' n' ? ? ? ? ? ?. apply Hrange, Hr; lia || done.
    + by apply units.
    + by apply units.
    + intros L'. unfold next_len, NFP_CPP_MEMIO_BOUNDARY. rewrite Z.gtb_ltb. change (Z.shiftl 1 20) with (2 ^ 20).
      assert ((a + curlen) mod 2 ^ 20 = 0) as Hal by (apply Hnext; lia).
      destruct (Z.ltb_spec (2 ^ 20) (count - curlen)) as [Lb|Lb]; unfold in_megabyte; split_and!; try lia.
      * destruct am_unit_ok as [Hu Hd]. apply (Z.divide_trans _ 64); [done|]. by exists (2 ^ 14).
      * by apply units.
    + exists cpp'. rewrite E, Z.add_0_r, Z.sub_0_r. split_and!.
      * do 3 f_equal. replace count with (curlen + (count - curlen)) at 2 by lia.
        rewrite load_app by lia. by rewrite Hm4, Hm3, Hm2.
      * by rewrite Hm', Hm4, Hm3, Hm2.
      * intros. by apply Hrange', Hrange.
  - assert (count = 0) as -> by lia. by exists cpp.
Qed.

(** ** Writes *)

Lemma write_pieces_run cpp0 area id a n buff : n < 2 ^ 32 -> (am_unit | n) -> (Z.to_nat n <= length buff)%nat ->
  bytes_ok buff -> forall fuel pos cpp, am_open cpp0 cpp area id a n -> 0 <= pos <= n -> (am_unit | pos) ->
    (Z.to_nat ((n - pos + 63) / 64) <= fuel)%nat ->
    exists cpp', write_pieces fuel area n pos buff cpp = Some (Some n, cpp') /\
      am_open cpp0 cpp' area id a n /\
      forall x, am_mem cpp' id x = store (am_mem cpp id) (a + pos) (slice (Z.to_nat pos) (Z.to_nat (n - pos)) buff) x.
Proof using Am.
  intros Hn Hun Hlen Hu8. induction fuel as [|fuel IH]; intros pos cpp Ho Hp Hup Hf;
    cbn [write_pieces]; destruct (Z.ltb_spec pos n) as [L|L]; cbn [negb]; try (exfalso; lia).
  - assert (pos = n) as -> by lia. exists cpp. split_and!; [done|done|]. intros x. rewrite Z.sub_diag.
    unfold slice. cbn [Z.to_nat take]. by rewrite store_nil.
  - pose proof (piece_eq n pos ltac:(lia) Hn) as Epc. pose proof (piece_unit n pos ltac:(lia) Hn Hun Hup) as Hpu.
    set (l := piece n pos) in *. clearbody l. assert (0 < l <= n - pos) as Hl by (clear - Epc L; lia).
    assert (Z.to_nat (pos + l) = Z.to_nat pos + Z.to_nat l)%nat as En1 by (clear - Hl Hp; lia).
    assert (Z.to_nat (n - pos) = Z.to_nat l + Z.to_nat (n - (pos + l)))%nat as En2 by (clear - Hl Hp; lia).
    set (bs := slice (Z.to_nat pos) (Z.to_nat l) buff).
    assert (Z.of_nat (length bs) = l) as Hbs
      by (unfold bs, slice; rewrite length_take, length_drop; clear - Hl Hp Hlen; lia).
    destruct (am_write cpp0 cpp area id a n pos bs Ho) as (cpp1 & E1 & Ho1 & Hm1); rewrite ?Hbs; [by apply Forall_take, Forall_drop|lia..|done|done|].
    rewrite Hbs in E1. rewrite E1. rewrite u32_id by (unfold is_u32; lia).
    destruct (IH (pos + l) cpp1) as (cpp' & E & Ho' & Hm'); [done|lia|by apply units|lia|].
    exists cpp'. split_and!; [done|done|]. intros x. rewrite Hm'.
    rewrite En1, En2, <- slice_join. fold bs. rewrite store_app, Hbs, Z.add_assoc.
    by apply store_ext.
  - assert (pos = n) as -> by lia. exists cpp. split_and!; [done|done|]. intros x. rewrite Z.sub_diag.
    unfold slice. cbn [Z.to_nat take]. by rewrite store_nil.
Qed.

(** A write opens one area for the whole request. *)
Lemma dev_write_loop_run id fuel a data cpp :
  let count := Z.of_nat (length data) in
  bytes_ok data -> 0 <= a -> count < 2 ^ 32 -> (0 < count -> am_range cpp id a count) -> (am_unit | count) -> (1 < fuel)%nat ->
  exists cpp', dev_write_loop fuel id a count count 0 data cpp = Some (Ok count, cpp') /\
    (forall x, am_mem cpp' id x = store (am_mem cpp id) a data x) /\
    forall id' a' n', am_range cpp id' a' n' -> am_range cpp' id' a' n'.
Proof using Am.
  intros count Hu8 Ha Hc Hr Huc Hf. destruct fuel as [|[|fuel]]; [lia..|]. cbn [dev_write_loop].
  rewrite Z.gtb_ltb. destruct (Z.ltb_spec 0 count) as [L|L]; cbn [negb].
  2:{ exists cpp. assert (data = []) as -> by (destruct data; [done|cbn in *; lia]). split_and!; [done| |done].
      intros x. by rewrite store_nil. }
  destruct (am_opens cpp (Some "nfp.cdev"%string) id a count) as (area1 & cpp1 & area & cpp2 & E1 & E2 & Ho & Hm2);
    [by apply Hr|]. rewrite E1, E2.
  destruct (write_pieces_run cpp area id a count data ltac:(lia) Huc ltac:(lia) Hu8 (pieces_fuel count) 0 cpp2)
    as (cpp3 & E3 & Ho3 & Hm3); [done|lia|apply Z.divide_0_r| |].
  { unfold pieces_fuel, sizeof_tmpbuf. lia. }
  rewrite E3. destruct (am_close _ _ _ _ _ _ Ho3) as (Hm4 & Hrange).
  replace (u64 (count - count)) with 0 by (rewrite Z.sub_diag; done). cbn [Z.gtb Z.compare negb].
  eexists. split; [by rewrite Z.add_0_l|]. split; [|exact Hrange].
  intros x. rewrite Hm4, Hm3, Z.add_0_r, Z.sub_0_r, Hm2. rewrite slice_all by lia. done.
Qed.
End Loops.
