(* ===== verification/DevSession.v ===== *)
(** * A client and the device server, end to end

    The two programs of a connection run against each other: a [pread] or [pwrite] of the
    device file through the shim is a read or a write of the memory behind the CPP bus,
    however the socket cuts the streams. *)

From S2P Require Export DevServe.

Local Open Scope Z_scope.
Local Open Scope sprog_scope.

(** ** Running a connection *)

Section Runs.
Context {C D : Type} (handler : D -> sprog (Z * D)) (chunk : nat -> nat).

(** From [s] the connection gets to a state for which [Q] holds. *)
Definition runs (s : session (C := C) (D := D)) (Q : session (C := C) (D := D) -> Prop) : Prop :=
  exists s', rtc (fun s s' => session_step handler chunk s = Some s') s s' /\ Q s'.

Lemma runs_step s s1 Q : session_step handler chunk s = Some s1 -> runs s1 Q -> runs s Q.
Proof using. intros Hs (s' & Hr & HQ). exists s'. split; [by eapply rtc_l|done]. Qed.

Lemma runs_here s (Q : session -> Prop) : Q s -> runs s Q.
Proof using. by exists s. Qed.

(** Enough fuel for a run that ends. *)
Lemma runs_run s Q : runs s Q -> (forall s', Q s' -> session_step handler chunk s' = None) ->
  exists fuel s', session_run handler chunk fuel s = Some s' /\ Q s'.
Proof using.
  intros (s' & Hr & HQ) Hn. specialize (Hn _ HQ). induction Hr as [s|s s1 s2 Hs _ IH].
  - exists O, s. split; [|done]. cbn. by rewrite Hn.
  - destruct (IH HQ Hn) as (fuel & s' & E & HQ'). exists (S fuel), s'. split; [|done]. cbn [session_run]. by rewrite Hs.
Qed.

Lemma taken_bounds t n : (0 < n -> 0 < taken chunk t n)%nat /\ (taken chunk t n <= n)%nat.
Proof using. unfold taken. lia. Qed.

Lemma taken_word t n : (n <= 8)%nat -> taken chunk t n = n.
Proof using. unfold taken. lia. Qed.

(** The client writes a word. *)
Lemma put_word_runs w err k server up down t Q :
  runs (mkSession k server (up ++ le_split 8 w) down true true (S t)) Q ->
  runs (mkSession (put_word w err k) server up down true true t) Q.
Proof using.
  intros Hr. eapply runs_step; [|exact Hr]. unfold put_word, session_step. cbn [s_client s_server_open s_time s_up].
  rewrite le_split_length, taken_word by lia.
  rewrite take_ge by (rewrite le_split_length; lia). done.
Qed.

Lemma read_word_split w old : read_word (Some (le_split 8 w)) old = u64 w.
Proof using.
  unfold read_word, read_into. rewrite drop_ge, app_nil_r by (rewrite !le_split_length; lia).
  apply (le_combine_split_mod 8).
Qed.

(** The client reads a word that has arrived. *)
Lemma take_word_runs w old err k server up down t Q :
  runs (mkSession (k (u64 w)) server up down true true (S t)) Q ->
  runs (mkSession (take_word old err k) server up (le_split 8 w ++ down) true true t) Q.
Proof using.
  intros Hr. eapply runs_step; [|exact Hr]. unfold take_word, session_step.
  cbn [s_client s_server_open s_time s_up s_down s_server s_client_open].
  rewrite bool_decide_false by done. rewrite length_app, le_split_length, taken_word by lia.
  change (Z.to_nat 8) with (length (le_split 8 w)). rewrite le_split_length, Nat.min_l by lia.
  rewrite take_app_length', drop_app_length' by (by rewrite le_split_length).
  cbn [read_short]. rewrite le_split_length. change (Z.of_nat 8 <? 8) with false. cbv iota.
  by rewrite read_word_split.
Qed.

(** ** The server's turn: the client waits for bytes *)

Context (n : Z) (kc : option (list Z) -> sprog C).

Lemma server_starts d up t Q : up <> [] ->
  runs (mkSession (SRead n kc) (handler d) up [] true true (S t)) Q ->
  runs (mkSession (SRead n kc) (SRet (0, d)) up [] true true t) Q.
Proof using.
  intros Hup Hr. eapply runs_step; [|exact Hr]. unfold session_step.
  cbn [s_client s_server_open s_time s_up s_down s_server s_client_open]. by rewrite (bool_decide_false (up = [])).
Qed.

Lemma server_word w old (k : Z -> sprog (Z * D)) (e : sprog (Z * D)) up t Q :
  runs (mkSession (SRead n kc) (k (u64 w)) up [] true true (S t)) Q ->
  runs (mkSession (SRead n kc) (SRead 8 (fun r => match r with None => e | Some _ => k (read_word r old) end))
          (le_split 8 w ++ up) [] true true t) Q.
Proof using.
  intros Hr. eapply runs_step; [|exact Hr]. unfold session_step.
  cbn [s_client s_server_open s_time s_up s_down s_server s_client_open].
  rewrite (bool_decide_true ([] = [])), bool_decide_false by done.
  rewrite length_app, le_split_length, taken_word by lia. change (Z.to_nat 8) with (length (le_split 8 w)).
  rewrite le_split_length, Nat.min_l by lia.
  rewrite take_app_length', drop_app_length' by (by rewrite le_split_length). by rewrite read_word_split.
Qed.

Lemma server_reply w k up t Q :
  runs (mkSession (SRead n kc) (k (Some 8)) up (le_split 8 w) true true (S t)) Q ->
  runs (mkSession (SRead n kc) (SWrite (le_split 8 w) k) up [] true true t) Q.
Proof using.
  intros Hr. eapply runs_step; [|exact Hr]. unfold session_step.
  cbn [s_client s_server_open s_time s_up s_down s_server s_client_open].
  rewrite (bool_decide_true ([] = [])) by done. rewrite le_split_length, taken_word by lia.
  rewrite take_ge by (rewrite le_split_length; lia). done.
Qed.

(** The server receives what has arrived. *)
Lemma receive_runs (K : option (list Z) -> sprog (Z * D)) : forall fuel buf up t Q, (length up <= fuel)%nat ->
  (forall t', runs (mkSession (SRead n kc) (K (Some (buf ++ up))) [] [] true true t') Q) ->
  runs (mkSession (SRead n kc) (sbind (receive_all fuel buf (Z.of_nat (length up))) K) up [] true true t) Q.
Proof using.
  induction fuel as [|fuel IH]; intros buf up t Q Hf Hr; cbn [receive_all].
  - destruct up; [|cbn in Hf; lia]. cbn. rewrite app_nil_r in Hr. apply Hr.
  - destruct up as [|b up]; [cbn; rewrite app_nil_r in Hr; apply Hr|].
    set (l := b :: up) in *. assert (0 < length l)%nat as Hl by (cbn; lia).
    rewrite (proj2 (Z.leb_gt _ 0)) by lia. cbn [sbind].
    set (m := taken chunk t (length l)). pose proof (taken_bounds t (length l)) as [Hm1 Hm2]. fold m in Hm1, Hm2.
    eapply runs_step.
    + unfold session_step. cbn [s_client s_server_open s_time s_up s_down s_server s_client_open].
      rewrite (bool_decide_true ([] = [])), (bool_decide_false (l = [])) by done.
      rewrite Nat2Z.id, Nat.min_id. fold m. reflexivity.
    + destruct (take m l) as [|x r] eqn:Et; [apply (f_equal length) in Et; rewrite length_take in Et; cbn [length] in Et; lia|].
      rewrite <- Et. replace (Z.of_nat (length l) - Z.of_nat (length (take m l))) with (Z.of_nat (length (drop m l)))
        by (rewrite length_take, length_drop; lia).
      apply IH; [rewrite length_drop; lia|]. intros t'. rewrite <- app_assoc, take_drop. apply Hr.
Qed.
End Runs.

Section Stream.
Context {C D : Type} (handler : D -> sprog (Z * D)) (chunk : nat -> nat).
Notation runs := (runs (C := C) handler chunk).

(** The client sends a buffer: it never waits. *)
Lemma send_runs (K : bool -> sprog C) server : forall fuel bs up t Q, (length bs <= fuel)%nat ->
  (forall t', runs (mkSession (K true) server (up ++ bs) [] true true t') Q) ->
  runs (mkSession (sbind (send_all fuel bs) K) server up [] true true t) Q.
Proof using.
  induction fuel as [|fuel IH]; intros bs up t Q Hf Hr.
  - destruct bs; [|cbn in Hf; lia]. cbn. rewrite app_nil_r in Hr. apply Hr.
  - destruct bs as [|b bs]; [cbn; rewrite app_nil_r in Hr; apply Hr|].
    cbn [send_all]. set (l := b :: bs) in *. assert (0 < length l)%nat as Hl by (cbn; lia). cbn [sbind].
    set (m := taken chunk t (length l)). pose proof (taken_bounds chunk t (length l)) as [Hm1 Hm2]. fold m in Hm1, Hm2.
    eapply runs_step.
    + unfold session_step. cbn [s_client s_server_open s_time s_up s_down s_server s_client_open]. fold m. reflexivity.
    + rewrite (proj2 (Z.leb_gt _ 0)), Nat2Z.id by lia. apply IH; [rewrite length_drop; lia|].
      intros t'. rewrite <- app_assoc, take_drop. apply Hr.
Qed.

(** The server sends a buffer the client fetches. *)
Lemma fetch_runs (K : list Z * bool -> sprog C) (K2 : bool -> sprog (Z * D)) : forall size f1 f2 buf q rest t Q,
  (2 * length rest + length q <= size)%nat -> (length q + length rest <= f1)%nat -> (length rest <= f2)%nat ->
  (forall t', runs (mkSession (K (buf ++ q ++ rest, true)) (K2 true) [] [] true true t') Q) ->
  runs (mkSession (sbind (fetch_all f1 buf (Z.of_nat (length q + length rest))) K) (sbind (send_all f2 rest) K2)
          [] q true true t) Q.
Proof using.
  induction size as [|size IH]; intros f1 f2 buf q rest t Q Hs H1 H2 Hr.
  - destruct q, rest; cbn in Hs; try lia. rewrite app_nil_r in Hr. destruct f1, f2; apply Hr.
  - destruct q as [|b q]; [destruct rest as [|c rest]|].
    + rewrite app_nil_r in Hr. destruct f1, f2; apply Hr.
    + (* the server writes *)
      set (l := c :: rest) in *. assert (0 < length l)%nat as Hl by (cbn; lia).
      destruct f1 as [|f1]; [cbn in H1; lia|]. destruct f2 as [|f2]; [cbn in H2; lia|].
      set (m := taken chunk t (length l)). pose proof (taken_bounds chunk t (length l)) as [Hm1 Hm2]. fold m in Hm1, Hm2.
      assert (length (take m l) + length (drop m l) = length l)%nat as Hlen by (rewrite length_take, length_drop; lia).
      eapply runs_step.
      { cbn [fetch_all send_all length Nat.add]. rewrite (proj2 (Z.leb_gt _ 0)) by (fold l; lia). fold l.
        unfold session_step. cbn [sbind s_client s_server_open s_time s_up s_down s_server s_client_open].
        rewrite (bool_decide_true ([] = [])) by done. reflexivity. }
      fold m. cbn beta iota. rewrite (proj2 (Z.leb_gt (Z.of_nat m) 0)), Nat2Z.id by lia.
      specialize (IH (S f1) f2 buf (take m l) (drop m l) (S t) Q).
      cbn [fetch_all] in IH. rewrite (proj2 (Z.leb_gt _ 0)) in IH by lia. cbn [sbind] in IH.
      rewrite Hlen in IH. apply IH; [rewrite length_take, length_drop; lia|lia|rewrite length_drop; lia|].
      intros t'. rewrite take_drop. apply Hr.
    + (* the client reads *)
      set (l := b :: q) in *. assert (0 < length l)%nat as Hl by (cbn; lia).
      destruct f1 as [|f1]; [lia|]. cbn [fetch_all]. rewrite (proj2 (Z.leb_gt _ 0)) by lia. cbn [sbind].
      set (m := taken chunk t (length l)). pose proof (taken_bounds chunk t (length l)) as [Hm1 Hm2]. fold m in Hm1, Hm2.
      eapply runs_step.
      { unfold session_step. cbn [s_client s_server_open s_time s_up s_down s_server s_client_open].
        rewrite (bool_decide_false (l = [])) by done. rewrite Nat2Z.id, Nat.min_r by lia. fold m. reflexivity. }
      destruct (take m l) as [|x r] eqn:Et; [apply (f_equal length) in Et; rewrite length_take in Et; cbn [length] in Et; lia|].
      rewrite <- Et.
      replace (Z.of_nat (length l + length rest) - Z.of_nat (length (take m l)))
        with (Z.of_nat (length (drop m l) + length rest)) by (rewrite length_take, length_drop; lia).
      apply IH; [rewrite length_drop; lia|rewrite length_drop; lia|done|].
      intros t'. rewrite (app_assoc (buf ++ _)), <- (app_assoc buf), take_drop, <- app_assoc. apply Hr.
Qed.
End Stream.

(** ** Words on the wire *)

Lemma s64_u64 x : - 2 ^ 63 <= x < 2 ^ 63 -> s64 (u64 x) = x.
Proof. intros. unfold s64, u64. rewrite Zplus_mod_idemp_l, Z.mod_small; lia. Qed.

Lemma u64_u64 x : u64 (u64 x) = u64 x.
Proof. unfold u64. by rewrite Zmod_mod. Qed.

Lemma boundary_floor x : Z.land x (Z.lnot (NFP_CPP_MEMIO_BOUNDARY - 1)) = x / 2 ^ 20 * 2 ^ 20.
Proof.
  change (NFP_CPP_MEMIO_BOUNDARY - 1) with (Z.ones 20). rewrite <- Z.ldiff_land, Z.ldiff_ones_r by lia.
  by rewrite Z.shiftl_mul_pow2, Z.shiftr_div_pow2 by lia.
Qed.

Lemma crosses_boundary_spec a count :
  crosses_boundary a count = negb (a / 2 ^ 20 =? (a + count - 1) / 2 ^ 20).
Proof.
  unfold crosses_boundary. rewrite !boundary_floor. f_equal. apply eq_true_iff_eq. rewrite !Z.eqb_eq. lia.
Qed.

Lemma to_boundary_spec a : to_boundary a = 2 ^ 20 - a mod 2 ^ 20.
Proof.
  unfold to_boundary. change (NFP_CPP_MEMIO_BOUNDARY - 1) with (Z.ones 20). by rewrite Z.land_ones by lia.
Qed.

Lemma dev_address_bounds offset : 0 <= dev_address offset < 2 ^ 40.
Proof. unfold dev_address. change (2 ^ 40 - 1) with (Z.ones 40). rewrite Z.land_ones by lia. lia. Qed.

(** ** Requests served

    A request's outcome at the client is that of the server's loop over the CPP bus. *)

Section Served.
Context {S P : Type} `{Op : nfp_cpp_operations S P}.
Context (cdev_name : Z -> string) (junk : list Z) (tmp : Z) (chunk : nat -> nat).
Notation dev_data := (nfp_cpp_dev_data (S := S) (P := P)).
Notation handler := (nfp_cpp_dev_handle_cmd cdev_name junk tmp).

(** A connection between requests. *)
Definition idle {C} (client : sprog C) (data : dev_data) (t : nat) : session :=
  mkSession client (SRet (0, data)) [] [] true true t.

(** From [s] the connection comes to rest: the client has its result and the server
    awaits another request. *)
Definition served {C} (client : sprog C) (data : dev_data) (t : nat) (res : C) (data' : dev_data) : Prop :=
  exists fuel t', session_run handler chunk fuel (idle client data t) = Some (idle (SRet res) data' t').

Definition rests {C} (res : C) (data : dev_data) (s : session) : Prop := exists t, s = idle (SRet res) data t.

Lemma served_runs {C} (client : sprog C) data t res data' :
  runs handler chunk (idle client data t) (rests res data') -> served client data t res data'.
Proof using.
  intros Hr. destruct (runs_run _ _ _ _ Hr) as (fuel & s' & E & t' & ->); [by intros ? [? ->]|]. by exists fuel, t'.
Qed.

(** What [pread] makes of the loop's result. *)
Definition pread_result (r : cres (list Z)) : shim_ret * list Z :=
  match r with
  | Ok buf => ((Z.of_nat (length buf), None), buf)
  | Err e => ((-1, Some (- cerr_ret e)), [])
  end.

Definition dev_read_result (count offset : Z) (cpp : nfp_cpp S) : option (cres (list Z) * nfp_cpp S) :=
  let a := dev_address offset in
  let curlen := if crosses_boundary a count then to_boundary a else count in
  dev_read_loop (dev_fuel count) (dev_cpp_id offset) a curlen count junk cpp.

Lemma get_word_runs {C} n (kc : option (list Z) -> sprog C) w old data k up t Q :
  runs handler chunk (mkSession (SRead n kc) (k (u64 w)) up [] true true (Datatypes.S t)) Q ->
  runs handler chunk (mkSession (SRead n kc) (get_word old data k) (le_split 8 w ++ up) [] true true t) Q.
Proof using. exact (server_word handler chunk n kc w old k (SRet (-1, data)) up t Q). Qed.

(** The server takes in the three words of a request. *)
Lemma server_request_runs {C} op count offset n (kc : option (list Z) -> sprog C) data rest t Q :
  0 <= count < 2 ^ 31 -> - 2 ^ 63 <= offset < 2 ^ 63 -> op = OP_PREAD \/ op = OP_PWRITE ->
  let serve := match op with OP_PREAD => nfp_cpp_dev_read junk | _ => nfp_cpp_dev_write end in
  (forall t', runs handler chunk (mkSession (SRead n kc) (serve data count offset) rest [] true true t') Q) ->
  runs handler chunk
    (mkSession (SRead n kc) (SRet (0, data))
       (le_split 8 (op_no op) ++ le_split 8 count ++ le_split 8 (u64 offset) ++ rest) [] true true t) Q.
Proof using.
  intros Hc Ho Hop serve Hr. apply server_starts; [by destruct op|].
  unfold nfp_cpp_dev_handle_cmd. apply get_word_runs.
  assert (u64 count = count) as Hcount by (apply u64_id; unfold is_u64; lia).
  destruct Hop as [-> | ->]; subst serve; cbn [op_no] in *; apply get_word_runs; rewrite Hcount; apply get_word_runs;
    rewrite u64_u64, s64_u64 by done; apply Hr.
Qed.

(** An error of a request: its number in [errno]. *)
Lemma error_runs {C} e (k : Z -> sprog (shim_ret * C * fd_table)) old err x status data t :
  - 2 ^ 31 <= e < 0 -> (forall temp, s32 temp = e -> k temp = shim_return status (-1, Some (- e)) x) ->
  runs handler chunk (mkSession (take_word old err k) (reply_error e data) [] [] true true t)
    (rests ((-1, Some (- e)), x, status) data).
Proof using.
  intros He Hk. unfold reply_error. apply server_reply. rewrite <- (app_nil_r (le_split 8 (u64 e))).
  apply take_word_runs. rewrite Hk; [apply runs_here; by eexists|]. rewrite u64_u64. unfold s32, u64. lia.
Qed.

Theorem pread_served status fd count offset data t r cpp :
  0 <= count < 2 ^ 31 -> - 2 ^ 63 <= offset < 2 ^ 63 ->
  dev_read_result count offset (cd_cpp data) = Some (r, cpp) ->
  match r with
  | Ok buf => Z.of_nat (length buf) < 2 ^ 31
  | Err e => - 2 ^ 31 <= cerr_ret e < 0
  end ->
  served (cpp_pread status fd count offset) data t (pread_result r, status) (cd_set_cpp cpp data).
Proof using.
  intros Hc Ho Hres Hr. apply served_runs. unfold cpp_pread, idle.
  match goal with |- context [take_word ?o ?e ?k] => set (kk := k); set (ee := e) end.
  do 3 apply put_word_runs. rewrite <- !app_assoc. cbn [app]. rewrite <- (app_nil_r (le_split 8 (u64 offset))).
  apply server_request_runs; [done|done|by left|]. intros t'. cbv beta iota zeta.
  change (SRead 8 _) with (take_word (u64 offset) ee kk).
  unfold nfp_cpp_dev_read. unfold dev_read_result in Hres. cbv zeta in Hres. rewrite Hres.
  destruct r as [buf|e]; cbn [pread_result].
  2:{ apply error_runs; [done|]. intros temp Et. subst kk. cbv beta. rewrite Et. by rewrite (proj2 (Z.ltb_lt _ _)) by lia. }
  apply server_reply. change (write_short (Some 8) 8) with false. cbv iota.
  rewrite <- (app_nil_r (le_split 8 (Z.of_nat _))). apply take_word_runs. subst kk. cbv beta.
  rewrite (u64_id (Z.of_nat _)) by (unfold is_u64; lia). rewrite (s32_id (Z.of_nat _)) by lia.
  rewrite (proj2 (Z.ltb_ge _ _)) by lia. rewrite Nat2Z.id.
  apply (fetch_runs handler chunk _ _ (2 * length buf) (length buf) (length buf) [] [] buf); [cbn; lia..|].
  intros t2. apply runs_here. by eexists.
Qed.

(** ** Writes *)

Definition dev_write_result (count offset : Z) (buf : list Z) (cpp : nfp_cpp S) : option (cres Z * nfp_cpp S) :=
  dev_write_loop (dev_fuel count) (dev_cpp_id offset) (dev_address offset) count count 0 buf cpp.

Definition pwrite_result (r : cres Z) : shim_ret * unit :=
  match r with
  | Ok n => ((n, None), tt)
  | Err e => ((-1, Some (- cerr_ret e)), tt)
  end.

Theorem pwrite_served status fd buf count offset data t r cpp :
  0 <= count < 2 ^ 31 -> (Z.to_nat count <= length buf)%nat -> - 2 ^ 63 <= offset < 2 ^ 63 ->
  dev_write_result count offset (take (Z.to_nat count) buf) (cd_cpp data) = Some (r, cpp) ->
  match r with
  | Ok n => 0 <= n < 2 ^ 31
  | Err e => - 2 ^ 31 <= cerr_ret e < 0
  end ->
  served (cpp_pwrite status fd buf count offset) data t (pwrite_result r, status) (cd_set_cpp cpp data).
Proof using.
  intros Hc Hlen Ho Hres Hr. apply served_runs. unfold cpp_pwrite, idle.
  match goal with |- context [take_word ?o ?e ?k] => set (kk := k); set (ee := e) end.
  set (bs := take (Z.to_nat count) buf) in *.
  assert (length bs = Z.to_nat count) as Hbs by (unfold bs; rewrite length_take; lia).
  do 3 apply put_word_runs. cbn [app]. apply send_runs; [lia|]. intros t1. cbv iota.
  rewrite <- !app_assoc.
  apply server_request_runs; [done|done|by right|]. intros t'. cbv beta iota zeta.
  change (SRead 8 _) with (take_word (u64 offset) ee kk).
  unfold nfp_cpp_dev_write. rewrite <- (Z2Nat.id count) at 2 by lia. rewrite <- Hbs.
  apply receive_runs; [done|]. intros t2. cbv iota zeta. cbn [app].
  unfold dev_write_result in Hres. rewrite Hres.
  destruct r as [n|e]; cbn [pwrite_result].
  2:{ apply error_runs; [done|]. intros temp Et. subst kk. cbv beta. rewrite Et. by rewrite (proj2 (Z.ltb_lt _ _)) by lia. }
  apply server_reply. change (write_short (Some 8) 8) with false. cbv iota.
  rewrite <- (app_nil_r (le_split 8 n)). apply take_word_runs. subst kk. cbv beta.
  rewrite (u64_id n) by (unfold is_u64; lia). rewrite (s32_id n) by lia.
  rewrite (proj2 (Z.ltb_ge _ _)) by lia. apply runs_here. by eexists.
Qed.
End Served.

(** ** The device file is the memory *)

Section File.
Context {S P : Type} `{Am : AreaMemory S P}.
Context (junk : list Z).

Lemma megabyte_unit : (am_unit | 2 ^ 20).
Proof using Am. destruct am_unit_ok as [_ Hd]. apply (Z.divide_trans _ 64); [done|]. by exists (2 ^ 14). Qed.

Lemma dev_read_memory count offset cpp :
  let a := dev_address offset in
  0 <= count < 2 ^ 31 -> readable cpp (dev_cpp_id offset) a count -> (am_unit | a) -> (am_unit | count) ->
  exists cpp', dev_read_result junk count offset cpp = Some (Ok (load (am_mem cpp (dev_cpp_id offset)) a count), cpp') /\
    am_mem cpp' (dev_cpp_id offset) = am_mem cpp (dev_cpp_id offset) /\
    forall id' a' n', am_range cpp id' a' n' -> am_range cpp' id' a' n'.
Proof using Am.
  intros a Hc Hr Hua Huc. pose proof (dev_address_bounds offset). fold a in H.
  unfold dev_read_result. cbv zeta. fold a. apply dev_read_loop_run; [lia..|done|done|done|].
  intros Hp. rewrite crosses_boundary_spec, to_boundary_spec.
  pose proof megabyte_unit as Hm. unfold dev_fuel, in_megabyte. change NFP_CPP_MEMIO_BOUNDARY with (2 ^ 20).
  destruct (Z.eqb_spec (a / 2 ^ 20) ((a + count - 1) / 2 ^ 20)) as [Eq|Ne]; cbn [negb].
  - split_and!; [lia|done|lia|done|lia|lia|lia].
  - split_and!; try lia. apply Z.divide_sub_r; [done|]. rewrite Z.mod_eq by lia.
    apply Z.divide_sub_r; [done|]. by apply Z.divide_mul_l.
Qed.

Lemma dev_write_memory count offset buf cpp :
  let a := dev_address offset in
  bytes_ok buf -> count = Z.of_nat (length buf) -> count < 2 ^ 31 -> (0 < count -> am_range cpp (dev_cpp_id offset) a count) ->
  (am_unit | count) ->
  exists cpp', dev_write_result count offset buf cpp = Some (Ok count, cpp') /\
    (forall x, am_mem cpp' (dev_cpp_id offset) x = store (am_mem cpp (dev_cpp_id offset)) a buf x) /\
    forall id' a' n', am_range cpp id' a' n' -> am_range cpp' id' a' n'.
Proof using Am.
  intros a Hu8 -> Hc Hr Huc. pose proof (dev_address_bounds offset). apply dev_write_loop_run; [done|lia..|done|done|].
  unfold dev_fuel. change NFP_CPP_MEMIO_BOUNDARY with (2 ^ 20). lia.
Qed.

Context (cdev_name : Z -> string) (tmp : Z) (chunk : nat -> nat).
Notation served := (served cdev_name junk tmp chunk).

(** What both ends keep: the memory apart, a request only makes ranges usable. *)
Definition keeps (data data' : nfp_cpp_dev_data (S := S) (P := P)) : Prop :=
  cd_req data' = cd_req data /\
  forall id a n, am_range (cd_cpp data) id a n -> am_range (cd_cpp data') id a n.

(** C17 (refinement): [pread] of the device file through the shim returns, however the
    socket cuts the streams, the bytes that the memory behind the CPP bus holds at the
    identifier and address the offset names, if they are aligned and each megabyte of
    the range can be opened; the request comes to rest with both ends in step, the
    memory and the registered areas as they were. *)
Theorem shim_pread_memory status fd libc count offset data t :
  let id := dev_cpp_id offset in
  let a := dev_address offset in
  status fd = FD_CPP -> 0 <= count < 2 ^ 31 -> - 2 ^ 63 <= offset < 2 ^ 63 ->
  readable (cd_cpp data) id a count -> (am_unit | a) -> (am_unit | count) ->
  exists data',
    served (shim_pread status fd libc count offset) data t
      ((count, None), load (am_mem (cd_cpp data) id) a count, status) data' /\
    am_mem (cd_cpp data') id = am_mem (cd_cpp data) id /\ keeps data data'.
Proof using Am.
  intros id a Hfd Hc Ho Hr Hua Huc. unfold shim_pread. rewrite decide_True by done.
  destruct (dev_read_memory count offset (cd_cpp data) Hc Hr Hua Huc) as (cpp' & E & Hm & Hk).
  exists (cd_set_cpp cpp' data). split; [|done].
  pose proof (pread_served cdev_name junk tmp chunk status fd _ _ data t _ _ Hc Ho E) as Hs.
  cbn [pread_result] in Hs. rewrite load_length, Z2Nat.id in Hs by lia. apply Hs. lia.
Qed.

(** C18 (roundtrip): [pwrite] of the device file stores the buffer at the place the
    offset names and nothing else, and a later [pread] of the same place returns it,
    if the range is aligned and can be opened as one area. *)
Theorem shim_pwrite_pread status fd libcw libcr buf count offset data t :
  let id := dev_cpp_id offset in
  let a := dev_address offset in
  status fd = FD_CPP -> 0 <= count < 2 ^ 31 -> (Z.to_nat count <= length buf)%nat -> - 2 ^ 63 <= offset < 2 ^ 63 ->
  bytes_ok buf -> (0 < count -> am_range (cd_cpp data) id a count) -> readable (cd_cpp data) id a count ->
  (am_unit | a) -> (am_unit | count) ->
  exists data1 data2,
    served (shim_pwrite status fd libcw buf count offset) data t ((count, None), tt, status) data1 /\
    (forall x, am_mem (cd_cpp data1) id x = store (am_mem (cd_cpp data) id) a (take (Z.to_nat count) buf) x) /\
    keeps data data1 /\
    forall t', served (shim_pread status fd libcr count offset) data1 t'
                 ((count, None), take (Z.to_nat count) buf, status) data2.
Proof using Am.
  intros id a Hfd Hc Hlen Ho Hu8 Hw Hr Hua Huc. set (bs := take (Z.to_nat count) buf).
  assert (Z.of_nat (length bs) = count) as Hbs by (unfold bs; rewrite length_take; lia).
  destruct (dev_write_memory count offset bs (cd_cpp data)) as (cpp1 & E1 & Hm1 & Hk1); [by apply Forall_take|done|lia|done|done|].
  assert (readable cpp1 id a count) as Hr1 by (intros a' n' ? ? ? ? ? ?; by apply Hk1, Hr).
  destruct (dev_read_memory count offset cpp1 Hc Hr1 Hua Huc) as (cpp2 & E2 & Hm2 & Hk2).
  exists (cd_set_cpp cpp1 data), (cd_set_cpp cpp2 data). split_and!; [|done|done|].
  - unfold shim_pwrite. rewrite decide_True by done.
    apply (pwrite_served cdev_name junk tmp chunk status fd _ _ _ _ _ _ _ Hc Hlen Ho E1). lia.
  - intros t'. unfold shim_pread. rewrite decide_True by done.
    pose proof (pread_served cdev_name junk tmp chunk status fd _ _ (cd_set_cpp cpp1 data) t' _ _ Hc Ho E2) as Hs.
    cbn [pread_result] in Hs. rewrite load_length, Z2Nat.id in Hs by lia.
    replace (load (am_mem cpp1 (dev_cpp_id offset)) (dev_address offset) count) with bs in Hs; [apply Hs; lia|].
    rewrite (load_ext _ _ _ count (fun x _ => Hm1 x)). symmetry. by apply load_store_same.
Qed.
End File.
