(* ===== verification/DevPcie.v ===== *)
(** * The device file over PCIe

    The PCIe transport discharges the interface of [DevServe]: where the targets behind
    the CPP bus are memories, an area of the core is a window on one of them. *)

From S2P Require Export DevSession CppPcieAccess.

Local Open Scope Z_scope.

(** ** Targets that are memories

    [tm_mem d tgt] is the memory of a target as plain reads and writes see it. *)
Class TargetMemory (D : Type) `{CppDevice D} := {
  tm_mem : D -> Z -> mem;
  tm_ok : D -> Prop;
  tm_bytes d tgt a n : tm_ok d -> bytes_ok (load (tm_mem d tgt) a n);
  tm_read tgt tok a w d : (w = 4 \/ w = 8)%nat ->
    dev_read tgt NFP_CPP_ACTION_RW tok a w d = (le_combine (load (tm_mem d tgt) a (Z.of_nat w)), d);
  tm_write tgt tok a w v d : (w = 4 \/ w = 8)%nat -> tm_ok d ->
    let d' := dev_write tgt NFP_CPP_ACTION_RW tok a w v d in
    tm_ok d' /\ forall x, tm_mem d' tgt x = store (tm_mem d tgt) a (le_split w v) x }.

Section Pcie.
Context {D : Type} `{Dev : PcieDevice D} `{Cpp : CppDevice D} {Laws : PcieLaws D} {Tm : TargetMemory D}.

Lemma bus_read_memory tgt tok w (d : D) : (w = 4 \/ w = 8)%nat -> tm_ok d -> forall n a,
  bus_read_words n tgt NFP_CPP_ACTION_RW tok a w d = (load (tm_mem d tgt) a (Z.of_nat n * Z.of_nat w), d).
Proof using Tm.
  intros Hw Hd. induction n as [|n IH]; intros a; cbn [bus_read_words]; [done|].
  rewrite tm_read, IH by done.
  pose proof (le_split_combine (load (tm_mem d tgt) a (Z.of_nat w)) (tm_bytes d tgt a _ Hd)) as E.
  rewrite load_length, Nat2Z.id in E. rewrite E, <- load_app by lia. do 2 f_equal. lia.
Qed.

Lemma bus_write_memory tgt tok w : (w = 4 \/ w = 8)%nat -> forall n a bs (d : D), tm_ok d -> bytes_ok bs ->
  length bs = (n * w)%nat ->
  let d' := bus_write_words n tgt NFP_CPP_ACTION_RW tok a w bs d in
  tm_ok d' /\ forall x, tm_mem d' tgt x = store (tm_mem d tgt) a bs x.
Proof using Tm.
  intros Hw. induction n as [|n IH]; intros a bs d Hd Hbs Hl; cbn [bus_write_words].
  - destruct bs; [|done]. split; [done|]. intros x. by rewrite store_nil.
  - destruct (tm_write tgt tok a w (le_combine (take w bs)) d Hw Hd) as [Hd1 Hm1].
    assert (length (take w bs) = w) as Ht by (rewrite length_take; lia).
    pose proof (le_split_combine (take w bs) (Forall_take _ _ _ Hbs)) as E. rewrite Ht in E. rewrite E in Hm1.
    destruct (IH (a + Z.of_nat w) (drop w bs) _ Hd1) as [Hd' Hm'];
      [by apply Forall_drop|rewrite length_drop; lia|].
    split; [done|]. intros x. rewrite Hm'.
    transitivity (store (tm_mem d tgt) a (take w bs ++ drop w bs) x); [|by rewrite take_drop].
    rewrite store_app, Ht. by apply store_ext.
Qed.

(** ** Areas *)

(** The range is aligned and of a target that reads and writes by the word. *)
Definition window_range (cpp : nfp_cpp (pcie_user D)) (id a n : Z) : Prop :=
  wf (cpp_priv cpp) /\ free_bar (cpp_priv cpp) /\ tm_ok (p_dev (cpp_priv cpp)) /\
  nfp_target_cpp id a (Some (imb_lookup cpp)) = Ok (id, a) /\
  bus_act (NFP_CPP_ID_ACTION_of id) = NFP_CPP_ACTION_RW /\ n < 2 ^ 32 /\
  exists pp, one_window (cpp_priv cpp) id a n pp /\ 0 < width_val (PUSH_WIDTH pp) /\ 0 < width_val (PULL_WIDTH pp) /\
    a mod 8 = 0.

(** What an open area is to the state it was opened in. *)
Definition window_open (cpp0 cpp : nfp_cpp (pcie_user D)) (area : nfp_cpp_area nfp6000_area_priv) (id a n : Z) : Prop :=
  let u := cpp_priv cpp in
  let p := area_priv area in
  wf u /\ mapped u p /\ tm_ok (p_dev u) /\ area_size area = n /\ 0 <= a /\ 0 < n < 2 ^ 32 /\ a mod 8 = 0 /\
  p_offset p = a /\ p_size p = n /\ p_target p = NFP_CPP_ID_TARGET_of id /\ p_action p = NFP_CPP_ID_ACTION_of id /\
  bus_act (NFP_CPP_ID_ACTION_of id) = NFP_CPP_ACTION_RW /\ is_Some (p_bar p) /\
  (w_read (p_width p) = 4 \/ w_read (p_width p) = 8) /\ (w_write (p_width p) = 4 \/ w_write (p_width p) = 8) /\
  imb_cat_table cpp = imb_cat_table cpp0 /\
  forall d, tm_ok d -> exists u2,
    nfp_cpp_area_release_free area (nfp_cpp_priv_set (set_dev d u) cpp) = nfp_cpp_priv_set u2 cpp /\
    p_dev u2 = d /\ locks u2 = locks (cpp_priv cpp0) /\ wf u2 /\ same_frame (cpp_priv cpp0) u2.

(** An area's name plays no part. *)
Definition rename (name : string) (area : nfp_cpp_area nfp6000_area_priv) : nfp_cpp_area nfp6000_area_priv :=
  mkArea name (area_offset area) (area_size area) (area_priv area).

Lemma alloc_rename cpp dest name address size :
  nfp_cpp_area_alloc_with_name cpp dest name address size =
  let '(area, cpp) := nfp_cpp_area_alloc cpp dest address size in (rename (default EmptyString name) <$> area, cpp).
Proof using.
  unfold nfp_cpp_area_alloc, nfp_cpp_area_alloc_with_name. destruct (_ >? _); [done|].
  destruct (nfp_target_cpp _ _ _) as [[id a]|]; [|done]. by destruct (op_area_init _ _ _ _) as [[]].
Qed.

Lemma acquire_rename name area (cpp : nfp_cpp (pcie_user D)) :
  nfp_cpp_area_acquire (rename name area) cpp =
  let '(r, area, cpp) := nfp_cpp_area_acquire area cpp in (r, rename name area, cpp).
Proof using.
  unfold nfp_cpp_area_acquire. cbn [op_area_acquire nfp6000_pcie_ops rename area_priv].
  by destruct (nfp6000_area_acquire _ _) as [[[]]].
Qed.

Lemma release_rename name area (cpp : nfp_cpp (pcie_user D)) :
  nfp_cpp_area_release_free (rename name area) cpp = nfp_cpp_area_release_free area cpp.
Proof using.
  unfold nfp_cpp_area_release_free, nfp_cpp_area_release, nfp_cpp_area_free. cbn [op_area_release op_area_cleanup nfp6000_pcie_ops rename area_priv].
  by destruct (nfp6000_area_release _ _).
Qed.

(** A range that can be opened is. *)
Lemma window_opens cpp name id a n : window_range cpp id a n ->
  exists area1 cpp1 area2 cpp2,
    nfp_cpp_area_alloc_with_name cpp id name a n = (Some area1, cpp1) /\
    nfp_cpp_area_acquire area1 cpp1 = (Ok tt, area2, cpp2) /\
    window_open cpp cpp2 area2 id a n /\ tm_mem (p_dev (cpp_priv cpp2)) = tm_mem (p_dev (cpp_priv cpp)).
Proof using Laws.
  intros (Hw & Hf & Hok & Htc & Hact & Hn & pp & How & Hpush & Hpull & Hal).
  pose proof How as ((_ & _ & _ & Ha & Hlen & Ha40) & _ & Hpp & _).
  assert (pp ∈ pp_words) as Hppw by (pose proof (target_pushpull_ok (plain_id id) a) as H; by rewrite Hpp in H).
  destruct (pp_width_vals pp Hppw) as (Hr & Hww & _).
  destruct (open_session cpp id a n id a pp Hw Hf Htc Ha Ha40 How)
    as (area & u1 & Hopen & Hsz & Hw1 & Hm & Hdev & Hwr & Hwp & Hoff & Hps & Ht & Hac & _ & Hb & Hclose).
  unfold nfp_cpp_area_alloc_acquire in Hopen. rewrite alloc_rename.
  destruct (nfp_cpp_area_alloc cpp id a n) as [[area1|] cpp1]; [|done].
  destruct (nfp_cpp_area_acquire area1 cpp1) as [[[[]|] area2] cpp2] eqn:Eacq; [|done]. injection Hopen as -> ->.
  eexists _, _, _, _. cbn [fmap option_fmap option_map]. split; [reflexivity|].
  rewrite acquire_rename, Eacq. split; [reflexivity|]. cbn [cpp_priv nfp_cpp_priv_set]. rewrite Hdev. split; [|done].
  unfold window_open. cbn [cpp_priv nfp_cpp_priv_set rename area_priv area_size imb_cat_table].
  rewrite Hdev, Hwr, Hwp. repeat (split; [first [done | lia]|]).
  intros d _. destruct (Hclose d) as (u2 & Hrf & Hu2). exists u2. split; [|exact Hu2].
  rewrite release_rename. exact Hrf.
Qed.

(** ** Accesses to an open area *)

Lemma access_check_inside p width o l n : is_Some (p_bar p) -> p_size p = n -> 0 <= o -> 0 < l -> o + l <= n < 2 ^ 32 ->
  width = 4 \/ width = 8 -> p_offset p mod 8 = 0 -> (8 | o) -> (8 | l) ->
  exists w, area_access_check p width o l = Ok w /\ (w = 4 \/ w = 8)%nat.
Proof using.
  intros [i Hb] Hs Ho Hl Hn Hw Hal [ko Hko] [kl Hkl]. unfold area_access_check. rewrite Hs, Hb.
  rewrite u64_id, Z.gtb_ltb, (proj2 (Z.ltb_ge _ _)) by words. rewrite (proj2 (Z.leb_gt width 0)) by lia.
  assert (Z.land (p_offset p + o) (width - 1) = (p_offset p + o) mod width) as ->.
  { destruct Hw as [-> | ->]; [by apply (land_mask _ 2)|by apply (land_mask _ 3)]. }
  assert ((p_offset p + o) mod width = 0) as -> by (clear - Hw Hko Hal; destruct Hw as [-> | ->]; lia). cbn [negb Z.eqb].
  destruct (_ && _).
  - assert (o mod 8 = 0) as -> by (clear - Hko; lia). assert (l mod 8 = 0) as -> by (clear - Hkl; lia).
    exists 8%nat. auto.
  - assert (o mod 4 = 0) as -> by (clear - Hko; lia). assert (l mod 4 = 0) as -> by (clear - Hkl; lia).
    exists 4%nat. auto.
Qed.

Lemma words_of l w : (w = 4 \/ w = 8)%nat -> 0 < l -> (8 | l) -> Z.of_nat (Z.to_nat (l / Z.of_nat w)) * Z.of_nat w = l.
Proof using. intros [-> | ->] Hl [k ->]; lia. Qed.

Lemma window_read cpp0 cpp area id a n o l : window_open cpp0 cpp area id a n ->
  0 <= o -> 0 < l -> o + l <= n -> (8 | o) -> (8 | l) ->
  nfp_cpp_area_read area o l cpp =
    (Ok (load (tm_mem (p_dev (cpp_priv cpp)) (NFP_CPP_ID_TARGET_of id)) (a + o) l), cpp).
Proof using Laws.
  intros (Hw & Hm & Hok & Hsz & Ha & Hn & Hal & Hoff & Hps & Ht & Hac & Hact & Hb & Hwr & _) Ho Hl Hol Hd1 Hd2.
  unfold nfp_cpp_area_read. rewrite Hsz, u64_id, Z.gtb_ltb, (proj2 (Z.ltb_ge _ _)) by words.
  cbn [op_area_read nfp6000_pcie_ops]. unfold nfp6000_area_read. rewrite u32_id by words.
  destruct (access_check_inside (area_priv area) _ o l n Hb Hps Ho Hl ltac:(lia) Hwr) as (w & -> & Hw48);
    [by rewrite Hoff|done|done|].
  pose proof (words_of l w Hw48 Hl Hd2) as Hlw.
  rewrite read_loop_words by (try done; rewrite ?Hlw, ?Hps; destruct Hw48; lia).
  rewrite Ht, Hac, Hact, bus_read_memory by done. rewrite Hlw, Hoff.
  f_equal. destruct cpp as [? ? ? u]. by destruct u.
Qed.

Lemma window_write cpp0 cpp area id a n o bs : window_open cpp0 cpp area id a n ->
  let l := Z.of_nat (length bs) in
  bytes_ok bs -> 0 <= o -> 0 < l -> o + l <= n -> (8 | o) -> (8 | l) ->
  exists cpp', nfp_cpp_area_write area o bs l cpp = (Ok l, cpp') /\ window_open cpp0 cpp' area id a n /\
    forall x, tm_mem (p_dev (cpp_priv cpp')) (NFP_CPP_ID_TARGET_of id) x =
      store (tm_mem (p_dev (cpp_priv cpp)) (NFP_CPP_ID_TARGET_of id)) (a + o) bs x.
Proof using Laws.
  intros (Hw & Hm & Hok & Hsz & Ha & Hn & Hal & Hoff & Hps & Ht & Hac & Hact & Hb & Hwr & Hww & Htab & Hclose)
    l Hbs Ho Hl Hol Hd1 Hd2.
  unfold nfp_cpp_area_write. rewrite Hsz, u64_id, Z.gtb_ltb, (proj2 (Z.ltb_ge _ _)) by words.
  cbn [op_area_write nfp6000_pcie_ops]. unfold nfp6000_area_write. rewrite u32_id by words.
  destruct (access_check_inside (area_priv area) _ o l n Hb Hps Ho Hl ltac:(lia) Hww) as (w & -> & Hw48);
    [by rewrite Hoff|done|done|].
  pose proof (words_of l w Hw48 Hl Hd2) as Hlw.
  rewrite write_loop_words by (try done; rewrite ?Hlw, ?Hps; destruct Hw48; lia).
  rewrite Ht, Hac, Hact, Hoff.
  destruct (bus_write_memory (NFP_CPP_ID_TARGET_of id) (p_token (area_priv area)) w Hw48 (Z.to_nat (l / Z.of_nat w)) (a + o) bs
              (p_dev (cpp_priv cpp)) Hok Hbs) as [Hok' Hm']; [clear - Hlw; lia|].
  eexists. split; [reflexivity|]. split; [|exact Hm'].
  unfold window_open. cbn [cpp_priv nfp_cpp_priv_set imb_cat_table].
  split; [exact Hw|]. split; [by apply mapped_set_dev|].
  repeat (split; [first [done | lia]|]). exact Hclose.
Qed.

Lemma window_close cpp0 cpp area id a n : window_open cpp0 cpp area id a n ->
  let cpp' := nfp_cpp_area_release_free area cpp in
  tm_mem (p_dev (cpp_priv cpp')) = tm_mem (p_dev (cpp_priv cpp)) /\
  forall id' a' n', window_range cpp0 id' a' n' -> window_range cpp' id' a' n'.
Proof using.
  intros (Hw & Hm & Hok & _ & _ & _ & _ & _ & _ & _ & _ & _ & _ & _ & _ & Htab & Hclose) cpp'.
  destruct (Hclose (p_dev (cpp_priv cpp)) Hok) as (u2 & Hrf & Hd2 & Hl2 & Hw2 & Hf2).
  assert (nfp_cpp_priv_set (set_dev (p_dev (cpp_priv cpp)) (cpp_priv cpp)) cpp = cpp) as E
    by (destruct cpp as [? ? ? u]; by destruct u).
  rewrite E in Hrf. fold cpp' in Hrf. rewrite Hrf. cbn [cpp_priv nfp_cpp_priv_set]. split; [by rewrite Hd2|].
  intros id' a' n' (Hw' & Hfree & Hok' & Htc & Hact & Hn & pp & How & Hrest).
  destruct Hf2 as (Hbz & _ & Hpr & _).
  unfold window_range. cbn [cpp_priv nfp_cpp_priv_set]. split; [done|]. split.
  { destruct Hfree as (x & b & Hx & Hb & Hlk).
    assert (locks u2 !! Z.to_nat (x - 1) = Some false) as Hl
      by (rewrite Hl2; unfold locks; rewrite list_lookup_fmap, Hb; cbn; by rewrite Hlk).
    unfold locks in Hl. rewrite list_lookup_fmap in Hl. destruct (bar u2 !! _) as [b'|] eqn:Eb; [|done].
    exists x, b'. rewrite Hpr. cbn in Hl. by simplify_eq. }
  split; [by rewrite Hd2|]. split.
  { rewrite <- Htc. do 2 f_equal. unfold imb_lookup. cbn [imb_cat_table nfp_cpp_priv_set]. by rewrite Htab. }
  split; [done|]. split; [done|]. exists pp. split; [|done].
  unfold one_window in *. by rewrite Hbz.
Qed.

#[export] Program Instance pcie_memory : AreaMemory (pcie_user D) nfp6000_area_priv := {
  am_mem cpp id := tm_mem (p_dev (cpp_priv cpp)) (NFP_CPP_ID_TARGET_of id);
  am_unit := 8;
  am_range := window_range;
  am_open := window_open }.
Next Obligation. split; [lia|by exists 8]. Qed.
Next Obligation.
  intros cpp id a n (_ & _ & _ & _ & _ & _ & pp & ((_ & _ & _ & Ha & Hn & _) & _) & _). lia.
Qed.
Next Obligation.
  intros cpp name id a n Hr. destruct (window_opens cpp name id a n Hr) as (a1 & c1 & a2 & c2 & H1 & H2 & H3 & H4).
  exists a1, c1, a2, c2. by rewrite H4.
Qed.
Next Obligation.
  cbn beta. intros cpp0 cpp area id a n o l Ho H0 Hl Hol Hd1 Hd2. exists cpp.
  by rewrite (window_read cpp0 cpp area id a n o l Ho).
Qed.
Next Obligation. intros cpp0 cpp area id a n o bs Ho. cbv zeta. by apply window_write. Qed.
Next Obligation.
  cbv beta. intros cpp0 cpp area id a n Ho. destruct (window_close _ _ _ _ _ _ Ho) as [Hm Hr]. cbv zeta.
  split; [by rewrite Hm|exact Hr].
Qed.
End Pcie.

(** ** Memory units through the device file *)

Lemma mu_words id a : NFP_CPP_ID_TARGET_of id = 7 -> NFP_CPP_ID_ACTION_of id = 32 -> 0 <= NFP_CPP_ID_TOKEN_of id < 4 ->
  nfp6000_target_pushpull (plain_id id) a = Ok (PUSHPULL P64 P64).
Proof.
  intros Ht Ha Hk. unfold plain_id. rewrite Ht, Ha. generalize dependent (NFP_CPP_ID_TOKEN_of id). intros k Hk.
  assert (k = 0 \/ k = 1 \/ k = 2 \/ k = 3) as [-> | [-> | [-> | ->]]] by lia.
  all: match goal with |- nfp6000_target_pushpull ?i _ = _ => let v := eval vm_compute in i in change i with v end.
  all: unfold nfp6000_target_pushpull; match goal with |- context [NFP_CPP_ID_TARGET_of ?i] => change (NFP_CPP_ID_TARGET_of i) with 7 end.
  all: cbv iota; unfold nfp6000_mu; match goal with |- context [NFP_CPP_ID_ISLAND_of ?i] => change (NFP_CPP_ID_ISLAND_of i) with 0 end.
  all: cbn [Z.eqb]; repeat match goal with |- context [?x <? ?c] => destruct (x <? c) end; by vm_compute.
Qed.

Section Units.
Context {D : Type} `{Dev : PcieDevice D} `{Cpp : CppDevice D} {Laws : PcieLaws D} {Tm : TargetMemory D}.

(** A handle whose windows span a megabyte at least. *)
Definition serving (cpp : nfp_cpp (pcie_user D)) : Prop :=
  wf (cpp_priv cpp) /\ free_bar (cpp_priv cpp) /\ tm_ok (p_dev (cpp_priv cpp)) /\ 23 <= barsz (cpp_priv cpp).

(** A piece of a memory unit that does not leave its megabyte. *)
Lemma mu_range cpp id a n : serving cpp -> NFP_CPP_ID_ISLAND_of id = 0 ->
  NFP_CPP_ID_TARGET_of id = 7 -> NFP_CPP_ID_ACTION_of id = 32 -> 0 <= NFP_CPP_ID_TOKEN_of id < 4 ->
  0 <= a -> 0 < n -> a + n <= 2 ^ 40 -> a mod 8 = 0 -> a / 2 ^ 20 = (a + n - 1) / 2 ^ 20 ->
  window_range cpp id a n.
Proof using.
  intros (Hw & Hf & Hok & Hbz) Hi Ht Hac Hk Ha Hn Ha40 Hal Hmb. pose proof Hw as [Hbz' _].
  split; [done|]. split; [done|]. split; [done|]. split.
  { unfold nfp_target_cpp. by rewrite Ht, Hi. }
  rewrite Hac. split; [done|]. split; [lia|]. exists (PUSHPULL P64 P64).
  split; [|by split_and!]. unfold one_window, dest_ok. rewrite Ht, Hac. split; [lia|]. split; [done|].
  split; [by apply mu_words|]. split; [by left|]. split.
  - unfold in_block. set (b := barsz (cpp_priv cpp) - 3) in *.
    replace (2 ^ b) with (2 ^ 20 * 2 ^ (b - 20)) by (rewrite <- Z.pow_add_r by lia; f_equal; lia).
    rewrite <- !Zdiv_Zdiv by lia. by rewrite Hmb.
  - cbn. lia.
Qed.
End Units.
