(* ===== verification/DevTotal.v ===== *)
(** * The device server's loops end

    Whatever the transport answers, the loops of a read and of a write end, and a range
    the core refuses is an error at the client. *)

From S2P Require Export DevPcie.

Local Open Scope Z_scope.

Section Total.
Context {S P : Type} `{Op : nfp_cpp_operations S P}.

(** A transport reports errors by negative values. *)
Context (negative : forall p o n s e s', op_area_read p o n s = (Err e, s') -> cerr_ret e < 0).

Lemma area_read_negative area o n (cpp cpp' : nfp_cpp S) e :
  nfp_cpp_area_read area o n cpp = (Err e, cpp') -> cerr_ret e < 0.
Proof using negative.
  unfold nfp_cpp_area_read. destruct (_ >? _).
  - intros [= <- _]. done.
  - destruct (op_area_read _ _ _ _) as [[|] s] eqn:E; [done|]. intros [= -> _]. by eapply negative.
Qed.

Lemma piece_bounds n pos : 0 <= pos < n -> n < 2 ^ 32 -> 0 < piece n pos <= 64 /\ pos + piece n pos <= n.
Proof using. intros. rewrite piece_eq by done. lia. Qed.

Lemma read_pieces_total area n : n < 2 ^ 32 -> forall fuel pos err tmpbuf (cpp : nfp_cpp S), 0 <= pos <= n ->
  (Z.to_nat (n - pos) <= fuel * 64)%nat -> 0 <= err ->
  exists out pos' err' tmpbuf' cpp', read_pieces fuel area n pos err tmpbuf cpp = Some (out, pos', err', tmpbuf', cpp') /\
    (err' < 0 \/ pos' = n).
Proof using negative.
  intros Hn. induction fuel as [|fuel IH]; intros pos err tmpbuf cpp Hp Hf He; cbn [read_pieces];
    destruct (Z.ltb_spec pos n) as [L|L]; cbn [negb]; try (exfalso; lia).
  1, 3: eexists _, _, _, _, _; split; [reflexivity|]; lia.
  pose proof (piece_bounds n pos ltac:(lia) Hn) as Hpc.
  destruct (nfp_cpp_area_read area pos (piece n pos) cpp) as [[bs|e] cpp1] eqn:E.
  2:{ eexists _, _, _, _, _; split; [reflexivity|]. left. by eapply area_read_negative. }
  rewrite u32_id by (unfold is_u32; lia).
  edestruct (IH (pos + piece n pos)) as (out & pos' & err' & tmp' & cpp' & -> & Hres); cycle 3.
  { eexists _, _, _, _, _. split; [reflexivity|exact Hres]. }
  - lia.
  - pose proof (piece_eq n pos ltac:(lia) Hn). lia.
  - lia.
Qed.

Lemma write_pieces_total area n buff : n < 2 ^ 32 -> forall fuel pos (cpp : nfp_cpp S), 0 <= pos <= n ->
  (Z.to_nat (n - pos) <= fuel * 64)%nat ->
  exists r cpp', write_pieces fuel area n pos buff cpp = Some (r, cpp') /\ (r = None \/ r = Some n).
Proof using.
  intros Hn. induction fuel as [|fuel IH]; intros pos cpp Hp Hf; cbn [write_pieces];
    destruct (Z.ltb_spec pos n) as [L|L]; cbn [negb]; try (exfalso; lia).
  1, 3: eexists _, _; split; [reflexivity|]; right; f_equal; lia.
  pose proof (piece_bounds n pos ltac:(lia) Hn) as Hpc.
  destruct (nfp_cpp_area_write _ _ _ _ _) as [[l|e] cpp1]; [|by eexists _, _; split; [reflexivity|left]].
  rewrite u32_id by (unfold is_u32; lia). apply IH; [lia|].
  pose proof (piece_eq n pos ltac:(lia) Hn). lia.
Qed.

(** Enough turns are left for [count] bytes, [curlen] of them in this turn. *)
Definition turns (fuel : nat) (curlen count : Z) : Prop :=
  0 < curlen <= count /\ curlen < 2 ^ 32 /\ (Z.to_nat ((count - curlen + 2 ^ 20 - 1) / 2 ^ 20) < fuel)%nat.

Lemma turns_next fuel curlen count : turns (Datatypes.S fuel) curlen count -> 0 < count - curlen ->
  turns fuel (next_len (count - curlen)) (count - curlen).
Proof using.
  intros (H1 & H2 & H3) Hc. unfold turns, next_len, NFP_CPP_MEMIO_BOUNDARY. rewrite Z.gtb_ltb.
  change (Z.shiftl 1 20) with (2 ^ 20). destruct (Z.ltb_spec (2 ^ 20) (count - curlen)); lia.
Qed.

Lemma fuel_pieces n : 0 <= n -> (Z.to_nat (n - 0) <= pieces_fuel n * 64)%nat.
Proof using. intros. unfold pieces_fuel, sizeof_tmpbuf. lia. Qed.

Lemma dev_read_loop_total id : forall fuel a curlen count tmpbuf (cpp : nfp_cpp S), count < 2 ^ 63 ->
  (0 < count -> turns fuel curlen count) -> is_Some (dev_read_loop fuel id a curlen count tmpbuf cpp).
Proof using negative.
  induction fuel as [|fuel IH]; intros a curlen count tmpbuf cpp Hc Ht; cbn [dev_read_loop]; rewrite Z.gtb_ltb;
    destruct (Z.ltb_spec 0 count) as [L|L]; cbn [negb]; try done.
  { destruct (Ht L) as (_ & _ & Hf). lia. }
  pose proof (Ht L) as Hcur. destruct Hcur as (Hcl & Hc32 & _).
  destruct (nfp_cpp_area_alloc_with_name _ _ _ _ _) as [[area|] cpp1]; [|done].
  destruct (nfp_cpp_area_acquire area cpp1) as [[[u|e] area2] cpp2]; [|done].
  destruct (read_pieces_total area2 curlen Hc32 (pieces_fuel curlen) 0 0 tmpbuf cpp2)
    as (out & pos & err & tmp' & cpp3 & -> & Hpos); [lia|apply fuel_pieces; lia|lia|].
  destruct (Z.ltb_spec err 0) as [Hlt|Hge]; [done|]. destruct Hpos as [Hneg|Heq]; [lia|]. subst pos.
  rewrite u64_id by (unfold is_u64; lia).
  match goal with |- is_Some (match dev_read_loop ?f ?i ?a ?l ?c ?b ?h with _ => _ end) =>
    destruct (IH a l c b h) as [[[out'|e] cpp'] ->] end; [lia| |done..].
  intros Hp. apply turns_next; [by apply Ht|done].
Qed.

Lemma dev_write_loop_total id : forall fuel a curlen count totlen buff (cpp : nfp_cpp S), count < 2 ^ 63 ->
  (0 < count -> turns fuel curlen count) -> is_Some (dev_write_loop fuel id a curlen count totlen buff cpp).
Proof using.
  induction fuel as [|fuel IH]; intros a curlen count totlen buff cpp Hc Ht; cbn [dev_write_loop]; rewrite Z.gtb_ltb;
    destruct (Z.ltb_spec 0 count) as [L|L]; cbn [negb]; try done.
  { destruct (Ht L) as (_ & _ & Hf). lia. }
  pose proof (Ht L) as Hcur. destruct Hcur as (Hcl & Hc32 & _).
  destruct (nfp_cpp_area_alloc_with_name _ _ _ _ _) as [[area|] cpp1]; [|done].
  destruct (nfp_cpp_area_acquire area cpp1) as [[[u|e] area2] cpp2]; [|done].
  destruct (write_pieces_total area2 curlen buff Hc32 (pieces_fuel curlen) 0 cpp2)
    as (r & cpp3 & -> & [-> | ->]); [lia|apply fuel_pieces; lia|done|].
  rewrite u64_id by (unfold is_u64; lia). apply IH; [lia|]. intros Hp. apply turns_next; [by apply Ht|done].
Qed.

(** C20 (termination): whatever the transport answers, the loops of the device server
    end: a read's for any count an offset can reach, a write's below 4 GiB. *)
Theorem dev_requests_terminate junk count offset buf (cpp : nfp_cpp S) :
  (0 <= count < 2 ^ 63 -> is_Some (dev_read_result junk count offset cpp)) /\
  (0 <= count < 2 ^ 32 -> is_Some (dev_write_result count offset buf cpp)).
Proof using negative.
  pose proof (dev_address_bounds offset) as Ha. split; intros Hc.
  - apply dev_read_loop_total; [lia|]. intros Hp. unfold turns, dev_fuel. rewrite crosses_boundary_spec, to_boundary_spec.
    change NFP_CPP_MEMIO_BOUNDARY with (2 ^ 20). destruct (Z.eqb_spec (dev_address offset / 2 ^ 20) ((dev_address offset + count - 1) / 2 ^ 20)); cbn [negb]; lia.
  - apply dev_write_loop_total; [lia|]. intros Hp. unfold turns, dev_fuel. change NFP_CPP_MEMIO_BOUNDARY with (2 ^ 20). lia.
Qed.
End Total.

(** ** Refused ranges *)

Section Refused.
Context {S P : Type} `{Op : nfp_cpp_operations S P}.
Context (cdev_name : Z -> string) (junk : list Z) (tmp : Z) (chunk : nat -> nat).
Notation served := (served cdev_name junk tmp chunk).

(** C19 (error): when the core refuses the area of a read's first megabyte, or the one
    area a write opens for its whole range, the client's call returns -1 with [errno]
    EIO, and the connection is in step for the next request. *)
Theorem shim_refused status fd libcr libcw buf count offset data t :
  let id := dev_cpp_id offset in
  let a := dev_address offset in
  let name := Some "nfp.cdev"%string in
  status fd = FD_CPP -> 0 < count < 2 ^ 31 -> - 2 ^ 63 <= offset < 2 ^ 63 -> (Z.to_nat count <= length buf)%nat ->
  (forall cpp, nfp_cpp_area_alloc_with_name (cd_cpp data) id name a (Z.min count (2 ^ 20 - a mod 2 ^ 20)) = (None, cpp) ->
     served (shim_pread status fd libcr count offset) data t ((-1, Some EIO), [], status) (cd_set_cpp cpp data)) /\
  (forall cpp, nfp_cpp_area_alloc_with_name (cd_cpp data) id name a count = (None, cpp) ->
     served (shim_pwrite status fd libcw buf count offset) data t ((-1, Some EIO), tt, status) (cd_set_cpp cpp data)).
Proof using.
  intros id a name Hfd Hc Ho Hlen. pose proof (dev_address_bounds offset) as Ha. fold a in Ha.
  assert (exists f, dev_fuel count = Datatypes.S f) as [f Ef].
  { unfold dev_fuel. change NFP_CPP_MEMIO_BOUNDARY with (2 ^ 20). exists (Z.to_nat (count / 2 ^ 20 + 1)). lia. }
  unfold shim_pread, shim_pwrite. rewrite !decide_True by done. split; intros cpp Hal.
  - apply (pread_served cdev_name junk tmp chunk status fd _ _ data t (Err (NegErr EIO))); [lia|done| |done].
    unfold dev_read_result. cbv zeta. rewrite crosses_boundary_spec, to_boundary_spec, Ef. fold a.
    assert ((if negb (a / 2 ^ 20 =? (a + count - 1) / 2 ^ 20) then 2 ^ 20 - a mod 2 ^ 20 else count) =
            Z.min count (2 ^ 20 - a mod 2 ^ 20)) as ->
      by (destruct (Z.eqb_spec (a / 2 ^ 20) ((a + count - 1) / 2 ^ 20)); cbn [negb]; lia).
    cbn [dev_read_loop]. rewrite Z.gtb_ltb, (proj2 (Z.ltb_lt _ _)) by lia. cbn [negb].
    subst id a name. by rewrite Hal.
  - apply (pwrite_served cdev_name junk tmp chunk status fd _ _ _ data t (Err (NegErr EIO))); [lia|done|done| |done].
    unfold dev_write_result. rewrite Ef.
    cbn [dev_write_loop]. rewrite Z.gtb_ltb, (proj2 (Z.ltb_lt _ _)) by lia. cbn [negb].
    subst id a name. by rewrite Hal.
Qed.
End Refused.

(** ** A device behind a socket *)

#[export] Program Instance sim_targets : TargetMemory sim_mem := {
  tm_mem d := d;
  tm_ok d := forall t x, is_u8 (d t x) }.
Next Obligation.
  intros d tgt a n Hd. unfold load. apply Forall_fmap, Forall_true. intros x. apply Hd.
Qed.
Next Obligation. done. Qed.
Next Obligation.
  intros tgt tok a w v d Hw Hd. cbn. split.
  - intros t x. unfold sim_write. destruct (_ =? _); [|apply Hd]. unfold store. destruct (_ && _); [|apply Hd].
    destruct (le_split w v !! _) as [b|] eqn:E; cbn; [|apply Hd].
    pose proof (le_split_ok w v) as Hb. by eapply Forall_lookup_1 in Hb.
  - intros x. unfold sim_write. by rewrite Z.eqb_refl.
Qed.

Definition ex_status : fd_table := set_fd 5 FD_CPP (fun _ => FD_UNUSED).
Definition ex_data : nfp_cpp_dev_data (S := pcie_user sim_mem) (P := nfp6000_area_priv) := mkDevData ex_cpp [].
(** A memory unit's address in the device file. *)
Definition ex_offset (a : Z) : Z := Z.shiftl 0x070020 40 + a.

Lemma ex_serving : serving ex_cpp.
Proof. destruct ex_user_wf as [Hw Hf]. split_and!; [exact Hw|exact Hf|done|by vm_compute]. Qed.

Lemma ex_range a n : 0 <= a -> 0 < n -> a + n <= 2 ^ 40 -> a mod 8 = 0 -> a / 2 ^ 20 = (a + n - 1) / 2 ^ 20 ->
  window_range ex_cpp 0x07002000 a n.
Proof. intros. by apply (mu_range _ _ _ _ ex_serving). Qed.

Lemma ex_readable a n : 0 <= a -> a + n <= 2 ^ 40 -> readable ex_cpp 0x07002000 a n.
Proof.
  intros Ha Hn a' n' H1 H2 H3 [k ->] H5 H6. change am_unit with 8 in *. apply ex_range; [lia..| |done]. lia.
Qed.

Definition ex_served {C} := served (C := C) (S := pcie_user sim_mem) (P := nfp6000_area_priv)
  (fun _ => EmptyString) (repeat 0 64) 0 (fun t => t).

(** A read across a window of the BARs. *)
Lemma shim_pread_memory_witness : exists data',
  ex_served (shim_pread ex_status 5 SSpin 16 (ex_offset 0x81007ffff8)) ex_data 0
    ((16, None), repeat 7 16, ex_status) data'.
Proof.
  destruct (shim_pread_memory (repeat 0 64) (fun _ => EmptyString) 0 (fun t => t) ex_status 5 SSpin 16
              (ex_offset 0x81007ffff8) ex_data 0) as (data' & H & _).
  - reflexivity.
  - lia.
  - vm_compute. split; congruence.
  - apply ex_readable; vm_compute; congruence.
  - by exists (0x81007ffff8 / 8).
  - by exists 2.
  - exists data'. exact H.
Defined.

Lemma shim_pwrite_pread_witness : exists data1 data2,
  ex_served (shim_pwrite ex_status 5 SSpin [1; 2; 3; 4; 5; 6; 7; 8] 8 (ex_offset 0x8100000000)) ex_data 0 ((8, None), tt, ex_status) data1 /\
  ex_served (shim_pread ex_status 5 SSpin 8 (ex_offset 0x8100000000)) data1 3 ((8, None), [1; 2; 3; 4; 5; 6; 7; 8], ex_status) data2.
Proof.
  destruct (shim_pwrite_pread (repeat 0 64) (fun _ => EmptyString) 0 (fun t => t) ex_status 5 SSpin SSpin
              [1; 2; 3; 4; 5; 6; 7; 8] 8 (ex_offset 0x8100000000) ex_data 0) as (data1 & data2 & H1 & _ & _ & H2).
  - reflexivity.
  - lia.
  - cbn. lia.
  - vm_compute. split; congruence.
  - repeat constructor; by vm_compute.
  - intros _. apply ex_range; by vm_compute.
  - apply ex_readable; vm_compute; congruence.
  - by exists (0x8100000000 / 8).
  - by exists 1.
  - exists data1, data2. split; [exact H1|exact (H2 3%nat)].
Defined.

(** The write is not: it opens one area for the whole range. *)
Lemma shim_refused_witness : exists data',
  ex_served (shim_pwrite ex_status 5 SSpin (repeat 1 16) 16 (ex_offset 0x81007ffff8)) ex_data 0 ((-1, Some EIO), tt, ex_status) data'.
Proof.
  destruct (nfp_cpp_area_alloc_with_name ex_cpp (dev_cpp_id (ex_offset 0x81007ffff8)) (Some "nfp.cdev"%string)
              (dev_address (ex_offset 0x81007ffff8)) 16) as [[area|] cpp] eqn:E; [vm_compute in E; congruence|].
  exists (cd_set_cpp cpp ex_data).
  refine (proj2 (shim_refused (fun _ => EmptyString) (repeat 0 64) 0 (fun t => t) ex_status 5 SSpin SSpin (repeat 1 16) 16
           (ex_offset 0x81007ffff8) ex_data 0 _ _ _ _) cpp E).
  - reflexivity.
  - lia.
  - vm_compute. split; congruence.
  - vm_compute. lia.
Defined.

Lemma dev_requests_terminate_witness :
  (forall p o n s e s', op_area_read p o n s = (Err e, s') -> cerr_ret e < 0) /\
  is_Some (dev_read_result (P := nfp6000_area_priv) (repeat 0 64) (2 ^ 40) (ex_offset 0) ex_cpp).
Proof.
  assert (forall p o n (s : pcie_user sim_mem) e s', op_area_read p o n s = (Err e, s') -> cerr_ret e < 0) as Hn.
  { intros p o n s e s'. cbn. unfold nfp6000_area_read. destruct (area_access_check _ _ _ _) as [w|e'] eqn:Ec.
    - by destruct (read_loop _ _ _ _).
    - intros [= -> _]. revert Ec. unfold area_access_check. cbv zeta.
      repeat match goal with |- (if ?b then _ else _) = _ -> _ => destruct b; [intros [= <-]; by vm_compute|] end.
      intros [= <-]. by vm_compute. }
  split; [exact Hn|].
  refine (proj1 (dev_requests_terminate Hn (repeat 0 64) (2 ^ 40) (ex_offset 0) [] ex_cpp) _). lia.
Defined.
