(* ===== verification/DevState.v ===== *)
(** * The server's state: registered areas and connections

    The areas that clients register never overlap, and the poll loop keeps each
    connection until it closes it. *)

From S2P Require Export CppDev CppCoreThms.

Local Open Scope Z_scope.

(** ** Registered areas *)

Section Areas.
Context {S P : Type} `{Op : nfp_cpp_operations S P}.
Notation dev_data := (nfp_cpp_dev_data (S := S) (P := P)).

(** The pages of a request, below the end of the address space. *)
Definition page_range (r : nfp_cpp_area_request) : Prop :=
  0 <= ar_offset r /\ 0 <= ar_size r /\ ar_offset r + ar_size r < 2 ^ 64.

Definition overlap (r1 r2 : nfp_cpp_area_request) : Prop :=
  ar_offset r1 < ar_offset r2 + ar_size r2 /\ ar_offset r2 < ar_offset r1 + ar_size r1.

Definition areas_ok (data : dev_data) : Prop :=
  Forall (fun area => page_range (da_req area)) (cd_req data) /\
  ForallOrdPairs (fun a1 a2 => ~ overlap (da_req a1) (da_req a2)) (cd_req data).

Lemma collide_overlap r1 r2 : page_range r1 -> page_range r2 -> areas_collide r1 r2 = true <-> overlap r1 r2.
Proof using.
  intros (H1 & H2 & H3) (H4 & H5 & H6). unfold areas_collide, overlap.
  rewrite andb_true_iff, Z.gtb_ltb, !Z.ltb_lt, !u64_id by (unfold is_u64; lia). lia.
Qed.

Lemma range_check_cases (l : list (nfp_dev_cpp_area (P := P))) r : nfp_dev_cpp_range_check l r = 0 \/ nfp_dev_cpp_range_check l r = - ETXTBSY.
Proof using. induction l as [|area l IH]; cbn; [by left|]. destruct (areas_collide _ _); [by right|done]. Qed.

Lemma range_check_ok (l : list (nfp_dev_cpp_area (P := P))) r : page_range r -> Forall (fun area => page_range (da_req area)) l ->
  nfp_dev_cpp_range_check l r = 0 <-> Forall (fun area => ~ overlap (da_req area) r) l.
Proof using.
  intros Hr Hl. induction Hl as [|area l Ha _ IH]; cbn; [by split|]. rewrite Forall_cons, <- IH.
  pose proof (collide_overlap (da_req area) r Ha Hr) as Hc. destruct (areas_collide _ _); [|naive_solver].
  split; [done|]. intros [H _]. by destruct H; apply Hc.
Qed.

Lemma pairs_app (l : list (nfp_dev_cpp_area (P := P))) x :
  ForallOrdPairs (fun a1 a2 => ~ overlap (da_req a1) (da_req a2)) l -> Forall (fun a => ~ overlap (da_req a) (da_req x)) l ->
  ForallOrdPairs (fun a1 a2 => ~ overlap (da_req a1) (da_req a2)) (l ++ [x]).
Proof using.
  induction 1 as [|a l Ha _ IH]; intros Hx; cbn; [by repeat constructor|]. inversion Hx; subst.
  constructor; [|by apply IH]. apply Forall_app. split; [done|]. by constructor.
Qed.

(** An area past the end of all others: [place_loop] stops there at the latest. *)
Lemma place_loop_finds (req_list : list (nfp_dev_cpp_area (P := P))) r : Forall (fun area => page_range (da_req area)) req_list -> 0 <= ar_size r ->
  forall areas err, (exists m, m ∈ areas /\ Forall (fun area => ar_offset (da_req area) + ar_size (da_req area) <=
                                 ar_offset (da_req m) + ar_size (da_req m)) req_list /\
                               ar_offset (da_req m) + ar_size (da_req m) + ar_size r < 2 ^ 64) ->
  Forall (fun area => page_range (da_req area)) areas ->
  exists offset, place_loop areas req_list err r = (0, set_offset offset r) /\
    nfp_dev_cpp_range_check req_list (set_offset offset r) = 0 /\
    exists area, area ∈ areas /\ offset = ar_offset (da_req area) + ar_size (da_req area).
Proof using.
  intros Hl Hs areas. revert r Hs. induction areas as [|area areas IH]; intros r Hs err (m & Hm & Hmax & Hend) Hok.
  { by apply elem_of_nil in Hm. }
  inversion Hok as [|? ? Hpa Hpas]; subst. cbn [place_loop].
  assert (u64 (ar_offset (da_req area) + ar_size (da_req area)) = ar_offset (da_req area) + ar_size (da_req area)) as Eu
    by (destruct Hpa as (? & ? & ?); apply u64_id; unfold is_u64; lia).
  rewrite Eu. set (e := ar_offset (da_req area) + ar_size (da_req area)) in *.
  destruct (Z.eqb_spec (nfp_dev_cpp_range_check req_list (set_offset e r)) 0) as [E0|N0].
  - exists e. rewrite E0. split; [done|]. split; [done|]. exists area. split; [by left|done].
  - apply elem_of_cons in Hm as [->|Hm].
    + destruct N0. destruct Hpa as (? & ? & ?). apply range_check_ok; [unfold page_range; cbn; lia|done|].
      eapply Forall_impl; [exact Hmax|]. cbn. intros x Hx [Hx1 Hx2]. cbn in *. fold e in Hx. lia.
    + destruct (IH (set_offset e r) Hs (nfp_dev_cpp_range_check req_list (set_offset e r))) as (o & E & Hc & x & Hx & Ho);
        [by exists m|done|].
      exists o. rewrite E. split; [done|]. split; [done|]. exists x. split; [by right|done].
Qed.

Context (cdev_name : Z -> string).

Lemma area_alloc_req data interface r err data' : nfp_dev_cpp_area_alloc cdev_name data interface r = (err, data') ->
  (err = 0 /\ exists area, cd_req data' = cd_req data ++ [mkDevArea interface r area []]) \/
  (err = - EINVAL /\ cd_req data' = cd_req data).
Proof using.
  unfold nfp_dev_cpp_area_alloc. destruct (nfp_cpp_area_alloc_with_name _ _ _ _ _) as [[area|] cpp]; intros [= <- <-].
  - left. split; [done|]. by exists area.
  - by right.
Qed.

Lemma request_req data interface r err r' data' : do_cpp_area_request cdev_name data interface r = (err, r', data') ->
  (err = 0 /\ nfp_dev_cpp_range_check (cd_req data) r' = 0 /\
     exists area, cd_req data' = cd_req data ++ [mkDevArea interface r' area []]) \/
  (err < 0 /\ cd_req data' = cd_req data).
Proof using.
  assert (forall err1 r1, (err1 = 0 \/ err1 = - ETXTBSY) ->
    (if err1 >=? 0 then
       let err := nfp_dev_cpp_range_check (cd_req data) r1 in
       if err >=? 0 then let '(err, data) := nfp_dev_cpp_area_alloc cdev_name data interface r1 in (err, r1, data)
       else (err, r1, data)
     else (err1, r1, data)) = (err, r', data') ->
    (err = 0 /\ nfp_dev_cpp_range_check (cd_req data) r' = 0 /\
       exists area, cd_req data' = cd_req data ++ [mkDevArea interface r' area []]) \/
    (err < 0 /\ cd_req data' = cd_req data)) as Hfin.
  { intros err1 r1 [-> | ->]; [|intros [= <- <- <-]; right; by split]. cbn [Z.geb Z.compare]. cbv zeta.
    destruct (range_check_cases (cd_req data) r1) as [E|E]; rewrite E; [|intros [= <- <- <-]; right; by split].
    cbn [Z.geb Z.compare]. destruct (nfp_dev_cpp_area_alloc _ _ _ _) as [e d] eqn:Ea. intros [= -> -> ->].
    destruct (area_alloc_req _ _ _ _ _ Ea) as [[-> H]|[-> H]]; [by left|right; by split]. }
  unfold do_cpp_area_request. destruct (negb _); [intros [= <- <- <-]; right; by split|].
  destruct (_ && _); [intros [= <- <- <-]; right; by split|].
  destruct (_ =? _); [|apply (Hfin 0); by left].
  destruct (range_check_cases (cd_req data) (set_offset 0 r)) as [E|E]; rewrite E; [apply (Hfin 0); by left|].
  change (- ETXTBSY <? 0) with true. cbv iota.
  assert (forall areas l err0 r0, (err0 = 0 \/ err0 = - ETXTBSY) ->
    let '(e, _) := place_loop (P := P) areas l err0 r0 in e = 0 \/ e = - ETXTBSY) as Hpl.
  { induction areas as [|a areas IH]; intros l err0 r0 H0; cbn [place_loop]; [done|].
    destruct (Z.eqb_spec (nfp_dev_cpp_range_check l (set_offset (u64 (ar_offset (da_req a) + ar_size (da_req a))) r0)) 0) as [->|];
      [by left|]. apply IH, range_check_cases. }
  specialize (Hpl (cd_req data) (cd_req data) (- ETXTBSY) (set_offset 0 r) (or_intror eq_refl)).
  destruct (place_loop _ _ _ _) as [e r1]. by apply Hfin.
Qed.

(** The calls that change the list. *)
Inductive area_call : dev_data -> dev_data -> Prop :=
| call_request data interface r err r' data' :
    do_cpp_area_request cdev_name data interface r = (err, r', data') -> page_range r' -> area_call data data'
| call_release data r err data' : do_cpp_area_release data r = (err, data') -> area_call data data'.

Lemma pairs_delete (l : list (nfp_dev_cpp_area (P := P))) i :
  ForallOrdPairs (fun a1 a2 => ~ overlap (da_req a1) (da_req a2)) l ->
  ForallOrdPairs (fun a1 a2 => ~ overlap (da_req a1) (da_req a2)) (delete i l).
Proof using.
  intros Hl. revert i. induction Hl as [|a l Ha Hl IH]; intros [|i]; cbn; [constructor|constructor|done|].
  constructor; [by apply Forall_delete|apply IH].
Qed.

(** C21 (invariant): whatever areas clients request and release, no two registered
    areas overlap, as long as requests end below the top of the address space. *)
Theorem registered_areas_disjoint data0 data :
  cd_req data0 = [] -> rtc area_call data0 data -> areas_ok data.
Proof using.
  intros H0 Hr. assert (areas_ok data0) as Hok by (unfold areas_ok; rewrite H0; repeat constructor). clear H0.
  induction Hr as [|data0 data1 data Hs _ IH]; [done|]. apply IH. clear IH.
  destruct Hok as [Hp Hd]. destruct Hs as [data0 interface r err r' data1 E Hpr|data0 r err data1 E]; unfold areas_ok.
  - destruct (request_req _ _ _ _ _ _ E) as [(_ & Hc & area & ->)|[_ ->]]; [|done].
    rewrite range_check_ok in Hc by done. split; [|by apply pairs_app]. apply Forall_app. split; [done|]. by constructor.
  - revert E. unfold do_cpp_area_release, nfp_dev_cpp_area_free.
    destruct (list_find _ _) as [[i area]|]; [|by intros [= _ <-]].
    destruct (da_vmas area); [|by intros [= _ <-]]. intros [= _ <-].
    destruct (cd_req data0 !! i); [|done]. cbn [cd_req]. split; [by apply Forall_delete|by apply pairs_delete].
Qed.

Lemma last_area (l : list (nfp_dev_cpp_area (P := P))) : l <> [] -> exists m, m ∈ l /\
  Forall (fun area => ar_offset (da_req area) + ar_size (da_req area) <= ar_offset (da_req m) + ar_size (da_req m)) l.
Proof using.
  induction l as [|a l IH]; [done|]. intros _. destruct l as [|b l].
  { exists a. split; [by left|]. by repeat constructor. }
  destruct IH as (m & Hm & Hmax); [done|].
  destruct (Z.le_gt_cases (ar_offset (da_req a) + ar_size (da_req a)) (ar_offset (da_req m) + ar_size (da_req m))).
  - exists m. split; [by right|]. by constructor.
  - exists a. split; [by left|]. constructor; [lia|]. eapply Forall_impl; [exact Hmax|]. cbn. lia.
Qed.

(** A request that leaves its offset open is placed at 0 or right
    behind a registered area, over none of them, and then depends only on the core's
    allocation. *)
Lemma area_request_placed data interface r :
  areas_ok data -> ar_offset r = 2 ^ 64 - 1 -> ar_size r = 0 \/ ar_size r = PAGE_SIZE ->
  Forall (fun area => ar_offset (da_req area) + ar_size (da_req area) + ar_size r < 2 ^ 64) (cd_req data) ->
  exists offset, 0 <= offset /\
    (offset = 0 \/ exists area, area ∈ cd_req data /\ offset = ar_offset (da_req area) + ar_size (da_req area)) /\
    Forall (fun area => ~ overlap (da_req area) (set_offset offset r)) (cd_req data) /\
    do_cpp_area_request cdev_name data interface r =
      (let '(err, data') := nfp_dev_cpp_area_alloc cdev_name data interface (set_offset offset r) in
       (err, set_offset offset r, data')).
Proof using.
  intros [Hp _] Ho Hs Hroom. change PAGE_SIZE with 4096 in Hs.
  assert (Z.land (ar_size r) (u64 (Z.lnot PAGE_SIZE)) = 0) as Hland by (by destruct Hs as [-> | ->]; vm_compute).
  assert (page_range (set_offset 0 r)) as H0 by (unfold page_range; cbn; lia).
  unfold do_cpp_area_request. rewrite Hland, Ho. change (u64 (-1)) with (2 ^ 64 - 1). rewrite !Z.eqb_refl.
  cbn [negb Z.eqb andb]. cbv zeta.
  destruct (range_check_cases (cd_req data) (set_offset 0 r)) as [E|E]; rewrite E.
  - exists 0. split; [done|]. split; [by left|]. split; [by apply range_check_ok|]. change (0 <? 0) with false.
    cbv iota. change (0 >=? 0) with true. cbv iota. rewrite E. change (0 >=? 0) with true. cbv iota.
    by destruct (nfp_dev_cpp_area_alloc _ _ _ _).
  - change (- ETXTBSY <? 0) with true. cbv iota.
    destruct (last_area (cd_req data)) as (m & Hm & Hmax); [intros Hn; by rewrite Hn in E|].
    pose proof (proj1 (Forall_forall _ _) Hroom m Hm) as Hmr. cbn beta in Hmr.
    destruct (place_loop_finds (cd_req data) (set_offset 0 r) Hp ltac:(cbn; lia) (cd_req data) (- ETXTBSY))
      as (o & -> & Hc & area & Ha & ->); [by exists m|done|].
    pose proof (proj1 (Forall_forall _ _) Hp area Ha) as (Ho1 & Ho2 & _).
    pose proof (proj1 (Forall_forall _ _) Hroom area Ha) as Har. cbn beta in Har.
    set (o := ar_offset (da_req area) + ar_size (da_req area)) in *.
    change (set_offset o (set_offset 0 r)) with (set_offset o r) in *.
    exists o. split; [lia|]. split; [right; by exists area|]. split.
    + apply range_check_ok; [unfold page_range; cbn; lia|done|done].
    + change (0 >=? 0) with true. cbv iota. rewrite Hc. change (0 >=? 0) with true. cbv iota.
      by destruct (nfp_dev_cpp_area_alloc _ _ _ _).
Qed.
End Areas.

(** ** Connections *)

Section Connections.
Context {D : Type} (handle_cmd : Z -> D -> Z * D).

Definition fds (cs : list pollfd) : list Z := pf_fd <$> cs.
Definition live (l : list Z) : list Z := filter (fun fd => fd <> -1) l.

Lemma poll_entry_fd c d : pf_fd c <> -1 ->
  let '(c', closed, _) := poll_entry handle_cmd c d in
  (closed = [] /\ c' = c) \/ (pf_fd c' = -1 /\ live closed = [pf_fd c]).
Proof using.
  intros Hc. unfold poll_entry. destruct (pf_in c) eqn:Ei, (pf_hup c) eqn:Eh; cbn [negb andb].
  4: by left.
  all: try destruct (handle_cmd (pf_fd c) d) as [ret d'].
  1, 2: destruct (ret <? 0); cbn [pf_hup pf_in pf_fd app]; rewrite ?Eh; cbn [pf_fd].
  all: first [by left | right; split; [done|]]; unfold live; cbn.
  all: rewrite ?decide_True by done; rewrite ?decide_False by tauto; done.
Qed.

Lemma live_app l1 l2 : live (l1 ++ l2) = live l1 ++ live l2.
Proof using. apply filter_app. Qed.

Lemma live_cons fd l : fd <> -1 -> live (fd :: l) = fd :: live l.
Proof using. intros. unfold live. by rewrite filter_cons_True. Qed.
Lemma live_closed l : live (-1 :: l) = live l.
Proof using. unfold live. rewrite filter_cons_False; [done|]. intros H. by apply H. Qed.

(** Each descriptor is kept, in its place, or closed, once. *)
Lemma poll_entries_fds cs : forall d, Forall (fun c => pf_fd c <> -1) cs ->
  let '(cs', closed, _) := poll_entries handle_cmd cs d in
  live (fds cs') ++ live closed ≡ₚ fds cs /\ live (fds cs') `sublist_of` fds cs /\ (closed = [] -> cs' = cs).
Proof using.
  induction cs as [|c cs IH]; intros d Hc; cbn [poll_entries]; [done|]. inversion Hc as [|? ? H1 H2]; subst.
  pose proof (poll_entry_fd c d H1) as He. destruct (poll_entry handle_cmd c d) as [[c' cl1] d1].
  specialize (IH d1 H2). destruct (poll_entries handle_cmd cs d1) as [[cs' cl2] d2]. destruct IH as (IH1 & IH2 & IH3).
  unfold fds in *. cbn [fmap list_fmap]. destruct He as [[-> ->]|[E1 E2]].
  - rewrite live_cons by done. cbn [app]. split_and!.
    + by rewrite IH1.
    + by apply sublist_skip.
    + intros Hn. by rewrite IH3.
  - rewrite E1, live_closed, live_app, E2. split_and!.
    + rewrite <- IH1. symmetry. apply Permutation_middle.
    + by apply sublist_cons.
    + intros Hn. apply app_eq_nil in Hn as [-> _]. done.
Qed.

Lemma cleanup_fds cs : fds (poll_cleanup cs) = live (fds cs).
Proof using.
  unfold fds, poll_cleanup. rewrite <- list_fmap_compose. induction cs as [|c cs IH]; [done|].
  rewrite filter_cons. change (pf_fd <$> c :: cs) with (pf_fd c :: (pf_fd <$> cs)).
  destruct (decide (pf_fd c <> -1)) as [N|E].
  - rewrite live_cons by done. cbn [fmap list_fmap compose pf_fd]. by f_equal.
  - assert (pf_fd c = -1) as -> by lia. by rewrite live_closed.
Qed.

Lemma live_id l : Forall (fun fd => fd <> -1) l -> live l = l.
Proof using. induction 1; [done|]. rewrite live_cons by done. by f_equal. Qed.

(** C22 (safety): in a round of the poll loop each connection, and the one accepted, is
    kept, in its place, or closed exactly once, and the table stays within its bound. *)
Theorem poll_round_keeps_connections fd listen cs d :
  Forall (fun c => pf_fd c <> -1) cs -> 0 <= fd ->
  let taken := if pf_in listen && (S (length cs) <? MAX_CONNECTIONS)%nat then [fd] else [] in
  exists cs' closed d', poll_round handle_cmd fd (listen :: cs) d = (listen :: cs', closed, d') /\
    fds cs' ++ live closed ≡ₚ fds cs ++ taken /\ fds cs' `sublist_of` fds cs ++ taken /\
    Forall (fun c => pf_fd c <> -1) cs' /\
    (length (listen :: cs) <= MAX_CONNECTIONS -> length (listen :: cs') <= MAX_CONNECTIONS)%nat.
Proof using.
  intros Hcs Hfd taken. unfold poll_round, poll_accept.
  set (cs1 := cs ++ if pf_in listen && (S (length cs) <? MAX_CONNECTIONS)%nat then [mkPollfd fd false false] else []).
  assert (fds cs1 = fds cs ++ taken) as Hfds by (unfold fds, cs1, taken; rewrite fmap_app; by destruct (_ && _)).
  assert (Forall (fun c => pf_fd c <> -1) cs1) as Hcs1.
  { apply Forall_app. split; [done|]. destruct (_ && _); [|done]. constructor; [cbn; lia|done]. }
  assert ((if pf_in listen && (length (listen :: cs) <? MAX_CONNECTIONS)%nat
           then (listen :: cs) ++ [mkPollfd fd false false] else listen :: cs) = listen :: cs1) as ->
    by (unfold cs1; cbn [length]; destruct (_ && _); cbn; by rewrite ?app_nil_r).
  pose proof (poll_entries_fds cs1 d Hcs1) as He.
  destruct (poll_entries handle_cmd cs1 d) as [[cs2 closed] d']. destruct He as (H1 & H2 & H3). rewrite <- Hfds.
  set (cs3 := match closed with [] => cs2 | _ => poll_cleanup cs2 end).
  assert (fds cs3 = live (fds cs2)) as E3.
  { subst cs3. destruct closed; [|apply cleanup_fds]. rewrite H3 by done. rewrite live_id; [done|].
    unfold fds. by apply Forall_fmap. }
  exists cs3, closed, d'. split; [done|]. rewrite E3. split; [done|]. split; [done|]. split.
  - cut (Forall (fun x => x <> -1) (fds cs3)); [intros H; unfold fds in H; rewrite Forall_fmap in H; exact H|].
    rewrite E3. apply Forall_forall. intros x Hx.
    unfold live in Hx. by apply list_elem_of_filter in Hx as [? _].
  - intros Hlen. apply sublist_length in H2. rewrite <- E3, Hfds in H2. unfold fds in H2.
    rewrite length_app, !length_fmap in H2. unfold taken in H2. cbn [length] in *.
    destruct (pf_in listen), (Nat.ltb_spec (S (length cs)) MAX_CONNECTIONS); cbn [andb length] in H2; lia.
Qed.
End Connections.

(** ** Examples *)

Definition ex_dev : nfp_cpp_dev_data (S := mem) (P := unit) := mkDevData ram_cpp [].
Definition ex_request (offset : Z) : nfp_cpp_area_request := mkAreaReq offset 0x07002000 0x1000 4096.
Definition ex_registered : nfp_cpp_dev_data := (do_cpp_area_request (fun _ => EmptyString) ex_dev 0 (ex_request (2 ^ 64 - 1))).2.

Lemma registered_areas_disjoint_witness :
  let data := (do_cpp_area_request (fun _ => EmptyString) ex_registered 0 (ex_request (2 ^ 64 - 1))).2 in
  length (cd_req data) = 2%nat /\ areas_ok data.
Proof.
  split; [reflexivity|].
  apply (registered_areas_disjoint (fun _ => EmptyString) ex_dev); [reflexivity|].
  eapply rtc_l; [eapply (call_request _ ex_dev 0 (ex_request (2 ^ 64 - 1))); [vm_compute; reflexivity|unfold page_range; cbn; lia]|].
  eapply rtc_l; [eapply (call_request _ _ 0 (ex_request (2 ^ 64 - 1))); [vm_compute; reflexivity|unfold page_range; cbn; lia]|]. apply rtc_refl.
Defined.

(** With a first area at 0, the next is placed behind it. *)
Lemma area_request_placed_witness : exists offset, 0 <= offset /\
  do_cpp_area_request (fun _ => EmptyString) ex_registered 0 (ex_request (2 ^ 64 - 1)) =
  (let '(err, data') := nfp_dev_cpp_area_alloc (fun _ => EmptyString) ex_registered 0 (ex_request offset) in
   (err, ex_request offset, data')).
Proof.
  destruct (area_request_placed (fun _ => EmptyString) ex_registered 0 (ex_request (2 ^ 64 - 1))) as (o & Ho & _ & _ & E).
  - split; [repeat constructor; by vm_compute|repeat constructor].
  - reflexivity.
  - right. reflexivity.
  - repeat constructor; by vm_compute.
  - exists o. split; [exact Ho|exact E].
Defined.

(** Of two connections one fails its request; a third is accepted. *)
Lemma poll_round_keeps_connections_witness : exists cs' closed d',
  poll_round (fun fd (d : nat) => (if fd =? 5 then -1 else 0, S d)) 7
    [mkPollfd 3 true false; mkPollfd 5 true true; mkPollfd 6 true false] 0%nat = (mkPollfd 3 true false :: cs', closed, d') /\
  fds cs' ++ live closed ≡ₚ [5; 6; 7].
Proof.
  destruct (poll_round_keeps_connections (fun fd (d : nat) => (if fd =? 5 then -1 else 0, S d)) 7 (mkPollfd 3 true false)
              [mkPollfd 5 true true; mkPollfd 6 true false] 0%nat) as (cs' & closed & d' & E & H & _).
  - repeat constructor; cbn; lia.
  - lia.
  - exists cs', closed, d'. split; [exact E|exact H].
Defined.
