(* ===== verification/DevBars.v ===== *)
(** * The device server's BARs ([nfp_enable_bars] of [nfp_cpp_dev.c])

    The server sets up a table of BARs for explicit transactions before it serves. The
    table is allocated and not cleared; a pointer past its end is not an entry. *)

From S2P Require Export CppDev CppPcie.
From S2P Require Import RteCommon.
From Stdlib Require Import Mergesort Orders.

Local Open Scope Z_scope.

(** A resource of the PCI device. *)
Record mem_resource := mkRes {
  phys_addr : Z;
  res_len : Z;
  res_addr : Z }.

Record dev_bar := mkDevBar {
  db_barcfg : Z;
  db_base : Z;
  db_mask : Z;
  db_bitsize : Z;
  db_index : Z;
  db_iomem : Z;
  db_resource : mem_resource }.

Definition NFP_PCI_BAR_MAX : Z := 3 * 8.
Definition NFP_PCI_MIN_MAP_SIZE : Z := 0x080000.
Definition NFP_PCIE_SRAM : Z := 0.
Definition NFP_PCIE_EM : Z := 0x020000.
Definition NFP_PCIE_EXPLICIT_BARS : Z := 2.
Definition NFP_PCIE_CPP_BAR_PCIETOCPPEXPANSIONBAR (bar slot : Z) : Z := (bar * 8 + slot) * 4.
Definition NFP_PCIE_BAR_PCIE2CPP_MapType (x : Z) : Z := u32 (Z.shiftl (Z.land x 7) 29).
Definition barcfg_explicit (i : Z) : Z := NFP_PCIE_BAR_PCIE2CPP_MapType (4 + i).

Record expl_group := mkGroup {
  eg_addr : Z;
  eg_bitsize : Z;
  eg_free : list Z }.

(** What set-up leaves in the server's data; [wr] are the writes to registers, in order. *)
Record dev_bars := mkBars {
  db_bars : Z;
  db_table : list dev_bar;
  expl_master_id : Z;
  expl_signal_ref : Z;
  expl_data : Z;
  expl_groups : list expl_group;
  iomem_csr : Z;
  iomem_em : Z;
  iomem_expl : list Z;
  db_wr : list (Z * Z) }.

Definition nfp_bar_resource_start (bar : dev_bar) : Z :=
  res_addr (db_resource bar) + u64 (db_mask bar + 1) * Z.land (db_index bar) 7.

Definition bar_set_iomem (iomem : Z) (b : dev_bar) : dev_bar :=
  mkDevBar (db_barcfg b) (db_base b) (db_mask b) (db_bitsize b) (db_index b) iomem (db_resource b).
Definition bar_set_barcfg (cfg : Z) (b : dev_bar) : dev_bar :=
  mkDevBar cfg (db_base b) (db_mask b) (db_bitsize b) (db_index b) (db_iomem b) (db_resource b).

(** The register and the value of [dev_bar_write]; the registers' base is never null. *)
Definition dev_bar_write (csr : Z) (bar : dev_bar) (newcfg : Z) : (Z * Z) * dev_bar :=
  let base := Z.shiftr (db_index bar) 3 in
  let slot := Z.land (db_index bar) 7 in
  ((csr + NFP_PCIE_CPP_BAR_PCIETOCPPEXPANSIONBAR base slot, newcfg), bar_set_barcfg newcfg bar).

(** [bar_cmp(a, b) <= 0]. *)
Definition bar_cmp (a b : dev_bar) : Z :=
  if db_bitsize a =? db_bitsize b then db_index a - db_index b else db_bitsize a - db_bitsize b.

Module BarOrder <: TotalLeBool.
Definition t := dev_bar.
Definition leb (a b : dev_bar) : bool := bar_cmp a b <=? 0.
Lemma leb_total a b : leb a b = true \/ leb b a = true.
Proof.
  unfold leb, bar_cmp. rewrite !Z.leb_le, (Z.eqb_sym (db_bitsize b)). destruct (_ =? _); lia.
Qed.
End BarOrder.
Module BarSort := Sort BarOrder.

Section Enable.
Context (resource : Z -> mem_resource) (interface : Z).

(** The entry of BAR [i]. *)
Definition configured_bar (i : Z) : dev_bar :=
  let res := resource (Z.shiftr i 3 * 2) in
  let mask := u64 (res_len res / 8 - 1) in
  mkDevBar 0 0 mask (rte_fls_u64 mask) i 0 res.

(** [for (i = 0; i < ARRAY_SIZE(data->bar); i++, bar++)], [n] being [bar]'s index. *)
Fixpoint configure_loop (idx : list Z) (n : nat) (table : list dev_bar) : nat * list dev_bar :=
  match idx with
  | [] => (n, table)
  | i :: idx =>
      if phys_addr (resource (Z.shiftr i 3 * 2)) =? 0 then configure_loop idx n table
      else configure_loop idx (S n) (<[n := configured_bar i]> table)
  end.

(** [for (i = 0; i < 4; i++)]: the explicit groups. *)
Fixpoint explicit_loop (idx : list Z) (csr : Z) (table : list dev_bar)
    : list expl_group * list Z * list (Z * Z) * list dev_bar :=
  match idx with
  | [] => ([], [], [], table)
  | i :: idx =>
      if (i >=? NFP_PCIE_EXPLICIT_BARS) || (i >=? 4) then
        let '(gs, es, wr, table) := explicit_loop idx csr table in
        (mkGroup 0 0 [] :: gs, es, wr, table)
      else
        match table !! Z.to_nat (4 + i) with
        | None => explicit_loop idx csr table
        | Some bar =>
            let addr := nfp_bar_resource_start bar in
            let '(w, bar) := dev_bar_write csr (bar_set_iomem addr bar) (barcfg_explicit i) in
            let '(gs, es, wr, table) := explicit_loop idx csr (<[Z.to_nat (4 + i) := bar]> table) in
            (mkGroup addr (db_bitsize bar) [1; 1; 1; 1] :: gs, addr :: es, w :: wr, table)
        end
  end.

(** [nfp_enable_bars]: the result and the data, or [None] for an access outside the
    table. After the loop [bar] is one past the entries configured. *)
Definition dev_enable_bars (table : list dev_bar) : option (Z * option dev_bars) :=
  let '(n, table) := configure_loop (seqZ 0 NFP_PCI_BAR_MAX) 0 table in
  if (Z.of_nat n <? 8) then Some (- EINVAL, None)
  else
    match table !! n with
    | None => None
    | Some bar =>
        let bar :=
          if u64 (db_mask bar + 1) >=? NFP_PCI_MIN_MAP_SIZE
          then bar_set_iomem (nfp_bar_resource_start bar) bar else bar in
        let table := <[n := bar]> table in
        let csr := db_iomem bar + NFP_PCIE_BAR 0 in
        let '(gs, es, wr, table) := explicit_loop (seqZ 0 4) csr table in
        Some (0, Some (mkBars (Z.of_nat n) (BarSort.sort (take n table) ++ drop n table)
                         (u8 (Z.shiftl (Z.land (NFP_CPP_INTERFACE_UNIT_of interface) 3 + 4) 4)) 0x10
                         (db_iomem bar + NFP_PCIE_SRAM + 0x1000) gs csr (db_iomem bar + NFP_PCIE_EM) es wr))
    end.
End Enable.

(** ** The table as the first loop leaves it *)

Definition bar_present (resource : Z -> mem_resource) (i : Z) : Prop := phys_addr (resource (Z.shiftr i 3 * 2)) <> 0.
#[export] Instance bar_present_dec resource i : Decision (bar_present resource i).
Proof. unfold bar_present. apply _. Defined.

Lemma configure_loop_spec resource idx : forall n table, (n + length idx <= length table)%nat ->
  let found := filter (bar_present resource) idx in
  configure_loop resource idx n table =
    ((n + length found)%nat,
     take n table ++ (configured_bar resource <$> found) ++ drop (n + length found) table).
Proof.
  induction idx as [|i idx IH]; intros n table Hl; cbn [configure_loop].
  - cbn. by rewrite Nat.add_0_r, take_drop.
  - cbn [length] in Hl. cbv zeta. rewrite filter_cons. destruct (decide (bar_present resource i)) as [P|P]; unfold bar_present in P.
    + rewrite (proj2 (Z.eqb_neq _ 0)) by done. rewrite IH by (rewrite length_insert; lia).
      cbn [length fmap list_fmap]. f_equal; [lia|].
      rewrite <- Nat.add_succ_comm, drop_insert_lt by lia.
      rewrite (take_S_r _ _ (configured_bar resource i)) by (by apply list_lookup_insert_eq; lia).
      rewrite take_insert_ge by lia. by rewrite <- !app_assoc.
    + rewrite (proj2 (Z.eqb_eq _ 0)) by lia. apply IH. lia.
Qed.

(** The table is filled with the BARs of the resources present, in order;
    with fewer than eight set-up fails with EINVAL, and with all of them it accesses an
    entry past the end of the table. *)
Lemma dev_bars_past_the_end resource interface table :
  length table = Z.to_nat NFP_PCI_BAR_MAX ->
  let found := filter (bar_present resource) (seqZ 0 NFP_PCI_BAR_MAX) in
  configure_loop resource (seqZ 0 NFP_PCI_BAR_MAX) 0 table =
    (length found, (configured_bar resource <$> found) ++ drop (length found) table) /\
  ((length found < 8)%nat -> dev_enable_bars resource interface table = Some (- EINVAL, None)) /\
  (length found = Z.to_nat NFP_PCI_BAR_MAX -> dev_enable_bars resource interface table = None).
Proof.
  intros Hl found. pose proof (configure_loop_spec resource (seqZ 0 NFP_PCI_BAR_MAX) 0 table) as Hc.
  rewrite length_seqZ, Hl in Hc. specialize (Hc ltac:(lia)). cbv zeta in Hc. fold found in Hc. rewrite take_0 in Hc. cbn [Nat.add app] in Hc.
  split; [done|]. unfold dev_enable_bars. rewrite Hc. split; intros Hf.
  - by rewrite (proj2 (Z.ltb_lt _ 8)) by lia.
  - change (Z.to_nat NFP_PCI_BAR_MAX) with 24%nat in *. rewrite (proj2 (Z.ltb_ge _ 8)) by lia.
    rewrite lookup_ge_None_2; [done|]. rewrite length_app, length_fmap, length_drop. lia.
Qed.

(** Three BARs of 64 MB. *)
Lemma dev_bars_past_the_end_witness :
  dev_enable_bars (fun _ => mkRes 0xf0000000 0x4000000 0x7f0000000000) 0
    (repeat (mkDevBar 0 0 0 0 0 0 (mkRes 0 0 0)) 24) = None.
Proof.
  refine (proj2 (proj2 (dev_bars_past_the_end (fun _ => mkRes 0xf0000000 0x4000000 0x7f0000000000) 0
            (repeat (mkDevBar 0 0 0 0 0 0 (mkRes 0 0 0)) 24) _)) _); vm_compute; reflexivity.
Defined.
