(* ===== verification/Memzone.v ===== *)
(** * Memzones ([user/lib/memzone.c])

    Reservations of huge pages for DMA: a table of descriptors, each for one mapping of a
    file.  What the kernel answers to [open], [mmap], [munmap] and the reads of the page
    map are arguments; the mappings that exist are part of the state. *)

From S2P Require Export Prelude.

Local Open Scope Z_scope.

Definition MAX_MEMZONES : nat := 1024.
Definition MEMZONE_HANDLE_INVALID : Z := Z.of_nat MAX_MEMZONES + 1.
Definition MEMZONE_BAD_IOVA : Z := u64 (-1).
Definition PFN_MASK_SIZE : Z := 8.

Definition ALIGN_FLOOR (val align : Z) : Z := Z.land val (u64 (Z.lnot (align - 1))).
Definition ALIGN_CEIL (val align : Z) : Z := ALIGN_FLOOR (u64 (val + (align - 1))) align.

Record memzone := mkMz {
  mz_iova : Z;
  mz_addr : Z;
  mz_len : Z;
  mz_flags : Z;
  mz_handle : Z }.

(** The file's globals, and the mappings of this process made here. *)
Record memzones := mkMzs {
  mzs_table : list memzone;
  mzs_free : Z;
  mzs_maps : list (Z * Z) }.

(** [user/config.h] *)
Definition HUGE_PAGE_SIZE : Z := Z.shiftl 1 21.
Definition CONFIG_PAGE_SIZE : Z := Z.shiftl 1 12.

(** What the kernel answers: whether a file opens, where a length is mapped, what is read
    of the page map at an offset ([None] where it cannot be opened or sought), and
    whether an unmapping succeeds. *)
Record kernel := mkKernel {
  k_open : Z -> bool;
  k_mmap : Z -> Z -> option Z;
  k_pagemap : Z -> option (Z * Z);
  k_munmap : Z -> Z -> bool }.

Section Memzones.
Context (k : kernel).

Definition mem_virt2phy (virtaddr : Z) : Z :=
  let virt_pfn := virtaddr / CONFIG_PAGE_SIZE in
  let offset := 8 * virt_pfn in
  match k_pagemap k offset with
  | None => MEMZONE_BAD_IOVA
  | Some (retval, page) =>
      if retval <? 0 then MEMZONE_BAD_IOVA
      else if negb (retval =? PFN_MASK_SIZE) then MEMZONE_BAD_IOVA
      else
        let pfn := Z.land page 0x7fffffffffffff in
        if pfn =? 0 then MEMZONE_BAD_IOVA else u64 (pfn * CONFIG_PAGE_SIZE + virtaddr mod CONFIG_PAGE_SIZE)
  end.

Definition set_handle (h : Z) (mz : memzone) : memzone :=
  mkMz (mz_iova mz) (mz_addr mz) (mz_len mz) (mz_flags mz) h.

(** [for (idx = 0; idx < MAX_MEMZONES; idx++)] *)
Fixpoint find_free (table : list memzone) (idx : nat) : option nat :=
  match table with
  | [] => None
  | mz :: table => if mz_handle mz =? MEMZONE_HANDLE_INVALID then Some idx else find_free table (S idx)
  end.

(** A descriptor is its index in the table. *)
Definition alloc_memzone (s : memzones) : option nat * memzones :=
  if mzs_free s =? 0 then (None, s)
  else
    match find_free (mzs_table s) 0 with
    | None => (None, s)
    | Some idx => (Some idx, mkMzs (alter (set_handle (Z.of_nat idx)) idx (mzs_table s)) (u16 (mzs_free s - 1)) (mzs_maps s))
    end.

Definition free_memzone (mz : option nat) (s : memzones) : memzones :=
  match mz with
  | None => s
  | Some i =>
      match mzs_table s !! i with
      | None => s
      | Some m =>
          let idx := mz_handle m in
          if idx >=? Z.of_nat MAX_MEMZONES then s
          else if negb (Z.of_nat i =? idx) then s
          else mkMzs (alter (set_handle MEMZONE_HANDLE_INVALID) i (mzs_table s)) (u16 (mzs_free s + 1)) (mzs_maps s)
      end
  end.

Definition memzone_reserve (len : Z) (s : memzones) : option nat * memzones :=
  let len := ALIGN_CEIL len HUGE_PAGE_SIZE in
  match alloc_memzone s with
  | (None, s) => (None, s)
  | (Some i, s) =>
      if negb (k_open k (Z.of_nat i)) then (None, free_memzone (Some i) s)
      else
        match k_mmap k (Z.of_nat i) len with
        | None => (None, free_memzone (Some i) s)
        | Some addr =>
            let s := mkMzs (mzs_table s) (mzs_free s) ((addr, len) :: mzs_maps s) in
            let phyaddr := mem_virt2phy addr in
            if phyaddr =? MEMZONE_BAD_IOVA then (None, free_memzone (Some i) s)
            else
              (Some i, mkMzs (alter (fun mz => mkMz phyaddr addr len 0 (mz_handle mz)) i (mzs_table s))
                         (mzs_free s) (mzs_maps s))
        end
  end.

(** The mappings left when one range is unmapped. *)
Definition unmap (addr len : Z) (maps : list (Z * Z)) : list (Z * Z) := filter (fun m => m <> (addr, len)) maps.

Definition memzone_free (mz : option nat) (s : memzones) : Z * memzones :=
  match mz with
  | None => (0, s)
  | Some i =>
      match mzs_table s !! i with
      | None => (0, s)
      | Some m =>
          let ok := k_munmap k (mz_addr m) (mz_len m) in
          let s := if ok then mkMzs (mzs_table s) (mzs_free s) (unmap (mz_addr m) (mz_len m) (mzs_maps s)) else s in
          (if ok then 0 else -1, free_memzone (Some i) s)
      end
  end.

Definition memzone_init (s : memzones) : memzones :=
  mkMzs (set_handle MEMZONE_HANDLE_INVALID <$> mzs_table s) (Z.of_nat MAX_MEMZONES) (mzs_maps s).
End Memzones.

(** ** The table as an allocator *)

(** The reservation a descriptor stands for, if it is in use. *)
Definition zone (s : memzones) (i : nat) : option (Z * Z * Z) :=
  match mzs_table s !! i with
  | None => None
  | Some m => if mz_handle m =? MEMZONE_HANDLE_INVALID then None else Some (mz_addr m, mz_len m, mz_iova m)
  end.

Definition unused (table : list memzone) : nat := length (filter (fun m => mz_handle m = MEMZONE_HANDLE_INVALID) table).

Definition mzs_ok (s : memzones) : Prop :=
  length (mzs_table s) = MAX_MEMZONES /\ mzs_free s = Z.of_nat (unused (mzs_table s)) /\
  forall i m, mzs_table s !! i = Some m -> mz_handle m = Z.of_nat i \/ mz_handle m = MEMZONE_HANDLE_INVALID.

Lemma find_free_spec table : forall idx,
  match find_free table idx with
  | Some i => exists j m, i = (idx + j)%nat /\ table !! j = Some m /\ mz_handle m = MEMZONE_HANDLE_INVALID
  | None => unused table = O
  end.
Proof.
  induction table as [|m table IH]; intros idx; cbn [find_free]; [done|].
  destruct (Z.eqb_spec (mz_handle m) MEMZONE_HANDLE_INVALID) as [E|N].
  - exists O, m. split; [lia|done].
  - specialize (IH (S idx)). destruct (find_free table (S idx)) as [i|].
    + destruct IH as (j & m' & -> & Hj & Hm). exists (S j), m'. split; [lia|done].
    + unfold unused in *. by rewrite filter_cons_False.
Qed.

Lemma unused_le table : (unused table <= length table)%nat.
Proof. apply length_filter. Qed.

(** Taking and giving back a descriptor. *)
Lemma unused_alter f table : forall i m, table !! i = Some m ->
  (unused (alter f i table) + (if decide (mz_handle m = MEMZONE_HANDLE_INVALID) then 1 else 0) =
   unused table + (if decide (mz_handle (f m) = MEMZONE_HANDLE_INVALID) then 1 else 0))%nat.
Proof.
  unfold unused. induction table as [|m0 table IH]; intros i m Hm; [done|].
  destruct i as [|i]; cbn in Hm.
  - injection Hm as ->. change (alter f O (m :: table)) with (f m :: table). rewrite !filter_cons.
    repeat case_decide; cbn [length]; lia.
  - change (alter f (S i) (m0 :: table)) with (m0 :: alter f i table). rewrite !filter_cons.
    specialize (IH i m Hm). repeat case_decide; cbn [length] in *; lia.
Qed.

Lemma handle_index i : (i < MAX_MEMZONES)%nat -> Z.of_nat i <> MEMZONE_HANDLE_INVALID.
Proof. unfold MEMZONE_HANDLE_INVALID. lia. Qed.

(** [mem_virt2phy] keeps the place in the page. *)
Lemma virt2phy_page k virtaddr p : mem_virt2phy k virtaddr = p -> p <> MEMZONE_BAD_IOVA ->
  exists retval page, k_pagemap k (8 * (virtaddr / 4096)) = Some (retval, page) /\ retval = 8 /\
    p = u64 (Z.land page (2 ^ 55 - 1) * 4096 + virtaddr mod 4096).
Proof.
  intros <- Hb. unfold mem_virt2phy in *. change CONFIG_PAGE_SIZE with 4096 in *.
  destruct (k_pagemap k _) as [[retval page]|]; [|done].
  destruct (retval <? 0); [done|]. destruct (Z.eqb_spec retval PFN_MASK_SIZE) as [->|]; [|done]. cbn [negb] in *.
  destruct (_ =? 0); [done|]. by exists 8, page.
Qed.

Lemma align_ceil len : 0 <= len -> len + HUGE_PAGE_SIZE <= 2 ^ 64 ->
  ALIGN_CEIL len HUGE_PAGE_SIZE = (len + (HUGE_PAGE_SIZE - 1)) / HUGE_PAGE_SIZE * HUGE_PAGE_SIZE.
Proof.
  change HUGE_PAGE_SIZE with (2 ^ 21). intros H0 H1. unfold ALIGN_CEIL, ALIGN_FLOOR.
  rewrite u64_id by (unfold is_u64; lia). set (x := len + (2 ^ 21 - 1)).
  assert (0 <= x < 2 ^ 64) as Hx by (unfold x; lia). clearbody x.
  assert (Z.land x (u64 (Z.lnot (2 ^ 21 - 1))) = Z.ldiff x (Z.ones 21)) as ->.
  { change (u64 (Z.lnot (2 ^ 21 - 1))) with (Z.ldiff (Z.ones 64) (Z.ones 21)).
    rewrite <- (Z.mod_small x (2 ^ 64)) at 2 by done. rewrite <- (Z.land_ones x 64) by lia.
    apply Z.bits_inj'. intros n Hn. by rewrite !Z.land_spec, !Z.ldiff_spec, Z.land_spec, andb_assoc. }
  rewrite Z.ldiff_ones_r by lia. by rewrite Z.shiftl_mul_pow2, Z.shiftr_div_pow2 by lia.
Qed.

Lemma lookup_alter_at {A} (f : A -> A) (l : list A) i j :
  alter f i l !! j = (if decide (i = j) then f <$> l !! j else l !! j).
Proof. destruct (decide (i = j)) as [->|N]; [apply list_lookup_alter_eq|by apply list_lookup_alter_ne]. Qed.

Lemma alloc_memzone_spec s : mzs_ok s ->
  match alloc_memzone s with
  | (Some i, s') => exists m, mzs_table s !! i = Some m /\ mz_handle m = MEMZONE_HANDLE_INVALID /\
      s' = mkMzs (alter (set_handle (Z.of_nat i)) i (mzs_table s)) (mzs_free s - 1) (mzs_maps s) /\ 1 <= mzs_free s
  | (None, s') => s' = s /\ mzs_free s = 0
  end.
Proof.
  intros (Hl & Hf & _). unfold alloc_memzone. pose proof (unused_le (mzs_table s)) as Hu. rewrite Hl in Hu.
  unfold MAX_MEMZONES in *. destruct (Z.eqb_spec (mzs_free s) 0) as [E|N]; [done|].
  pose proof (find_free_spec (mzs_table s) 0) as Hff. destruct (find_free (mzs_table s) 0) as [i|]; [|lia].
  destruct Hff as (j & m & -> & Hm & Hi). exists m. cbn [Nat.add]. split; [done|]. split; [done|].
  split; [|lia]. f_equal. apply u16_id. unfold is_u16. lia.
Qed.

(** Undoing an allocation. *)
Lemma free_allocated s i m maps : mzs_ok s -> mzs_table s !! i = Some m -> mz_handle m = MEMZONE_HANDLE_INVALID ->
  1 <= mzs_free s ->
  free_memzone (Some i) (mkMzs (alter (set_handle (Z.of_nat i)) i (mzs_table s)) (mzs_free s - 1) maps) =
  mkMzs (mzs_table s) (mzs_free s) maps.
Proof.
  intros (Hl & Hf & _) Hm Hi H1. unfold free_memzone. cbn [mzs_table mzs_free mzs_maps].
  pose proof (lookup_lt_Some _ _ _ Hm) as Hlt. rewrite Hl in Hlt. pose proof (unused_le (mzs_table s)) as Hu. rewrite Hl in Hu.
  unfold MAX_MEMZONES in *.
  rewrite lookup_alter_at, decide_True, Hm by done. cbn [fmap option_fmap option_map set_handle mz_handle].
  rewrite Z.geb_leb, (proj2 (Z.leb_gt _ _)), Z.eqb_refl by lia. cbn [negb]. f_equal.
  - apply list_eq. intros j. rewrite !lookup_alter_at. destruct (decide (i = j)) as [->|]; [|done].
    rewrite Hm. cbn. f_equal. unfold set_handle. cbn. destruct m. cbn in *. by subst.
  - rewrite u16_id; [lia|]. unfold is_u16. lia.
Qed.

Lemma ok_update s i m m' free maps : mzs_ok s -> mzs_table s !! i = Some m ->
  (mz_handle m' = Z.of_nat i \/ mz_handle m' = MEMZONE_HANDLE_INVALID) ->
  free = mzs_free s + (if mz_handle m' =? MEMZONE_HANDLE_INVALID then 1 else 0)
         - (if mz_handle m =? MEMZONE_HANDLE_INVALID then 1 else 0) ->
  mzs_ok (mkMzs (alter (fun _ => m') i (mzs_table s)) free maps).
Proof.
  intros (Hl & Hf & Hh) Hm Hm' ->. unfold mzs_ok. cbn [mzs_table mzs_free]. split; [by rewrite length_alter|]. split.
  - pose proof (unused_alter (fun _ => m') (mzs_table s) i m Hm) as Hu. cbn beta in Hu.
    destruct (Z.eqb_spec (mz_handle m') MEMZONE_HANDLE_INVALID), (Z.eqb_spec (mz_handle m) MEMZONE_HANDLE_INVALID);
      repeat case_decide; try done; lia.
  - intros j x. rewrite lookup_alter_at. destruct (decide (i = j)) as [->|]; [|apply Hh].
    rewrite Hm. cbn. by intros [= <-].
Qed.

Lemma zone_update s i m' free maps j : (i < length (mzs_table s))%nat ->
  zone (mkMzs (alter (fun _ => m') i (mzs_table s)) free maps) j =
  (if decide (i = j)
   then if mz_handle m' =? MEMZONE_HANDLE_INVALID then None else Some (mz_addr m', mz_len m', mz_iova m')
   else zone s j).
Proof.
  intros Hi. unfold zone. cbn [mzs_table]. rewrite lookup_alter_at. destruct (decide (i = j)) as [->|]; [|done].
  destruct (lookup_lt_is_Some_2 (mzs_table s) j Hi) as [m ->]. done.
Qed.

Lemma alter_const {A} (f : A -> A) (l : list A) i x : l !! i = Some x -> alter f i l = alter (fun _ => f x) i l.
Proof.
  intros Hx. apply list_eq. intros j. rewrite !lookup_alter_at. destruct (decide (i = j)) as [->|]; [|done]. by rewrite Hx.
Qed.

Lemma memzone_reserve_zone k s len : mzs_ok s -> 0 <= len -> len + HUGE_PAGE_SIZE <= 2 ^ 64 ->
  let size := (len + (HUGE_PAGE_SIZE - 1)) / HUGE_PAGE_SIZE * HUGE_PAGE_SIZE in
  match memzone_reserve k len s with
  | (Some n, s') => mzs_ok s' /\ (n < MAX_MEMZONES)%nat /\ zone s n = None /\
      exists addr, k_mmap k (Z.of_nat n) size = Some addr /\ mem_virt2phy k addr <> MEMZONE_BAD_IOVA /\
        forall j, zone s' j = if decide (n = j) then Some (addr, size, mem_virt2phy k addr) else zone s j
  | (None, s') => mzs_ok s' /\ (forall j, zone s' j = zone s j) /\
      ((forall j, (j < MAX_MEMZONES)%nat -> zone s j <> None) \/
       exists n, zone s n = None /\
         (k_open k (Z.of_nat n) = false \/ k_mmap k (Z.of_nat n) size = None \/
          exists addr, k_mmap k (Z.of_nat n) size = Some addr /\ mem_virt2phy k addr = MEMZONE_BAD_IOVA))
  end.
Proof.
  intros Hok H0 Hlen size. pose proof Hok as (Hl & Hf & _).
  unfold memzone_reserve. rewrite align_ceil by done. fold size.
  pose proof (alloc_memzone_spec s Hok) as Ha. destruct (alloc_memzone s) as [[n|] s1].
  2:{ destruct Ha as [-> Hz]. split; [done|]. split; [done|]. left. intros j Hj.
      destruct (lookup_lt_is_Some_2 (mzs_table s) j) as [m Hm]; [by rewrite Hl|]. unfold zone. rewrite Hm.
      destruct (Z.eqb_spec (mz_handle m) MEMZONE_HANDLE_INVALID) as [E|]; [|done].
      pose proof (unused_alter (set_handle 0) (mzs_table s) j m Hm) as Hu. rewrite decide_True in Hu by done.
      cbn [set_handle mz_handle] in Hu. rewrite decide_False in Hu by done. lia. }
  destruct Ha as (m & Hm & Hi & -> & H1). cbn [mzs_table mzs_free mzs_maps].
  assert (zone s n = None) as Hzn by (unfold zone; rewrite Hm, Hi, Z.eqb_refl; done).
  assert (forall maps, mzs_ok (mkMzs (mzs_table s) (mzs_free s) maps)) as Hmaps by (intros maps; exact Hok).
  pose proof (lookup_lt_Some _ _ _ Hm) as Hlt. pose proof Hlt as Hlt'. rewrite Hl in Hlt'.
  destruct (k_open k (Z.of_nat n)) eqn:Eo; cbn [negb].
  2:{ rewrite (free_allocated s n m) by done. split; [apply Hmaps|]. split; [done|]. right. exists n. auto. }
  destruct (k_mmap k (Z.of_nat n) size) as [addr|] eqn:Em.
  2:{ rewrite (free_allocated s n m) by done. split; [apply Hmaps|]. split; [done|]. right. exists n. auto. }
  destruct (Z.eqb_spec (mem_virt2phy k addr) MEMZONE_BAD_IOVA) as [Eb|Nb].
  { rewrite (free_allocated s n m) by done. split; [apply Hmaps|]. split; [done|]. right. exists n. eauto 10. }
  set (m' := mkMz (mem_virt2phy k addr) addr size 0 (Z.of_nat n)).
  assert (alter (fun mz => mkMz (mem_virt2phy k addr) addr size 0 (mz_handle mz)) n
            (alter (set_handle (Z.of_nat n)) n (mzs_table s)) = alter (fun _ => m') n (mzs_table s)) as ->.
  { apply list_eq. intros j. rewrite !lookup_alter_at. destruct (decide (n = j)) as [->|]; [|done].
    by rewrite Hm. }
  assert (mz_handle m' =? MEMZONE_HANDLE_INVALID = false) as Em' by (apply Z.eqb_neq, handle_index, Hlt').
  split; [apply (ok_update s n m); [done|done|by left|rewrite Em', Hi, Z.eqb_refl; lia]|].
  split; [done|]. split; [done|]. exists addr. split; [done|]. split; [done|].
  intros j. rewrite zone_update by done. by rewrite Em'.
Qed.

Lemma memzone_free_zone k s i : mzs_ok s ->
  let '(ret, s') := memzone_free k (Some i) s in
  mzs_ok s' /\ forall j, zone s' j = if decide (i = j) then None else zone s j.
Proof.
  intros Hok. pose proof Hok as (Hl & Hf & Hh).
  destruct (mzs_table s !! i) as [m|] eqn:Hm; unfold memzone_free; rewrite Hm.
  2:{ split; [done|]. intros j. destruct (decide (i = j)) as [<-|]; [|done]. unfold zone. by rewrite Hm. }
  set (s1 := if k_munmap k (mz_addr m) (mz_len m) then _ else s).
  assert (mzs_table s1 = mzs_table s /\ mzs_free s1 = mzs_free s) as [Et1 Ef1] by (subst s1; by destruct (k_munmap _ _ _)).
  assert (zone s1 = zone s) as Ez by (unfold zone; by rewrite Et1).
  unfold free_memzone. rewrite Et1, Hm. pose proof (lookup_lt_Some _ _ _ Hm) as Hlt.
  destruct (Hh i m Hm) as [Eh|Eh]; rewrite Eh.
  + assert ((if Z.of_nat i >=? Z.of_nat MAX_MEMZONES then true else false) = false) as Ege
      by (rewrite Z.geb_leb, (proj2 (Z.leb_gt _ _)) by (rewrite <- Hl; lia); done).
    destruct (Z.of_nat i >=? Z.of_nat MAX_MEMZONES); [done|]. rewrite Z.eqb_refl. cbn [negb].
    rewrite (alter_const _ _ _ m Hm), Ef1. pose proof (unused_le (mzs_table s)) as Hu. rewrite Hl in Hu.
    unfold MAX_MEMZONES in Hu. rewrite u16_id by (unfold is_u16; lia). split.
    * apply (ok_update s i m); [done|done|by right|]. cbn [set_handle mz_handle].
      rewrite Z.eqb_refl, Eh, (proj2 (Z.eqb_neq _ _)) by (apply handle_index; by rewrite <- Hl). lia.
    * intros j. by rewrite zone_update by done.
  + change (MEMZONE_HANDLE_INVALID >=? Z.of_nat MAX_MEMZONES) with true. cbv iota. split.
    * destruct Hok as (? & ? & ?). unfold mzs_ok. by rewrite Et1, Ef1.
    * intros j. rewrite Ez. destruct (decide (i = j)) as [<-|]; [|done]. unfold zone. by rewrite Hm, Eh, Z.eqb_refl.
Qed.

Lemma memzone_reserve_nothing k s : (forall n, k_mmap k n 0 = None) -> (memzone_reserve k 0 s).1 = None.
Proof.
  intros Hk. unfold memzone_reserve. change (ALIGN_CEIL 0 HUGE_PAGE_SIZE) with 0.
  destruct (alloc_memzone s) as [[n|] s1]; [|done]. destruct (k_open k (Z.of_nat n)); [|done]. cbn. by rewrite Hk.
Qed.

(** C39 (refinement): the table refines a map of at most 1024 reservations: a
    successful [memzone_reserve] adds, under a descriptor that was not in use, the
    length rounded up to huge pages with the address the kernel mapped it at and its
    physical address, and changes no other; a failed one changes none, and happens
    only when all descriptors are in use or the kernel refuses; [memzone_free] removes
    the reservation and no other, whether or not the range can be unmapped.  The comment
    of [memzone_reserve] says that a length of 0 reserves the biggest contiguous zone: it
    asks the kernel for no bytes, which [mmap] refuses, and nothing is reserved.  That of
    [memzone_free] says that an invalid zone is refused: one not in use is freed again. *)
Theorem memzone_refines_map k s len i :
  mzs_ok s -> 0 < len -> len + HUGE_PAGE_SIZE <= 2 ^ 64 ->
  let size := (len + (HUGE_PAGE_SIZE - 1)) / HUGE_PAGE_SIZE * HUGE_PAGE_SIZE in
  match memzone_reserve k len s with
  | (Some n, s') => mzs_ok s' /\ (n < MAX_MEMZONES)%nat /\ zone s n = None /\
      exists addr, k_mmap k (Z.of_nat n) size = Some addr /\ mem_virt2phy k addr <> MEMZONE_BAD_IOVA /\
        forall j, zone s' j = if decide (n = j) then Some (addr, size, mem_virt2phy k addr) else zone s j
  | (None, s') => mzs_ok s' /\ (forall j, zone s' j = zone s j) /\
      ((forall j, (j < MAX_MEMZONES)%nat -> zone s j <> None) \/
       exists n, zone s n = None /\
         (k_open k (Z.of_nat n) = false \/ k_mmap k (Z.of_nat n) size = None \/
          exists addr, k_mmap k (Z.of_nat n) size = Some addr /\ mem_virt2phy k addr = MEMZONE_BAD_IOVA))
  end /\
  ((forall n, k_mmap k n 0 = None) -> (memzone_reserve k 0 s).1 = None) /\
  let '(ret, s') := memzone_free k (Some i) s in
  mzs_ok s' /\ forall j, zone s' j = if decide (i = j) then None else zone s j.
Proof.
  intros. split; [apply memzone_reserve_zone; [done|lia|done]|]. split; [apply memzone_reserve_nothing|by apply memzone_free_zone].
Qed.

(** Set-up empties the table. *)
Lemma memzone_init_ok s : length (mzs_table s) = MAX_MEMZONES ->
  mzs_ok (memzone_init s) /\ forall i, zone (memzone_init s) i = None.
Proof.
  intros Hl. unfold memzone_init, mzs_ok, zone. cbn [mzs_table mzs_free]. rewrite length_fmap. split.
  - split; [done|]. split.
    + f_equal. unfold unused. rewrite <- Hl. clear Hl. induction (mzs_table s) as [|m l IH]; [done|].
      cbn [fmap list_fmap]. rewrite filter_cons_True by done. cbn [length]. by f_equal.
    + intros i m. rewrite list_lookup_fmap. destruct (mzs_table s !! i); [|done]. intros [= <-]. by right.
  - intros i. rewrite list_lookup_fmap. by destruct (mzs_table s !! i).
Qed.

(** ** Example *)

Definition ex_kernel : kernel :=
  mkKernel (fun _ => true) (fun i len => if len =? 0 then None else Some (0x7f0000000000 + i * HUGE_PAGE_SIZE)) (fun o => Some (8, o / 8 - 0x7efffff00)) (fun _ _ => true).
Definition ex_mzs : memzones := memzone_init (mkMzs (repeat (mkMz 0 0 0 0 0) MAX_MEMZONES) 0 []).

Lemma memzone_refines_map_witness : mzs_ok ex_mzs /\
  let '(r, s') := memzone_reserve ex_kernel 100 ex_mzs in
  r = Some O /\ mzs_ok s' /\ zone s' 0%nat = Some (0x7f0000000000, HUGE_PAGE_SIZE, 0x100000) /\
  (memzone_reserve ex_kernel 0 ex_mzs).1 = None.
Proof.
  assert (mzs_ok ex_mzs) as Hok by (apply memzone_init_ok; by vm_compute). split; [exact Hok|].
  pose proof (memzone_refines_map ex_kernel ex_mzs 100 0 Hok) as H.
  destruct H as (H & H0 & _); [lia|by vm_compute|]. specialize (H0 (fun _ => eq_refl)).
  destruct (memzone_reserve ex_kernel 100 ex_mzs) as [[n|] s'] eqn:E.
  - assert (n = O) as -> by (apply (f_equal fst) in E; vm_compute in E; congruence).
    destruct H as (H1 & _ & _ & addr & Hm & _ & Hz). split; [reflexivity|]. split; [exact H1|].
    split; [|exact H0]. rewrite (Hz O). vm_compute in Hm. injection Hm as <-. by vm_compute.
  - apply (f_equal fst) in E. vm_compute in E. congruence.
Defined.
