(* ===== verification/PciScan.v ===== *)
(** * PCI devices ([user/lib/driver.c])

    Finding the NIC in sysfs, reading its identification and its resources, and mapping
    them.  The file system is an argument: the entries of a directory, the contents of a
    file.  Paths and lines are shorter than their buffers, allocations succeed. *)

From S2P Require Export CLib.

Local Open Scope Z_scope.

Definition PCI_VENDOR_ID_NETRONOME : Z := 0x19ee.
Definition PCI_DEVICE_ID_NFP4000_PF_NIC : Z := 0x4000.
Definition PCI_DEVICE_ID_NFP6000_PF_NIC : Z := 0x6000.
Definition PCI_FMT_NVAL : nat := 4.
Definition PCI_RESOURCE_FMT_NVAL : nat := 3.
Definition PCI_MAX_RESOURCE : nat := 6.
Definition PCI_CLASS_ANY_ID : Z := 0xffffff.
Definition IORESOURCE_MEM : Z := 0x200.

Record rte_pci_addr := mkAddr {
  a_domain : Z;
  a_bus : Z;
  a_devid : Z;
  a_function : Z }.

Record rte_pci_id := mkId {
  class_id : Z;
  vendor_id : Z;
  device_id : Z;
  subsystem_vendor_id : Z;
  subsystem_device_id : Z }.

Record rte_mem_resource := mkMem {
  r_phys_addr : Z;
  r_len : Z;
  r_addr : Z }.

Record rte_pci_device := mkPciDev {
  pd_addr : rte_pci_addr;
  pd_id : rte_pci_id;
  pd_resource : list rte_mem_resource;
  pd_uio_fd : Z;
  pd_uio_cfg_fd : Z;
  pd_max_vfs : Z;
  pd_name : list Z }.

(** [PCI_PRI_FMT] *)
Definition print_addr (a : rte_pci_addr) : list Z :=
  print_hex 4 (a_domain a) ++ lit ":" ++ print_hex 2 (a_bus a) ++ lit ":" ++ print_hex 2 (a_devid a) ++
  lit "." ++ print_hex 0 (a_function a).

(** The tokens: a token ends at its delimiter, the last one [maxtokens] allows at the end
    of the string unless it is empty. *)
Fixpoint strsplit (maxtokens : nat) (s : list Z) (delim : Z) : list (list Z) :=
  match maxtokens with
  | O => []
  | S n =>
      match s with
      | [] => []
      | c :: _ =>
          match n with
          | O => [if c =? delim then [] else s]
          | S _ => let '(tok, rest) := split_at delim s in tok :: match rest with Some r => strsplit n r delim | None => [] end
          end
      end
  end.

Definition parse_pci_addr_format (buf : list Z) : option rte_pci_addr :=
  match strsplit PCI_FMT_NVAL buf 58 with
  | [domain; bus; devid] =>
      match split_at 46 devid with
      | (_, None) => None
      | (devid, Some function) =>
          let '(d, _, e1) := strtoul domain 16 in
          let '(b, _, e2) := strtoul bus 16 in
          let '(v, _, e3) := strtoul devid 16 in
          let '(f, _, e4) := strtoul function 10 in
          if e1 || e2 || e3 || e4 then None else Some (mkAddr (u32 d) (u8 b) (u8 v) (u8 f))
      end
  | _ => None
  end.

(** ** Files *)

(** The entries of a directory, the contents of a file, and what the name of an entry
    reads as once [closedir] has freed it. *)
Record files := mkFiles {
  f_dir : list Z -> option (list (list Z));
  f_file : list Z -> option (list Z);
  f_freed : list Z -> list Z }.

Section Scan.
Context (fs : files).

(** The value of the file's first line, which has nothing after the number. *)
Definition parse_sysfs_value (path : list Z) : option Z :=
  match f_file fs path with
  | None | Some [] => None
  | Some content =>
      let buf := cstring (fgets content).1 in
      let '(val, end_, _) := strtoul buf 0 in
      match buf, end_ with
      | _ :: _, 10 :: _ => Some val
      | _, _ => None
      end
  end.

(** A line of the resource file: start, end and flags. *)
Definition parse_resource_line (line : list Z) : option (Z * Z * Z) :=
  match strsplit PCI_RESOURCE_FMT_NVAL (cstring line) 32 with
  | [phys_addr; end_addr; flags] =>
      let '(p, _, e1) := strtoul phys_addr 16 in
      let '(e, _, e2) := strtoul end_addr 16 in
      let '(f, _, e3) := strtoul flags 16 in
      if e1 || e2 || e3 then None else Some (p, e, f)
  | _ => None
  end.

(** [for (i = 0; i < PCI_MAX_RESOURCE; i++)] *)
Fixpoint resource_loop (n i : nat) (content : list Z) (resource : list rte_mem_resource) : option (list rte_mem_resource) :=
  match n with
  | O => Some resource
  | S n =>
      match content with
      | [] => None
      | _ =>
          let '(buf, content) := fgets content in
          match parse_resource_line buf with
          | None => None
          | Some (phys_addr, end_addr, flags) =>
              let resource :=
                if negb (Z.land flags IORESOURCE_MEM =? 0)
                then <[i := mkMem phys_addr (u64 (end_addr - phys_addr + 1)) 0]> resource else resource in
              resource_loop n (S i) content resource
          end
      end
  end.

Definition pci_parse_sysfs_resource (filename : list Z) (resource : list rte_mem_resource)
    : option (list rte_mem_resource) :=
  match f_file fs filename with None => None | Some content => resource_loop PCI_MAX_RESOURCE 0 content resource end.

Definition pci_setup_device (dirname : list Z) (addr : rte_pci_addr) : option rte_pci_device :=
  match parse_sysfs_value (dirname ++ lit "/vendor") with
  | None => None
  | Some vendor =>
  match parse_sysfs_value (dirname ++ lit "/device") with
  | None => None
  | Some device =>
  match parse_sysfs_value (dirname ++ lit "/subsystem_vendor") with
  | None => None
  | Some subsystem_vendor =>
  match parse_sysfs_value (dirname ++ lit "/subsystem_device") with
  | None => None
  | Some subsystem_device =>
  match parse_sysfs_value (dirname ++ lit "/class") with
  | None => None
  | Some class =>
      let id := mkId (Z.land (u32 class) PCI_CLASS_ANY_ID) (u16 vendor) (u16 device) (u16 subsystem_vendor) (u16 subsystem_device) in
      let max_vfs := match parse_sysfs_value (dirname ++ lit "/max_vfs") with Some tmp => u16 tmp | None => 0 end in
      match pci_parse_sysfs_resource (dirname ++ lit "/resource") (repeat (mkMem 0 0 0) PCI_MAX_RESOURCE) with
      | None => None
      | Some resource => Some (mkPciDev addr id resource 0 0 max_vfs (take 17 (print_addr addr)))
      end
  end end end end end.

Definition sysfs : list Z := lit "/sys/bus/pci/devices".

(** [e->d_name[0] == '.'] *)
Definition hidden (d_name : list Z) : bool := match d_name with c :: _ => c =? 46 | [] => false end.

(** [while ((e = readdir(dir)) != NULL)]: the first NIC, whose name is read again after
    [closedir]. *)
Fixpoint scan_loop (entries : list (list Z)) : option rte_pci_device :=
  match entries with
  | [] => None
  | d_name :: entries =>
      if hidden d_name then scan_loop entries
      else
        match parse_pci_addr_format d_name with
        | None => scan_loop entries
        | Some addr =>
            let path := sysfs ++ lit "/" ++ d_name in
            match parse_sysfs_value (path ++ lit "/vendor") with
            | None => scan_loop entries
            | Some vendor_id =>
                match parse_sysfs_value (path ++ lit "/device") with
                | None => scan_loop entries
                | Some device_id =>
                    if (vendor_id =? PCI_VENDOR_ID_NETRONOME) &&
                       ((device_id =? PCI_DEVICE_ID_NFP4000_PF_NIC) || (device_id =? PCI_DEVICE_ID_NFP6000_PF_NIC))
                    then pci_setup_device (sysfs ++ lit "/" ++ f_freed fs d_name) addr
                    else scan_loop entries
                end
            end
        end
  end.

Definition pci_scan : option rte_pci_device :=
  match f_dir fs (lit "/sys/bus/pci/devices/") with
  | None => None
  | Some entries => scan_loop entries
  end.

(** ** Mapping *)

(** What the kernel answers to [open] (a descriptor or -1) and to [mmap] of a file. *)
Context (k_open : list Z -> Z) (k_mmap : list Z -> Z -> option Z).

(** The number in an entry of the uio directory, and its name with the number. *)
Definition uio_entry (d_name : list Z) : option (Z * list Z) :=
  if negb (bool_decide (take 3 d_name = lit "uio")) then None
  else
    let try prefix shown :=
      let '(v, rest, err) := strtoul (drop prefix d_name) 10 in
      if negb err && negb (Nat.eqb (length rest) (length (drop prefix d_name)))
      then Some (s32 v, shown) else None in
    match try 3%nat (lit "uio") with
    | Some r => Some r
    | None => if (length d_name <? 7)%nat then None else try 7%nat (lit "uio:uio")
    end.

Fixpoint uio_loop (entries : list (list Z)) : option (Z * list Z) :=
  match entries with
  | [] => None
  | d_name :: entries => match uio_entry d_name with Some r => Some r | None => uio_loop entries end
  end.

(** ["%u:%u"] *)
Definition parse_major_minor (content : list Z) : option (Z * Z) :=
  let '(major, rest, _) := strtoul content 10 in
  if Nat.eqb (length rest) (length content) then None
  else
    match rest with
    | 58 :: rest1 =>
        let '(minor, rest2, _) := strtoul rest1 10 in
        if Nat.eqb (length rest2) (length rest1) then None else Some (u32 major, u32 minor)
    | _ => None
    end.

(** The node to make: its path and its device. *)
Definition pci_mknod_uio_dev (sysfs_uio_path : list Z) (uio_num : Z) : option (list Z * Z * Z) :=
  match f_file fs (sysfs_uio_path ++ lit "/dev") with
  | None => None
  | Some content =>
      match parse_major_minor content with
      | None => None
      | Some (major, minor) => Some (lit "/dev/uio" ++ print_dec (u32 uio_num), major, minor)
      end
  end.

Definition set_fds (fd cfg_fd : Z) (dev : rte_pci_device) : rte_pci_device :=
  mkPciDev (pd_addr dev) (pd_id dev) (pd_resource dev) fd cfg_fd (pd_max_vfs dev) (pd_name dev).

(** The result, the node made and the device. *)
Definition pci_get_device (dev : rte_pci_device) : Z * option (list Z * Z * Z) * rte_pci_device :=
  let parent := sysfs ++ lit "/" ++ print_addr (pd_addr dev) in
  let dir :=
    match f_dir fs (parent ++ lit "/uio") with
    | Some entries => Some (parent ++ lit "/uio", entries)
    | None => match f_dir fs parent with Some entries => Some (parent, entries) | None => None end
    end in
  match dir with
  | None => (-1, None, dev)
  | Some (dirname, entries) =>
      match uio_loop entries with
      | None => (-1, None, dev)
      | Some (uio_num, shown) =>
          let n := print_dec (u32 uio_num) in
          let node := pci_mknod_uio_dev (dirname ++ lit "/" ++ shown ++ n) uio_num in
          let fd := k_open (lit "/dev/uio" ++ n) in
          if fd <? 0 then (-1, node, set_fds fd (pd_uio_cfg_fd dev) dev)
          else
            let cfg_fd := k_open (lit "/sys/class/uio/uio" ++ n ++ lit "/device/config") in
            (if cfg_fd <? 0 then -1 else 0, node, set_fds fd cfg_fd dev)
      end
  end.

Definition set_map_addr (addr : Z) (r : rte_mem_resource) : rte_mem_resource := mkMem (r_phys_addr r) (r_len r) addr.

(** [for (i = 0; i != PCI_MAX_RESOURCE; i++)]: what is mapped when one fails stays. *)
Fixpoint map_loop (n i : nat) (addr : rte_pci_addr) (resource : list rte_mem_resource) : Z * list rte_mem_resource :=
  match n with
  | O => (0, resource)
  | S n =>
      match resource !! i with
      | None => (0, resource)
      | Some r =>
          if r_phys_addr r =? 0 then map_loop n (S i) addr resource
          else
            let devname := sysfs ++ lit "/" ++ print_addr addr ++ lit "/resource" ++ print_dec (Z.of_nat i) in
            if k_open devname <? 0 then (-1, resource)
            else
              match k_mmap devname (r_len r) with
              | None => (-1, resource)
              | Some mapaddr => map_loop n (S i) addr (<[i := set_map_addr mapaddr r]> resource)
              end
      end
  end.

Definition pci_map_device (dev : rte_pci_device) : Z * option (list Z * Z * Z) * rte_pci_device :=
  let '(ret, node, dev) := pci_get_device dev in
  if ret <? 0 then (-1, node, dev)
  else
    let '(ret, resource) := map_loop PCI_MAX_RESOURCE 0 (pd_addr dev) (pd_resource dev) in
    (ret, node, mkPciDev (pd_addr dev) (pd_id dev) resource (pd_uio_fd dev) (pd_uio_cfg_fd dev) (pd_max_vfs dev) (pd_name dev)).
End Scan.

(** ** What the kernel prints is parsed *)

Definition addr_ok (a : rte_pci_addr) : Prop :=
  is_u32 (a_domain a) /\ is_u8 (a_bus a) /\ is_u8 (a_devid a) /\ 0 <= a_function a < 10.

Lemma addr_roundtrip a : addr_ok a -> parse_pci_addr_format (print_addr a) = Some a.
Proof.
  intros (Hd & Hb & Hv & Hf). unfold is_u32, is_u8 in *. unfold parse_pci_addr_format, print_addr.
  set (D := print_hex 4 (a_domain a)). set (B := print_hex 2 (a_bus a)). set (V := print_hex 2 (a_devid a)).
  set (F := print_hex 0 (a_function a)).
  assert (strtoul F 10 = (a_function a, [], false) /\ Forall (fun c => c <> 58) F) as [HF HF58].
  { unfold F. clear - Hf. assert (a_function a ∈ seqZ 0 10) as Hin by (apply elem_of_seqZ; lia).
    repeat (apply elem_of_cons in Hin as [->|Hin]; [split; [done|repeat constructor; done]|]). by apply elem_of_nil in Hin. }
  assert (strsplit PCI_FMT_NVAL (D ++ lit ":" ++ B ++ lit ":" ++ V ++ lit "." ++ F) 58 = [D; B; V ++ lit "." ++ F]) as ->.
  { change (lit ":") with [58]. cbn [app]. destruct (print_hex_nonempty 4 (a_domain a)) as (c1 & l1 & E1).
    destruct (print_hex_nonempty 2 (a_bus a)) as (c2 & l2 & E2). destruct (print_hex_nonempty 2 (a_devid a)) as (c3 & l3 & E3).
    fold D in E1. fold B in E2. fold V in E3.
    change PCI_FMT_NVAL with 4%nat. cbn [strsplit].
    rewrite (split_at_here 58 D) by (apply print_hex_chars; lia). rewrite (split_at_here 58 B) by (apply print_hex_chars; lia).
    rewrite split_at_none.
    2:{ apply Forall_app. split; [apply print_hex_chars; lia|]. constructor; [done|exact HF58]. }
    rewrite E1, E2, E3. done. }
  change (lit ".") with [46]. cbn [app]. rewrite split_at_here by (apply print_hex_chars; lia).
  assert (forall w x, 0 <= x < 2 ^ 64 -> strtoul (print_hex w x) 16 = (x, [], false)) as Hx
    by (intros w x H; pose proof (strtoul_hex w x [] H I) as E; by rewrite app_nil_r in E).
  unfold D, B, V. rewrite !Hx, HF by lia. cbn [orb]. rewrite u32_id, !u8_id by (unfold is_u32, is_u8; lia). by destruct a.
Qed.

(** A value's file: ["0x%0wx\n"]. *)
Definition value_file (w : nat) (x : Z) : list Z := lit "0x" ++ print_hex w x ++ lit "
".

Lemma value_read fs path w x : f_file fs path = Some (value_file w x) -> 0 <= x < 2 ^ 64 -> parse_sysfs_value fs path = Some x.
Proof.
  intros Hf Hx. unfold parse_sysfs_value. rewrite Hf. unfold value_file. change (lit "
") with [10].
  set (s := lit "0x" ++ print_hex w x).
  assert (forall d, d < 48 -> Forall (fun c => c <> d) s) as Hs.
  { intros d Hd. apply Forall_app. split; [|apply print_hex_chars; lia].
    change (lit "0x") with [48; 120]. constructor; [lia|]. constructor; [lia|constructor]. }
  rewrite app_assoc. fold s. rewrite fgets_line by (apply Hs; lia). cbn [fst].
  rewrite cstring_id by (apply Forall_app; split; [apply Hs; lia|by repeat constructor]).
  unfold s. rewrite <- app_assoc, strtoul_0x by (try done; try (by left); cbn; lia). done.
Qed.

(** A resource's line: ["0x%016llx 0x%016llx 0x%016llx\n"]. *)
Definition resource_line (r : Z * Z * Z) : list Z :=
  let '(p, e, f) := r in
  lit "0x" ++ print_hex 16 p ++ lit " " ++ lit "0x" ++ print_hex 16 e ++ lit " " ++ lit "0x" ++ print_hex 16 f ++ lit "
".

Definition resource_ok (r : Z * Z * Z) : Prop :=
  let '(p, e, f) := r in 0 <= p < 2 ^ 64 /\ 0 <= e < 2 ^ 64 /\ 0 <= f < 2 ^ 64.

(** What a line says of its resource. *)
Definition resource_of (r : Z * Z * Z) : rte_mem_resource :=
  let '(p, e, f) := r in
  if negb (Z.land f IORESOURCE_MEM =? 0) then mkMem p (u64 (e - p + 1)) 0 else mkMem 0 0 0.

Lemma hex_word_chars w x d : 0 <= x -> d < 48 -> Forall (fun c => c <> d) (lit "0x" ++ print_hex w x).
Proof.
  intros. apply Forall_app. split; [|apply print_hex_chars; lia].
  change (lit "0x") with [48; 120]. constructor; [lia|]. constructor; [lia|constructor].
Qed.

Lemma resource_line_parsed r content : resource_ok r ->
  exists line, fgets (resource_line r ++ content) = (line, content) /\ parse_resource_line line = Some r.
Proof.
  destruct r as [[p e] f]. intros (Hp & He & Hf). unfold resource_line.
  set (P := lit "0x" ++ print_hex 16 p). set (E := lit "0x" ++ print_hex 16 e). set (F := lit "0x" ++ print_hex 16 f).
  change (lit " ") with [32]. change (lit "
") with [10].
  assert (forall d, d < 32 -> Forall (fun c => c <> d) (P ++ 32 :: E ++ 32 :: F)) as Hall.
  { intros d Hd. apply Forall_app. split; [apply hex_word_chars; lia|]. constructor; [lia|].
    apply Forall_app. split; [apply hex_word_chars; lia|]. constructor; [lia|]. apply hex_word_chars; lia. }
  exists ((P ++ 32 :: E ++ 32 :: F) ++ [10]). split.
  - assert ((lit "0x" ++ print_hex 16 p ++ [32] ++ lit "0x" ++ print_hex 16 e ++ [32] ++ lit "0x" ++ print_hex 16 f ++ [10]) ++
      content = (P ++ 32 :: E ++ 32 :: F) ++ 10 :: content) as -> by (unfold P, E, F; change (lit "0x") with [48; 120]; repeat (cbn [app]; rewrite <- ?app_assoc); done).
    by rewrite fgets_line by (apply Hall; lia).
  - unfold parse_resource_line. rewrite cstring_id by (apply Forall_app; split; [apply Hall; lia|by repeat constructor]).
    assert (strsplit PCI_RESOURCE_FMT_NVAL ((P ++ 32 :: E ++ 32 :: F) ++ [10]) 32 = [P; E; F ++ [10]]) as ->.
    { change PCI_RESOURCE_FMT_NVAL with 3%nat. rewrite <- !app_assoc. cbn [app]. rewrite <- !app_assoc. cbn [app].
      assert (exists lp le lf, P = 48 :: lp /\ E = 48 :: le /\ F = 48 :: lf) as (lp & le & lf & EP & EE & EF)
        by (exists (tail P), (tail E), (tail F); done).
      cbn [strsplit].
      rewrite (split_at_here 32 P) by (apply hex_word_chars; lia). rewrite (split_at_here 32 E) by (apply hex_word_chars; lia).
      rewrite EP, EE, EF. done. }
    unfold P, E, F. rewrite <- !app_assoc.
    pose proof (strtoul_0x 16 p [] 16 (or_intror eq_refl) Hp I) as H1. rewrite app_nil_r in H1. rewrite H1.
    pose proof (strtoul_0x 16 e [] 16 (or_intror eq_refl) He I) as H2. rewrite app_nil_r in H2. rewrite H2.
    rewrite strtoul_0x by (try done; try (by right); cbn; lia). done.
Qed.

Lemma resource_loop_lines rest : forall rs i resource, Forall resource_ok rs -> (i + length rs = length resource)%nat ->
  Forall (fun r => r = mkMem 0 0 0) (drop i resource) ->
  resource_loop (length rs) i (concat (resource_line <$> rs) ++ rest) resource = Some (take i resource ++ (resource_of <$> rs)).
Proof.
  induction rs as [|r rs IH]; intros i resource Hok Hl Hz.
  - cbn in *. rewrite app_nil_r, take_ge by lia. done.
  - inversion Hok as [|? ? Hr Hrs]; subst. cbn [length fmap list_fmap concat resource_loop].
    rewrite <- app_assoc. destruct (resource_line_parsed r (concat (resource_line <$> rs) ++ rest) Hr) as (line & Eg & Ep).
    assert (exists c l, resource_line r ++ concat (resource_line <$> rs) ++ rest = c :: l) as (c & l & Ec)
      by (destruct r as [[p e] f]; eexists _, _; reflexivity).
    rewrite Ec. rewrite <- Ec, Eg, Ep. destruct r as [[p e] f].
    cbn [length] in Hl. destruct (lookup_lt_is_Some_2 resource i ltac:(lia)) as [x0 Hx0].
    set (res' := if negb (Z.land f IORESOURCE_MEM =? 0) then _ else resource).
    assert (res' = <[i := resource_of (p, e, f)]> resource) as ->.
    { subst res'. unfold resource_of. destruct (negb _); [done|]. symmetry. apply list_insert_id.
      rewrite (drop_S resource x0 i Hx0) in Hz. inversion Hz; subst. done. }
    rewrite IH; [|done|rewrite length_insert; lia|].
    + f_equal. rewrite (take_S_r _ _ (resource_of (p, e, f))) by (by apply list_lookup_insert_eq; lia).
      rewrite take_insert_ge by lia. by rewrite <- app_assoc.
    + rewrite drop_insert_lt by lia. rewrite (drop_S resource x0 i Hx0) in Hz. by inversion Hz.
Qed.

(** The files sysfs has for a device: the resource file starts with the lines of the
    device's own resources; lines of others (the expansion ROM, the virtual functions)
    follow. *)
Record nic_files (fs : files) (addr : rte_pci_addr) (id : rte_pci_id) (rs : list (Z * Z * Z)) : Prop := {
  nf_base := sysfs ++ lit "/" ++ print_addr addr;
  nf_vendor : f_file fs (nf_base ++ lit "/vendor") = Some (value_file 4 (vendor_id id));
  nf_device : f_file fs (nf_base ++ lit "/device") = Some (value_file 4 (device_id id));
  nf_svendor : f_file fs (nf_base ++ lit "/subsystem_vendor") = Some (value_file 4 (subsystem_vendor_id id));
  nf_sdevice : f_file fs (nf_base ++ lit "/subsystem_device") = Some (value_file 4 (subsystem_device_id id));
  nf_class : f_file fs (nf_base ++ lit "/class") = Some (value_file 6 (class_id id));
  nf_resource : exists rest, f_file fs (nf_base ++ lit "/resource") = Some (concat (resource_line <$> rs) ++ rest) }.

(** What is kept of [max_vfs], which few drivers have. *)
Definition max_vfs_of (fs : files) (addr : rte_pci_addr) : Z :=
  match parse_sysfs_value fs ((sysfs ++ lit "/" ++ print_addr addr) ++ lit "/max_vfs") with Some tmp => u16 tmp | None => 0 end.

Definition id_ok (id : rte_pci_id) : Prop :=
  0 <= class_id id < 2 ^ 24 /\ is_u16 (vendor_id id) /\ is_u16 (device_id id) /\ is_u16 (subsystem_vendor_id id) /\
  is_u16 (subsystem_device_id id).

(** The device that the kernel's files describe. *)
Definition described (fs : files) (addr : rte_pci_addr) (id : rte_pci_id) (rs : list (Z * Z * Z)) : rte_pci_device :=
  mkPciDev addr id (resource_of <$> rs) 0 0 (max_vfs_of fs addr) (take 17 (print_addr addr)).

Lemma setup_device fs addr id rs : nic_files fs addr id rs -> id_ok id -> Forall resource_ok rs ->
  length rs = PCI_MAX_RESOURCE ->
  pci_setup_device fs (sysfs ++ lit "/" ++ print_addr addr) addr = Some (described fs addr id rs).
Proof.
  intros [base Hv Hd Hsv Hsd Hc (rest & Hr)] (Hic & Hiv & Hid & Hisv & Hisd) Hrs Hl. unfold is_u16 in *. unfold pci_setup_device.
  fold base. rewrite (value_read _ _ _ _ Hv), (value_read _ _ _ _ Hd), (value_read _ _ _ _ Hsv), (value_read _ _ _ _ Hsd),
    (value_read _ _ _ _ Hc) by lia.
  unfold pci_parse_sysfs_resource. rewrite Hr, <- Hl. rewrite resource_loop_lines; [|done|by rewrite repeat_length|].
  2:{ rewrite drop_0. rewrite Hl. by repeat constructor. }
  rewrite take_0. cbn [app]. unfold described, max_vfs_of. fold base. do 2 f_equal. unfold PCI_CLASS_ANY_ID. change 0xffffff with (Z.ones 24).
  rewrite Z.land_ones, !u16_id, u32_id, Z.mod_small by (unfold is_u16, is_u32; lia). by destruct id.
Qed.

(** The entry is not a NIC's: hidden, not an address, or not of the identifiers. *)
Definition no_nic (fs : files) (d : list Z) : Prop :=
  hidden d = true \/ parse_pci_addr_format d = None \/
  parse_sysfs_value fs ((sysfs ++ lit "/" ++ d) ++ lit "/vendor") <> Some PCI_VENDOR_ID_NETRONOME \/
  (parse_sysfs_value fs ((sysfs ++ lit "/" ++ d) ++ lit "/device") <> Some PCI_DEVICE_ID_NFP4000_PF_NIC /\
   parse_sysfs_value fs ((sysfs ++ lit "/" ++ d) ++ lit "/device") <> Some PCI_DEVICE_ID_NFP6000_PF_NIC).

Lemma scan_skips fs d entries : no_nic fs d -> scan_loop fs (d :: entries) = scan_loop fs entries.
Proof.
  intros Hd. cbn [scan_loop]. destruct Hd as [-> | Hd]; [done|]. destruct (hidden d); [done|].
  destruct Hd as [-> | Hd]; [done|]. destruct (parse_pci_addr_format d); [|done].
  destruct (parse_sysfs_value fs _) as [v|]; [|done]. destruct (parse_sysfs_value fs _) as [v'|]; [|done].
  destruct Hd as [Hn|[H4 H6]].
  - rewrite (proj2 (Z.eqb_neq v _)) by (intros ->; done). done.
  - rewrite (proj2 (Z.eqb_neq v' PCI_DEVICE_ID_NFP4000_PF_NIC)), (proj2 (Z.eqb_neq v' PCI_DEVICE_ID_NFP6000_PF_NIC))
      by (intros ->; done). by rewrite andb_false_r.
Qed.

Lemma print_addr_shown addr : addr_ok addr -> hidden (print_addr addr) = false.
Proof.
  intros Ha. destruct (print_hex_nonempty 4 (a_domain addr)) as (c & l & E).
  pose proof (print_hex_chars 4 (a_domain addr) 46 ltac:(destruct Ha as [Ha _]; unfold is_u32 in Ha; lia) ltac:(lia)) as H46.
  unfold print_addr. rewrite E in H46 |- *. inversion H46; subst. by apply Z.eqb_neq.
Qed.

(** C40 (functional): where sysfs lists a NIC after entries that are not, [pci_scan] sets
    up a device with the address of its name, from the directory of the name it reads
    after [closedir], which frees it.  If the name is intact there, the result is the
    device with the identifiers and the memory resources that the kernel printed, each
    resource's length from its bounds, whatever the kernel prints after the device's six
    resources, and with the [max_vfs] of its file or 0. *)
Theorem pci_scan_finds fs pre post addr id rs :
  f_dir fs (lit "/sys/bus/pci/devices/") = Some (pre ++ print_addr addr :: post) -> Forall (no_nic fs) pre ->
  nic_files fs addr id rs -> addr_ok addr -> id_ok id -> Forall resource_ok rs -> length rs = PCI_MAX_RESOURCE ->
  vendor_id id = PCI_VENDOR_ID_NETRONOME ->
  device_id id = PCI_DEVICE_ID_NFP4000_PF_NIC \/ device_id id = PCI_DEVICE_ID_NFP6000_PF_NIC ->
  pci_scan fs = pci_setup_device fs (sysfs ++ lit "/" ++ f_freed fs (print_addr addr)) addr /\
  (f_freed fs (print_addr addr) = print_addr addr -> pci_scan fs = Some (described fs addr id rs)).
Proof.
  intros Hdir Hpre Hnf Ha Hid Hrs Hl Hven Hdev.
  assert (pci_scan fs = pci_setup_device fs (sysfs ++ lit "/" ++ f_freed fs (print_addr addr)) addr) as ->.
  { unfold pci_scan. rewrite Hdir. clear Hdir. induction Hpre as [|d pre Hd _ IH]; cbn [app]; [|by rewrite scan_skips].
    cbn [scan_loop]. rewrite print_addr_shown, addr_roundtrip by done. pose proof Hnf as [base Hv Hd _ _ _ _].
    destruct Hid as (_ & Hiv & Hidd & _). unfold is_u16 in Hiv, Hidd.
    fold base. rewrite (value_read _ _ _ _ Hv), (value_read _ _ _ _ Hd) by lia. rewrite Hven, Z.eqb_refl.
    by replace ((device_id id =? PCI_DEVICE_ID_NFP4000_PF_NIC) || (device_id id =? PCI_DEVICE_ID_NFP6000_PF_NIC)) with true
      by (destruct Hdev as [-> | ->]; done). }
  split; [done|]. intros ->. by apply setup_device.
Qed.

(** ** Example *)

Definition ex_addr : rte_pci_addr := mkAddr 0 4 0 0.
Definition ex_id : rte_pci_id := mkId 0x020000 0x19ee 0x4000 0x19ee 0x4000.
Definition ex_resources : list (Z * Z * Z) :=
  [(0x38000000000, 0x38003ffffff, 0x14220c); (0, 0, 0); (0x38004000000, 0x380047fffff, 0x14220c); (0, 0, 0); (0, 0, 0); (0, 0, 0)].
Definition ex_base : list Z := sysfs ++ lit "/" ++ print_addr ex_addr.
Definition ex_files : files :=
  mkFiles (fun _ => Some [lit "."; lit ".."; print_addr (mkAddr 0 0 31 3); print_addr ex_addr])
    (fun path =>
       if bool_decide (path = ex_base ++ lit "/vendor") then Some (value_file 4 0x19ee)
       else if bool_decide (path = ex_base ++ lit "/device") then Some (value_file 4 0x4000)
       else if bool_decide (path = ex_base ++ lit "/subsystem_vendor") then Some (value_file 4 0x19ee)
       else if bool_decide (path = ex_base ++ lit "/subsystem_device") then Some (value_file 4 0x4000)
       else if bool_decide (path = ex_base ++ lit "/class") then Some (value_file 6 0x020000)
       else if bool_decide (path = ex_base ++ lit "/resource") then Some (concat (resource_line <$> ex_resources ++ [(0, 0, 0)]))
       else if bool_decide (path = sysfs ++ lit "/0000:00:1f.3/vendor") then Some (value_file 4 0x8086)
       else None)
    (fun d_name => d_name).

Lemma pci_scan_finds_witness : exists dev, pci_scan ex_files = Some dev /\ r_len <$> pd_resource dev !! 0%nat = Some 0x4000000.
Proof.
  eexists. split.
  - refine (proj2 (pci_scan_finds ex_files [lit "."; lit ".."; print_addr (mkAddr 0 0 31 3)] [] ex_addr ex_id ex_resources
      _ _ _ _ _ _ _ _ _) _).
    + reflexivity.
    + apply Forall_cons; split; [left; vm_compute; reflexivity|]. apply Forall_cons; split; [left; vm_compute; reflexivity|].
      apply Forall_cons; split; [right; right; left; vm_compute; discriminate|apply Forall_nil; exact I].
    + split; [vm_compute; reflexivity..|]. exists (resource_line (0, 0, 0)). vm_compute. reflexivity.
    + unfold addr_ok, is_u32, is_u8. cbn. lia.
    + unfold id_ok, is_u16. cbn. lia.
    + repeat constructor; by vm_compute.
    + reflexivity.
    + reflexivity.
    + by left.
    + reflexivity.
  - by vm_compute.
Defined.
