(* ===== verification/AppMain.v ===== *)
(** * The host program ([user/app_main.c], [user/lib/io.h], [pci_probe] of
    [user/lib/driver.c])

    What [main] does until its threads run: it finds the card, probes it, reserves the
    two rings, and starts the worker, which maps the firmware's [device_meta_t] and
    configures the device.  The accesses of [io.h] are stores and loads of a byte
    memory, in program order.

    The worker and the device server run at the same time on one handle, which has no
    lock; the set-up of the worker is modelled on the handle [main] gives it. *)

From S2P Require Export RteIo EchoThms Memzone PciScan DevPcie NspEthThms RtsymThms.

Local Open Scope Z_scope.

(** [user/config.h] *)
Definition UDP_PACKET_SIZE : Z := 64.
Definition RING_BUFFER_SIZE : Z := 512.

(** ** Register accesses ([io.h]) *)

Definition nn_readb (m : mem) (addr : Z) : Z := rte_read8 m addr.
Definition nn_writeb (val addr : Z) : stores := rte_write8 val addr.
Definition nn_readl (m : mem) (addr : Z) : Z := rte_read32 m addr.
Definition nn_writel (val addr : Z) : stores := rte_write32 val addr.
Definition nn_writew (val addr : Z) : stores := rte_write16 val addr.

Definition nn_readq (m : mem) (addr : Z) : Z :=
  let high := nn_readl m (addr + 4) in
  let low := nn_readl m addr in
  u64 (low + Z.shiftl high 32).

(** The high word first. *)
Definition nn_writeq (val addr : Z) : stores :=
  nn_writel (u32 (Z.shiftr val 32)) (addr + 4) ++ nn_writel (u32 val) addr.

(** ** The device's configuration ([devcfg.h]) *)

(** The packed structure's fields: their offsets. *)
Definition off_rx_buffer_iova : Z := 0.
Definition off_tx_buffer_iova : Z := 8.
Definition off_buffer_size : Z := 16.
Definition off_packet_size : Z := 20.
Definition off_start_signal : Z := 24.
Definition off_rx_head : Z := 32.
Definition off_rx_tail : Z := 36.
Definition off_tx_head : Z := 40.
Definition off_tx_tail : Z := 44.
Definition sizeof_device_meta : Z := 48.

(** The structure at an address. *)
Definition meta_at (m : mem) (meta : Z) : device_meta_t :=
  let word o n := le_combine (load m (meta + o) n) in
  mk_meta (word off_rx_buffer_iova 8) (word off_tx_buffer_iova 8) (word off_buffer_size 4) (word off_packet_size 4)
    (word off_start_signal 8) (word off_rx_head 4) (word off_rx_tail 4) (word off_tx_head 4) (word off_tx_tail 4).

(** [configure_device]: the assignments before the barrier, and the signal after it. *)
Definition configure_fields (B : buffers) (meta : Z) : stores :=
  [(meta + off_packet_size, le_split 4 UDP_PACKET_SIZE);
   (meta + off_buffer_size, le_split 4 RING_BUFFER_SIZE);
   (meta + off_rx_buffer_iova, le_split 8 (brx_iova B));
   (meta + off_tx_buffer_iova, le_split 8 (btx_iova B));
   (meta + off_rx_tail, le_split 4 0); (meta + off_rx_head, le_split 4 0);
   (meta + off_tx_tail, le_split 4 0); (meta + off_tx_head, le_split 4 0)].

Definition configure_signal (meta : Z) : stores := nn_writeq 1 (meta + off_start_signal).

(** ** Probing and starting *)

Section Host.
Context {D : Type} {Dev : PcieDevice D}.
(** The file system; what the kernel answers to [open], to [mmap] of a resource and to
    [pread] of a descriptor ([None] on failure, else the value read); the transport's lock
    file; what the BARs' configuration words hold; and the arguments of the programs over
    the bus. *)
Context (fs : files) (k_open : list Z -> Z) (k_mmap : list Z -> Z -> option Z).
Context (pread : Z -> Z -> Z -> option Z) (lock : rte_pci_device -> cres unit) (csrs : Z -> Z).
Context (errno : Z) (lock_fuel : nat) (calloc : mutex_store -> Z) (malloc : Z -> bool).

(** [user/nfpcore/pci.c] *)
Definition rte_pci_read_config (dev : rte_pci_device) (len offset : Z) : option Z :=
  pread (pd_uio_cfg_fd dev) len offset.

(** [dev->mem_resource[0]]: its length and where it is mapped. *)
Definition resource0 (dev : rte_pci_device) : Z * Z :=
  match pd_resource dev !! O with Some r => (r_len r, r_addr r) | None => (0, 0) end.

(** The CPP handle with the handles of its mutexes. *)
Record handle := mkHandle {
  h_cpp : nfp_cpp (pcie_user D);
  h_mutexes : mutex_store }.

(** Runs a program on the handle, given its model and interface. *)
Definition on_handle {A} (f : Z -> Z -> rprog A) (h : handle) : Resource.run A * handle :=
  let '(r, st, cpp) := crun (f (cpp_model (h_cpp h)) (cpp_interface (h_cpp h)) (h_mutexes h)) (h_cpp h) in
  (r, mkHandle cpp st).

(** The result, [*cppptr] if it is set, and the device as mapped; [d] is the card. *)
Definition pci_probe (d : D) (dev : option rte_pci_device)
    : Resource.run (Z * option handle * option rte_pci_device) :=
  match dev with
  | None => Returns (- ENODEV, None, None)
  | Some dev =>
      let '(ret, _, dev) := pci_map_device fs k_open k_mmap dev in
      if ret <? 0 then Returns (- EIO, None, Some dev)
      else
        let '(len, addr) := resource0 dev in
        match nfp_cpp_from_device_name (rte_pci_read_config dev) true (lock dev) len addr csrs d true with
        | None => Returns (- EIO, None, Some dev)
        | Some cpp =>
            match on_handle (fun m i => nfp_hwinfo_read m i errno lock_fuel calloc true) (mkHandle cpp (mkStore ∅ 0)) with
            | (Crashes, _) => Crashes
            | (Spins, _) => Spins
            | (Returns None, _) => Returns (- EIO, None, Some dev)
            | (Returns (Some _), h) =>
                match on_handle (fun m i => nfp_eth_read_ports m i errno lock_fuel calloc true) h with
                | (Crashes, _) => Crashes
                | (Spins, _) => Spins
                | (Returns None, _) => Returns (- EIO, None, Some dev)
                | (Returns (Some _), h) => Returns (ret, Some h, Some dev)
                end
            end
        end
  end.

(** [udp_worker] up to [configure_device]: the address of the configuration. *)
Definition SYMBOL_DEVICE_META : list Z := lit "i32._cfg".

Definition worker_map (h : handle) : Resource.run (option (Z * nfp_cpp_area nfp6000_area_priv)) * handle :=
  match on_handle (fun m i => nfp_rtsym_table_read m i errno lock_fuel calloc true malloc) h with
  | (Crashes, h) => (Crashes, h)
  | (Spins, h) => (Spins, h)
  | (Returns symbol_table, h) =>
      let '(meta, cpp) := nfp_rtsym_map symbol_table SYMBOL_DEVICE_META sizeof_device_meta (h_cpp h) in
      (Returns meta, mkHandle cpp (h_mutexes h))
  end.

(** ** [main] *)

(** What the threads start from. *)
Record threads := mkThreads {
  t_dev : option rte_pci_device;
  t_handle : handle;
  t_buffers : buffers;
  t_host : mem }.

Inductive started_as := Exits | Faults | Hangs | Runs (t : threads).

(** [memset] at virtual addresses of memory that is addressed physically. *)
Definition memset (phys : Z -> Z) (addr val n : Z) (m : mem) : mem :=
  foldl (fun m o => store m (phys (addr + o)) [val]) m (seqZ 0 n).

Definition buffers_of (rx tx : memzone) : buffers :=
  mk_buffers (mz_addr rx) (mz_iova rx) (mz_addr tx) (mz_iova tx).

(** [k] answers for the memzones, whose table [s] is; [m] is host memory. *)
Definition main (d : D) (k : kernel) (s : memzones) (m : mem) : started_as :=
  let s := memzone_init s in
  match pci_scan fs with
  | None => Exits
  | Some dev =>
      match pci_probe d (Some dev) with
      | Crashes => Faults
      | Spins => Hangs
      | Returns (ret, cpp, dev) =>
          if negb (ret =? 0) then Exits
          else
            let '(buffer_rx, s) := memzone_reserve k RING_BUFFER_SIZE s in
            let '(buffer_tx, s) := memzone_reserve k RING_BUFFER_SIZE s in
            match buffer_rx ≫= (fun i => mzs_table s !! i), buffer_tx ≫= (fun i => mzs_table s !! i), cpp with
            | Some rx, Some tx, Some h =>
                let m := memset (mem_virt2phy k) (mz_addr rx) 0 RING_BUFFER_SIZE m in
                let m := memset (mem_virt2phy k) (mz_addr tx) 0 RING_BUFFER_SIZE m in
                Runs (mkThreads dev h (buffers_of rx tx) m)
            | _, _, _ => Faults
            end
      end
  end.
End Host.
