(* ===== verification/AppMainThms.v ===== *)
(** * The host program's theorems

    The configuration is published by one store: whatever the order in which the bytes of
    the fields reach the device, it sees the start signal only with every field in place,
    so [Echo]'s step that configures the device at once is what the program does.  When
    [main] starts its threads, the rings it reserved are as the pipeline needs them, so
    its frames are echoed.

    The host program is then run on a simulated card, from the scan of sysfs to the
    mapping of the configuration: memories for every target, the atomic test-and-set of
    the memory units, and a service processor that serves the port table. *)

From S2P Require Export AppMain.

Local Open Scope Z_scope.

(** ** The bytes of a sequence of stores *)

Definition store_bytes (s : stores) : list (Z * Z) :=
  s ≫= fun a => imap (fun i b => (a.1 + Z.of_nat i, b)) a.2.
Definition exec_bytes (l : list (Z * Z)) (m : mem) : mem := foldl (fun m p => store m p.1 [p.2]) m l.

Lemma store_byte m a b x : store m a [b] x = if x =? a then b else m x.
Proof.
  destruct (Z.eqb_spec x a) as [->|N]; [|apply store_out; cbn; lia].
  rewrite <- (Z.add_0_r a) at 2. by apply (store_in _ a [b] 0).
Qed.

Lemma exec_bytes_app l1 l2 m : exec_bytes (l1 ++ l2) m = exec_bytes l2 (exec_bytes l1 m).
Proof. apply foldl_app. Qed.

Lemma exec_bytes_out l m x : x ∉ l.*1 -> exec_bytes l m x = m x.
Proof.
  revert m. induction l as [|[a b] l IH]; intros m Hx; [done|].
  cbn in Hx. apply not_elem_of_cons in Hx as [N Hx]. unfold exec_bytes in *. cbn [foldl].
  rewrite IH by done. cbn [fst snd]. by rewrite store_byte, (proj2 (Z.eqb_neq x a)).
Qed.

Lemma exec_bytes_in l m x b : NoDup l.*1 -> (x, b) ∈ l -> exec_bytes l m x = b.
Proof.
  revert m. induction l as [|[a c] l IH]; intros m Hn Hx; [by apply elem_of_nil in Hx|].
  cbn in Hn. apply NoDup_cons in Hn as [Ha Hn]. apply elem_of_cons in Hx as [[= <- <-]|Hx].
  - change (exec_bytes l (store m x [b]) x = b). by rewrite exec_bytes_out, store_byte, Z.eqb_refl.
  - by apply IH.
Qed.

Lemma store_bytes_in s a bs i b : (a, bs) ∈ s -> bs !! i = Some b -> (a + Z.of_nat i, b) ∈ store_bytes s.
Proof.
  intros Hs Hb. unfold store_bytes. apply list_elem_of_bind. exists (a, bs). split; [|done]. cbn.
  apply list_elem_of_lookup. exists i. by rewrite list_lookup_imap, Hb.
Qed.

(** A 64-bit register written as two words is read back. *)
Lemma nn_writeq_read v addr m : is_u64 v -> nn_readq (exec_stores (nn_writeq v addr) m) addr = v.
Proof.
  intros Hv. unfold nn_readq, nn_readl, rte_read32, rte_read32_relaxed, nn_writeq, nn_writel, rte_write32, rte_write32_relaxed, exec_stores. cbn [app foldl fst snd].
  rewrite (load_store_disjoint _ addr _ (addr + 4)) by (rewrite le_split_length; lia).
  rewrite !load_store_same by (by rewrite le_split_length).
  rewrite !le_combine_split by words. rewrite Z.shiftr_div_pow2, Z.shiftl_mul_pow2 by lia.
  change (2 ^ 32) with 0x100000000. words.
Qed.

(** ** Publication *)

Definition fields_at : list Z := seqZ 20 4 ++ seqZ 16 4 ++ seqZ 0 8 ++ seqZ 8 8 ++ seqZ 36 4 ++ seqZ 32 4 ++ seqZ 44 4 ++ seqZ 40 4.
Definition signal_at : list Z := seqZ 28 4 ++ seqZ 24 4.

(** Runs stores of single bytes, read at one address. *)
Ltac run_bytes :=
  let l := eval vm_compute in signal_at in change signal_at with l;
  cbn [fmap list_fmap take exec_bytes foldl zip zip_with fst snd]; rewrite ?take_nil;
  cbn [foldl fst snd]; rewrite ?store_byte;
  repeat match goal with |- context [if ?a =? ?b then _ else _] => destruct (Z.eqb_spec a b) end; try lia.

Section Publish.
Context (B : buffers) (meta : Z).

Lemma fields_addresses : (store_bytes (configure_fields B meta)).*1 = Z.add meta <$> fields_at.
Proof.
  let l := eval vm_compute in fields_at in change fields_at with l.
  unfold store_bytes, configure_fields. cbn -[Z.add]. unfold off_packet_size, off_buffer_size,
    off_rx_buffer_iova, off_tx_buffer_iova, off_rx_tail, off_rx_head, off_tx_tail, off_tx_head.
  cbn [fmap list_fmap]. repeat (f_equal; [lia|]). f_equal. lia.
Qed.

Lemma signal_bytes : store_bytes (configure_signal meta) =
  zip (Z.add meta <$> signal_at) [0; 0; 0; 0; 1; 0; 0; 0].
Proof.
  let l := eval vm_compute in signal_at in change signal_at with l.
  unfold store_bytes, configure_signal, nn_writeq, nn_writel, rte_write32, rte_write32_relaxed. cbn -[Z.add Z.shiftr u32 le_split].
  change (le_split 4 (u32 (Z.shiftr 1 32))) with [0; 0; 0; 0]. change (le_split 4 (u32 1)) with [1; 0; 0; 0].
  cbn -[Z.add]. cbn [fmap list_fmap zip zip_with]. unfold off_start_signal. repeat (f_equal; [f_equal; lia|]). do 2 f_equal. lia.
Qed.

Lemma signal_addresses : (store_bytes (configure_signal meta)).*1 = Z.add meta <$> signal_at.
Proof. rewrite signal_bytes. by apply fst_zip. Qed.

Lemma at_distinct : NoDup (fields_at ++ signal_at).
Proof. apply (bool_decide_unpack _). by vm_compute. Qed.

Lemma fields_nodup : NoDup (Z.add meta <$> fields_at).
Proof. apply NoDup_fmap; [intros ???; lia|]. pose proof at_distinct as H. by apply NoDup_app in H as (? & _). Qed.

Lemma signal_nodup : NoDup (Z.add meta <$> signal_at).
Proof. apply NoDup_fmap; [intros ???; lia|]. pose proof at_distinct as H. by apply NoDup_app in H as (_ & _ & ?). Qed.

Lemma not_at (l : list Z) o : o ∉ l -> meta + o ∉ Z.add meta <$> l.
Proof. intros H (y & E & Hy)%list_elem_of_fmap. by replace o with y in H by lia. Qed.

Context (pre : list (Z * Z)) (m0 : mem).
Hypothesis pre_order : pre ≡ₚ store_bytes (configure_fields B meta).
Hypothesis not_started : load m0 (meta + off_start_signal) 8 = replicate 8 0.

Lemma pre_addresses : pre.*1 ≡ₚ Z.add meta <$> fields_at.
Proof using pre_order. by rewrite pre_order, fields_addresses. Qed.

(** A field once every byte of the fields is stored, whatever part of the signal is. *)
Lemma field_stored q o bs n : (meta + o, bs) ∈ configure_fields B meta -> Z.of_nat (length bs) = n ->
  (forall i, (i < length bs)%nat -> o + Z.of_nat i ∉ signal_at) ->
  load (exec_bytes (take q (store_bytes (configure_signal meta))) (exec_bytes pre m0)) (meta + o) n = bs.
Proof using pre_order.
  intros Hin Hl Ho. apply load_eq; [done|]. intros i b Hb.
  assert (meta + o + Z.of_nat i ∉ (take q (store_bytes (configure_signal meta))).*1) as Hs.
  { rewrite fmap_take, signal_addresses. rewrite <- Z.add_assoc. intros Hx%elem_of_take.
    destruct Hx as (j & Hj & _). apply list_elem_of_lookup_2 in Hj. revert Hj. apply not_at, Ho. by eapply lookup_lt_Some. }
  rewrite exec_bytes_out by done. apply exec_bytes_in.
  - rewrite pre_addresses. apply fields_nodup.
  - rewrite pre_order. by apply (store_bytes_in _ _ bs).
Qed.

Lemma signal_before q : (q <= 4)%nat ->
  forall l, (forall p, p ∈ l -> p ∈ pre) ->
  load (exec_bytes (take q (store_bytes (configure_signal meta))) (exec_bytes l m0)) (meta + off_start_signal) 8 = replicate 8 0.
Proof using pre_order not_started.
  intros Hq l Hl.
  assert (forall x, meta + 24 <= x < meta + 32 -> exec_bytes l m0 x = 0) as H0.
  { intros x Hx. rewrite exec_bytes_out.
    - pose proof (load_lookup m0 (meta + off_start_signal) 8 (Z.to_nat (x - (meta + off_start_signal)))) as E.
      unfold off_start_signal in *. rewrite not_started in E. specialize (E ltac:(lia)).
      rewrite lookup_replicate_2 in E by lia. injection E as E. rewrite E at 1. f_equal. lia.
    - intros Hin. apply list_elem_of_fmap in Hin as ([a b] & -> & Hp). apply Hl in Hp.
      apply (list_elem_of_fmap_2 fst) in Hp. rewrite pre_addresses in Hp. cbn [fst] in *.
      replace a with (meta + (a - meta)) in Hp by lia. revert Hp. apply not_at.
      assert (a - meta = 24 \/ a - meta = 25 \/ a - meta = 26 \/ a - meta = 27 \/ a - meta = 28 \/ a - meta = 29 \/
              a - meta = 30 \/ a - meta = 31) as Ha by lia.
      repeat (destruct Ha as [->|Ha]; [apply (bool_decide_unpack _); by vm_compute|]).
      rewrite Ha. apply (bool_decide_unpack _); by vm_compute. }
  assert (forall x, meta + 24 <= x < meta + 32 ->
    exec_bytes (take q (store_bytes (configure_signal meta))) (exec_bytes l m0) x = 0) as H1.
  { intros x Hx. specialize (H0 x Hx). revert H0. generalize (exec_bytes l m0). intros m H0. rewrite signal_bytes.
    destruct q as [|[|[|[|[|q]]]]]; [..|lia]; run_bytes; done. }
  apply load_eq; [done|]. intros i b Hi. unfold off_start_signal.
  apply lookup_replicate in Hi as [-> Hi]. apply H1. lia.
Qed.

Lemma signal_after q : (5 <= q)%nat ->
  load (exec_bytes (take q (store_bytes (configure_signal meta))) (exec_bytes pre m0)) (meta + off_start_signal) 8 = le_split 8 1.
Proof using pre_order not_started.
  intros Hq. pose proof (signal_before 0 ltac:(lia) pre ltac:(done)) as H0. 
  change (load (exec_bytes pre m0) (meta + off_start_signal) 8 = replicate 8 0) in H0.
  assert (forall i, (i < 8)%nat -> exec_bytes pre m0 (meta + 24 + Z.of_nat i) = 0) as Hz.
  { intros i Hi. pose proof (load_lookup (exec_bytes pre m0) (meta + off_start_signal) 8 i ltac:(lia)) as E.
    rewrite H0, lookup_replicate_2 in E by lia. by injection E. }
  change (le_split 8 1) with [1; 0; 0; 0; 0; 0; 0; 0].
  rewrite signal_bytes. apply load_eq; [done|]. unfold off_start_signal.
  intros i b Hi. assert (i < 8)%nat as Hl by (by apply lookup_lt_Some in Hi). specialize (Hz i Hl). revert Hz.
  generalize (exec_bytes pre m0). intros m Hz.
  destruct q as [|[|[|[|[|[|[|[|q]]]]]]]]; try lia; cbn in Hi;
  destruct i as [|[|[|[|[|[|[|[|i]]]]]]]]; try lia; injection Hi as <-;
  run_bytes; first [done | lia].
Qed.
End Publish.

(** The side conditions of [field_stored]. *)
Ltac meta_field :=
  match goal with
  | |- _ ∈ _ => unfold configure_fields; rewrite !elem_of_cons; auto 10
  | |- _ = _ => by rewrite le_split_length
  | |- forall i, _ =>
      let i := fresh in let Hi := fresh in intros i Hi; rewrite le_split_length in Hi;
      do 8 (destruct i as [|i]; [first [lia | apply (bool_decide_unpack _); by vm_compute]|]); lia
  end.

(** C5 (safety): let the bytes of the fields be stored in any order before the barrier,
    and the start signal after it.  After any number of the byte stores the device reads
    the start signal as zero, and waits, unless the first byte of the signal's low word is
    stored, the fifth after the fields; from then on it reads every field as configured:
    the start signal publishes the configuration, as in the pipeline's model, which
    configures the device in one step. *)
Theorem configure_publishes B meta pre m0 n :
  is_u64 (brx_iova B) -> is_u64 (btx_iova B) ->
  pre ≡ₚ store_bytes (configure_fields B meta) ->
  load m0 (meta + off_start_signal) 8 = replicate 8 0 ->
  let m := exec_bytes (take n (pre ++ store_bytes (configure_signal meta))) m0 in
  if (n <? length pre + 5)%nat then start_signal (meta_at m meta) = 0
  else meta_at m meta = set_start (configure_device B UDP_PACKET_SIZE RING_BUFFER_SIZE (meta_at m0 meta)) 1.
Proof.
  intros Hrx Htx Hpre H0 m. subst m. rewrite take_app, exec_bytes_app. destruct (Nat.ltb_spec n (length pre + 5)).
  - unfold meta_at. cbn [start_signal].
    rewrite (signal_before B meta pre m0 Hpre H0 (n - length pre)); [done|clear - H; lia|].
    intros p (i & Hp & _)%elem_of_take. by eapply list_elem_of_lookup_2.
  - rewrite (take_ge pre n) by lia. unfold meta_at, set_start, configure_device. cbn.
    rewrite (signal_after B meta pre m0 Hpre H0) by lia.
    rewrite (field_stored B meta pre m0 Hpre _ off_rx_buffer_iova (le_split 8 (brx_iova B)) 8),
      (field_stored B meta pre m0 Hpre _ off_tx_buffer_iova (le_split 8 (btx_iova B)) 8),
      (field_stored B meta pre m0 Hpre _ off_buffer_size (le_split 4 RING_BUFFER_SIZE) 4),
      (field_stored B meta pre m0 Hpre _ off_packet_size (le_split 4 UDP_PACKET_SIZE) 4),
      (field_stored B meta pre m0 Hpre _ off_rx_head (le_split 4 0) 4),
      (field_stored B meta pre m0 Hpre _ off_rx_tail (le_split 4 0) 4),
      (field_stored B meta pre m0 Hpre _ off_tx_head (le_split 4 0) 4),
      (field_stored B meta pre m0 Hpre _ off_tx_tail (le_split 4 0) 4) by meta_field.
    by rewrite !le_combine_split.
Qed.

Lemma configure_publishes_witness :
  let B := mk_buffers 0x7f0000000 0x10000000 0x7f0200000 0x10200000 in
  let pre := rev (store_bytes (configure_fields B 0x2000)) in
  let at_ n := meta_at (exec_bytes (take n (pre ++ store_bytes (configure_signal 0x2000))) (fun _ => 0)) 0x2000 in
  start_signal (at_ 44%nat) = 0 /\
  at_ 45%nat = mk_meta 0x10000000 0x10200000 512 64 1 0 0 0 0.
Proof.
  intros B pre at_.
  assert (pre ≡ₚ store_bytes (configure_fields B 0x2000)) as Hp by (symmetry; apply Permutation_rev).
  pose proof (fun n => configure_publishes B 0x2000 pre (fun _ => 0) n ltac:(done) ltac:(done) Hp eq_refl) as H.
  split; [exact (H 44%nat)|exact (H 45%nat)].
Defined.

(** ** The rings *)

(** A kernel that maps the file of memzone [i] to a huge page of its own, the one of
    number [frame i], below the device's 40 bits of address. *)
Record huge_pages (k : kernel) (frame : Z -> Z) : Prop := {
  hp_mmap i addr : k_mmap k i HUGE_PAGE_SIZE = Some addr -> 0 <= addr /\ addr mod HUGE_PAGE_SIZE = 0;
  hp_pagemap i addr j : k_mmap k i HUGE_PAGE_SIZE = Some addr -> 0 <= j < 512 ->
    exists page, k_pagemap k (8 * (addr / CONFIG_PAGE_SIZE + j)) = Some (PFN_MASK_SIZE, page) /\
      Z.land page 0x7fffffffffffff = 512 * frame i + j;
  hp_frame i addr : k_mmap k i HUGE_PAGE_SIZE = Some addr -> 0 < frame i /\ (frame i + 1) * HUGE_PAGE_SIZE <= 2 ^ 40;
  hp_own i j a b : k_mmap k i HUGE_PAGE_SIZE = Some a -> k_mmap k j HUGE_PAGE_SIZE = Some b ->
    i <> j -> frame i <> frame j }.

Lemma huge_page_phys k frame i addr o : huge_pages k frame -> k_mmap k i HUGE_PAGE_SIZE = Some addr ->
  0 <= o < HUGE_PAGE_SIZE -> mem_virt2phy k (addr + o) = frame i * HUGE_PAGE_SIZE + o.
Proof.
  intros Hk Hm Ho. destruct (hp_mmap _ _ Hk _ _ Hm) as [Ha Hal]. destruct (hp_frame _ _ Hk _ _ Hm) as [Hf Hf40].
  unfold mem_virt2phy. change HUGE_PAGE_SIZE with 0x200000 in *. change CONFIG_PAGE_SIZE with 4096 in *.
  destruct (hp_pagemap _ _ Hk i addr (o / 4096) Hm ltac:(lia)) as (page & Hp & Hpfn).
  change CONFIG_PAGE_SIZE with 4096 in Hp.
  replace ((addr + o) / 4096) with (addr / 4096 + o / 4096) by lia. rewrite Hp.
  change (PFN_MASK_SIZE <? 0) with false. rewrite Z.eqb_refl. cbn [negb]. rewrite Hpfn.
  rewrite (proj2 (Z.eqb_neq _ 0)) by lia. change (2 ^ 40) with 0x10000000000 in Hf40. rewrite u64_id; words.
Qed.

Lemma zone_fields s i addr n iova : zone s i = Some (addr, n, iova) ->
  exists m, mzs_table s !! i = Some m /\ mz_addr m = addr /\ mz_iova m = iova.
Proof.
  unfold zone. destruct (mzs_table s !! i) as [m|]; [|done]. destruct (_ =? _); [done|]. intros [= <- _ <-]. by exists m.
Qed.

(** The two reservations of [main]. *)
Lemma reserved_rings k frame s i1 s1 i2 s2 rx tx : huge_pages k frame -> mzs_ok s ->
  memzone_reserve k RING_BUFFER_SIZE s = (Some i1, s1) -> memzone_reserve k RING_BUFFER_SIZE s1 = (Some i2, s2) ->
  mzs_table s2 !! i1 = Some rx -> mzs_table s2 !! i2 = Some tx ->
  ring_config (buffers_of rx tx) (mem_virt2phy k) 8 UDP_PACKET_SIZE.
Proof.
  intros Hk Hok E1 E2 Hrx Htx.
  pose proof (memzone_reserve_zone k s RING_BUFFER_SIZE Hok ltac:(done) ltac:(done)) as H1. cbv zeta in H1. rewrite E1 in H1.
  destruct H1 as (Hok1 & _ & _ & a1 & Hm1 & _ & Hz1).
  pose proof (memzone_reserve_zone k s1 RING_BUFFER_SIZE Hok1 ltac:(done) ltac:(done)) as H2. cbv zeta in H2. rewrite E2 in H2.
  destruct H2 as (_ & _ & Hfree & a2 & Hm2 & _ & Hz2).
  change ((_ + _) / _ * _) with HUGE_PAGE_SIZE in *.
  assert (i2 <> i1) as Hne by (intros ->; rewrite Hz1, decide_True in Hfree by done; done).
  destruct (zone_fields s2 i1 a1 HUGE_PAGE_SIZE (mem_virt2phy k a1)) as (m1 & Hl1 & Ha1 & Hv1).
  { by rewrite Hz2, decide_False, Hz1, decide_True. }
  destruct (zone_fields s2 i2 a2 HUGE_PAGE_SIZE (mem_virt2phy k a2)) as (m2 & Hl2 & Ha2 & Hv2).
  { by rewrite Hz2, decide_True. }
  rewrite Hl1 in Hrx. rewrite Hl2 in Htx. injection Hrx as <-. injection Htx as <-.
  pose proof (fun o => huge_page_phys k frame _ a1 o Hk Hm1) as P1.
  pose proof (fun o => huge_page_phys k frame _ a2 o Hk Hm2) as P2.
  assert (mem_virt2phy k a1 = frame (Z.of_nat i1) * HUGE_PAGE_SIZE) as I1 by (rewrite <- (Z.add_0_r a1), P1; [lia|done]).
  assert (mem_virt2phy k a2 = frame (Z.of_nat i2) * HUGE_PAGE_SIZE) as I2 by (rewrite <- (Z.add_0_r a2), P2; [lia|done]).
  pose proof (hp_frame _ _ Hk _ _ Hm1) as F1. pose proof (hp_frame _ _ Hk _ _ Hm2) as F2.
  pose proof (hp_own _ _ Hk _ _ _ _ Hm1 Hm2 ltac:(lia)) as F12.
  change (2 ^ 40) with 0x10000000000 in *. change HUGE_PAGE_SIZE with 0x200000 in *.
  split; cbn [buffers_of brx_iova btx_iova brx_addr btx_addr]; rewrite ?Ha1, ?Ha2, ?Hv1, ?Hv2, ?I1, ?I2;
    unfold UDP_PACKET_SIZE, is_u32; try lia.
  - intros o Ho. apply P1. lia.
  - intros o Ho. apply P2. lia.
Qed.

(** ** From [main] to the wire *)

Section Started.
Context {D : Type} {Dev : PcieDevice D}.
Context (fs : files) (k_open : list Z -> Z) (k_mmap : list Z -> Z -> option Z).
Context (pread : Z -> Z -> Z -> option Z) (lock : rte_pci_device -> cres unit) (csrs : Z -> Z).
Context (errno : Z) (lock_fuel : nat) (calloc : mutex_store -> Z).

Notation main := (main fs k_open k_mmap pread lock csrs errno lock_fuel calloc).
Notation pci_probe := (pci_probe fs k_open k_mmap pread lock csrs errno lock_fuel calloc).

Lemma map_loop_ret n : forall i addr rs, let ret := (map_loop k_open k_mmap n i addr rs).1 in ret = 0 \/ ret = -1.
Proof using.
  induction n as [|n IH]; intros i addr rs; cbn; [by left|]. destruct (rs !! i) as [r|]; [|by left].
  destruct (_ =? 0); [apply IH|]. destruct (_ <? 0); [by right|]. destruct (k_mmap _ _); [apply IH|by right].
Qed.

Lemma map_device_ret dev : let '(ret, _, _) := pci_map_device fs k_open k_mmap dev in ret = 0 \/ ret = -1.
Proof using.
  unfold pci_map_device. destruct (pci_get_device _ _ _) as [[ret node] dev']. destruct (ret <? 0); [by right|].
  pose proof (map_loop_ret PCI_MAX_RESOURCE 0 (pd_addr dev') (pd_resource dev')) as H. by destruct (map_loop _ _ _ _ _ _).
Qed.

(** The handle is set exactly when the probe succeeds. *)
Lemma probe_sets_handle d dev ret h dev' : pci_probe d dev = Returns (ret, h, dev') ->
  (ret = 0 <-> is_Some h) /\ (ret = 0 \/ ret = - ENODEV \/ ret = - EIO).
Proof using.
  unfold AppMain.pci_probe. destruct dev as [dev|].
  2:{ intros [= <- <- <-]. split; [|by auto]. split; [done|]. by intros [? ?]. }
  pose proof (map_device_ret dev) as Hr. destruct (pci_map_device _ _ _ _) as [[r0 node] dev1].
  assert ((- EIO = 0 <-> is_Some (None : option (handle (D := D)))) /\ (- EIO = 0 \/ - EIO = - ENODEV \/ - EIO = - EIO)) as Hio.
  { split; [|by auto]. split; [done|]. by intros [? ?]. }
  destruct (Z.ltb_spec r0 0); [intros [= <- <- <-]; exact Hio|]. destruct (resource0 dev1) as [len addr].
  destruct (nfp_cpp_from_device_name _ _ _ _ _ _ _ _) as [cpp|]; [|intros [= <- <- <-]; exact Hio].
  destruct (on_handle _ _) as [[[db|]| |] h1]; try done; [|intros [= <- <- <-]; exact Hio].
  destruct (on_handle _ _) as [[[tbl|]| |] h2]; try done; [|intros [= <- <- <-]; exact Hio].
  intros [= <- <- <-]. destruct Hr as [->| ->]; [|lia]. split; [|by left]. split; [by eexists|done].
Qed.

(** What [main] starts its threads on. *)
Lemma main_starts d k s m t : main d k s m = Runs t -> exists dev i1 s1 i2 s2 rx tx,
  pci_scan fs = Some dev /\ pci_probe d (Some dev) = Returns (0, Some (t_handle t), t_dev t) /\
  memzone_reserve k RING_BUFFER_SIZE (memzone_init s) = (Some i1, s1) /\
  memzone_reserve k RING_BUFFER_SIZE s1 = (Some i2, s2) /\
  mzs_table s2 !! i1 = Some rx /\ mzs_table s2 !! i2 = Some tx /\ t_buffers t = buffers_of rx tx.
Proof using.
  unfold AppMain.main. destruct (pci_scan fs) as [dev|]; [|done].
  destruct (pci_probe d (Some dev)) as [[[ret cpp] dev']| |] eqn:Ep; [|done|done].
  destruct (Z.eqb_spec ret 0) as [->|]; [|done]. cbn [negb].
  destruct (memzone_reserve k RING_BUFFER_SIZE (memzone_init s)) as [b1 s1] eqn:E1.
  destruct (memzone_reserve k RING_BUFFER_SIZE s1) as [b2 s2] eqn:E2.
  destruct b1 as [i1|]; [|done]. cbn [mbind option_bind].
  destruct (mzs_table s2 !! i1) as [rx|] eqn:L1; [|done]. destruct b2 as [i2|]; cbn [mbind option_bind]; [|done].
  destruct (mzs_table s2 !! i2) as [tx|] eqn:L2; [|done].
  destruct cpp as [h|]; [|done]. intros [= <-]. cbn [t_handle t_dev t_buffers].
  by exists dev, i1, s1, i2, s2, rx, tx.
Qed.

(** C4 (safety): the program as a whole.  When [main] starts its threads, on a kernel
    that backs each memzone with a huge page of its own, the rings it reserved are as
    the pipeline needs them, and in every interleaving of the firmware's engines and the
    worker the frames transmitted are an initial segment of the echoes of the frames
    accepted. *)
Theorem main_echoes d k frame s m t arrivals s' :
  huge_pages k frame -> length (mzs_table s) = MAX_MEMZONES -> main d k s m = Runs t ->
  Forall arr_ok arrivals ->
  reachable (t_buffers t) (mem_virt2phy k) UDP_PACKET_SIZE RING_BUFFER_SIZE (t_host t) arrivals s' ->
  ring_config (t_buffers t) (mem_virt2phy k) 8 UDP_PACKET_SIZE /\
  wire_out s' `prefix_of` replies UDP_PACKET_SIZE arrivals.
Proof using.
  intros Hk Hl Hm Ha Hr. destruct (main_starts _ _ _ _ _ Hm) as (dev & i1 & s1 & i2 & s2 & rx & tx & _ & _ & E1 & E2 & L1 & L2 & Eb).
  destruct (memzone_init_ok s Hl) as [Hok _].
  assert (ring_config (t_buffers t) (mem_virt2phy k) 8 UDP_PACKET_SIZE) as Hc
    by (rewrite Eb; by eapply (reserved_rings k frame (memzone_init s) i1 s1 i2 s2)).
  split; [exact Hc|]. destruct (config_inv _ _ _ _ _ _ _ Hc Ha Hr) as (a & b & c & e & f & g & h & I).
  destruct Hc. eapply inv_prefix; (eassumption || done).
Qed.
End Started.

(** ** A run *)

(** [Mem.store] with the range tested first, so that it computes for addresses far apart. *)
Definition put (m : mem) (a : Z) (bs : list Z) : mem := fun x =>
  if (a <=? x) && (x <? a + Z.of_nat (length bs)) then store m a bs x else m x.

Record card := mkCard { c_mem : Z -> mem }.

Definition nsp_regs : Z := 0x1000.
Definition card_word (c : card) (a : Z) : Z := le_combine (load (c_mem c 7) a 8).
Definition card_store (tgt a : Z) (bs : list Z) (c : card) : card :=
  mkCard (fun t => if t =? tgt then put (c_mem c t) a bs else c_mem c t).

(** The service processor answers a command when its second half is written: it writes
    the ports to the buffer. *)
Definition card_serve (c : card) : card :=
  let cmd := card_word c (nsp_regs + NSP_COMMAND) in
  if Z.land cmd NSP_COMMAND_START =? 0 then c
  else
    let buf := FIELD_GET NSP_BUFFER_ADDRESS (card_word c (nsp_regs + NSP_BUFFER)) in
    card_store 7 (nsp_regs + NSP_COMMAND) (le_split 8 (FIELD_PREP NSP_COMMAND_OPTION 2))
      (card_store 7 buf (bytes_of_entries ex_entries) c).

Definition card_read (tgt act tok a : Z) (w : nat) (c : card) : Z * card :=
  let v := le_combine (load (c_mem c tgt) a (Z.of_nat w)) in
  (v, if (tgt =? 7) && (act =? 5) && (tok =? 3) then card_store tgt a (le_split w (Z.lor v 0xf)) c else c).

Definition card_write (tgt act tok a : Z) (w : nat) (v : Z) (c : card) : card :=
  let c := card_store tgt a (le_split w v) c in
  if (tgt =? 7) && (a + Z.of_nat w =? nsp_regs + NSP_COMMAND + 8) then card_serve c else c.

#[export] Instance card_cpp : CppDevice card := { dev_read := card_read; dev_write := card_write }.

Definition window_action (c : Z) : Z :=
  if NFP_PCIE_BAR_PCIE2CPP_MAPTYPE_OF c =? MAPTYPE_BULK then NFP_CPP_ACTION_RW else cfg_action c.

#[export] Instance card_pcie : PcieDevice card := {
  p2c_read c bs o w d := card_read (cfg_target c) (window_action c) (cfg_token c) (sim_base c + o) w d;
  p2c_write c bs o w v d := card_write (cfg_target c) (window_action c) (cfg_token c) (sim_base c + o) w v d }.

#[export] Instance card_laws : PcieLaws card.
Proof.
  assert (forall c tgt act tok base, opens c tgt act tok base ->
    cfg_target c = tgt /\ cfg_token c = tok /\ window_action c = bus_act act /\ sim_base c = base) as H.
  { intros c tgt act tok base (Ht & Hk & Hop). split; [done|]. split; [done|].
    unfold sim_base, window_action, bus_act.
    destruct (is_bulk act); [destruct Hop as [-> Hb]|destruct Hop as (-> & Ha & Hb)]; done. }
  split; intros; cbn; by destruct (H _ _ _ _ _ H0) as (<- & <- & <- & <-).
Qed.

(** ** What is in its memories

    The translation tables read as 0, so island 24 starts at 0x18000000 of the memory units. *)

(** A resource's entry: its region of the memory unit in pages. *)
Definition resource_at (i : Z) (name : list Z) (page size : Z) (m : mem) : mem :=
  let a := NFP_RESOURCE_TBL_BASE + 32 * i in
  put (put m (a + 4) (le_split 4 (nfp_crc32_posix (pad_to 8 name))))
    (a + 20) ([0; NFP_CPP_ACTION_RW; 0; 7] ++ le_split 4 page ++ le_split 4 size).

Definition sim_symbols : list symbol :=
  [mkSymbol (lit "_rx_counters") 1 7 24 0xff 0x8000001000 64;
   mkSymbol (lit "i32._cfg") 1 15 32 0xff 0x2000 48].

Definition mu_image : mem :=
  let m := fun _ => 0 in
  let m := resource_at 1 NFP_RESOURCE_NFP_HWINFO 0x20 1 m in
  let m := resource_at 2 NFP_RESOURCE_NSP 0x10 1 m in
  let m := resource_at 3 NFP_RESOURCE_NFP_NFFW 0x40 0x10 m in
  let m := put m 0x2000 ex_image in
  let m := put m (nsp_regs + NSP_STATUS) (le_split 8 (Z.shiftl NSP_MAGIC 48 + Z.shiftl 20 32)) in
  let m := put m (nsp_regs + NSP_DFLT_BUFFER) (le_split 8 (Z.shiftl 0x070020 40 + 0x40000)) in
  let m := put m (nsp_regs + NSP_DFLT_BUFFER_CONFIG) (le_split 8 1) in
  let m := put m 0x4000 (le_split 4 0x00020001) in
  let m := put m 0x4328 (le_split 4 0x80000000 ++ le_split 4 0x07002000 ++ le_split 4 0x80000) in
  let m := put m 0x80000 (le_split 4 NFP_MIP_SIGNATURE ++ le_split 4 NFP_MIP_VERSION) in
  let m := put m 0x80020 (le_split 4 0x90000 ++ le_split 4 (16 * 2) ++ le_split 4 0x91000 ++ le_split 4 22) in
  let m := put m 0x18090000 (symtab_of sim_symbols) in
  put m 0x18091000 (strtab_of sim_symbols).

Definition sim_card : card :=
  mkCard (fun t => if t =? 7 then mu_image
                   else if t =? NFP6000_CPPTGT_ARM then put (fun _ => 0) NFP6000_ARM_GCSR_SOFTMODEL0 (le_split 4 0x60000000)
                   else if t =? NFP6000_CPPTGT_CTXPB
                   then put (fun _ => 0) (xpb_to_cpp 0x60000000 0x1001 (NFP_XPB_DEVICE 1 1 16 + NFP_PL_DEVICE_ID)).2 [0x11]
                   else fun _ => 0).

(** ** The host *)

(** BAR 0 has eight windows of 16 megabytes. *)
Definition host_resources : list (Z * Z * Z) :=
  (0x38000000000, 0x38007ffffff, 0x14220c) :: repeat (0, 0, 0) 5.

Definition host_files : files :=
  mkFiles (fun d => if bool_decide (d = ex_base ++ lit "/uio") then Some [lit "."; lit ".."; lit "uio0"] else f_dir ex_files d)
    (fun path => if bool_decide (path = ex_base ++ lit "/uio/uio0/dev") then Some (lit "245:0") else if bool_decide (path = ex_base ++ lit "/resource") then Some (concat (resource_line <$> host_resources))
                 else f_file ex_files path)
    (f_freed ex_files).
Definition host_open (path : list Z) : Z := 3.
Definition host_mmap (path : list Z) (len : Z) : option Z :=
  Some 0x7e0000000000.
Definition host_pread (fd len pos : Z) : option Z :=
  Some (if pos =? 0x100 then 0x00000003 else if pos =? 0x104 then 0x12341001 else 0x15).

(** Each memzone's file is mapped 2 megabytes after the one before, in virtual memory and
    in physical memory; the page map has its present bit set. *)
Definition host_kernel : kernel :=
  mkKernel (fun _ => true)
    (fun i _ => if (0 <=? i) && (i <? 1024) then Some (0x7f0000000000 + i * HUGE_PAGE_SIZE) else None)
    (fun o => Some (8, 2 ^ 63 + (o / 8 - 0x7f0000000 + 512 * 128))) (fun _ _ => true).

Lemma host_huge_pages : huge_pages host_kernel (fun i => 128 + i).
Proof.
  assert (forall i addr, k_mmap host_kernel i HUGE_PAGE_SIZE = Some addr -> 0 <= i < 1024 /\ addr = 0x7f0000000000 + i * 0x200000) as H.
  { intros i addr. cbn. destruct (Z.leb_spec 0 i), (Z.ltb_spec i 1024); cbn; try done. intros [= <-].
    change HUGE_PAGE_SIZE with 0x200000. lia. }
  split; [| | |].
  - intros i addr [Hi ->]%H. change HUGE_PAGE_SIZE with 0x200000. lia.
  - intros i addr j [Hi ->]%H Hj. eexists. split; [reflexivity|].
    change 0x7fffffffffffff with (Z.ones 55). rewrite Z.land_ones by lia. change (2 ^ 55) with 0x80000000000000.
    change (2 ^ 63) with 0x8000000000000000. change CONFIG_PAGE_SIZE with 4096. lia.
  - intros i addr [Hi ->]%H. change HUGE_PAGE_SIZE with 0x200000. change (2 ^ 40) with 0x10000000000. lia.
  - intros i j a b _ _ Hij. lia.
Qed.

#[local] Notation host_main :=
  (main (D := card) host_files host_open host_mmap host_pread (fun _ => Ok tt) (fun _ => 0) 0 1 fresh_handle
    sim_card host_kernel ex_mzs (fun _ => 0xff)).

(** What the run gives: its rings, and the address at which the worker finds the
    configuration. *)
Definition host_rings (r : started_as (D := card)) : option buffers :=
  match r with Runs t => Some (t_buffers t) | _ => None end.
Definition host_meta (r : started_as (D := card)) : option Z :=
  match r with
  | Runs t =>
      match worker_map 0 1 fresh_handle (fun _ => true) (t_handle t) with
      | (Returns (Some (meta, _)), _) => Some meta
      | _ => None
      end
  | _ => None
  end.

Lemma host_runs : host_rings host_main = Some (mk_buffers 0x7f0000000000 0x10000000 0x7f0000200000 0x10200000) /\
  host_meta host_main = Some 0x7e0004002000.
Proof. split; by vm_compute. Qed.

Lemma main_echoes_witness : exists t,
  host_main = Runs t /\ t_buffers t = mk_buffers 0x7f0000000000 0x10000000 0x7f0000200000 0x10200000 /\
  host_meta host_main = Some 0x7e0004002000 /\
  let s := EchoThms.run (t_buffers t) (mem_virt2phy host_kernel) 64 512 ex_schedule
             (sys_init (t_buffers t) 64 512 (t_host t) ex_arrivals) in
  wire_out s `prefix_of` replies 64 ex_arrivals.
Proof.
  destruct host_runs as [Hr Hm].
  assert (exists t, host_main = Runs t) as [t E] by (destruct host_main; try discriminate Hr; by eexists).
  exists t. split; [exact E|]. split; [rewrite E in Hr; by injection Hr|]. split; [exact Hm|].
  eapply (main_echoes host_files host_open host_mmap host_pread (fun _ => Ok tt) (fun _ => 0) 0 1 fresh_handle
    sim_card host_kernel (fun i => 128 + i) ex_mzs (fun _ => 0xff) t ex_arrivals).
  - exact host_huge_pages.
  - reflexivity.
  - exact E.
  - exact ex_arrivals_ok.
  - apply run_reachable, reach_init.
Defined.
