(* ===== verification/DList.v ===== *)
(** * Doubly-linked lists ([user/nfpcore/list.h])

    Linked lists whose links are embedded in their entries: circular through a head.  A
    heap maps the two link fields of each node to addresses; an access to an address that
    is no node faults ([None]).  The functions are their assignments in order; the
    iteration macros are loops with a body, whose fuel is the number of turns. *)

From S2P Require Export Prelude.

Local Open Scope Z_scope.

(** ** The heap *)

Inductive link := Next | Prev.

#[export] Instance link_eq_dec : EqDecision link.
Proof. solve_decision. Defined.
#[export] Instance link_countable : Countable link.
Proof.
  refine (inj_countable' (fun f => match f with Next => false | Prev => true end)
    (fun b : bool => if b then Prev else Next) _). by intros [].
Defined.

Definition lheap : Type := gmap (Z * link) Z.
Definition lprog (A : Type) : Type := lheap -> option (A * lheap).

Definition lret {A} (a : A) : lprog A := fun h => Some (a, h).
Definition lbind {A B} (m : lprog A) (f : A -> lprog B) : lprog B := fun h =>
  match m h with Some (a, h) => f a h | None => None end.

Declare Scope lprog_scope.
Notation "'let%' x ':=' m 'in' f" := (lbind m (fun x => f))
  (at level 60, x pattern, right associativity) : lprog_scope.
Local Open Scope lprog_scope.

(** [p->next] and [p->prev], and assignments to them. *)
Definition get (p : Z) (f : link) : lprog Z := fun h =>
  match h !! (p, f) with Some v => Some (v, h) | None => None end.
Definition put (p : Z) (f : link) (v : Z) : lprog unit := fun h =>
  match h !! (p, f) with Some _ => Some (tt, <[(p, f) := v]> h) | None => None end.

Definition LIST_POISON1 : Z := 0x100.
Definition LIST_POISON2 : Z := 0x122.

(** ** Operations *)

Definition INIT_LIST_HEAD (list : Z) : lprog unit :=
  let% _ := put list Next list in
  put list Prev list.

Definition __list_add_valid (new prev next : Z) : bool := true.
Definition __list_del_entry_valid (entry : Z) : bool := true.

Definition __list_add (new prev next : Z) : lprog unit :=
  if negb (__list_add_valid new prev next) then lret tt
  else
    let% _ := put next Prev new in
    let% _ := put new Next next in
    let% _ := put new Prev prev in
    put prev Next new.

Definition list_add (new head : Z) : lprog unit :=
  let% n := get head Next in __list_add new head n.

Definition list_add_tail (new head : Z) : lprog unit :=
  let% p := get head Prev in __list_add new p head.

Definition __list_del (prev next : Z) : lprog unit :=
  let% _ := put next Prev prev in
  put prev Next next.

Definition __list_del_clearprev (entry : Z) : lprog unit :=
  let% p := get entry Prev in
  let% n := get entry Next in
  let% _ := __list_del p n in
  put entry Prev 0.

Definition __list_del_entry (entry : Z) : lprog unit :=
  if negb (__list_del_entry_valid entry) then lret tt
  else
    let% p := get entry Prev in
    let% n := get entry Next in
    __list_del p n.

Definition list_del (entry : Z) : lprog unit :=
  let% _ := __list_del_entry entry in
  let% _ := put entry Next LIST_POISON1 in
  put entry Prev LIST_POISON2.

Definition list_replace (old new : Z) : lprog unit :=
  let% n := get old Next in
  let% _ := put new Next n in
  let% n := get new Next in
  let% _ := put n Prev new in
  let% p := get old Prev in
  let% _ := put new Prev p in
  let% p := get new Prev in
  put p Next new.

Definition list_replace_init (old new : Z) : lprog unit :=
  let% _ := list_replace old new in INIT_LIST_HEAD old.

Definition list_swap (entry1 entry2 : Z) : lprog unit :=
  let% pos := get entry2 Prev in
  let% _ := list_del entry2 in
  let% _ := list_replace entry1 entry2 in
  let pos := if pos =? entry1 then entry2 else pos in
  list_add entry1 pos.

Definition list_del_init (entry : Z) : lprog unit :=
  let% _ := __list_del_entry entry in INIT_LIST_HEAD entry.

Definition list_move (list head : Z) : lprog unit :=
  let% _ := __list_del_entry list in list_add list head.

Definition list_move_tail (list head : Z) : lprog unit :=
  let% _ := __list_del_entry list in list_add_tail list head.

Definition list_bulk_move_tail (head first last : Z) : lprog unit :=
  let% fp := get first Prev in
  let% ln := get last Next in
  let% _ := put fp Next ln in
  let% ln := get last Next in
  let% fp := get first Prev in
  let% _ := put ln Prev fp in
  let% hp := get head Prev in
  let% _ := put hp Next first in
  let% hp := get head Prev in
  let% _ := put first Prev hp in
  let% _ := put last Next head in
  put head Prev last.

Definition list_is_first (list head : Z) : lprog bool := let% p := get list Prev in lret (p =? head).
Definition list_is_last (list head : Z) : lprog bool := let% n := get list Next in lret (n =? head).
Definition list_empty (head : Z) : lprog bool := let% n := get head Next in lret (n =? head).

Definition list_empty_careful (head : Z) : lprog bool :=
  let% next := get head Next in
  if next =? head then let% p := get head Prev in lret (next =? p) else lret false.

Definition list_rotate_left (head : Z) : lprog unit :=
  let% e := list_empty head in
  if negb e then let% first := get head Next in list_move_tail first head else lret tt.

Definition list_rotate_to_front (list head : Z) : lprog unit := list_move_tail head list.

Definition list_is_singular (head : Z) : lprog bool :=
  let% e := list_empty head in
  if negb e then
    let% n := get head Next in
    let% p := get head Prev in
    lret (n =? p)
  else lret false.

Definition __list_cut_position (list head entry : Z) : lprog unit :=
  let% new_first := get entry Next in
  let% n := get head Next in
  let% _ := put list Next n in
  let% n := get list Next in
  let% _ := put n Prev list in
  let% _ := put list Prev entry in
  let% _ := put entry Next list in
  let% _ := put head Next new_first in
  put new_first Prev head.

Definition list_cut_position (list head entry : Z) : lprog unit :=
  let% e := list_empty head in
  if (e : bool) then lret tt
  else
    let% s := list_is_singular head in
    let% other := (if (s : bool) then let% n := get head Next in lret (negb (n =? entry) && negb (head =? entry))
                   else lret false) in
    if (other : bool) then lret tt
    else if entry =? head then INIT_LIST_HEAD list
    else __list_cut_position list head entry.

Definition list_cut_before (list head entry : Z) : lprog unit :=
  let% n := get head Next in
  if n =? entry then INIT_LIST_HEAD list
  else
    let% n := get head Next in
    let% _ := put list Next n in
    let% n := get list Next in
    let% _ := put n Prev list in
    let% p := get entry Prev in
    let% _ := put list Prev p in
    let% p := get list Prev in
    let% _ := put p Next list in
    let% _ := put head Next entry in
    put entry Prev head.

Definition __list_splice (list prev next : Z) : lprog unit :=
  let% first := get list Next in
  let% last := get list Prev in
  let% _ := put first Prev prev in
  let% _ := put prev Next first in
  let% _ := put last Next next in
  put next Prev last.

Definition list_splice (list head : Z) : lprog unit :=
  let% e := list_empty list in
  if negb e then let% n := get head Next in __list_splice list head n else lret tt.

Definition list_splice_tail (list head : Z) : lprog unit :=
  let% e := list_empty list in
  if negb e then let% p := get head Prev in __list_splice list p head else lret tt.

Definition list_splice_init (list head : Z) : lprog unit :=
  let% e := list_empty list in
  if negb e then
    let% n := get head Next in
    let% _ := __list_splice list head n in INIT_LIST_HEAD list
  else lret tt.

Definition list_splice_tail_init (list head : Z) : lprog unit :=
  let% e := list_empty list in
  if negb e then
    let% p := get head Prev in
    let% _ := __list_splice list p head in INIT_LIST_HEAD list
  else lret tt.

(** ** Entries

    [member] is the offset of the links in the entry. *)

Definition list_entry (ptr member : Z) : Z := ptr - member.

Definition list_first_entry (ptr member : Z) : lprog Z := let% n := get ptr Next in lret (list_entry n member).
Definition list_last_entry (ptr member : Z) : lprog Z := let% p := get ptr Prev in lret (list_entry p member).

Definition list_first_entry_or_null (ptr member : Z) : lprog Z :=
  let% pos := get ptr Next in
  lret (if negb (pos =? ptr) then list_entry pos member else 0).

Definition list_next_entry (pos member : Z) : lprog Z := let% n := get (pos + member) Next in lret (list_entry n member).
Definition list_prev_entry (pos member : Z) : lprog Z := let% p := get (pos + member) Prev in lret (list_entry p member).

Definition list_prepare_entry (pos head member : Z) : Z := if negb (pos =? 0) then pos else list_entry head member.

Definition list_safe_reset_next (pos member : Z) : lprog Z := list_next_entry pos member.

(** ** Iteration

    A body goes on to the next turn or leaves the loop. *)

Inductive turn (A : Type) := Go (a : A) | Leave (a : A).
Arguments Go {A}.
Arguments Leave {A}.

Definition left_with {A} (t : turn A) : A := match t with Go a => a | Leave a => a end.

Section Loops.
Context {A : Type}.

(** [for (; &pos->member != head; pos = pos->member.f)] *)
Fixpoint entry_loop (fuel : nat) (f : link) (head member pos : Z) (body : Z -> A -> lprog (turn A)) (a : A)
    : lprog A :=
  if pos + member =? head then lret a
  else
    match fuel with
    | O => fun _ => None
    | S fuel =>
        let% t := body pos a in
        match t with
        | Leave a => lret a
        | Go a => let% n := get (pos + member) f in entry_loop fuel f head member (list_entry n member) body a
        end
    end.

(** [for (; &pos->member != head; pos = n, n = n->member.f)] *)
Fixpoint entry_loop_safe (fuel : nat) (f : link) (head member pos n : Z) (body : Z -> A -> lprog (turn A)) (a : A)
    : lprog A :=
  if pos + member =? head then lret a
  else
    match fuel with
    | O => fun _ => None
    | S fuel =>
        let% t := body pos a in
        match t with
        | Leave a => lret a
        | Go a =>
            let% n' := get (n + member) f in
            entry_loop_safe fuel f head member n (list_entry n' member) body a
        end
    end.

Context (fuel : nat) (head : Z) (body : Z -> A -> lprog (turn A)).

Definition list_for_each_entry (member : Z) (a : A) : lprog A :=
  let% pos := list_first_entry head member in entry_loop fuel Next head member pos body a.
Definition list_for_each_entry_reverse (member : Z) (a : A) : lprog A :=
  let% pos := list_last_entry head member in entry_loop fuel Prev head member pos body a.
Definition list_for_each_entry_continue (pos member : Z) (a : A) : lprog A :=
  let% pos := list_next_entry pos member in entry_loop fuel Next head member pos body a.
Definition list_for_each_entry_continue_reverse (pos member : Z) (a : A) : lprog A :=
  let% pos := list_prev_entry pos member in entry_loop fuel Prev head member pos body a.
Definition list_for_each_entry_from (pos member : Z) (a : A) : lprog A :=
  entry_loop fuel Next head member pos body a.
Definition list_for_each_entry_from_reverse (pos member : Z) (a : A) : lprog A :=
  entry_loop fuel Prev head member pos body a.

(** On the links themselves. *)
Definition list_for_each (a : A) : lprog A :=
  let% pos := get head Next in entry_loop fuel Next head 0 pos body a.
Definition list_for_each_prev (a : A) : lprog A :=
  let% pos := get head Prev in entry_loop fuel Prev head 0 pos body a.

Definition list_for_each_safe (a : A) : lprog A :=
  let% pos := get head Next in
  let% n := get pos Next in
  entry_loop_safe fuel Next head 0 pos n body a.
Definition list_for_each_prev_safe (a : A) : lprog A :=
  let% pos := get head Prev in
  let% n := get pos Prev in
  entry_loop_safe fuel Prev head 0 pos n body a.

Definition list_for_each_entry_safe (member : Z) (a : A) : lprog A :=
  let% pos := list_first_entry head member in
  let% n := list_next_entry pos member in
  entry_loop_safe fuel Next head member pos n body a.
Definition list_for_each_entry_safe_continue (pos member : Z) (a : A) : lprog A :=
  let% pos := list_next_entry pos member in
  let% n := list_next_entry pos member in
  entry_loop_safe fuel Next head member pos n body a.
Definition list_for_each_entry_safe_from (pos member : Z) (a : A) : lprog A :=
  let% n := list_next_entry pos member in
  entry_loop_safe fuel Next head member pos n body a.
Definition list_for_each_entry_safe_reverse (member : Z) (a : A) : lprog A :=
  let% pos := list_last_entry head member in
  let% n := list_prev_entry pos member in
  entry_loop_safe fuel Prev head member pos n body a.
End Loops.
