(* ===== verification/DListThms.v ===== *)
(** * Linked lists are lists

    An assertion is a list of cells with their contents; [triple] is total correctness
    with every other cell untouched.  A list through [head] is the cells [dlist head xs];
    each operation of [DList] is then an operation on [xs]. *)

From S2P Require Export DList.

Local Open Scope Z_scope.
Local Open Scope lprog_scope.

(** ** Assertions *)

Definition cells : Type := list ((Z * link) * Z).

(** The cells are distinct and hold what is said. *)
Definition sat (h : lheap) (P : cells) : Prop := NoDup P.*1 /\ Forall (fun c => h !! c.1 = Some c.2) P.

#[export] Instance sat_proper h : Proper ((≡ₚ) ==> iff) (sat h).
Proof. intros P Q E. unfold sat. by rewrite E. Qed.

Definition triple {A} (P : cells) (m : lprog A) (a : A) (Q : cells) : Prop :=
  forall F h, sat h (P ++ F) -> exists h', m h = Some (a, h') /\ sat h' (Q ++ F).

Lemma triple_perm {A} P P' (m : lprog A) a Q Q' : P ≡ₚ P' -> Q' ≡ₚ Q -> triple P' m a Q' -> triple P m a Q.
Proof.
  intros EP EQ H F h Hs. rewrite EP in Hs. destruct (H F h Hs) as (h' & E & Hs'). exists h'. by rewrite <- EQ.
Qed.

#[export] Instance triple_proper {A} : Proper ((≡ₚ) ==> (=) ==> (=) ==> (≡ₚ) ==> iff) (@triple A).
Proof.
  intros P P' EP m ? <- a ? <- Q Q' EQ. split; apply triple_perm; done.
Qed.

Lemma triple_frame {A} R P (m : lprog A) a Q : triple P m a Q -> triple (P ++ R) m a (Q ++ R).
Proof. intros H F h. rewrite <- !app_assoc. intros Hs. destruct (H _ _ Hs) as (h' & E & Hs'). by exists h'. Qed.

(** Cells no longer of interest, as those of memory that is freed. *)
Lemma triple_drop {A} D P (m : lprog A) a Q : triple P m a (Q ++ D) -> triple P m a Q.
Proof.
  intros H F h Hs. destruct (H F h Hs) as (h' & E & Hs'). exists h'. split; [done|].
  assert ((Q ++ D) ++ F ≡ₚ D ++ (Q ++ F)) as EP by solve_Permutation. rewrite EP in Hs'. destruct Hs' as [Hn Hf].
  rewrite fmap_app in Hn. apply NoDup_app in Hn as (_ & _ & Hn). apply Forall_app in Hf as [_ Hf]. by split.
Qed.

Lemma triple_ret {A} P (a : A) : triple P (lret a) a P.
Proof. intros F h Hs. by exists h. Qed.

Lemma triple_bind {A B} P Q R (m : lprog A) (f : A -> lprog B) a b :
  triple P m a Q -> triple Q (f a) b R -> triple P (lbind m f) b R.
Proof.
  intros Hm Hf F h Hs. destruct (Hm F h Hs) as (h1 & E1 & Hs1). destruct (Hf F h1 Hs1) as (h2 & E2 & Hs2).
  exists h2. split; [|done]. unfold lbind. by rewrite E1.
Qed.

Lemma triple_assoc {A B C} P (m : lprog A) (f : A -> lprog B) (g : B -> lprog C) c Q :
  triple P (lbind m (fun a => lbind (f a) g)) c Q -> triple P (lbind (lbind m f) g) c Q.
Proof.
  intros H F h Hs. destruct (H F h Hs) as (h' & E & Hs'). exists h'. split; [|done]. rewrite <- E. unfold lbind.
  by destruct (m h) as [[a h1]|].
Qed.

Lemma triple_assoc' {A B C} P (m : lprog A) (f : A -> lprog B) (g : B -> lprog C) c Q :
  triple P (lbind (lbind m f) g) c Q -> triple P (lbind m (fun a => lbind (f a) g)) c Q.
Proof.
  intros H F h Hs. destruct (H F h Hs) as (h' & E & Hs'). exists h'. split; [|done]. rewrite <- E. unfold lbind.
  by destruct (m h) as [[a h1]|].
Qed.

Lemma triple_get P p f v : ((p, f), v) ∈ P -> triple P (get p f) v P.
Proof.
  intros Hin F h [Hn Hs]. exists h. split; [|done]. unfold get. rewrite Forall_forall in Hs.
  assert (h !! (p, f) = Some v) as -> by (apply (Hs ((p, f), v)), elem_of_app; by left). done.
Qed.

Lemma triple_put P p f v w : triple (((p, f), v) :: P) (put p f w) tt (((p, f), w) :: P).
Proof.
  intros F h [Hn Hs]. cbn [app] in *. rewrite fmap_cons in Hn. apply NoDup_cons in Hn as [Hk Hn].
  apply Forall_cons in Hs as [Hv Hs]. cbn in Hv. exists (<[(p, f) := w]> h). split; [unfold put; by rewrite Hv|].
  split; [by apply NoDup_cons|]. apply Forall_cons. split; [apply lookup_insert_eq|].
  rewrite Forall_forall in *. intros [k x] Hin. etrans; [apply lookup_insert_ne|by apply (Hs (k, x))].
  cbn. intros E. apply Hk. rewrite E. by apply (list_elem_of_fmap_2 fst) in Hin.
Qed.

(** The cell is in front. *)
Lemma triple_get_front P p f v : triple (((p, f), v) :: P) (get p f) v (((p, f), v) :: P).
Proof. apply triple_get. by left. Qed.

(** Two cells of one heap are different. *)
Lemma triple_distinct {A} c d P (m : lprog A) a Q :
  (c.1 <> d.1 -> triple (c :: d :: P) m a Q) -> triple (c :: d :: P) m a Q.
Proof.
  intros H F h Hs. apply H; [|done]. destruct Hs as [Hn _]. cbn in Hn.
  apply NoDup_cons in Hn as [Hk _]. intros E. apply Hk. rewrite E. by left.
Qed.

(** A heap with just these cells. *)
Lemma sat_of_cells (P : cells) : NoDup P.*1 -> sat (list_to_map P) P.
Proof. intros Hn. split; [done|]. apply Forall_forall. intros [k v] Hin. by apply elem_of_list_to_map_1. Qed.

(** Runs a function: each access finds its cell. *)
Ltac without k l :=
  lazymatch l with
  | ((k, _) :: ?t) => t
  | ?x :: ?t => let t' := without k t in constr:(x :: t')
  | ?a ++ ?b =>
      match a with
      | context [(k, _)] => let a' := without k a in constr:(a' ++ b)
      | _ => let b' := without k b in constr:(a ++ b')
      end
  end.
Ltac front k :=
  lazymatch goal with
  | |- triple ?P _ _ _ =>
      lazymatch P with
      | context [(k, ?v)] => let R := without k P in eapply (triple_perm P ((k, v) :: R)); [solve_Permutation|reflexivity|]
      end
  end.
Ltac lred := cbv beta; cbn [__list_add_valid __list_del_entry_valid negb].
Ltac lstep :=
  lazymatch goal with
  | |- triple _ (lbind (get ?p ?f) _) _ _ => front (p, f); eapply triple_bind; [apply triple_get_front|lred]
  | |- triple _ (lbind (put ?p ?f _) _) _ _ => front (p, f); eapply triple_bind; [apply triple_put|lred]
  | |- triple _ (lbind (lbind _ _) _) _ _ => apply triple_assoc
  | |- triple _ (put ?p ?f _) _ _ => front (p, f); eapply triple_perm; [reflexivity| |apply triple_put]
  | |- triple _ (lret _) _ _ => eapply triple_perm; [reflexivity| |apply triple_ret]
  end.
Ltac lsteps := repeat lstep; try solve_Permutation.

(** ** Chains *)

(** The links from [a] through [l] to [b] and back. *)
Fixpoint chain (a : Z) (l : list Z) (b : Z) : cells :=
  match l with
  | [] => [((a, Next), b); ((b, Prev), a)]
  | x :: l => [((a, Next), x); ((x, Prev), a)] ++ chain x l b
  end.

Definition node (p n q : Z) : cells := [((p, Next), n); ((p, Prev), q)].
Definition dlist (head : Z) (xs : list Z) : cells := chain head xs head.

Definition first_of (l : list Z) (b : Z) : Z := match l with [] => b | x :: _ => x end.
Definition last_of (a : Z) (l : list Z) : Z := default a (last l).

(** A chain without its last, and without its first link. *)
Fixpoint before (a : Z) (l : list Z) : cells :=
  match l with [] => [] | x :: l => [((a, Next), x); ((x, Prev), a)] ++ before x l end.
Definition after (l : list Z) (b : Z) : cells := match l with [] => [] | x :: l => chain x l b end.

Lemma last_of_cons a x l : last_of a (x :: l) = last_of x l.
Proof. unfold last_of. rewrite last_cons. by destruct (last l). Qed.

Lemma chain_before a l m b : chain a (l ++ m) b = before a l ++ chain (last_of a l) m b.
Proof. revert a. induction l as [|x l IH]; intros a; [done|]. cbn [app chain before]. by rewrite IH, last_of_cons. Qed.

Lemma chain_link a l b : chain a l b = chain a [] (first_of l b) ++ after l b.
Proof. by destruct l. Qed.

Lemma chain_after a m l b : chain a (m ++ l) b = chain a m (first_of l b) ++ after l b.
Proof. revert a. induction m as [|x m IH]; intros a; [by rewrite (chain_link a l)|]. cbn [app chain]. by rewrite IH. Qed.

(** A chain around a part of it. *)
Lemma chain_around a l m r b : chain a (l ++ m ++ r) b = before a l ++ chain (last_of a l) m (first_of r b) ++ after r b.
Proof. by rewrite chain_before, chain_after. Qed.

Lemma chain_last a l b : chain a l b = before a l ++ chain (last_of a l) [] b.
Proof. by rewrite <- chain_before, app_nil_r. Qed.

(** A list seen from another of its nodes. *)
Lemma dlist_rotate a xs b ys : dlist a (xs ++ b :: ys) ≡ₚ dlist b (ys ++ a :: xs).
Proof.
  assert (forall a l1 y l2 b, chain a (l1 ++ y :: l2) b = chain a l1 y ++ chain y l2 b) as H.
  { intros a' l1 y l2 b'. revert a'. induction l1 as [|x l1 IH]; intros a'; [done|]. cbn [app chain]. by rewrite IH. }
  unfold dlist. rewrite !H. apply Permutation_app_comm.
Qed.

(** The nodes of a list are distinct. *)
Lemma chain_keys x l : forall a b, x ∈ l ++ [b] -> (x, Prev) ∈ (chain a l b).*1.
Proof.
  induction l as [|y l IH]; intros a b Hx; cbn in *.
  - apply list_elem_of_singleton in Hx as ->. by right; left.
  - apply elem_of_cons in Hx as [->|Hx]; [by right; left|]. right. right. by apply IH.
Qed.

Lemma chain_nodup l : forall a b, NoDup (chain a l b).*1 -> NoDup (l ++ [b]).
Proof.
  induction l as [|y l IH]; intros a b Hn; cbn in *; [apply NoDup_singleton|].
  apply NoDup_cons in Hn as [_ Hn]. apply NoDup_cons in Hn as [Hy Hn]. apply NoDup_cons. split; [|by eapply IH].
  intros Hin. apply Hy. by apply chain_keys.
Qed.

Lemma triple_nodup {A} head xs P (m : lprog A) a Q R : P ≡ₚ dlist head xs ++ R ->
  (NoDup (xs ++ [head]) -> triple P m a Q) -> triple P m a Q.
Proof.
  intros EP H F h Hs. apply H; [|done]. destruct Hs as [Hn _]. rewrite EP, !fmap_app in Hn.
  apply NoDup_app in Hn as (Hn & _). apply NoDup_app in Hn as (Hn & _). by eapply chain_nodup.
Qed.

(** ** The operations *)

(** Writes lists and nodes as cells. *)
Ltac cells :=
  unfold dlist, node; cbn [chain app]; rewrite <- ?app_assoc; cbn [app].

Lemma init_spec p n q : triple (node p n q) (INIT_LIST_HEAD p) tt (dlist p []).
Proof. unfold INIT_LIST_HEAD. cells. lsteps. Qed.

Lemma list_add_spec new n q head xs :
  triple (dlist head xs ++ node new n q) (list_add new head) tt (dlist head (new :: xs)).
Proof.
  unfold dlist. rewrite chain_link. change (new :: xs) with ([new] ++ xs). rewrite chain_after.
  unfold list_add, __list_add. cells. lsteps.
Qed.

Lemma list_add_tail_spec new n q head xs :
  triple (dlist head xs ++ node new n q) (list_add_tail new head) tt (dlist head (xs ++ [new])).
Proof.
  unfold dlist. rewrite chain_last, chain_before.
  unfold list_add_tail, __list_add. cells. lsteps.
Qed.

Lemma del_entry_spec e head xs ys :
  triple (dlist head (xs ++ e :: ys)) (__list_del_entry e) tt
    (dlist head (xs ++ ys) ++ node e (first_of ys head) (last_of head xs)).
Proof.
  unfold dlist. change (e :: ys) with ([e] ++ ys). rewrite chain_around. change (xs ++ ys) with (xs ++ [] ++ ys). rewrite chain_around.
  unfold __list_del_entry, __list_del. cells. lred. lsteps.
Qed.

Lemma list_del_spec e head xs ys :
  triple (dlist head (xs ++ e :: ys)) (list_del e) tt (dlist head (xs ++ ys) ++ node e LIST_POISON1 LIST_POISON2).
Proof.
  unfold list_del. eapply triple_bind; [apply del_entry_spec|]. cells. lsteps.
Qed.

Lemma list_del_init_spec e head xs ys :
  triple (dlist head (xs ++ e :: ys)) (list_del_init e) tt (dlist head (xs ++ ys) ++ dlist e []).
Proof.
  unfold list_del_init, INIT_LIST_HEAD. eapply triple_bind; [apply del_entry_spec|]. cells. lsteps.
Qed.

Lemma del_clearprev_spec e head xs ys :
  triple (dlist head (xs ++ e :: ys)) (__list_del_clearprev e) tt (dlist head (xs ++ ys) ++ node e (first_of ys head) 0).
Proof.
  unfold dlist. change (e :: ys) with ([e] ++ ys). rewrite chain_around. change (xs ++ ys) with (xs ++ [] ++ ys). rewrite chain_around.
  unfold __list_del_clearprev, __list_del. cells. lsteps.
Qed.

Lemma list_replace_spec old new n q head xs ys :
  triple (dlist head (xs ++ old :: ys) ++ node new n q) (list_replace old new) tt
    (dlist head (xs ++ new :: ys) ++ node old (first_of ys head) (last_of head xs)).
Proof.
  unfold dlist. change (old :: ys) with ([old] ++ ys). change (new :: ys) with ([new] ++ ys). rewrite !chain_around.
  unfold list_replace. cells. lsteps.
Qed.

(** An empty list moves to another head. *)
Lemma list_replace_empty old new n q :
  triple (dlist old [] ++ node new n q) (list_replace old new) tt (dlist new [] ++ node old old new).
Proof. unfold list_replace. cells. lsteps. Qed.

Lemma list_replace_init_spec old new n q head xs ys :
  triple (dlist head (xs ++ old :: ys) ++ node new n q) (list_replace_init old new) tt
    (dlist head (xs ++ new :: ys) ++ dlist old []).
Proof.
  unfold list_replace_init, INIT_LIST_HEAD. eapply triple_bind; [apply list_replace_spec|]. cells. lsteps.
Qed.

(** Runs a part of a function by its triple, with the rest of the cells around it. *)
Ltac lcall spec R :=
  match goal with
  | |- triple _ (lbind _ _) _ _ => eapply triple_bind; [eapply (triple_perm _ (_ ++ R)); [|reflexivity|apply (triple_frame R), spec]; solve_Permutation|]
  | |- triple _ _ _ _ => eapply (triple_perm _ (_ ++ R) _ _ _ (_ ++ R)); [| |apply (triple_frame R), spec]; solve_Permutation
  end.

(** From one list to another, and within a list. *)
Lemma list_move_spec e head xs ys head2 zs :
  triple (dlist head (xs ++ e :: ys) ++ dlist head2 zs) (list_move e head2) tt (dlist head (xs ++ ys) ++ dlist head2 (e :: zs)).
Proof.
  unfold list_move. lcall del_entry_spec (dlist head2 zs). lcall list_add_spec (dlist head (xs ++ ys)).
Qed.

Lemma list_move_within e head xs ys :
  triple (dlist head (xs ++ e :: ys)) (list_move e head) tt (dlist head (e :: xs ++ ys)).
Proof. unfold list_move. eapply triple_bind; [apply del_entry_spec|apply list_add_spec]. Qed.

Lemma list_move_tail_spec e head xs ys head2 zs :
  triple (dlist head (xs ++ e :: ys) ++ dlist head2 zs) (list_move_tail e head2) tt (dlist head (xs ++ ys) ++ dlist head2 (zs ++ [e])).
Proof.
  unfold list_move_tail. lcall del_entry_spec (dlist head2 zs). lcall list_add_tail_spec (dlist head (xs ++ ys)).
Qed.

Lemma list_move_tail_within e head xs ys :
  triple (dlist head (xs ++ e :: ys)) (list_move_tail e head) tt (dlist head (xs ++ ys ++ [e])).
Proof.
  unfold list_move_tail. rewrite (app_assoc xs). eapply triple_bind; [apply del_entry_spec|apply list_add_tail_spec].
Qed.

(** Queries. *)
Lemma is_first_spec x head xs ys :
  triple (dlist head (xs ++ x :: ys)) (list_is_first x head) (bool_decide (xs = [])) (dlist head (xs ++ x :: ys)).
Proof.
  apply (triple_nodup head (xs ++ x :: ys) _ _ _ _ []); [by rewrite app_nil_r|]. intros Hn.
  unfold dlist. change (x :: ys) with ([x] ++ ys). rewrite chain_around. unfold list_is_first. cells.
  assert (bool_decide (xs = []) = (last_of head xs =? head)) as ->.
  { destruct xs as [|y xs' _] using rev_ind; [by rewrite Z.eqb_refl|]. unfold last_of. rewrite last_snoc. cbn [default from_option id].
    rewrite bool_decide_eq_false_2 by (by destruct xs'). symmetry. apply Z.eqb_neq. intros ->.
    rewrite <- !app_assoc in Hn. apply NoDup_app in Hn as (_ & _ & Hn). apply NoDup_app in Hn as (_ & Hn & _).
    apply (Hn head); [by left|]. apply elem_of_app. right. by left. }
  lsteps.
Qed.

Lemma is_last_spec x head xs ys :
  triple (dlist head (xs ++ x :: ys)) (list_is_last x head) (bool_decide (ys = [])) (dlist head (xs ++ x :: ys)).
Proof.
  apply (triple_nodup head (xs ++ x :: ys) _ _ _ _ []); [by rewrite app_nil_r|]. intros Hn.
  unfold dlist. change (x :: ys) with ([x] ++ ys). rewrite chain_around. unfold list_is_last. cells.
  assert (bool_decide (ys = []) = (first_of ys head =? head)) as ->.
  { destruct ys as [|y ys']; [by rewrite Z.eqb_refl|]. cbn [first_of]. rewrite bool_decide_eq_false_2 by done.
    symmetry. apply Z.eqb_neq. intros ->. rewrite <- app_assoc in Hn. apply NoDup_app in Hn as (_ & _ & Hn).
    cbn in Hn. apply NoDup_cons in Hn as [_ Hn]. apply NoDup_cons in Hn as [Hn _]. apply Hn. apply elem_of_app. right. by left. }
  lsteps.
Qed.

(** The first node is the head exactly when the list is empty. *)
Lemma first_head head xs : NoDup (xs ++ [head]) -> (first_of xs head =? head) = bool_decide (xs = []).
Proof.
  intros Hn. destruct xs as [|x xs]; [by rewrite Z.eqb_refl|]. rewrite bool_decide_eq_false_2 by done.
  apply Z.eqb_neq. intros E. cbn in *. apply NoDup_cons in Hn as [Hn _]. apply Hn, elem_of_app. right. rewrite E. by left.
Qed.

Lemma empty_spec head xs : triple (dlist head xs) (list_empty head) (bool_decide (xs = [])) (dlist head xs).
Proof.
  apply (triple_nodup head xs _ _ _ _ []); [by rewrite app_nil_r|]. intros Hn. rewrite <- (first_head head xs Hn).
  unfold dlist. rewrite chain_link. unfold list_empty. cells. lsteps.
Qed.

Lemma first_last head xs : NoDup (xs ++ [head]) ->
  (first_of xs head =? last_of head xs) = bool_decide (length xs <= 1)%nat.
Proof.
  intros Hn. destruct xs as [|x xs]; [by rewrite Z.eqb_refl|]. rewrite last_of_cons. cbn [first_of].
  destruct xs as [|y xs]; [by rewrite Z.eqb_refl|]. rewrite bool_decide_eq_false_2 by (cbn; lia).
  apply Z.eqb_neq. cbn in Hn. apply NoDup_cons in Hn as [Hn _]. intros E. apply Hn. rewrite E.
  change (y :: xs ++ [head]) with ((y :: xs) ++ [head]). apply elem_of_app. left. unfold last_of.
  destruct (last (y :: xs)) as [z|] eqn:El; cbn; [by apply last_Some_elem_of in El|by apply last_None in El].
Qed.

Lemma get_first head xs : triple (dlist head xs) (get head Next) (first_of xs head) (dlist head xs).
Proof. unfold dlist. rewrite chain_link. apply triple_get_front. Qed.

Lemma get_last head xs : triple (dlist head xs) (get head Prev) (last_of head xs) (dlist head xs).
Proof. apply triple_get. unfold dlist. rewrite chain_last. apply elem_of_app. right. right. by left. Qed.

Lemma empty_careful_spec head xs : triple (dlist head xs) (list_empty_careful head) (bool_decide (xs = [])) (dlist head xs).
Proof.
  apply (triple_nodup head xs _ _ _ _ []); [by rewrite app_nil_r|]. intros Hn. unfold list_empty_careful.
  eapply triple_bind; [apply get_first|]. rewrite (first_head head xs Hn). case_bool_decide as E; [|apply triple_ret].
  subst xs. eapply triple_bind; [apply get_last|]. cbn. rewrite Z.eqb_refl. apply triple_ret.
Qed.

Lemma singular_spec head xs : triple (dlist head xs) (list_is_singular head) (bool_decide (length xs = 1%nat)) (dlist head xs).
Proof.
  apply (triple_nodup head xs _ _ _ _ []); [by rewrite app_nil_r|]. intros Hn. unfold list_is_singular.
  eapply triple_bind; [apply empty_spec|]. destruct xs as [|x xs]; [apply triple_ret|].
  rewrite bool_decide_eq_false_2 by done. cbn [negb].
  eapply triple_bind; [apply get_first|]. eapply triple_bind; [apply get_last|]. rewrite first_last by done.
  assert (bool_decide (length (x :: xs) <= 1)%nat = bool_decide (length (x :: xs) = 1%nat)) as ->
    by (apply bool_decide_ext; cbn; lia).
  apply triple_ret.
Qed.

(** Rotation. *)
Lemma rotate_left_spec head xs :
  triple (dlist head xs) (list_rotate_left head) tt (dlist head (drop 1 xs ++ take 1 xs)).
Proof.
  unfold list_rotate_left. eapply triple_bind; [apply empty_spec|]. destruct xs as [|x xs]; [apply triple_ret|].
  rewrite bool_decide_eq_false_2 by done. cbn [negb]. eapply triple_bind; [apply get_first|].
  apply (list_move_tail_within x head [] xs).
Qed.

Lemma rotate_to_front_spec e head xs ys :
  triple (dlist head (xs ++ e :: ys)) (list_rotate_to_front e head) tt (dlist head (e :: ys ++ xs)).
Proof.
  unfold list_rotate_to_front. eapply triple_perm; [apply dlist_rotate| |apply list_move_tail_within].
  rewrite app_assoc. rewrite (dlist_rotate e (ys ++ xs) head []). done.
Qed.

(** Joining lists. *)
Lemma chain_ends a x l b :
  chain a (x :: l) b = [((a, Next), x); ((x, Prev), a)] ++ before x l ++ [((last_of x l, Next), b); ((b, Prev), last_of x l)].
Proof. cbn [chain]. by rewrite chain_last. Qed.

Lemma splice_core src x l prev next :
  triple (dlist src (x :: l) ++ chain prev [] next) (__list_splice src prev next) tt
    (chain prev (x :: l) next ++ node src x (last_of x l)).
Proof. unfold dlist. rewrite !chain_ends. unfold __list_splice. cells. lsteps. Qed.

(** The links the head of a list keeps when its entries are taken. *)
Definition stale (src : Z) (xs : list Z) : cells := node src (first_of xs src) (last_of src xs).

Lemma splice_front src x l head ys :
  triple (dlist src (x :: l) ++ dlist head ys) (let% n := get head Next in __list_splice src head n) tt
    (dlist head ((x :: l) ++ ys) ++ stale src (x :: l)).
Proof.
  eapply triple_bind; [eapply triple_perm; [apply Permutation_app_comm|apply Permutation_app_comm|apply triple_frame, get_first]|].
  unfold stale. rewrite last_of_cons. unfold dlist at 2 3. rewrite chain_after. rewrite (chain_link head ys).
  lcall splice_core (after ys head).
Qed.

Lemma splice_back src x l head ys :
  triple (dlist src (x :: l) ++ dlist head ys) (let% p := get head Prev in __list_splice src p head) tt
    (dlist head (ys ++ (x :: l)) ++ stale src (x :: l)).
Proof.
  eapply triple_bind; [eapply triple_perm; [apply Permutation_app_comm|apply Permutation_app_comm|apply triple_frame, get_last]|].
  unfold stale. rewrite last_of_cons. unfold dlist at 2 3. rewrite chain_before. rewrite (chain_last head ys).
  lcall splice_core (before head ys).
Qed.

(** The four joins begin with the test for an empty list. *)
Lemma unless_empty src xs R (m : lprog unit) Q :
  (xs = [] -> dlist src xs ++ R ≡ₚ Q) -> (xs <> [] -> triple (dlist src xs ++ R) m tt Q) ->
  triple (dlist src xs ++ R) (let% e := list_empty src in if negb e then m else lret tt) tt Q.
Proof.
  intros H0 H1. eapply triple_bind; [apply triple_frame, empty_spec|]. case_bool_decide as E; cbn [negb]; [|by apply H1].
  eapply triple_perm; [reflexivity|by apply H0|apply triple_ret].
Qed.

Lemma list_splice_spec src xs head ys :
  triple (dlist src xs ++ dlist head ys) (list_splice src head) tt (dlist head (xs ++ ys) ++ stale src xs).
Proof.
  apply unless_empty; [intros ->; apply Permutation_app_comm|]. intros N. destruct xs as [|x xs]; [done|]. apply splice_front.
Qed.

Lemma list_splice_tail_spec src xs head ys :
  triple (dlist src xs ++ dlist head ys) (list_splice_tail src head) tt (dlist head (ys ++ xs) ++ stale src xs).
Proof.
  apply unless_empty; [intros ->; rewrite app_nil_r; apply Permutation_app_comm|]. intros N.
  destruct xs as [|x xs]; [done|]. apply splice_back.
Qed.

Lemma init_stale src xs : triple (stale src xs) (INIT_LIST_HEAD src) tt (dlist src []).
Proof. apply init_spec. Qed.

Lemma list_splice_init_spec src xs head ys :
  triple (dlist src xs ++ dlist head ys) (list_splice_init src head) tt (dlist head (xs ++ ys) ++ dlist src []).
Proof.
  apply unless_empty; [intros ->; apply Permutation_app_comm|]. intros N. destruct xs as [|x xs]; [done|].
  apply triple_assoc'. eapply triple_bind; [apply splice_front|].
  lcall (init_stale src (x :: xs)) (dlist head ((x :: xs) ++ ys)).
Qed.

Lemma list_splice_tail_init_spec src xs head ys :
  triple (dlist src xs ++ dlist head ys) (list_splice_tail_init src head) tt (dlist head (ys ++ xs) ++ dlist src []).
Proof.
  apply unless_empty; [intros ->; rewrite app_nil_r; apply Permutation_app_comm|]. intros N.
  destruct xs as [|x xs]; [done|].
  apply triple_assoc'. eapply triple_bind; [apply splice_back|].
  lcall (init_stale src (x :: xs)) (dlist head (ys ++ (x :: xs))).
Qed.

(** Cutting lists. *)
Lemma cut_core src n q head xs e ys :
  triple (dlist head (xs ++ e :: ys) ++ node src n q) (__list_cut_position src head e) tt
    (dlist src (xs ++ [e]) ++ dlist head ys).
Proof.
  unfold __list_cut_position. destruct xs as [|x xs].
  - unfold dlist. cbn [app]. change (e :: ys) with ([e] ++ ys). rewrite chain_after, (chain_link head ys). cells. lsteps.
  - unfold dlist. cbn [app].
    change (x :: xs ++ e :: ys) with ((x :: xs) ++ [e] ++ ys). rewrite chain_around, (chain_link head ys).
    change (x :: xs ++ [e]) with ((x :: xs) ++ [e]). rewrite chain_before. cbn [before]. rewrite !last_of_cons. cells. lsteps.
Qed.

Lemma list_cut_position_spec src n q head xs e ys :
  triple (dlist head (xs ++ e :: ys) ++ node src n q) (list_cut_position src head e) tt
    (dlist src (xs ++ [e]) ++ dlist head ys).
Proof.
  apply (triple_nodup head (xs ++ e :: ys) _ _ _ _ (node src n q)); [done|]. intros Hn. unfold list_cut_position.
  eapply triple_bind; [apply triple_frame, empty_spec|]. rewrite bool_decide_eq_false_2 by (by destruct xs).
  eapply triple_bind; [apply triple_frame, singular_spec|].
  assert (e <> head) as Hne.
  { intros ->. rewrite <- app_assoc in Hn. apply NoDup_app in Hn as (_ & _ & Hn). cbn in Hn.
    apply NoDup_cons in Hn as [Hn _]. apply Hn, elem_of_app. right. by left. }
  eapply (triple_bind _ _ _ _ _ false).
  - case_bool_decide as E; [|apply triple_ret]. rewrite length_app in E. cbn in E.
    destruct xs; [|cbn in E; lia]. destruct ys; [|cbn in E; lia].
    eapply triple_bind; [apply triple_frame, get_first|]. cbn. rewrite Z.eqb_refl. apply triple_ret.
  - cbv iota. rewrite (proj2 (Z.eqb_neq e head)) by done. apply cut_core.
Qed.

(** At the head nothing is cut; an empty list is left alone, as is the other. *)
Lemma list_cut_position_head src n q head x xs :
  triple (dlist head (x :: xs) ++ node src n q) (list_cut_position src head head) tt (dlist src [] ++ dlist head (x :: xs)).
Proof.
  unfold list_cut_position. eapply triple_bind; [apply triple_frame, empty_spec|]. rewrite bool_decide_eq_false_2 by done.
  eapply triple_bind; [apply triple_frame, singular_spec|]. eapply (triple_bind _ _ _ _ _ false).
  - case_bool_decide as E; [|apply triple_ret].
    eapply triple_bind; [apply triple_frame, get_first|]. rewrite Z.eqb_refl, andb_false_r. apply triple_ret.
  - cbv iota. rewrite Z.eqb_refl. lcall init_spec (dlist head (x :: xs)).
Qed.

Lemma list_cut_position_empty src head entry :
  triple (dlist head []) (list_cut_position src head entry) tt (dlist head []).
Proof. unfold list_cut_position. eapply triple_bind; [apply empty_spec|]. apply triple_ret. Qed.

Lemma list_cut_before_spec src n q head xs e ys :
  triple (dlist head (xs ++ e :: ys) ++ node src n q) (list_cut_before src head e) tt
    (dlist src xs ++ dlist head (e :: ys)).
Proof.
  apply (triple_nodup head (xs ++ e :: ys) _ _ _ _ (node src n q)); [done|]. intros Hn. unfold list_cut_before.
  eapply triple_bind; [apply triple_frame, get_first|]. destruct xs as [|x xs].
  - cbn [app first_of]. rewrite Z.eqb_refl. lcall init_spec (dlist head (e :: ys)).
  - cbn [app first_of]. rewrite (proj2 (Z.eqb_neq x e)).
    2:{ intros ->. cbn in Hn. apply NoDup_cons in Hn as [Hn _]. apply Hn. rewrite <- app_assoc.
        apply elem_of_app. right. by left. }
    unfold dlist. rewrite (chain_ends src). change (x :: xs ++ e :: ys) with ((x :: xs) ++ e :: ys).
    rewrite chain_before. cbn [before]. rewrite last_of_cons.
    change (chain (last_of x xs) (e :: ys) head) with (chain (last_of x xs) ([e] ++ ys) head).
    change (chain head (e :: ys) head) with (chain head ([e] ++ ys) head). rewrite !chain_after. cells. lsteps.
Qed.

(** Before the head: every entry moves. *)
Lemma list_cut_before_head src n q head xs :
  triple (dlist head xs ++ node src n q) (list_cut_before src head head) tt (dlist src xs ++ dlist head []).
Proof.
  apply (triple_nodup head xs _ _ _ _ (node src n q)); [done|]. intros Hn. unfold list_cut_before.
  eapply triple_bind; [apply triple_frame, get_first|]. rewrite (first_head head xs Hn). case_bool_decide as E.
  - subst xs. lcall init_spec (dlist head []).
  - destruct xs as [|x xs]; [done|]. unfold dlist. rewrite !chain_ends. cells. lsteps.
Qed.

(** A block moved to the tail. *)
Lemma bulk_move_tail_spec head xs m ms ys :
  triple (dlist head (xs ++ (m :: ms) ++ ys)) (list_bulk_move_tail head m (last_of m ms)) tt (dlist head (xs ++ ys ++ (m :: ms))).
Proof.
  unfold list_bulk_move_tail, dlist. rewrite (chain_around head xs), (chain_ends (last_of head xs) m). destruct ys as [|y ys].
  - cbn [app first_of after]. rewrite chain_before, chain_ends. cells. lsteps.
  - cbn [first_of after]. rewrite (chain_last y). rewrite chain_before. cbn [app chain]. rewrite chain_before, chain_ends.
    cells. lsteps.
Qed.

(** The node before an entry, and insertion after a node. *)
Lemma get_before x head us vs :
  triple (dlist head (us ++ x :: vs)) (get x Prev) (last_of head us) (dlist head (us ++ x :: vs)).
Proof.
  apply triple_get. unfold dlist. change (x :: vs) with ([x] ++ vs). rewrite chain_around.
  apply elem_of_app. right. apply elem_of_app. left. right. by left.
Qed.

Lemma add_after_spec new n q head us vs :
  triple (dlist head (us ++ vs) ++ node new n q) (list_add new (last_of head us)) tt (dlist head (us ++ new :: vs)).
Proof.
  unfold dlist. change (us ++ vs) with (us ++ [] ++ vs). change (new :: vs) with ([new] ++ vs). rewrite !chain_around.
  unfold list_add, __list_add. cells. lsteps.
Qed.

Lemma last_of_app a l b m : last_of a (l ++ b :: m) = last_of b m.
Proof. unfold last_of. rewrite last_app, last_cons. by destruct (last m). Qed.

Lemma last_of_in a l : last_of a l ∈ l \/ l = [].
Proof.
  unfold last_of. destruct (last l) as [z|] eqn:E; cbn; [left; by apply last_Some_elem_of in E|right; by apply last_None in E].
Qed.

(** Two entries change places, whichever comes first. *)
Lemma list_swap_spec head xs e1 ys e2 zs :
  triple (dlist head (xs ++ e1 :: ys ++ e2 :: zs)) (list_swap e1 e2) tt (dlist head (xs ++ e2 :: ys ++ e1 :: zs)).
Proof.
  apply (triple_nodup head (xs ++ e1 :: ys ++ e2 :: zs) _ _ _ _ []); [by rewrite app_nil_r|]. intros Hn.
  assert (e1 ∉ ys) as He1.
  { rewrite <- app_assoc in Hn. apply NoDup_app in Hn as (_ & _ & Hn). cbn in Hn. apply NoDup_cons in Hn as [Hn _].
    intros Hin. apply Hn. rewrite <- app_assoc. apply elem_of_app. by left. }
  unfold list_swap. replace (xs ++ e1 :: ys ++ e2 :: zs) with ((xs ++ e1 :: ys) ++ e2 :: zs) by (by rewrite <- app_assoc).
  eapply triple_bind; [apply get_before|]. eapply triple_bind; [apply list_del_spec|].
  rewrite <- app_assoc. cbn [app]. eapply triple_bind; [apply list_replace_spec|]. rewrite last_of_app.
  assert ((if last_of e1 ys =? e1 then e2 else last_of e1 ys) = last_of head (xs ++ e2 :: ys)) as ->.
  { rewrite last_of_app. destruct ys as [|y ys]; [cbn; by rewrite Z.eqb_refl|]. rewrite !last_of_cons.
    destruct (Z.eqb_spec (last_of y ys) e1) as [E|]; [|done]. exfalso. apply He1. rewrite <- E.
    rewrite <- (last_of_cons 0 y ys). destruct (last_of_in 0 (y :: ys)); done. }
  replace (xs ++ e2 :: ys ++ zs) with ((xs ++ e2 :: ys) ++ zs) by (by rewrite <- app_assoc).
  replace (xs ++ e2 :: ys ++ e1 :: zs) with ((xs ++ e2 :: ys) ++ e1 :: zs) by (by rewrite <- app_assoc).
  apply add_after_spec.
Qed.

Lemma list_swap_back head xs e1 ys e2 zs :
  triple (dlist head (xs ++ e2 :: ys ++ e1 :: zs)) (list_swap e1 e2) tt (dlist head (xs ++ e1 :: ys ++ e2 :: zs)).
Proof.
  apply (triple_nodup head (xs ++ e2 :: ys ++ e1 :: zs) _ _ _ _ []); [by rewrite app_nil_r|]. intros Hn.
  unfold list_swap. eapply triple_bind; [apply get_before|]. eapply triple_bind; [apply list_del_spec|].
  rewrite (app_assoc xs ys). eapply triple_bind; [apply list_replace_spec|].
  rewrite (proj2 (Z.eqb_neq (last_of head xs) e1)).
  - rewrite <- app_assoc. apply add_after_spec.
  - intros E. assert (e1 ∈ xs \/ e1 = head) as H.
    { destruct (last_of_in head xs) as [H| ->]; [left; by rewrite <- E|right; by rewrite <- E]. }
    rewrite <- app_assoc in Hn. apply NoDup_app in Hn as (_ & Hd & Hn). destruct H as [H| ->].
    + apply (Hd _ H). apply elem_of_app. left. right. apply elem_of_app. right. by left.
    + cbn in Hn. apply NoDup_cons in Hn as [_ Hn]. rewrite <- app_assoc in Hn. apply NoDup_app in Hn as (_ & _ & Hn).
      cbn in Hn. apply NoDup_cons in Hn as [Hn _]. apply Hn, elem_of_app. right. by left.
Qed.
