(* ===== verification/DListLoops.v ===== *)
(** * Iteration over linked lists

    The loops of [DList] visit the entries in order and end, given a turn for each; a safe
    loop's body may take its entry off the list. *)

From S2P Require Export DListThms.

Local Open Scope Z_scope.
Local Open Scope lprog_scope.

(** The nodes of entries whose links are at [member]. *)
Definition nodes (member : Z) (xs : list Z) : list Z := (fun x => x + member) <$> xs.

Lemma list_entry_node member x : list_entry (x + member) member = x.
Proof. unfold list_entry. lia. Qed.

Lemma node_list_entry member x : list_entry x member + member = x.
Proof. unfold list_entry. lia. Qed.

Lemma not_the_head (L : list Z) head : NoDup (L ++ [head]) -> head ∉ L.
Proof. intros Hn Hin. apply NoDup_app in Hn as (_ & Hn & _). apply (Hn head Hin). by left. Qed.

Section Loops.
Context {A : Type} (member head : Z).

(** The body's turns, and what they leave. *)
Context (f : Z -> A -> turn A) (R : A -> cells).

Fixpoint fold_turns (xs : list Z) (a : A) : A :=
  match xs with
  | [] => a
  | x :: xs => match f x a with Leave a => a | Go a => fold_turns xs a end
  end.

Notation nodes := (nodes member).

Lemma first_entry_spec xs : triple (dlist head (nodes xs)) (list_first_entry head member)
  (list_entry (first_of (nodes xs) head) member) (dlist head (nodes xs)).
Proof using. unfold list_first_entry. eapply triple_bind; [apply get_first|]. apply triple_ret. Qed.

Lemma last_entry_spec xs : triple (dlist head (nodes xs)) (list_last_entry head member)
  (list_entry (last_of head (nodes xs)) member) (dlist head (nodes xs)).
Proof using. unfold list_last_entry. eapply triple_bind; [apply get_last|]. apply triple_ret. Qed.

Lemma get_after x us vs :
  triple (dlist head (us ++ x :: vs)) (get x Next) (first_of vs head) (dlist head (us ++ x :: vs)).
Proof using.
  apply triple_get. unfold dlist. change (x :: vs) with ([x] ++ vs). rewrite chain_around.
  apply elem_of_app. right. apply elem_of_app. left. right. right. by left.
Qed.

Lemma get_next_in L us x vs : L = us ++ x :: vs -> triple (dlist head L) (get x Next) (first_of vs head) (dlist head L).
Proof using. intros ->. apply get_after. Qed.
Lemma get_prev_in L us x vs : L = us ++ x :: vs -> triple (dlist head L) (get x Prev) (last_of head us) (dlist head L).
Proof using. intros ->. apply get_before. Qed.

(** Forwards from the middle of the list. *)
Lemma forward_loop body L : forall fuel us xs a, us ++ nodes xs = L ->
  (forall x a, x + member ∈ L -> triple (dlist head L ++ R a) (body x a) (f x a) (dlist head L ++ R (left_with (f x a)))) ->
  (length xs <= fuel)%nat ->
  triple (dlist head L ++ R a)
    (entry_loop fuel Next head member (list_entry (first_of (nodes xs) head) member) body a) (fold_turns xs a)
    (dlist head L ++ R (fold_turns xs a)).
Proof using.
  intros fuel us xs. revert fuel us. induction xs as [|x xs IH]; intros fuel us a EL Hb Hf.
  { cbn. destruct fuel; cbn [entry_loop]; rewrite node_list_entry, Z.eqb_refl; apply triple_ret. }
  destruct fuel as [|fuel]; [cbn in Hf; lia|]. unfold DListLoops.nodes; cbn [fmap list_fmap first_of]. rewrite (list_entry_node member x).
  assert (x + member ∈ L) as Hx by (rewrite <- EL; apply elem_of_app; right; by left).
  apply (triple_nodup head L _ _ _ _ (R a)); [done|]. intros Hn.
  assert (x + member <> head) as Hne by (intros E; rewrite E in Hx; by apply (not_the_head L head Hn)).
  cbn [entry_loop fold_turns]. rewrite (proj2 (Z.eqb_neq _ _)) by done.
  eapply triple_bind; [by apply Hb|]. destruct (f x a) as [a'|a'] eqn:Ef; cbn [left_with]; [|apply triple_ret].
  eapply triple_bind; [apply triple_frame, (get_next_in L us _ (nodes xs)), eq_sym, EL|].
  apply (IH fuel (us ++ [x + member])); [by rewrite <- app_assoc|done|cbn in Hf; lia].
Qed.

(** A loop over a list visits its entries in order, each once, until
    the body leaves, and ends within a turn for each entry; the list is as before. *)
Lemma for_each_entry_visits body fuel xs a :
  (forall x a, x + member ∈ nodes xs ->
    triple (dlist head (nodes xs) ++ R a) (body x a) (f x a) (dlist head (nodes xs) ++ R (left_with (f x a)))) ->
  (length xs <= fuel)%nat ->
  triple (dlist head (nodes xs) ++ R a) (list_for_each_entry fuel head body member a) (fold_turns xs a)
    (dlist head (nodes xs) ++ R (fold_turns xs a)).
Proof using.
  intros Hb Hf. unfold list_for_each_entry. eapply triple_bind; [apply triple_frame, first_entry_spec|].
  by apply (forward_loop body _ _ []).
Qed.

(** Backwards. *)
Lemma backward_loop body L : forall fuel vs xs a, nodes (rev xs) ++ vs = L ->
  (forall x a, x + member ∈ L -> triple (dlist head L ++ R a) (body x a) (f x a) (dlist head L ++ R (left_with (f x a)))) ->
  (length xs <= fuel)%nat ->
  triple (dlist head L ++ R a)
    (entry_loop fuel Prev head member (list_entry (last_of head (nodes (rev xs))) member) body a) (fold_turns xs a)
    (dlist head L ++ R (fold_turns xs a)).
Proof using.
  intros fuel vs xs. revert fuel vs. induction xs as [|x xs IH]; intros fuel vs a EL Hb Hf.
  { cbn. destruct fuel; cbn [entry_loop]; rewrite node_list_entry, Z.eqb_refl; apply triple_ret. }
  destruct fuel as [|fuel]; [cbn in Hf; lia|]. cbn [rev].
  assert (nodes (rev xs ++ [x]) = nodes (rev xs) ++ [x + member]) as En by (unfold DListLoops.nodes; by rewrite fmap_app).
  cbn [rev] in EL. rewrite En, <- app_assoc in EL. cbn [app] in EL.
  rewrite En, last_of_app. cbn [last_of last default from_option id]. rewrite (list_entry_node member x).
  assert (x + member ∈ L) as Hx by (rewrite <- EL; apply elem_of_app; right; by left).
  apply (triple_nodup head L _ _ _ _ (R a)); [done|]. intros Hn.
  assert (x + member <> head) as Hne by (intros E; rewrite E in Hx; by apply (not_the_head L head Hn)).
  cbn [entry_loop fold_turns]. rewrite (proj2 (Z.eqb_neq _ _)) by done.
  eapply triple_bind; [by apply Hb|]. destruct (f x a) as [a'|a'] eqn:Ef; cbn [left_with]; [|apply triple_ret].
  eapply triple_bind; [apply triple_frame, (get_prev_in L (nodes (rev xs)) _ vs), eq_sym, EL|].
  by apply (IH fuel ((x + member) :: vs)); [| |cbn in Hf; lia].
Qed.

(** The whole list, backwards. *)
Lemma for_each_entry_reverse body fuel xs a :
  (forall x a, x + member ∈ nodes (rev xs) ->
    triple (dlist head (nodes (rev xs)) ++ R a) (body x a) (f x a) (dlist head (nodes (rev xs)) ++ R (left_with (f x a)))) ->
  (length xs <= fuel)%nat ->
  triple (dlist head (nodes (rev xs)) ++ R a) (list_for_each_entry_reverse fuel head body member a) (fold_turns xs a)
    (dlist head (nodes (rev xs)) ++ R (fold_turns xs a)).
Proof using.
  intros Hb Hf. unfold list_for_each_entry_reverse. eapply triple_bind; [apply triple_frame, last_entry_spec|].
  apply (backward_loop body _ _ []); [by rewrite app_nil_r|done..].
Qed.

(** A safe loop, whose body may take its entry off the list: [del] says when it does. *)
Context (del : Z -> A -> bool).

Fixpoint kept (xs : list Z) (a : A) : list Z :=
  match xs with
  | [] => []
  | x :: xs => (if del x a then [] else [x]) ++ match f x a with Leave _ => xs | Go a => kept xs a end
  end.

Lemma get_first_of us vs :
  triple (dlist head (us ++ vs)) (get (first_of vs head) Next)
    (match vs with [] => first_of us head | _ :: vs => first_of vs head end) (dlist head (us ++ vs)).
Proof using.
  destruct vs as [|v vs]; [|apply get_after]. rewrite app_nil_r. apply get_first.
Qed.

Lemma safe_loop body : forall xs fuel us n a,
  (forall us x vs a, x ∈ xs -> triple (dlist head (us ++ (x + member) :: vs) ++ R a) (body x a) (f x a)
    (dlist head (us ++ nodes (if del x a then [] else [x]) ++ vs) ++ R (left_with (f x a)))) ->
  (forall x xs', xs = x :: xs' -> n = list_entry (first_of (nodes xs') head) member) ->
  (length xs <= fuel)%nat ->
  triple (dlist head (us ++ nodes xs) ++ R a)
    (entry_loop_safe fuel Next head member (list_entry (first_of (nodes xs) head) member) n body a) (fold_turns xs a)
    (dlist head (us ++ nodes (kept xs a)) ++ R (fold_turns xs a)).
Proof using.
  induction xs as [|x xs IH]; intros fuel us n a Hb Hn' Hf.
  { cbn. destruct fuel; cbn [entry_loop_safe]; rewrite node_list_entry, Z.eqb_refl; apply triple_ret. }
  destruct fuel as [|fuel]; [cbn in Hf; lia|]. rewrite (Hn' x xs) by done.
  unfold DListLoops.nodes at 1 2. cbn [fmap list_fmap first_of]. fold (nodes xs). rewrite (list_entry_node member x).
  apply (triple_nodup head (us ++ nodes (x :: xs)) _ _ _ _ (R a)); [done|]. intros Hn.
  assert (x + member <> head) as Hne
    by (intros E; apply (not_the_head _ _ Hn); rewrite <- E; apply elem_of_app; right; by left).
  cbn [entry_loop_safe fold_turns kept]. rewrite (proj2 (Z.eqb_neq _ _)) by done.
  eapply triple_bind; [apply Hb; by left|].
  assert (forall l, nodes ((if del x a then [] else [x]) ++ l) = nodes (if del x a then [] else [x]) ++ nodes l) as En
    by (intros l; unfold DListLoops.nodes; by rewrite fmap_app).
  destruct (f x a) as [a'|a'] eqn:Ef; cbn [left_with]; [|rewrite En; apply triple_ret].
  rewrite node_list_entry, app_assoc. eapply triple_bind; [apply triple_frame, get_first_of|].
  rewrite En, app_assoc. apply IH; [intros us' y vs a'' Hy; apply Hb; by right| |cbn in Hf; lia].
  intros y ys ->. done.
Qed.

Lemma for_each_entry_safe body fuel xs a :
  (forall us x vs a, x ∈ xs -> triple (dlist head (us ++ (x + member) :: vs) ++ R a) (body x a) (f x a)
    (dlist head (us ++ nodes (if del x a then [] else [x]) ++ vs) ++ R (left_with (f x a)))) ->
  (length xs <= fuel)%nat ->
  triple (dlist head (nodes xs) ++ R a) (list_for_each_entry_safe fuel head body member a) (fold_turns xs a)
    (dlist head (nodes (kept xs a)) ++ R (fold_turns xs a)).
Proof using.
  intros Hb Hf. unfold list_for_each_entry_safe. eapply triple_bind; [apply triple_frame, first_entry_spec|].
  unfold list_next_entry. rewrite node_list_entry. apply triple_assoc.
  eapply triple_bind; [apply triple_frame, (get_first_of [])|]. eapply triple_bind; [apply triple_ret|].
  apply (safe_loop body xs fuel []); [done| |done]. by intros x xs' ->.
Qed.
End Loops.
