(* ===== verification/DListRefine.v ===== *)
(** * Linked lists as lists

    What [list.h] promises: its operations are those of lists.  A state has lists, each
    with its head, and nodes on no list; [list_step] says what an operation answers and
    leaves.  The operations on the heap do the same. *)

From S2P Require Export DListLoops.

Local Open Scope Z_scope.
Local Open Scope lprog_scope.

Inductive list_obj :=
| Lst (head : Z) (xs : list Z)
| Loose (p n q : Z).

Definition world : Type := list list_obj.

Inductive list_op :=
| Init (p : Z) | Add (new head : Z) | AddTail (new head : Z)
| Del (e : Z) | DelInit (e : Z) | DelClearprev (e : Z)
| Replace (old new : Z) | ReplaceInit (old new : Z) | Swap (e1 e2 : Z)
| Move (e head : Z) | MoveTail (e head : Z) | BulkMoveTail (head first last : Z)
| RotateLeft (head : Z) | RotateToFront (e head : Z)
| CutPosition (dst head e : Z) | CutBefore (dst head e : Z)
| Splice (src head : Z) | SpliceTail (src head : Z) | SpliceInit (src head : Z) | SpliceTailInit (src head : Z)
| IsFirst (e head : Z) | IsLast (e head : Z) | Empty (head : Z) | EmptyCareful (head : Z) | Singular (head : Z)
| First (head : Z) | Walk (fuel : nat) (head : Z) | WalkBack (fuel : nat) (head : Z)
| Drain (fuel : nat) (head : Z).

Inductive answer := Done | Says (b : bool) | Gives (xs : list Z).

(** ** On the heap *)

Definition acts (m : lprog unit) : lprog answer := let% _ := m in lret Done.
Definition says (m : lprog bool) : lprog answer := let% b := m in lret (Says b).
Definition gives (m : lprog (list Z)) : lprog answer := let% xs := m in lret (Gives xs).

(** Bodies of loops: to note the entry, and to take it off its list. *)
Definition note (x : Z) (acc : list Z) : lprog (turn (list Z)) := lret (Go (acc ++ [x])).
Definition take_off (x : Z) (acc : list Z) : lprog (turn (list Z)) :=
  let% _ := list_del_init x in lret (Go (acc ++ [x])).

Definition run_op (o : list_op) : lprog answer :=
  match o with
  | Init p => acts (INIT_LIST_HEAD p)
  | Add new head => acts (list_add new head)
  | AddTail new head => acts (list_add_tail new head)
  | Del e => acts (list_del e)
  | DelInit e => acts (list_del_init e)
  | DelClearprev e => acts (__list_del_clearprev e)
  | Replace old new => acts (list_replace old new)
  | ReplaceInit old new => acts (list_replace_init old new)
  | Swap e1 e2 => acts (list_swap e1 e2)
  | Move e head => acts (list_move e head)
  | MoveTail e head => acts (list_move_tail e head)
  | BulkMoveTail head first last => acts (list_bulk_move_tail head first last)
  | RotateLeft head => acts (list_rotate_left head)
  | RotateToFront e head => acts (list_rotate_to_front e head)
  | CutPosition dst head e => acts (list_cut_position dst head e)
  | CutBefore dst head e => acts (list_cut_before dst head e)
  | Splice src head => acts (list_splice src head)
  | SpliceTail src head => acts (list_splice_tail src head)
  | SpliceInit src head => acts (list_splice_init src head)
  | SpliceTailInit src head => acts (list_splice_tail_init src head)
  | IsFirst e head => says (list_is_first e head)
  | IsLast e head => says (list_is_last e head)
  | Empty head => says (list_empty head)
  | EmptyCareful head => says (list_empty_careful head)
  | Singular head => says (list_is_singular head)
  | First head => gives (let% x := list_first_entry_or_null head 0 in lret [x])
  | Walk fuel head => gives (list_for_each_entry fuel head note 0 [])
  | WalkBack fuel head => gives (list_for_each_entry_reverse fuel head note 0 [])
  | Drain fuel head => gives (list_for_each_entry_safe fuel head take_off 0 [])
  end.

Fixpoint run_ops (os : list list_op) : lprog (list answer) :=
  match os with
  | [] => lret []
  | o :: os =>
      let% a := run_op o in
      let% answers := run_ops os in
      lret (a :: answers)
  end.

(** ** On lists *)

(** The fields a node keeps when it leaves between its neighbours. *)
Definition left_of (head : Z) (xs ys : list Z) (e : Z) : list_obj := Loose e (first_of ys head) (last_of head xs).

Inductive list_step : world -> list_op -> answer -> world -> Prop :=
| s_init p n q : list_step [Loose p n q] (Init p) Done [Lst p []]
| s_add new n q head xs : list_step [Lst head xs; Loose new n q] (Add new head) Done [Lst head (new :: xs)]
| s_add_tail new n q head xs : list_step [Lst head xs; Loose new n q] (AddTail new head) Done [Lst head (xs ++ [new])]
| s_del e head xs ys :
    list_step [Lst head (xs ++ e :: ys)] (Del e) Done [Lst head (xs ++ ys); Loose e LIST_POISON1 LIST_POISON2]
| s_del_init e head xs ys : list_step [Lst head (xs ++ e :: ys)] (DelInit e) Done [Lst head (xs ++ ys); Lst e []]
| s_del_clearprev e head xs ys :
    list_step [Lst head (xs ++ e :: ys)] (DelClearprev e) Done [Lst head (xs ++ ys); Loose e (first_of ys head) 0]
| s_replace old new n q head xs ys :
    list_step [Lst head (xs ++ old :: ys); Loose new n q] (Replace old new) Done
      [Lst head (xs ++ new :: ys); left_of head xs ys old]
| s_replace_init old new n q head xs ys :
    list_step [Lst head (xs ++ old :: ys); Loose new n q] (ReplaceInit old new) Done
      [Lst head (xs ++ new :: ys); Lst old []]
| s_swap head xs e1 ys e2 zs :
    list_step [Lst head (xs ++ e1 :: ys ++ e2 :: zs)] (Swap e1 e2) Done [Lst head (xs ++ e2 :: ys ++ e1 :: zs)]
| s_swap_back head xs e1 ys e2 zs :
    list_step [Lst head (xs ++ e2 :: ys ++ e1 :: zs)] (Swap e1 e2) Done [Lst head (xs ++ e1 :: ys ++ e2 :: zs)]
| s_move e head xs ys head2 zs :
    list_step [Lst head (xs ++ e :: ys); Lst head2 zs] (Move e head2) Done [Lst head (xs ++ ys); Lst head2 (e :: zs)]
| s_move_within e head xs ys :
    list_step [Lst head (xs ++ e :: ys)] (Move e head) Done [Lst head (e :: xs ++ ys)]
| s_move_tail e head xs ys head2 zs :
    list_step [Lst head (xs ++ e :: ys); Lst head2 zs] (MoveTail e head2) Done
      [Lst head (xs ++ ys); Lst head2 (zs ++ [e])]
| s_move_tail_within e head xs ys :
    list_step [Lst head (xs ++ e :: ys)] (MoveTail e head) Done [Lst head (xs ++ ys ++ [e])]
| s_bulk_move_tail head xs m ms ys :
    list_step [Lst head (xs ++ (m :: ms) ++ ys)] (BulkMoveTail head m (last_of m ms)) Done
      [Lst head (xs ++ ys ++ (m :: ms))]
| s_rotate_left head xs : list_step [Lst head xs] (RotateLeft head) Done [Lst head (drop 1 xs ++ take 1 xs)]
| s_rotate_to_front e head xs ys :
    list_step [Lst head (xs ++ e :: ys)] (RotateToFront e head) Done [Lst head (e :: ys ++ xs)]
| s_cut_position dst n q head xs e ys :
    list_step [Lst head (xs ++ e :: ys); Loose dst n q] (CutPosition dst head e) Done
      [Lst dst (xs ++ [e]); Lst head ys]
| s_cut_position_head dst n q head x xs :
    list_step [Lst head (x :: xs); Loose dst n q] (CutPosition dst head head) Done [Lst dst []; Lst head (x :: xs)]
| s_cut_position_empty dst head e : list_step [Lst head []] (CutPosition dst head e) Done [Lst head []]
| s_cut_before dst n q head xs e ys :
    list_step [Lst head (xs ++ e :: ys); Loose dst n q] (CutBefore dst head e) Done [Lst dst xs; Lst head (e :: ys)]
| s_cut_before_head dst n q head xs :
    list_step [Lst head xs; Loose dst n q] (CutBefore dst head head) Done [Lst dst xs; Lst head []]
| s_splice src xs head ys :
    list_step [Lst src xs; Lst head ys] (Splice src head) Done [Lst head (xs ++ ys); left_of src xs xs src]
| s_splice_tail src xs head ys :
    list_step [Lst src xs; Lst head ys] (SpliceTail src head) Done [Lst head (ys ++ xs); left_of src xs xs src]
| s_splice_init src xs head ys :
    list_step [Lst src xs; Lst head ys] (SpliceInit src head) Done [Lst head (xs ++ ys); Lst src []]
| s_splice_tail_init src xs head ys :
    list_step [Lst src xs; Lst head ys] (SpliceTailInit src head) Done [Lst head (ys ++ xs); Lst src []]
| s_is_first e head xs ys :
    list_step [Lst head (xs ++ e :: ys)] (IsFirst e head) (Says (bool_decide (xs = []))) [Lst head (xs ++ e :: ys)]
| s_is_last e head xs ys :
    list_step [Lst head (xs ++ e :: ys)] (IsLast e head) (Says (bool_decide (ys = []))) [Lst head (xs ++ e :: ys)]
| s_empty head xs : list_step [Lst head xs] (Empty head) (Says (bool_decide (xs = []))) [Lst head xs]
| s_empty_careful head xs : list_step [Lst head xs] (EmptyCareful head) (Says (bool_decide (xs = []))) [Lst head xs]
| s_singular head xs : list_step [Lst head xs] (Singular head) (Says (bool_decide (length xs = 1%nat))) [Lst head xs]
| s_first head xs : list_step [Lst head xs] (First head) (Gives [first_of xs 0]) [Lst head xs]
| s_walk fuel head xs : (length xs <= fuel)%nat -> list_step [Lst head xs] (Walk fuel head) (Gives xs) [Lst head xs]
| s_walk_back fuel head xs : (length xs <= fuel)%nat ->
    list_step [Lst head xs] (WalkBack fuel head) (Gives (rev xs)) [Lst head xs]
| s_drain fuel head xs : (length xs <= fuel)%nat ->
    list_step [Lst head xs] (Drain fuel head) (Gives xs) (Lst head [] :: ((fun x => Lst x []) <$> xs))
(** Whatever else there is stays, and the order of the objects is of no matter. *)
| s_among W o a W' V V' : list_step W o a W' -> V ≡ₚ W ++ V' -> list_step V o a (W' ++ V').

Inductive list_steps : world -> list list_op -> list answer -> world -> Prop :=
| steps_nil W : list_steps W [] [] W
| steps_cons W o a W' os answers W'' :
    list_step W o a W' -> list_steps W' os answers W'' -> list_steps W (o :: os) (a :: answers) W''.

(** ** They agree *)

Definition obj_cells (b : list_obj) : cells :=
  match b with Lst head xs => dlist head xs | Loose p n q => node p n q end.
Definition world_cells (W : world) : cells := W ≫= obj_cells.

#[export] Instance world_cells_proper : Proper ((≡ₚ) ==> (≡ₚ)) world_cells.
Proof. intros V W E. unfold world_cells. by rewrite E. Qed.

Lemma world_cells_one b : world_cells [b] = obj_cells b.
Proof. apply app_nil_r. Qed.
Lemma world_cells_two b c : world_cells [b; c] = obj_cells b ++ obj_cells c.
Proof. unfold world_cells. cbn [mbind list_bind]. by rewrite app_nil_r. Qed.

Lemma acts_spec P m Q : triple P m tt Q -> triple P (acts m) Done Q.
Proof. intros H. eapply triple_bind; [exact H|apply triple_ret]. Qed.
Lemma says_spec P m b Q : triple P m b Q -> triple P (says m) (Says b) Q.
Proof. intros H. eapply triple_bind; [exact H|apply triple_ret]. Qed.
Lemma gives_spec P m xs Q : triple P m xs Q -> triple P (gives m) (Gives xs) Q.
Proof. intros H. eapply triple_bind; [exact H|apply triple_ret]. Qed.

Lemma nodes_0 xs : nodes 0 xs = xs.
Proof. unfold nodes. induction xs as [|x xs IH]; [done|]. cbn [fmap list_fmap]. by rewrite IH, Z.add_0_r. Qed.

Lemma note_all xs acc : fold_turns (fun x acc => Go (acc ++ [x])) xs acc = acc ++ xs.
Proof.
  revert acc. induction xs as [|x xs IH]; intros acc; cbn [fold_turns]; [by rewrite app_nil_r|]. by rewrite IH, <- app_assoc.
Qed.

Lemma take_off_all xs acc : kept (fun x acc => Go (acc ++ [x])) (fun _ (_ : list Z) => true) xs acc = [].
Proof. revert acc. induction xs as [|x xs IH]; intros acc; cbn; [done|]. by apply IH. Qed.

Lemma walk_spec fuel head xs : (length xs <= fuel)%nat ->
  triple (dlist head xs) (list_for_each_entry fuel head note 0 []) xs (dlist head xs).
Proof.
  intros Hf. pose proof (for_each_entry_visits 0 head (fun x acc => Go (acc ++ [x])) (fun _ => []) note fuel xs []) as H.
  rewrite note_all, nodes_0, !app_nil_r in H. apply H; [|done]. intros x a _. apply triple_ret.
Qed.

Lemma walk_back_spec fuel head xs : (length xs <= fuel)%nat ->
  triple (dlist head xs) (list_for_each_entry_reverse fuel head note 0 []) (rev xs) (dlist head xs).
Proof.
  intros Hf. pose proof (for_each_entry_reverse 0 head (fun x acc => Go (acc ++ [x])) (fun _ => []) note fuel (rev xs) []) as H.
  rewrite note_all, nodes_0, rev_involutive, !app_nil_r in H. apply H; [|by rewrite length_rev]. intros x a _. apply triple_ret.
Qed.

Lemma drain_spec fuel head xs : (length xs <= fuel)%nat ->
  triple (dlist head xs) (list_for_each_entry_safe fuel head take_off 0 []) xs
    (dlist head [] ++ world_cells ((fun x => Lst x []) <$> xs)).
Proof.
  intros Hf. set (R := fun acc => world_cells ((fun x => Lst x []) <$> acc)).
  pose proof (for_each_entry_safe 0 head (fun x acc => Go (acc ++ [x])) R (fun _ _ => true) take_off fuel xs []) as H.
  rewrite note_all, take_off_all, !nodes_0 in H. cbn [app] in H. unfold R at 2 in H. cbn [fmap list_fmap] in H.
  change (world_cells []) with (@nil (Z * link * Z)) in H. rewrite app_nil_r in H. apply H; [|done].
  intros us x vs a _. rewrite Z.add_0_r. unfold take_off. cbn [left_with].
  eapply triple_bind; [apply triple_frame, list_del_init_spec|].
  eapply triple_perm; [reflexivity| |apply triple_ret]. subst R. cbn beta. unfold world_cells.
  rewrite fmap_app, bind_app. cbn. solve_Permutation.
Qed.

Lemma first_spec head xs :
  triple (dlist head xs) (let% x := list_first_entry_or_null head 0 in lret [x]) [first_of xs 0] (dlist head xs).
Proof.
  apply (triple_nodup head xs _ _ _ _ []); [by rewrite app_nil_r|]. intros Hn. unfold list_first_entry_or_null.
  apply triple_assoc. eapply triple_bind; [apply get_first|]. rewrite (first_head head xs Hn).
  eapply triple_bind; [apply triple_ret|]. case_bool_decide as E; [subst; apply triple_ret|].
  destruct xs as [|x xs]; [done|]. cbn. unfold list_entry. rewrite Z.sub_0_r. apply triple_ret.
Qed.

Create HintDb list_specs.
#[local] Hint Resolve init_spec list_add_spec list_add_tail_spec list_del_spec list_del_init_spec del_clearprev_spec
  list_replace_spec list_replace_init_spec list_swap_spec list_swap_back list_move_spec list_move_within
  list_move_tail_spec list_move_tail_within bulk_move_tail_spec rotate_left_spec rotate_to_front_spec
  list_cut_position_spec list_cut_position_head list_cut_position_empty list_cut_before_spec list_cut_before_head
  list_splice_spec list_splice_tail_spec list_splice_init_spec list_splice_tail_init_spec
  is_first_spec is_last_spec empty_spec empty_careful_spec singular_spec first_spec walk_spec walk_back_spec : list_specs.

Lemma list_step_refines W o a W' : list_step W o a W' -> triple (world_cells W) (run_op o) a (world_cells W').
Proof.
  induction 1; rewrite ?world_cells_one, ?world_cells_two; cbn [obj_cells run_op left_of];
    try (first [apply acts_spec|apply says_spec|apply gives_spec]; auto with nocore list_specs; fail).
  - apply gives_spec. by apply drain_spec.
  - unfold world_cells in *. rewrite H0, !bind_app. by apply triple_frame.
Qed.

(** C24 (refinement): the functions and loops of [list.h] are operations on lists.  For any
    sequence of additions, removals, replacements, swaps, moves, rotations, cuts, splices,
    queries and loops over any number of lists, on a heap that holds them, the run faults
    nowhere and ends; it gives the answers that lists give and leaves a heap that holds
    the lists that result, with nothing else changed. *)
Theorem list_ops_refine W os answers W' F h : list_steps W os answers W' -> sat h (world_cells W ++ F) ->
  exists h', run_ops os h = Some (answers, h') /\ sat h' (world_cells W' ++ F).
Proof.
  intros Hs. revert F h. change (triple (world_cells W) (run_ops os) answers (world_cells W')).
  induction Hs as [W|W o a W' os answers W'' Hs _ IH]; cbn [run_ops]; [apply triple_ret|].
  eapply triple_bind; [by apply list_step_refines|]. eapply triple_bind; [exact IH|]. apply triple_ret.
Qed.

(** Two lists, three nodes: added, walked, swapped, moved, joined, removed. *)
Definition ex_world : world := [Lst 16 []; Lst 32 []; Loose 48 0 0; Loose 64 0 0; Loose 80 0 0].
Definition ex_ops : list list_op :=
  [AddTail 48 16; AddTail 64 16; Add 80 16; Walk 3 16; Swap 80 64; WalkBack 3 16; Move 48 32; Singular 32;
   SpliceTailInit 32 16; RotateLeft 16; Del 80; Walk 3 16; Empty 32; Drain 3 16; Empty 16].
Definition ex_answers : list answer :=
  [Done; Done; Done; Gives [80; 48; 64]; Done; Gives [80; 48; 64]; Done; Says true; Done; Done; Done; Gives [48; 64];
   Says true; Gives [48; 64]; Says true].

(** A step by a rule, beside the rest of the state. *)
Ltac op_step rule rest := eapply steps_cons; [eapply (s_among _ _ _ _ _ rest rule); solve_Permutation|cbn].

Lemma list_ops_refine_witness : exists h',
  run_ops ex_ops (list_to_map (world_cells ex_world)) = Some (ex_answers, h') /\
  sat h' (world_cells [Lst 16 []; Lst 48 []; Lst 64 []; Loose 80 LIST_POISON1 LIST_POISON2; Lst 32 []]).
Proof.
  assert (sat (list_to_map (world_cells ex_world)) (world_cells ex_world)) as Hs
    by (apply sat_of_cells; apply (bool_decide_unpack _); by vm_compute).
  rewrite <- (app_nil_r (world_cells ex_world)) in Hs.
  rewrite <- (app_nil_r (world_cells [Lst 16 []; Lst 48 []; Lst 64 []; Loose 80 LIST_POISON1 LIST_POISON2; Lst 32 []])).
  refine (list_ops_refine _ _ _ _ [] _ _ Hs). unfold ex_world, ex_ops, ex_answers.
  op_step (s_add_tail 48 0 0 16 []) [Lst 32 []; Loose 64 0 0; Loose 80 0 0].
  op_step (s_add_tail 64 0 0 16 [48]) [Lst 32 []; Loose 80 0 0].
  op_step (s_add 80 0 0 16 [48; 64]) [Lst 32 []].
  op_step (s_walk 3 16 [80; 48; 64] ltac:(cbn; lia)) [Lst 32 []].
  op_step (s_swap 16 [] 80 [48] 64 []) [Lst 32 []].
  op_step (s_walk_back 3 16 [64; 48; 80] ltac:(cbn; lia)) [Lst 32 []].
  op_step (s_move 48 16 [64] [80] 32 []) ([] : world).
  op_step (s_singular 32 [48]) [Lst 16 [64; 80]].
  op_step (s_splice_tail_init 32 [48] 16 [64; 80]) ([] : world).
  op_step (s_rotate_left 16 [64; 80; 48]) [Lst 32 []].
  op_step (s_del 80 16 [] [48; 64]) [Lst 32 []].
  op_step (s_walk 3 16 [48; 64] ltac:(cbn; lia)) [Loose 80 LIST_POISON1 LIST_POISON2; Lst 32 []].
  op_step (s_empty 32 []) [Lst 16 [48; 64]; Loose 80 LIST_POISON1 LIST_POISON2].
  op_step (s_drain 3 16 [48; 64] ltac:(cbn; lia)) [Loose 80 LIST_POISON1 LIST_POISON2; Lst 32 []].
  op_step (s_empty 16 []) [Lst 48 []; Lst 64 []; Loose 80 LIST_POISON1 LIST_POISON2; Lst 32 []].
  apply steps_nil.
Defined.
