(* ===== verification/DevLists.v ===== *)
(** * The device server's areas as linked lists ([nfp_cpp_dev_ops.c])

    [CppDev] has the registered areas as a list.  Here they are as in the code: records
    linked through [req_list], checked, placed, added and released with the loops and
    operations of [list.h].  The two agree. *)

From S2P Require Export DListLoops CppDev CppCoreThms.

Local Open Scope Z_scope.
Local Open Scope lprog_scope.

(** The offsets of the links in [struct nfp_dev_cpp_area] ([nfp_cpp_dev.h]). *)
Definition off_req_list : Z := 48.
Definition off_area_list : Z := 72.
Definition off_vma : Z := 88.

Section Server.
(** The requests that the records at addresses hold, and the head of the list. *)
Context (req : Z -> nfp_cpp_area_request) (req_list : Z).

Definition range_check_list (fuel : nat) (area_req : nfp_cpp_area_request) : lprog Z :=
  list_for_each_entry fuel req_list
    (fun area a => lret (if areas_collide (req area) area_req then Leave (- ETXTBSY) else Go a)) off_req_list 0.

(** [list_for_each_entry] of [do_cpp_area_request], which calls the check on the list it
    walks. *)
Definition place_list (fuel : nat) (err : Z) (area_req : nfp_cpp_area_request) : lprog (Z * nfp_cpp_area_request) :=
  list_for_each_entry fuel req_list
    (fun area a =>
       let area_req := set_offset (u64 (ar_offset (req area) + ar_size (req area))) a.2 in
       let% err := range_check_list fuel area_req in
       lret (if err =? 0 then Leave (err, area_req) else Go (err, area_req))) off_req_list (err, area_req).

(** The links that [nfp_dev_cpp_area_alloc] sets. *)
Definition area_link (area : Z) : lprog unit :=
  let% _ := list_add_tail (area + off_req_list) req_list in
  let% _ := INIT_LIST_HEAD (area + off_vma) in
  let% _ := INIT_LIST_HEAD (area + off_area_list) in
  list_del (area + off_area_list).

Definition area_unlink (area : Z) : lprog unit := list_del (area + off_req_list).

(** [do_cpp_area_release]: its loop. *)
Definition release_list (fuel : nat) (area_req : nfp_cpp_area_request) : lprog Z :=
  list_for_each_entry_safe fuel req_list
    (fun area err =>
       if ar_offset (req area) =? ar_offset area_req then
         let% e := list_empty (area + off_vma) in
         let err := if e : bool then 0 else - EBUSY in
         let% _ := (if err =? 0 then area_unlink area else lret tt) in
         lret (Leave err)
       else lret (Go err)) off_req_list (- ENOENT).

(** ** They are the list functions *)

Notation nodes := (nodes off_req_list).

Context {P : Type} (record : Z -> nfp_dev_cpp_area (P := P)).
Hypothesis record_req : forall area, da_req (record area) = req area.

(** A loop whose body leaves the list alone. *)
Lemma visits {A} (f : Z -> A -> turn A) body fuel xs a :
  (forall x a, x + off_req_list ∈ nodes xs -> triple (dlist req_list (nodes xs)) (body x a) (f x a) (dlist req_list (nodes xs))) ->
  (length xs <= fuel)%nat ->
  triple (dlist req_list (nodes xs)) (list_for_each_entry fuel req_list body off_req_list a) (fold_turns f xs a)
    (dlist req_list (nodes xs)).
Proof using.
  intros Hb Hf. unfold list_for_each_entry. eapply triple_bind; [apply first_entry_spec|].
  pose proof (forward_loop off_req_list req_list f (fun _ => []) body (nodes xs) fuel [] xs a eq_refl) as H.
  rewrite !app_nil_r in H. apply H; [|done]. intros x a' Hx. by apply Hb.
Qed.

Lemma range_check_list_spec fuel xs area_req : (length xs <= fuel)%nat ->
  triple (dlist req_list (nodes xs)) (range_check_list fuel area_req)
    (nfp_dev_cpp_range_check (record <$> xs) area_req) (dlist req_list (nodes xs)).
Proof using record_req.
  intros Hf. unfold range_check_list.
  assert (forall a, a = 0 -> nfp_dev_cpp_range_check (record <$> xs) area_req =
    fold_turns (fun area a => if areas_collide (req area) area_req then Leave (- ETXTBSY) else Go a) xs a) as E.
  { clear Hf. induction xs as [|x xs IH]; intros a ->; [done|]. cbn. rewrite record_req.
    destruct (areas_collide _ _); [done|]. by apply IH. }
  rewrite (E 0) by done. apply visits; [|done]. intros area a _. apply triple_ret.
Qed.

Lemma place_list_spec fuel xs err area_req : (length xs <= fuel)%nat ->
  triple (dlist req_list (nodes xs)) (place_list fuel err area_req)
    (place_loop (record <$> xs) (record <$> xs) err area_req) (dlist req_list (nodes xs)).
Proof using record_req.
  intros Hf. unfold place_list.
  set (turn_of := fun (area : Z) (a : Z * nfp_cpp_area_request) =>
    let area_req := set_offset (u64 (ar_offset (req area) + ar_size (req area))) a.2 in
    let err := nfp_dev_cpp_range_check (record <$> xs) area_req in
    if err =? 0 then Leave (err, area_req) else Go (err, area_req)).
  assert (forall ys e r, place_loop (record <$> ys) (record <$> xs) e r = fold_turns turn_of ys (e, r)) as ->.
  { induction ys as [|y ys IH]; intros e r; [done|]. cbn [fmap list_fmap place_loop fold_turns]. rewrite record_req.
    unfold turn_of at 1. cbn [snd]. destruct (_ =? 0); [done|]. apply IH. }
  apply visits; [|done]. intros x a _. eapply triple_bind; [by apply range_check_list_spec|]. apply triple_ret.
Qed.

Lemma area_link_spec xs area n q n1 q1 n2 q2 :
  triple (dlist req_list (nodes xs) ++ node (area + off_req_list) n q ++ node (area + off_vma) n1 q1 ++
          node (area + off_area_list) n2 q2) (area_link area) tt
    (dlist req_list (nodes (xs ++ [area])) ++ dlist (area + off_vma) [] ++
     node (area + off_area_list) LIST_POISON1 LIST_POISON2).
Proof using.
  unfold area_link. lcall list_add_tail_spec (node (area + off_vma) n1 q1 ++ node (area + off_area_list) n2 q2).
  lcall (init_spec (area + off_vma)) (dlist req_list (nodes xs ++ [area + off_req_list]) ++ node (area + off_area_list) n2 q2).
  lcall (init_spec (area + off_area_list)) (dlist (area + off_vma) [] ++ dlist req_list (nodes xs ++ [area + off_req_list])).
  replace (nodes (xs ++ [area])) with (nodes xs ++ [area + off_req_list]) by (unfold DListLoops.nodes; by rewrite fmap_app).
  unfold list_del, __list_del_entry, __list_del. generalize (dlist req_list (nodes xs ++ [area + off_req_list])). intros C.
  cells. lred. lsteps.
Qed.

(** The windows mapped from an area: lists of their own. *)
Context (vmas : Z -> list Z).
Definition vma_cells (xs : list Z) : cells := xs ≫= fun x => dlist (x + off_vma) (vmas x).
Hypothesis record_vmas : forall area, da_vmas (record area) = [] <-> vmas area = [].

Lemma vma_empty x xs : x ∈ xs ->
  triple (vma_cells xs) (list_empty (x + off_vma)) (bool_decide (vmas x = [])) (vma_cells xs).
Proof using.
  intros (l1 & l2 & ->)%list_elem_of_split. unfold vma_cells. rewrite bind_app, bind_cons.
  lcall empty_spec ((l1 ≫= fun x => dlist (x + off_vma) (vmas x)) ++ (l2 ≫= fun x => dlist (x + off_vma) (vmas x))).
Qed.

(** The release on addresses: its result and the areas left. *)
Definition released (xs : list Z) (area_req : nfp_cpp_area_request) : Z * list Z :=
  match list_find (fun area => ar_offset (req area) = ar_offset area_req) xs with
  | None => (- ENOENT, xs)
  | Some (i, area) => if bool_decide (vmas area = []) then (0, delete i xs) else (- EBUSY, xs)
  end.

Lemma release_list_spec fuel xs area_req : (length xs <= fuel)%nat ->
  triple (dlist req_list (nodes xs) ++ vma_cells xs) (release_list fuel area_req) (released xs area_req).1
    (dlist req_list (nodes (released xs area_req).2) ++ vma_cells xs).
Proof using.
  intros Hf.
  set (f := fun (area err : Z) => if ar_offset (req area) =? ar_offset area_req
    then Leave (if bool_decide (vmas area = []) then 0 else - EBUSY) else Go err).
  set (del := fun (area err : Z) => (ar_offset (req area) =? ar_offset area_req) && bool_decide (vmas area = [])).
  assert (forall ys, fold_turns f ys (- ENOENT) = (released ys area_req).1 /\ kept f del ys (- ENOENT) = (released ys area_req).2) as E.
  { induction ys as [|y ys [IH1 IH2]]; [done|]. unfold released in *. cbn [fold_turns kept list_find]. subst f del. cbn beta.
    destruct (Z.eqb_spec (ar_offset (req y)) (ar_offset area_req)) as [Ey|Ny].
    - rewrite decide_True by done. cbn [andb]. by destruct (bool_decide (vmas y = [])).
    - rewrite decide_False by done. cbn [andb app]. rewrite IH1, IH2.
      destruct (list_find _ ys) as [[i x]|]; [|done]. cbn. by destruct (bool_decide (vmas x = [])). }
  destruct (E xs) as [<- <-]. apply (for_each_entry_safe off_req_list req_list f (fun _ => vma_cells xs) del); [|done].
  intros us x vs a Hx. subst f del. cbn beta. destruct (_ =? _); [|apply triple_ret]. cbn [andb left_with].
  lcall (vma_empty x xs Hx) (dlist req_list (us ++ (x + off_req_list) :: vs)).
  case_bool_decide; cbn.
  - eapply triple_bind; [|apply triple_ret]. apply (triple_drop (node (x + off_req_list) LIST_POISON1 LIST_POISON2)).
    lcall list_del_spec (vma_cells xs).
  - eapply triple_bind; [apply triple_ret|]. eapply triple_perm; [reflexivity| |apply triple_ret]. apply Permutation_app_comm.
Qed.

(** The request of a registered area, all its fields alike, is a release of that area,
    if no area before it has the offset. *)
Lemma released_matching l1 x l2 area_req : req x = area_req ->
  Forall (fun y => ar_offset (req y) <> ar_offset area_req) l1 ->
  released (l1 ++ x :: l2) area_req = if bool_decide (vmas x = []) then (0, l1 ++ l2) else (- EBUSY, l1 ++ x :: l2).
Proof using.
  intros Hx Hl. unfold released. rewrite list_find_app_r by (by apply list_find_None).
  cbn [list_find]. rewrite decide_True by (by rewrite Hx). cbn [fmap option_fmap option_map prod_map fst snd].
  destruct (decide (vmas x = [])) as [Ev|Nv]; [|by rewrite !bool_decide_false by done].
  rewrite !bool_decide_true by done. cbn. by rewrite delete_middle.
Qed.

(** The same release on the records. *)
Lemma release_records {S} `{nfp_cpp_operations S P} (data : nfp_cpp_dev_data (S := S) (P := P)) xs area_req :
  cd_req data = record <$> xs ->
  (do_cpp_area_release data area_req).1 = (released xs area_req).1 /\
  cd_req (do_cpp_area_release data area_req).2 = record <$> (released xs area_req).2.
Proof using record_req record_vmas.
  intros E. unfold do_cpp_area_release, released. rewrite E, list_find_fmap.
  assert (list_find ((fun area => ar_offset (da_req area) = ar_offset area_req) ∘ record) xs =
          list_find (fun area => ar_offset (req area) = ar_offset area_req) xs) as ->.
  { clear E. induction xs as [|x xs IH]; [done|]. cbn [list_find]. unfold compose in *. rewrite IH.
    rewrite record_req. done. }
  destruct (list_find _ xs) as [[i x]|] eqn:Ef; cbn; [|done]. pose proof (record_vmas x) as Hv.
  apply list_find_Some in Ef as (Hx & _).
  destruct (da_vmas (record x)) as [|u us]; case_bool_decide as Ev; cbn.
  - unfold nfp_dev_cpp_area_free. rewrite E, list_lookup_fmap, Hx. cbn. by rewrite list_fmap_delete.
  - exfalso. by apply Ev, Hv.
  - exfalso. apply Hv in Ev. done.
  - done.
Qed.

(** C23 (refinement): the server's linked lists are the lists of its model.  On registered
    areas linked in the order [xs], the check for colliding offsets and the placement at
    the first free offset, a walk that checks the list it walks at each step, compute the
    same results and leave the links alone; a new area is linked in last; and a release
    unlinks the first area at the request's offset, unless it is mapped, with the same
    result.  [nfp_ioctl.h] says that a release matches all fields of the request; the code
    compares the offset only.  For the request of a registered area, all fields alike,
    whose offset no area before it has, the area released is that one. *)
Theorem server_lists_refine {S} `{nfp_cpp_operations S P} (data : nfp_cpp_dev_data (S := S) (P := P)) fuel xs area_req :
  cd_req data = record <$> xs -> (length xs <= fuel)%nat ->
  triple (dlist req_list (nodes xs)) (range_check_list fuel area_req) (nfp_dev_cpp_range_check (cd_req data) area_req)
    (dlist req_list (nodes xs)) /\
  (forall err, triple (dlist req_list (nodes xs)) (place_list fuel err area_req)
    (place_loop (cd_req data) (cd_req data) err area_req) (dlist req_list (nodes xs))) /\
  (forall area n q n1 q1 n2 q2,
    triple (dlist req_list (nodes xs) ++ node (area + off_req_list) n q ++ node (area + off_vma) n1 q1 ++
            node (area + off_area_list) n2 q2) (area_link area) tt
      (dlist req_list (nodes (xs ++ [area])) ++ dlist (area + off_vma) [] ++
       node (area + off_area_list) LIST_POISON1 LIST_POISON2)) /\
  exists xs', cd_req (do_cpp_area_release data area_req).2 = record <$> xs' /\
    triple (dlist req_list (nodes xs) ++ vma_cells xs) (release_list fuel area_req) (do_cpp_area_release data area_req).1
      (dlist req_list (nodes xs') ++ vma_cells xs) /\
    (forall l1 x l2, xs = l1 ++ x :: l2 -> req x = area_req ->
      Forall (fun y => ar_offset (req y) <> ar_offset area_req) l1 ->
      xs' = if bool_decide (vmas x = []) then l1 ++ l2 else xs).
Proof using record_req record_vmas.
  intros E Hf. rewrite E. split; [by apply range_check_list_spec|]. split; [intros err; by apply place_list_spec|].
  split; [apply area_link_spec|]. exists (released xs area_req).2.
  destruct (release_records data xs area_req E) as [-> ->]. split; [done|]. split; [by apply release_list_spec|].
  intros l1 x l2 -> Hx Hl. rewrite (released_matching _ _ _ _ Hx Hl). by case_bool_decide.
Qed.
End Server.

(** Two areas, the second with a window mapped; releasing the first unlinks it, the
    second is busy. *)
Definition ex_req (area : Z) : nfp_cpp_area_request := mkAreaReq (if area =? 0x1000 then 0 else 0x1000) 0x07002000 area 4096.
Definition ex_record (area : Z) : nfp_dev_cpp_area (P := unit) :=
  mkDevArea 0 (ex_req area) (mkArea EmptyString 0x1000 4096 tt) (if area =? 0x1000 then [] else [tt]).
Definition ex_vmas (area : Z) : list Z := if area =? 0x1000 then [] else [0x9000].
Definition ex_cells : cells := dlist 0x500 (nodes off_req_list [0x1000; 0x2000]) ++ vma_cells ex_vmas [0x1000; 0x2000].

Lemma server_lists_refine_witness : exists h',
  release_list ex_req 0x500 2 (ex_req 0x1000) (list_to_map ex_cells) = Some (0, h') /\
  sat h' (dlist 0x500 (nodes off_req_list [0x2000]) ++ vma_cells ex_vmas [0x1000; 0x2000]) /\
  exists h'', release_list ex_req 0x500 2 (ex_req 0x2000) (list_to_map ex_cells) = Some (- EBUSY, h'').
Proof.
  assert (sat (list_to_map ex_cells) ex_cells) as Hs
    by (apply sat_of_cells; apply (bool_decide_unpack _); by vm_compute).
  assert (forall area, da_vmas (ex_record area) = [] <-> ex_vmas area = []) as Hv
    by (intros area; unfold ex_record, ex_vmas; cbn; by destruct (area =? 0x1000)).
  pose proof (fun r => server_lists_refine ex_req 0x500 ex_record (fun _ => eq_refl) ex_vmas Hv (S := mem)
    (mkDevData ram_cpp (ex_record <$> [0x1000; 0x2000])) 2 [0x1000; 0x2000] r eq_refl ltac:(done)) as H.
  destruct (H (ex_req 0x1000)) as (_ & _ & _ & xs' & Ex & T & _). destruct (H (ex_req 0x2000)) as (_ & _ & _ & ys' & _ & T' & _).
  rewrite <- (app_nil_r ex_cells) in Hs. destruct (T [] _ Hs) as (h' & E & Hs'). destruct (T' [] _ Hs) as (h'' & E' & _).
  exists h'. split; [exact E|]. split; [|exists h''; exact E']. rewrite app_nil_r in Hs'.
  assert (xs' = [0x2000]) as ->; [|exact Hs'].
  destruct xs' as [|x [|]]; try discriminate Ex. by injection Ex as _ <-.
Defined.
